(** * GROMACS export of an OpenFF Interchange: a shallow embedding

    The development follows two source files of the repository:

    - [openff/interchange/interop/internal/gromacs.py] (the current writer and
      reader of GROMACS [.gro] and [.top] files), embedded at top level, and
    - [openff/system/interop/internal.py] (the older writer), of which the
      bond writer is embedded in [Module System].

    Conventions of the embedding.

    - A Python exception is a value of [exn]; a function that can raise
      returns a [result]; a function that writes to an open file is a
      computation [io A], which yields the text it has written together with
      its outcome, and keeps the text when an exception propagates (Python's
      [with open(...)] closes, and so flushes, the file on the way out).
    - A [dict] is an association list in insertion order, which is the order
      in which Python iterates over it.
    - Force-field parameters are Python floats carrying units.  They are
      idealised as real numbers holding the magnitude in the unit that the
      writer asks for.  One parameter is asked for in two units: the angle
      of the [Angles] handler, in degrees by [_write_angles] and in radians
      by the writer of the virtual sites; the model keeps it in degrees and
      converts where the writer asks for radians.  [math.cos] and
      [math.sin] are the real cosine and sine, and [x ** 0.5] is the real
      square root where [x] is not negative.  Division keeps Python's
      [ZeroDivisionError].
    - Coordinates written to and read from a [.gro] file are doubles.  A
      finite double is kept as the rational number that it is, so that the
      decimal text of a record can be computed, and an operation on doubles
      is the exact operation followed by [binary64], the rounding to the
      nearest double.  The model has no infinities and no NaN: it follows
      the program where the doubles stay finite.  It has one zero: the
      negative zero of the program is the zero of the model, and is written
      without the minus sign that Python puts before it.
    - A file is read in text mode: [readline] ends a line at a line feed,
      at a carriage return and at the two in a row.
    - One formatted [write] of the source is one [chunk]: literal text is kept
      as the source spells it, and a formatted row keeps the values that are
      substituted into its format string. *)

From Stdlib Require Import String Ascii.
From Stdlib Require Import List Arith PeanoNat NArith ZArith Lia Bool.
From Stdlib Require Import Permutation Sorted.
From Stdlib Require Import Reals Lra.
From Stdlib Require Import QArith Qround Qabs Qpower.
From Stdlib Require Lqa.
Import ListNotations.

Local Open Scope string_scope.
Local Open Scope list_scope.
Local Open Scope nat_scope.

(** ** Python runtime: exceptions, results, dictionaries *)

Inductive exn : Type :=
| UnsupportedExportError (msg : string)
| NotImplementedError (msg : string)
| KeyError
| LookupError
| AttributeError
| UnboundLocalError
| ZeroDivisionError
| ValueError
| IndexError
| Exception (msg : string).

Inductive result (A : Type) : Type :=
| Ok (a : A)
| Raise (e : exn).

Arguments Ok {A} a.
Arguments Raise {A} e.

Definition rbind {A B : Type} (m : result A) (k : A -> result B) : result B :=
  match m with
  | Ok a => k a
  | Raise e => Raise e
  end.

Declare Scope py_scope.
Delimit Scope py_scope with py.

Notation "'let?' x ':=' m 'in' k" := (rbind m (fun x => k))
  (at level 10, x pattern, m at level 100, k at level 200) : py_scope.

Local Open Scope py_scope.

Section Dict.
Context {K V : Type} (eqb : K -> K -> bool).

(** [d.get(k)]: the first binding of [k]. *)
Fixpoint dict_get (d : list (K * V)) (k : K) : option V :=
  match d with
  | [] => None
  | (k', v) :: d' => if eqb k' k then Some v else dict_get d' k
  end.

(** [k in d]. *)
Definition dict_mem (d : list (K * V)) (k : K) : bool :=
  match dict_get d k with Some _ => true | None => false end.

(** [d[k]], which raises [KeyError] for a missing key. *)
Definition dict_item (d : list (K * V)) (k : K) : result V :=
  match dict_get d k with Some v => Ok v | None => Raise KeyError end.

(** [d[k] = v]: overwrite in place, or append a new binding. *)
Fixpoint dict_set (d : list (K * V)) (k : K) (v : V) : list (K * V) :=
  match d with
  | [] => [(k, v)]
  | (k', v') :: d' =>
      if eqb k' k then (k', v) :: d' else (k', v') :: dict_set d' k v
  end.
End Dict.

Definition dict_keys {K V : Type} (d : list (K * V)) : list K := map fst d.

(** [enumerate(l)], counting from [start]. *)
Fixpoint enumerate_from {A : Type} (start : nat) (l : list A) : list (nat * A) :=
  match l with
  | [] => []
  | a :: l' => (start, a) :: enumerate_from (S start) l'
  end.

Definition enumerate {A : Type} (l : list A) : list (nat * A) :=
  enumerate_from 0 l.

(** [sorted] on integers (insertion sort; any sort gives the same list). *)
Fixpoint insert_sorted (x : nat) (l : list nat) : list nat :=
  match l with
  | [] => [x]
  | y :: l' => if x <=? y then x :: y :: l' else y :: insert_sorted x l'
  end.

Fixpoint sorted (l : list nat) : list nat :=
  match l with
  | [] => []
  | x :: l' => insert_sorted x (sorted l')
  end.

(** ** Decimal text *)

(** Text under construction, character by character. *)
Definition chars : Type := list ascii.

Definition digit_char (d : N) : ascii := ascii_of_N (48 + d).

(** The [p] low decimal digits of [k], most significant first. *)
Fixpoint digits_fixed (p : nat) (k : N) : chars :=
  match p with
  | 0 => []
  | S p' => digits_fixed p' (k / 10) ++ [digit_char (k mod 10)]
  end.

(** The number of decimal digits of [k]; zero has one. *)
Fixpoint count_digits (fuel : nat) (k : N) : nat :=
  match fuel with
  | 0 => 1
  | S fuel' => if (k <? 10)%N then 1 else S (count_digits fuel' (k / 10))
  end.

(** The decimal digits of [k], without leading zeros. *)
Definition digits (k : N) : chars :=
  digits_fixed (count_digits (N.to_nat (N.size k)) k) k.

(** [str(n)] of a non-negative integer. *)
Definition str_nat (n : nat) : string :=
  string_of_list_ascii (digits (N.of_nat n)).

(** ** Data model *)

(** [TopologyKey] and [VirtualSiteKey] of [openff.interchange.models].  The
    writer reads [atom_indices] of both and [type] of a virtual-site key;
    [name] stands for the remaining fields, which only tell keys apart. *)
Inductive key : Type :=
| TopologyKey (atom_indices : list nat)
| VirtualSiteKey (atom_indices : list nat) (type : string) (name : string).

Definition atom_indices (k : key) : list nat :=
  match k with
  | TopologyKey l => l
  | VirtualSiteKey l _ _ => l
  end.

(** [k.type]: a [TopologyKey] has no such attribute. *)
Definition key_type (k : key) : result string :=
  match k with
  | TopologyKey _ => Raise AttributeError
  | VirtualSiteKey _ t _ => Ok t
  end.

(** [type(k) == VirtualSiteKey]. *)
Definition is_VirtualSiteKey (k : key) : bool :=
  match k with
  | TopologyKey _ => false
  | VirtualSiteKey _ _ _ => true
  end.

Definition key_eq_dec (a b : key) : {a = b} + {a <> b}.
Proof.
  decide equality;
    try apply string_dec; apply (list_eq_dec Nat.eq_dec).
Defined.

Definition key_eqb (a b : key) : bool :=
  if key_eq_dec a b then true else false.

Definition PotentialKey : Type := string.

(** [Potential.parameters]: parameter name to magnitude. *)
Record Potential : Type := mkPotential {
  parameters : list (string * R)
}.

(** A potential handler.  Every attribute that the writer reads from some
    handler is a field here; a handler class that lacks one never has it
    read. *)
Record Handler : Type := mkHandler {
  slot_map : list (key * PotentialKey);
  potentials : list (PotentialKey * Potential);
  scale_14 : R;
  mixing_rule : string;
  charges : list (key * R);
  charges_with_virtual_sites : list (key * R)
}.

(** An atom of the [mdtraj] topology.  [atom.index] is the position of the
    atom in [mdtop.atoms] and is not stored. *)
Record Atom : Type := mkAtom {
  element_symbol : string;
  element_mass : R;
  element_atomic_number : nat;
  residue_index : nat;
  residue_name : string;
  residue_str : string
}.

(** The [mdtraj] topology.  [bonds] holds [(bond.atom1.index,
    bond.atom2.index)].  The generators [_iterate_angles],
    [_iterate_propers] and [_iterate_impropers] of
    [openff.interchange.components.mdtraj] are not part of the sources at
    hand; what they yield is kept in [angles], [propers] and [impropers]. *)
Record Topology : Type := mkTopology {
  atoms : list Atom;
  bonds : list (nat * nat);
  angles : list (nat * nat * nat);
  propers : list (nat * nat * nat * nat);
  impropers : list (nat * nat * nat * nat)
}.

Definition n_atoms (t : Topology) : nat := length (atoms t).

(** A box: the rows of a 3 by 3 matrix. *)
Definition matrix3 : Type := ((Q * Q * Q) * (Q * Q * Q) * (Q * Q * Q))%type.

Record Interchange : Type := mkInterchange {
  handlers : list (string * Handler);
  mdtop : Topology;
  positions : list (Q * Q * Q);
  box : option matrix3
}.

(** [interchange.handlers[name]]. *)
Definition handlers_item (i : Interchange) (name : string) : result Handler :=
  dict_item String.eqb (handlers i) name.

(** [name in interchange.handlers]. *)
Definition has_handler (i : Interchange) (name : string) : bool :=
  dict_mem String.eqb (handlers i) name.

(** [interchange[name]], which raises [LookupError] for a missing handler. *)
Definition interchange_item (i : Interchange) (name : string) : result Handler :=
  match dict_get String.eqb (handlers i) name with
  | Some h => Ok h
  | None => Raise LookupError
  end.

(** [handler.potentials[handler.slot_map[k]].parameters[name]]. *)
Definition parameter_of (h : Handler) (k : key) (name : string) : result R :=
  let? pot_key := dict_item key_eqb (slot_map h) k in
  let? potential := dict_item String.eqb (potentials h) pot_key in
  dict_item String.eqb (parameters potential) name.

(** ** Index assignment *)

(** [_build_virtual_site_map]. *)
Definition _build_virtual_site_map (interchange : Interchange) : list (key * nat) :=
  if negb (has_handler interchange "VirtualSites") then []
  else
    match interchange_item interchange "VirtualSites" with
    | Raise _ => []
    | Ok h =>
        fold_left
          (fun m '(index, virtual_site_key) =>
             dict_set key_eqb m virtual_site_key
               (n_atoms (mdtop interchange) + 1 + index))
          (enumerate (dict_keys (slot_map h))) []
    end.

(** ** Writing to an open file *)

(** A number that the writer computes with [x ** 0.5].  For a negative [x]
    the power is no real number (a complex number for a Python float, [nan]
    for a numpy float); it raises nothing, and the value is formatted into
    the row as any other.  The model keeps the one value [NotReal] for
    it. *)
Inductive number : Type :=
| Real (x : R)
| NotReal.

(** One [write] call of the source. *)
Inductive chunk : Type :=
| Text (s : string)
| DefaultsRow (nbfunc comb_rule : nat) (gen_pairs : string)
    (scale_lj scale_qq : R)
| AtomtypesRowLJ (atom_type bonding_type : string) (atomic_number : nat)
    (mass charge : R) (ptype : string) (sigma epsilon : R)
| AtomtypesRowVS (atom_type : string) (atomic_number : nat)
    (mass charge : R) (ptype : string) (sigma epsilon : R)
| AtomtypesRowBuck (atom_type : string) (atomic_number : nat)
    (mass charge : R) (ptype : string) (a b c : R)
| AtomsRow (num : nat) (atom_type : string) (resnum : nat)
    (resname atomname : string) (cgnr : nat) (q m : R)
| PairsRow (ai aj funct : nat) (sigma epsilon : number)
| BondsRow (ai aj : nat) (func : string) (r k : R)
| AnglesRow (ai aj ak : nat) (func : string) (theta k : R)
| ProperRow (ai aj ak al func : nat) (phase k : R) (periodicity : Z)
| RBRow (ai aj ak al func : nat) (c0 c1 c2 c3 c4 c5 : R)
| ImproperRow (ai aj ak al func : nat) (phase k : R) (periodicity : Z)
| VirtualSites2Row (site ai aj func : nat) (a : R)
| VirtualSites3Row (site ai aj ak func : nat) (coefficients : list R)
| ExclusionsRow (site : nat) (parents : list nat).

(** Text written to a file, in the order of the [write] calls. *)
Definition file : Type := list chunk.

(** A computation that writes chunks of type [C] to the open file and
    returns or raises: the text it has written, and its outcome.  The
    writers never read the file back, so the text written is all there is to
    their state. *)
Definition writer (C A : Type) : Type := (list C * result A)%type.

Definition io (A : Type) : Type := writer chunk A.

Definition ret {C A : Type} (a : A) : writer C A := ([], Ok a).

Definition raise {C A : Type} (e : exn) : writer C A := ([], Raise e).

Definition lift {C A : Type} (r : result A) : writer C A := ([], r).

Definition write {C : Type} (c : C) : writer C unit := ([c], Ok tt).

Definition bind {C A B : Type} (m : writer C A) (k : A -> writer C B)
  : writer C B :=
  match m with
  | (w, Ok a) => let '(w', r) := k a in (w ++ w', r)
  | (w, Raise e) => (w, Raise e)
  end.

Notation "x <- m ;; k" := (bind m (fun x => k))
  (at level 61, m at next level, right associativity) : py_scope.
Notation "' p <- m ;; k" := (bind m (fun x => match x with p => k end))
  (at level 61, p pattern, m at next level, right associativity) : py_scope.
Notation "m ;; k" := (bind m (fun _ => k))
  (at level 61, right associativity) : py_scope.

(** [for x in l: body], with the local variables that the loop assigns
    threaded as [s]. *)
Fixpoint for_state {C A S : Type} (l : list A) (s : S)
    (body : S -> A -> writer C S) : writer C S :=
  match l with
  | [] => ret s
  | x :: l' => s' <- body s x ;; for_state l' s' body
  end.

Definition for_each {C A : Type} (l : list A) (body : A -> writer C unit)
  : writer C unit :=
  for_state l tt (fun _ x => body x).

(** ** Arithmetic of the writer *)

Definition py_div (x y : R) : result R :=
  if Req_dec_T y 0%R then Raise ZeroDivisionError else Ok (x / y)%R.

(** [q.m_as(unit.radian)] of an angle [q] whose magnitude in degrees is
    [degrees]. *)
Definition m_as_radian (degrees : R) : R := (degrees * PI / 180)%R.

(** [x ** 0.5]. *)
Definition pow_half (x : R) : number :=
  if Rle_dec 0%R x then Real (sqrt x) else NotReal.

(** [a * y] for a number [a] and a float [y]. *)
Definition number_mul (a : number) (y : R) : number :=
  match a with
  | Real x => Real (x * y)%R
  | NotReal => NotReal
  end.

(** [int(x)] of a float: truncation towards zero. *)
Definition int_of_float (x : R) : Z :=
  if Rle_dec 0%R x then Int_part x else (- Int_part (- x))%Z.

Definition list_nat_eqb (a b : list nat) : bool :=
  if list_eq_dec Nat.eq_dec a b then true else false.

(** ** The [ defaults ] section *)

Definition _write_top_defaults (openff_sys : Interchange) : io unit :=
  write (Text "[ defaults ]\n") ;;
  write (Text "; nbfunc\tcomb-rule\tgen-pairs\tfudgeLJ\tfudgeQQ\n") ;;
  '(nbfunc, scale_lj, gen_pairs, handler_key) <-
    (if has_handler openff_sys "vdW" then
       h <- lift (interchange_item openff_sys "vdW") ;;
       ret (1, scale_14 h, "no", "vdW")
     else if has_handler openff_sys "Buckingham-6" then
       h <- lift (interchange_item openff_sys "Buckingham-6") ;;
       ret (2, scale_14 h, "no", "Buckingham-6")
     else
       raise (UnsupportedExportError
         ("Could not find a handler for short-ranged vdW interactions that is compatible "
          ++ "with GROMACS. Looked for handlers named `vdW` and `Buckingham-6`."))) ;;
  h <- lift (interchange_item openff_sys handler_key) ;;
  let mixing_rule := mixing_rule h in
  comb_rule <-
    (if (mixing_rule =? "lorentz-berthelot")%string then ret 2
     else if (mixing_rule =? "geometric")%string then ret 3
     else if (mixing_rule =? "buckingham")%string
             && (handler_key =? "Buckingham-6")%string
     then ret 2
     else
       raise (UnsupportedExportError
         ("Mixing rule `" ++ mixing_rule
          ++ " not compatible with GROMACS and/or not supported "
          ++ "by current exporter. Supported values are `lorentez-berthelot` and `geometric`."))) ;;
  es <- lift (handlers_item openff_sys "Electrostatics") ;;
  write (DefaultsRow nbfunc comb_rule gen_pairs scale_lj (scale_14 es)).

(** ** Atom types *)

(** [_build_typemap]: the loop over [mdtop.atoms], from position [index]. *)
Fixpoint _build_typemap_from (l : list Atom) (index : nat)
    (elements : list (string * nat)) (typemap : list (nat * string))
  : list (nat * string) :=
  match l with
  | [] => typemap
  | atom :: l' =>
      let element_symbol := element_symbol atom in
      let count :=
        match dict_get String.eqb elements element_symbol with
        | None => 1
        | Some c => c + 1
        end in
      let elements := dict_set String.eqb elements element_symbol count in
      let atom_type := (element_symbol ++ str_nat count)%string in
      _build_typemap_from l' (S index) elements
        (dict_set Nat.eqb typemap index atom_type)
  end.

Definition _build_typemap (openff_sys : Interchange) : list (nat * string) :=
  _build_typemap_from (atoms (mdtop openff_sys)) 0 [] [].

(** [mdtop.atom(index)]. *)
Definition mdtop_atom (t : Topology) (index : nat) : result Atom :=
  match nth_error (atoms t) index with
  | Some a => Ok a
  | None => Raise IndexError
  end.

Definition _get_lj_parameters (openff_sys : Interchange) (atom_idx : nat)
  : result (list (string * R)) :=
  let? vdw_hander := handlers_item openff_sys "vdW" in
  let atom_key := TopologyKey [atom_idx] in
  let? identifier := dict_item key_eqb (slot_map vdw_hander) atom_key in
  let? potential := dict_item String.eqb (potentials vdw_hander) identifier in
  Ok (parameters potential).

Definition _get_buck_parameters (openff_sys : Interchange) (atom_idx : nat)
  : result (list (string * R)) :=
  let? buck_hander := handlers_item openff_sys "Buckingham-6" in
  let atom_key := TopologyKey [atom_idx] in
  let? identifier := dict_item key_eqb (slot_map buck_hander) atom_key in
  let? potential := dict_item String.eqb (potentials buck_hander) identifier in
  Ok (parameters potential).

Definition _write_atomtypes_lj (openff_sys : Interchange)
    (typemap : list (nat * string)) (virtual_site_map : list (key * nat))
  : io unit :=
  write (Text "[ atomtypes ]\n") ;;
  write (Text ";type, bondingtype, atomic_number, mass, charge, ptype, sigma, epsilon\n") ;;
  for_each typemap (fun '(atom_idx, atom_type) =>
    atom <- lift (mdtop_atom (mdtop openff_sys) atom_idx) ;;
    let mass := element_mass atom in
    let atomic_number := element_atomic_number atom in
    parameters <- lift (_get_lj_parameters openff_sys atom_idx) ;;
    sigma <- lift (dict_item String.eqb parameters "sigma") ;;
    epsilon <- lift (dict_item String.eqb parameters "epsilon") ;;
    write (AtomtypesRowLJ atom_type "XX" atomic_number mass 0%R "A" sigma epsilon) ;;
    write (Text "\n")) ;;
  for_each (dict_keys virtual_site_map) (fun virtual_site_key =>
    let atom_type := "VS" in
    let atomic_number := 0 in
    let mass := 0%R in
    vdw_handler <- lift (handlers_item openff_sys "vdW") ;;
    pot_key <- lift (dict_item key_eqb (slot_map vdw_handler) virtual_site_key) ;;
    potential <- lift (dict_item String.eqb (potentials vdw_handler) pot_key) ;;
    sigma <- lift (dict_item String.eqb (parameters potential) "sigma") ;;
    epsilon <- lift (dict_item String.eqb (parameters potential) "epsilon") ;;
    write (AtomtypesRowVS atom_type atomic_number mass 0%R "A" sigma epsilon)).

Definition _write_atomtypes_buck (openff_sys : Interchange)
    (typemap : list (nat * string)) : io unit :=
  write (Text "[ atomtypes ]\n") ;;
  write (Text ";type, bondingtype, atomic_number, mass, charge, ptype, sigma, epsilon\n") ;;
  for_each typemap (fun '(atom_idx, atom_type) =>
    atom <- lift (mdtop_atom (mdtop openff_sys) atom_idx) ;;
    parameters <- lift (_get_buck_parameters openff_sys atom_idx) ;;
    a <- lift (dict_item String.eqb parameters "A") ;;
    b <- lift (dict_item String.eqb parameters "B") ;;
    c <- lift (dict_item String.eqb parameters "C") ;;
    write (AtomtypesRowBuck atom_type (element_atomic_number atom)
             (element_mass atom) 0%R "A" a b c) ;;
    write (Text "\n")).

Definition _write_atomtypes (openff_sys : Interchange)
    (typemap : list (nat * string)) (virtual_site_map : list (key * nat))
  : io unit :=
  if has_handler openff_sys "vdW" then
    if has_handler openff_sys "Buckingham-6" then
      raise (UnsupportedExportError
               "Cannot mix 12-6 and Buckingham potentials in GROMACS")
    else _write_atomtypes_lj openff_sys typemap virtual_site_map
  else
    if has_handler openff_sys "Buckingham-6" then
      _write_atomtypes_buck openff_sys typemap
    else raise (UnsupportedExportError "No vdW interactions found").

Definition _write_moleculetype : io unit :=
  write (Text "[ moleculetype ]\n") ;;
  write (Text "; Name\tnrexcl\n") ;;
  write (Text "MOL\t3\n\n").

(** ** The [ atoms ] and [ pairs ] sections *)

(** Modelled from the spec: [_iterate_pairs] of
    [openff.interchange.components.mdtraj] is not part of the sources at
    hand.  Following section 4.3 of the specification, it yields, for every
    torsion path of the bonded graph, the pair of the path's two endpoints,
    keyed by the sorted index pair. *)
Definition _iterate_pairs (t : Topology) : list (nat * nat) :=
  map (fun '(i, _, _, l) => (Nat.min i l, Nat.max i l)) (propers t).

Definition pair_eq_dec (a b : nat * nat) : {a = b} + {a <> b}.
Proof. decide equality; apply Nat.eq_dec. Defined.

(** [{*l}]: the elements of a Python set, each once.  Python leaves the
    order of iteration over a set open; the model fixes the order of
    [nodup]. *)
Definition set_of (l : list (nat * nat)) : list (nat * nat) :=
  nodup pair_eq_dec l.

(** The body of the loop of [_write_atoms] over the 1-4 pairs. *)
Definition _write_pair (openff_sys : Interchange) (mixing_rule : string)
    (scale_lj : R) (pair : nat * nat) : io unit :=
  let indices := sorted [fst pair; snd pair] in
  parameters1 <- lift (_get_lj_parameters openff_sys (nth 0 indices 0)) ;;
  sigma1 <- lift (dict_item String.eqb parameters1 "sigma") ;;
  epsilon1 <- lift (dict_item String.eqb parameters1 "epsilon") ;;
  parameters2 <- lift (_get_lj_parameters openff_sys (nth 1 indices 0)) ;;
  sigma2 <- lift (dict_item String.eqb parameters2 "sigma") ;;
  epsilon2 <- lift (dict_item String.eqb parameters2 "epsilon") ;;
  let epsilon_mix := pow_half (epsilon1 * epsilon2)%R in
  sigma_mix <-
    (if (mixing_rule =? "lorentz-berthelot")%string
     then ret (Real ((sigma1 + sigma2) * 0.5)%R)
     else if (mixing_rule =? "geometric")%string
     then ret (pow_half (sigma1 * sigma2)%R)
     else (* [sigma_mix] was never assigned *) raise UnboundLocalError) ;;
  write (PairsRow (nth 0 indices 0 + 1) (nth 1 indices 0 + 1) 1
           sigma_mix (number_mul epsilon_mix scale_lj)).

Definition _write_atoms (openff_sys : Interchange)
    (typemap : list (nat * string)) (virtual_site_map : list (key * nat))
  : io unit :=
  write (Text "[ atoms ]\n") ;;
  write (Text ";num, type, resnum, resname, atomname, cgnr, q, m\n") ;;
  es <- lift (handlers_item openff_sys "Electrostatics") ;;
  let charges := charges es in
  (* the local variable [charge] is threaded through both loops *)
  charge <-
    for_state (enumerate (atoms (mdtop openff_sys))) (@None R)
      (fun _ '(atom_idx, atom) =>
         let mass := element_mass atom in
         atom_type <- lift (dict_item Nat.eqb typemap atom_idx) ;;
         let res_idx := residue_index atom in
         let res_name := residue_str atom in
         let top_key := TopologyKey [atom_idx] in
         charge <- lift (dict_item key_eqb charges top_key) ;;
         write (AtomsRow (atom_idx + 1) atom_type (res_idx + 1) res_name
                  atom_type (atom_idx + 1) charge mass) ;;
         ret (Some charge)) ;;
  for_state virtual_site_map charge
    (fun charge '(virtual_site_key, index) =>
       let atom_idx := index in
       let atom_type := "VS" in
       let res_idx := 1 in
       let res_name := "1" in
       (* the statement [charge] reads the variable left by the first loop *)
       _ <- (match charge with
             | Some _ => ret tt
             | None => raise UnboundLocalError
             end) ;;
       charge_handler <- lift (handlers_item openff_sys "Electrostatics") ;;
       charge <- lift (dict_item key_eqb
                         (charges_with_virtual_sites charge_handler)
                         virtual_site_key) ;;
       let mass := 0%R in
       write (AtomsRow atom_idx atom_type res_idx res_name atom_type atom_idx
                charge mass) ;;
       ret (Some charge)) ;;
  write (Text "[ pairs ]\n") ;;
  write (Text "; ai\taj\tfunct\n") ;;
  (* _store_bond_partners(mdtop) only caches the neighbours of each atom *)
  '(mixing_rule, scale_lj) <-
    (match interchange_item openff_sys "vdW" with
     | Ok h => ret (mixing_rule h, scale_14 h)
     | Raise LookupError =>
         h <- lift (interchange_item openff_sys "Buckingham-6") ;;
         ret (mixing_rule h, scale_14 h)
     | Raise e => raise e
     end) ;;
  let pairs := set_of (_iterate_pairs (mdtop openff_sys)) in
  for_each pairs (_write_pair openff_sys mixing_rule scale_lj).

(** ** Virtual sites *)

(** The sort key [lambda x: x.type] on virtual-site keys. *)
Definition type_of (k : key) : string :=
  match k with
  | TopologyKey _ => EmptyString
  | VirtualSiteKey _ t _ => t
  end.

(** [sorted(keys, key=lambda x: x.type)]: a stable sort. *)
Fixpoint insert_by_type (x : key) (l : list key) : list key :=
  match l with
  | [] => [x]
  | y :: l' =>
      if String.leb (type_of x) (type_of y) then x :: y :: l'
      else y :: insert_by_type x l'
  end.

Fixpoint sorted_by_type (l : list key) : list key :=
  match l with
  | [] => []
  | x :: l' => insert_by_type x (sorted_by_type l')
  end.

Definition supported_types : list string :=
  ["BondCharge"; "MonovalentLonePair"; "DivalentLonePair"].

(** [all(k.type in [...] for k in slot_map)], evaluated key by key. *)
Fixpoint all_types_supported (keys : list key) : result bool :=
  match keys with
  | [] => Ok true
  | k :: keys' =>
      let? t := key_type k in
      if existsb (String.eqb t) supported_types
      then all_types_supported keys'
      else Ok false
  end.

(** The branch of the loop body for a [BondCharge] key. *)
Definition _write_bond_charge (virtual_site_handler : Handler)
    (virtual_site_map : list (key * nat)) (virtual_site_key : key)
    (started_virtual_sites2 : bool) : io bool :=
  _ <- (if negb started_virtual_sites2
        then write (Text "\n[ virtual_sites2 ]\n; site  ai  aj  funct   a\n")
        else ret tt) ;;
  let reference_atoms := atom_indices virtual_site_key in
  if negb (length reference_atoms =? 2) then raise (NotImplementedError EmptyString)
  else
    virtual_site_index <-
      lift (dict_item key_eqb virtual_site_map virtual_site_key) ;;
    let atom1 := nth 0 reference_atoms 0 in
    let atom2 := nth 1 reference_atoms 0 in
    let func := 2 in
    distance <- lift (parameter_of virtual_site_handler virtual_site_key "distance") ;;
    let a := distance in
    write (VirtualSites2Row virtual_site_index (atom1 + 1) (atom2 + 1) func a) ;;
    ret true.

(** The branch of the loop body for a [MonovalentLonePair] key. *)
Definition _write_monovalent_lone_pair (virtual_site_handler : Handler)
    (virtual_site_map : list (key * nat)) (virtual_site_key : key)
    (started_virtual_sites3 : bool) : io bool :=
  _ <- (if negb started_virtual_sites3
        then write (Text "\n[ virtual_sites3 ]\n; site  ai  aj  ak funct   a   b\n")
        else ret tt) ;;
  let reference_atoms := sorted (atom_indices virtual_site_key) in
  if negb (length reference_atoms =? 3) then raise (NotImplementedError EmptyString)
  else
    virtual_site_index <-
      lift (dict_item key_eqb virtual_site_map virtual_site_key) ;;
    let atom1 := nth 0 reference_atoms 0 in
    let atom2 := nth 1 reference_atoms 0 in
    let atom3 := nth 2 reference_atoms 0 in
    let func := 3 in
    out_of_plane_angle <-
      lift (parameter_of virtual_site_handler virtual_site_key "outOfPlaneAngle") ;;
    if Req_dec_T out_of_plane_angle 0%R then
      distance <-
        lift (parameter_of virtual_site_handler virtual_site_key "distance") ;;
      in_plane_angle <-
        lift (parameter_of virtual_site_handler virtual_site_key "inPlaneAngle") ;;
      let in_plane_angle_transformed := (180 - in_plane_angle)%R in
      write (VirtualSites3Row virtual_site_index (atom1 + 1) (atom2 + 1)
               (atom3 + 1) func [in_plane_angle_transformed; distance]) ;;
      ret true
    else
      raise (NotImplementedError
               "Unclear how to do MonovalentLonePair virtual sites with GROMACS").

(** The branch of the loop body for a [DivalentLonePair] key. *)
Definition _write_divalent_lone_pair (openff_sys : Interchange)
    (virtual_site_handler : Handler)
    (virtual_site_map : list (key * nat)) (virtual_site_key : key)
    (started_virtual_sites3 : bool) : io bool :=
  _ <- (if negb started_virtual_sites3
        then write (Text "\n[ virtual_sites3 ]\n; site  ai  aj  ak funct   a   b\n")
        else ret tt) ;;
  let reference_atoms := sorted (atom_indices virtual_site_key) in
  if negb (length reference_atoms =? 3) then raise (NotImplementedError EmptyString)
  else
    virtual_site_index <-
      lift (dict_item key_eqb virtual_site_map virtual_site_key) ;;
    let atom1 := nth 0 reference_atoms 0 in
    let atom2 := nth 1 reference_atoms 0 in
    let atom3 := nth 2 reference_atoms 0 in
    let bond1_key := TopologyKey [atom1; atom2] in
    bonds_handler <- lift (interchange_item openff_sys "Bonds") ;;
    bond1_length <- lift (parameter_of bonds_handler bond1_key "length") ;;
    let bond2_key := TopologyKey [atom1; atom3] in
    bond2_length <- lift (parameter_of bonds_handler bond2_key "length") ;;
    if Req_dec_T bond1_length bond2_length then
      let angle_key := TopologyKey [atom2; atom1; atom3] in
      angles_handler <- lift (interchange_item openff_sys "Angles") ;;
      angle_in_degrees <-
        lift (parameter_of angles_handler angle_key "angle") ;;
      let angle := m_as_radian angle_in_degrees in
      distance <-
        lift (parameter_of virtual_site_handler virtual_site_key "distance") ;;
      out_of_plane_angle <-
        lift (parameter_of virtual_site_handler virtual_site_key "outOfPlaneAngle") ;;
      if Req_dec_T out_of_plane_angle 0%R then
        let func := 1 in
        q <- lift (py_div (-1 * distance) (cos (angle / 2) * bond1_length)) ;;
        let a := (q / 2)%R in
        write (VirtualSites3Row virtual_site_index (atom1 + 1) (atom2 + 1)
                 (atom3 + 1) func [a; a]) ;;
        ret true
      else
        let func := 4 in
        a <- lift (py_div (-1 * distance * cos out_of_plane_angle)
                          (2 * bond1_length * cos (angle / 2))) ;;
        c <- lift (py_div (-1 * distance * sin out_of_plane_angle)
                          (bond1_length ^ 2 * sin angle)) ;;
        write (VirtualSites3Row virtual_site_index (atom1 + 1) (atom2 + 1)
                 (atom3 + 1) func [a; a; c]) ;;
        ret true
    else raise (NotImplementedError EmptyString).

(** The body of the loop of [_write_virtual_sites] over the sorted keys: the
    three [if] statements in turn.  The two flags say which section headers
    have been written. *)
Definition _virtual_site_loop_body (openff_sys : Interchange)
    (virtual_site_handler : Handler) (virtual_site_map : list (key * nat))
    (started : bool * bool) (virtual_site_key : key) : io (bool * bool) :=
  let '(started_virtual_sites2, started_virtual_sites3) := started in
  started_virtual_sites2 <-
    (if (type_of virtual_site_key =? "BondCharge")%string
     then _write_bond_charge virtual_site_handler virtual_site_map
            virtual_site_key started_virtual_sites2
     else ret started_virtual_sites2) ;;
  started_virtual_sites3 <-
    (if (type_of virtual_site_key =? "MonovalentLonePair")%string
     then _write_monovalent_lone_pair virtual_site_handler
            virtual_site_map virtual_site_key started_virtual_sites3
     else ret started_virtual_sites3) ;;
  started_virtual_sites3 <-
    (if (type_of virtual_site_key =? "DivalentLonePair")%string
     then _write_divalent_lone_pair openff_sys virtual_site_handler
            virtual_site_map virtual_site_key started_virtual_sites3
     else ret started_virtual_sites3) ;;
  ret (started_virtual_sites2, started_virtual_sites3).

Definition _write_virtual_sites (openff_sys : Interchange)
    (virtual_site_map : list (key * nat)) : io unit :=
  if negb (has_handler openff_sys "VirtualSites") then ret tt
  else
    virtual_site_handler <- lift (interchange_item openff_sys "VirtualSites") ;;
    supported <-
      lift (all_types_supported (dict_keys (slot_map virtual_site_handler))) ;;
    if negb supported then
      raise (NotImplementedError "Only BondCharge virtual sites are implemented")
    else
      for_state
        (sorted_by_type
           (filter is_VirtualSiteKey (dict_keys (slot_map virtual_site_handler))))
        (false, false)
        (_virtual_site_loop_body openff_sys virtual_site_handler
           virtual_site_map) ;;
      write (Text "\n[ exclusions ]\n") ;;
      for_each (dict_keys (slot_map virtual_site_handler))
        (fun virtual_site_key =>
           let parent_indices := atom_indices virtual_site_key in
           virtual_site_index <-
             lift (dict_item key_eqb virtual_site_map virtual_site_key) ;;
           write (ExclusionsRow virtual_site_index
                    (map (fun i => i + 1) parent_indices))) ;;
      write (Text "\n").

(** ** Bonds, angles and dihedrals *)

(** The inner loop of [_write_bonds]: the scan of the resolution table for
    the ascending index pair or its reverse.  [pot_key] is unbound ([None])
    on entry, and the last match is the one that stays. *)
Definition _find_bond_pot_key (table : list (key * PotentialKey))
    (indices : list nat) : option PotentialKey :=
  fold_left
    (fun pot_key '(top_key, value) =>
       if list_nat_eqb (atom_indices top_key) indices then Some value
       else if list_nat_eqb (atom_indices top_key) (rev indices) then Some value
       else pot_key)
    table None.

(** The body of the loop of [_write_bonds] over the bonds. *)
Definition _write_bond (bond_handler : Handler) (bond : nat * nat) : io unit :=
  let indices := sorted [fst bond; snd bond] in
  pot_key <-
    (match _find_bond_pot_key (slot_map bond_handler) indices with
     | Some pot_key => ret pot_key
     | None => raise UnboundLocalError
     end) ;;
  potential <- lift (dict_item String.eqb (potentials bond_handler) pot_key) ;;
  let params := parameters potential in
  k <- lift (dict_item String.eqb params "k") ;;
  length <- lift (dict_item String.eqb params "length") ;;
  write (BondsRow (nth 0 indices 0 + 1) (nth 1 indices 0 + 1) "1" length k)
  (* del pot_key *).

Definition _write_bonds (openff_sys : Interchange) : io unit :=
  if negb (has_handler openff_sys "Bonds") then ret tt
  else
    write (Text "[ bonds ]\n") ;;
    write (Text "; ai\taj\tfunc\tr\tk\n") ;;
    bond_handler <- lift (handlers_item openff_sys "Bonds") ;;
    for_each (bonds (mdtop openff_sys)) (_write_bond bond_handler) ;;
    write (Text "\n\n").

(** The inner loop of [_write_angles]; [pot_key] keeps the value that an
    earlier angle left in it. *)
Definition _find_angle_pot_key (table : list (key * PotentialKey))
    (indices : list nat) (pot_key : option PotentialKey)
  : option PotentialKey :=
  fold_left
    (fun pot_key '(top_key, value) =>
       if list_nat_eqb (atom_indices top_key) indices then Some value
       else pot_key)
    table pot_key.

Definition _write_angles (openff_sys : Interchange) : io unit :=
  if negb (has_handler openff_sys "Angles") then ret tt
  else
    write (Text "[ angles ]\n") ;;
    write (Text "; ai\taj\tak\tfunc\tr\tk\n") ;;
    angle_handler <- lift (handlers_item openff_sys "Angles") ;;
    for_state (angles (mdtop openff_sys)) (@None PotentialKey)
      (fun pot_key '(a0, a1, a2) =>
         let indices := [a0; a1; a2] in
         let pot_key := _find_angle_pot_key (slot_map angle_handler) indices pot_key in
         pot_key' <-
           (match pot_key with
            | Some pot_key => ret pot_key
            | None => raise UnboundLocalError
            end) ;;
         potential <- lift (dict_item String.eqb (potentials angle_handler) pot_key') ;;
         let params := parameters potential in
         k <- lift (dict_item String.eqb params "k") ;;
         theta <- lift (dict_item String.eqb params "angle") ;;
         write (AnglesRow (a0 + 1) (a1 + 1) (a2 + 1) "1" theta k) ;;
         ret pot_key) ;;
    write (Text "\n\n").

(** The rows that one proper torsion gets from the [ProperTorsions] table. *)
Definition _write_proper_rows (handler : Handler) (indices : list nat) : io unit :=
  for_each (slot_map handler) (fun '(top_key, pot_key) =>
    if list_nat_eqb (atom_indices top_key) indices then
      potential <- lift (dict_item String.eqb (potentials handler) pot_key) ;;
      let params := parameters potential in
      k <- lift (dict_item String.eqb params "k") ;;
      periodicity <- lift (dict_item String.eqb params "periodicity") ;;
      phase <- lift (dict_item String.eqb params "phase") ;;
      idivf <-
        (if dict_mem String.eqb params "idivf"
         then v <- lift (dict_item String.eqb params "idivf") ;; ret (int_of_float v)
         else ret 1%Z) ;;
      q <- lift (py_div k (IZR idivf)) ;;
      write (ProperRow (nth 0 indices 0 + 1) (nth 1 indices 0 + 1)
               (nth 2 indices 0 + 1) (nth 3 indices 0 + 1) 1 phase q
               (int_of_float periodicity))
    else ret tt).

(** The rows that one proper torsion gets from the [RBTorsions] table. *)
Definition _write_rb_rows (handler : Handler) (indices : list nat) : io unit :=
  for_each (slot_map handler) (fun '(top_key, pot_key) =>
    if list_nat_eqb (atom_indices top_key) indices then
      potential <- lift (dict_item String.eqb (potentials handler) pot_key) ;;
      let params := parameters potential in
      c0 <- lift (dict_item String.eqb params "C0") ;;
      c1 <- lift (dict_item String.eqb params "C1") ;;
      c2 <- lift (dict_item String.eqb params "C2") ;;
      c3 <- lift (dict_item String.eqb params "C3") ;;
      c4 <- lift (dict_item String.eqb params "C4") ;;
      c5 <- lift (dict_item String.eqb params "C5") ;;
      write (RBRow (nth 0 indices 0 + 1) (nth 1 indices 0 + 1)
               (nth 2 indices 0 + 1) (nth 3 indices 0 + 1) 3 c0 c1 c2 c3 c4 c5)
    else ret tt).

(** The rows that one improper torsion gets from the [ImproperTorsions]
    table. *)
Definition _write_improper_rows (handler : Handler) (indices : list nat) : io unit :=
  for_each (slot_map handler) (fun '(top_key, key) =>
    if list_nat_eqb indices (atom_indices top_key) then
      potential <- lift (dict_item String.eqb (potentials handler) key) ;;
      let params := parameters potential in
      k <- lift (dict_item String.eqb params "k") ;;
      periodicity <- lift (dict_item String.eqb params "periodicity") ;;
      phase <- lift (dict_item String.eqb params "phase") ;;
      idivf <- lift (dict_item String.eqb params "idivf") ;;
      q <- lift (py_div k (IZR (int_of_float idivf))) ;;
      write (ImproperRow (nth 0 indices 0 + 1) (nth 1 indices 0 + 1)
               (nth 2 indices 0 + 1) (nth 3 indices 0 + 1) 4 phase q
               (int_of_float periodicity))
    else ret tt).

Definition _write_dihedrals (openff_sys : Interchange) : io unit :=
  if negb (has_handler openff_sys "ProperTorsions")
     && negb (has_handler openff_sys "RBTorsions")
     && negb (has_handler openff_sys "ImproperTorsions")
  then ret tt
  else
    write (Text "[ dihedrals ]\n") ;;
    write (Text ";    i      j      k      l   func\n") ;;
    let rb_torsion_handler := dict_get String.eqb (handlers openff_sys) "RBTorsions" in
    let proper_torsion_handler :=
      dict_get String.eqb (handlers openff_sys) "ProperTorsions" in
    let improper_torsion_handler :=
      dict_get String.eqb (handlers openff_sys) "ImproperTorsions" in
    for_each (propers (mdtop openff_sys)) (fun '(a0, a1, a2, a3) =>
      _ <- (match proper_torsion_handler with
            | Some h => _write_proper_rows h [a0; a1; a2; a3]
            | None => ret tt
            end) ;;
      match rb_torsion_handler with
      | Some h => _write_rb_rows h [a0; a1; a2; a3]
      | None => ret tt
      end) ;;
    for_each (impropers (mdtop openff_sys)) (fun '(a0, a1, a2, a3) =>
      match improper_torsion_handler with
      | Some h => _write_improper_rows h [a0; a1; a2; a3]
      | None => ret tt
      end).

Definition _write_valence (openff_sys : Interchange) : io unit :=
  _write_bonds openff_sys ;;
  _write_angles openff_sys ;;
  _write_dihedrals openff_sys.

Definition _write_system : io unit :=
  write (Text "[ system ]\n") ;;
  write (Text "; name \n") ;;
  write (Text "System name\n\n") ;;
  write (Text "[ molecules ]\n") ;;
  write (Text "; Compound\tnmols\n") ;;
  write (Text "MOL\t1") ;;
  write (Text "\n").

(** ** The topology file *)

(** The body of the [with open(path, "w") as top_file:] block. *)
Definition to_top_body (openff_sys : Interchange) : io unit :=
  write (Text "; Generated by OpenFF Interchange\n") ;;
  _write_top_defaults openff_sys ;;
  let typemap := _build_typemap openff_sys in
  let virtual_site_map := _build_virtual_site_map openff_sys in
  _write_atomtypes openff_sys typemap virtual_site_map ;;
  _write_moleculetype ;;
  _write_atoms openff_sys typemap virtual_site_map ;;
  _write_valence openff_sys ;;
  _write_virtual_sites openff_sys virtual_site_map ;;
  _write_system.

(** The state of the target path: [None] when no file exists there. *)
Definition path_state : Type := option file.

(** [to_top]: [open(path, "w")] creates the file, or truncates the one that
    is there, before the body runs; the text written by the body is in the
    file when the block is left, also when it is left by an exception. *)
Definition to_top (openff_sys : Interchange) (before : path_state)
  : path_state * result unit :=
  let '(written, r) := to_top_body openff_sys in
  (Some written, r).

(** ** The older bond writer of [openff/system/interop/internal.py] *)

Module System.

(** [str(t)] of a tuple of non-negative integers. *)
Definition str_tuple (t : list nat) : string :=
  match t with
  | [] => "()"
  | [x] => ("(" ++ str_nat x ++ ",)")%string
  | _ => ("(" ++ String.concat ", " (map str_nat t) ++ ")")%string
  end.

(** A handler of [openff.system]: both tables are keyed by strings. *)
Record Handler : Type := mkHandler {
  slot_map : list (string * string);
  potentials : list (string * Potential)
}.

(** [top_mol.bonds] holds, for each bond, the [topology_atom_index] of the
    two atoms in [bond.atoms]. *)
Record System : Type := mkSystem {
  handlers : list (string * Handler);
  top_mol_bonds : list (nat * nat)
}.

(** The body of the loop of [_write_bonds] over the bonds. *)
Definition _write_bond (bond_handler : Handler) (bond : nat * nat) : io unit :=
  let indices := sorted [fst bond; snd bond] in
  let indices_as_str := str_tuple indices in
  key <-
    (if dict_mem String.eqb (slot_map bond_handler) indices_as_str
     then lift (dict_item String.eqb (slot_map bond_handler) indices_as_str)
     else raise (Exception "probably should have found parameters here ...")) ;;
  potential <- lift (dict_item String.eqb (potentials bond_handler) key) ;;
  let params := parameters potential in
  k <- lift (dict_item String.eqb params "k") ;;
  length <- lift (dict_item String.eqb params "length") ;;
  write (BondsRow (nth 0 indices 0 + 1) (nth 1 indices 0 + 1) "1" length k).

Definition _write_bonds (openff_sys : System) : io unit :=
  bond_handler <- lift (dict_item String.eqb (handlers openff_sys) "Bonds") ;;
  if length (potentials bond_handler) =? 0 then ret tt
  else
    write (Text "[ bonds ]\n") ;;
    write (Text "; ai\taj\tfunc\tr\tk\n") ;;
    for_each (top_mol_bonds openff_sys) (_write_bond bond_handler) ;;
    write (Text "\n\n").

(** The first loop of [_write_atomtypes]: the typemap that the function
    builds and returns.  [topology_atoms] is
    [openff_sys.topology.topology_atoms]; the element of an atom is what
    [ele.element_from_atomic_number] gives for its atomic number. *)
Fixpoint _write_atomtypes_typemap_from (topology_atoms : list Atom)
    (atom_idx : nat) (elements : list (string * nat))
    (typemap : list (nat * string)) : result (list (nat * string)) :=
  match topology_atoms with
  | [] => Ok typemap
  | atom :: topology_atoms' =>
      let element_symbol := element_symbol atom in
      let elements :=
        if negb (dict_mem String.eqb elements element_symbol)
        then dict_set String.eqb elements element_symbol 0
        else elements in
      let? count := dict_item String.eqb elements element_symbol in
      let atom_type := (element_symbol ++ str_nat count)%string in
      _write_atomtypes_typemap_from topology_atoms' (S atom_idx) elements
        (dict_set Nat.eqb typemap atom_idx atom_type)
  end.

Definition _write_atomtypes_typemap (topology_atoms : list Atom)
  : result (list (nat * string)) :=
  _write_atomtypes_typemap_from topology_atoms 0 [] [].

(** A reference molecule of the topology: its name, and the number of
    topology molecules that refer to it
    ([len(topology._reference_molecule_to_topology_molecules[ref_mol])]). *)
Record ReferenceMolecule : Type := mkReferenceMolecule {
  name : string;
  n_topology_molecules : nat
}.

(** The value of an entry of the molecule map. *)
Record MoleculeData : Type := mkMoleculeData {
  reference_molecule : ReferenceMolecule;
  n_mols : nat
}.

(** [_build_molecule_map]: the loop over [topology.reference_molecules]. *)
Fixpoint _build_molecule_map_from (reference_molecules : list ReferenceMolecule)
    (counter : nat) (molecule_mapping : list (string * MoleculeData))
  : list (string * MoleculeData) :=
  match reference_molecules with
  | [] => molecule_mapping
  | ref_mol :: reference_molecules' =>
      let '(molecule_name, counter) :=
        if (name ref_mol =? EmptyString)%string
        then (("MOL" ++ str_nat counter)%string, counter + 1)
        else (name ref_mol, counter) in
      let num_ref_molecule := n_topology_molecules ref_mol in
      _build_molecule_map_from reference_molecules' counter
        (dict_set String.eqb molecule_mapping molecule_name
           (mkMoleculeData ref_mol num_ref_molecule))
  end.

Definition _build_molecule_map (reference_molecules : list ReferenceMolecule)
  : list (string * MoleculeData) :=
  _build_molecule_map_from reference_molecules 0 [].

End System.

(** ** Fixed-width formatting and parsing *)

Definition space : ascii := " "%char.
Definition newline : ascii := "010"%char.
Definition carriage_return : ascii := "013"%char.

(** A character that ends a line when a file is read in text mode. *)
Definition is_line_break (c : ascii) : bool :=
  Ascii.eqb c newline || Ascii.eqb c carriage_return.
Definition period : ascii := "."%char.

(** Right-justify in a field of at least [width] characters. *)
Definition pad_left (width : nat) (s : chars) : chars :=
  repeat space (width - length s) ++ s.

(** Left-justify in a field of at least [width] characters. *)
Definition pad_right (width : nat) (s : chars) : chars :=
  s ++ repeat space (width - length s).

(** ["%{width}d" % n] for a non-negative [n]. *)
Definition format_d (width n : nat) : chars :=
  pad_left width (digits (N.of_nat n)).

(** ["%{width}s" % s] and ["%-{width}s" % s]. *)
Definition format_s (width : nat) (s : string) : chars :=
  pad_left width (list_ascii_of_string s).

Definition format_s_left (width : nat) (s : string) : chars :=
  pad_right width (list_ascii_of_string s).

(** Rounding to the nearest integer, ties to the even one. *)
Definition round_half_even (x : Q) : Z :=
  let f := Qfloor x in
  match Qcompare (x - inject_Z f) (1 # 2) with
  | Lt => f
  | Gt => (f + 1)%Z
  | Eq => if Z.even f then f else (f + 1)%Z
  end.

Definition pow10 (n : nat) : Z := (10 ^ Z.of_nat n)%Z.

(** [floor(log2(|q|))] for a rational [q] that is not zero. *)
Definition binade (q : Q) : Z :=
  let l := (Z.log2 (Z.abs (Qnum q)) - Z.log2 (Zpos (Qden q)))%Z in
  if Qle_bool (2 ^ l) (Qabs q) then l else (l - 1)%Z.

(** The double nearest to [q], and of two that are equally near the one
    with the even significand: IEEE 754 binary64 under rounding to nearest,
    with 53 bits and with the exponent of the last bit no less than -1074.
    (For a magnitude of 2^1024 or more the double is an infinity; there the
    model goes on with 53 bits.) *)
Definition binary64 (q : Q) : Q :=
  let q := Qred q in
  if Qeq_bool q 0 then 0%Q
  else
    let e := Z.max (binade q - 52) (-1074) in
    Qred (inject_Z (round_half_even (q / 2 ^ e)) * 2 ^ e)%Q.

(** [power_of_ten(n)] of numpy's [calculation.c]: a table of doubles up to
    [1e8], and above it [ret = 1e9; while (n-- > 9) ret *= 10.]. *)
Fixpoint power_of_ten_from (ret : Q) (k : nat) : Q :=
  match k with
  | 0 => ret
  | S k' => power_of_ten_from (binary64 (ret * 10)) k'
  end.

Definition power_of_ten (n : nat) : Q :=
  if n <? 9 then inject_Z (pow10 n)
  else power_of_ten_from (inject_Z (pow10 9)) (n - 9).

(** [np.round(x, decimal)] of a double, for [decimal >= 0]: numpy multiplies
    by the power of ten, rounds to the nearest integer, ties to the even
    one, and divides by the power of ten, each in doubles.  (For
    [decimal = 0] numpy only rounds to the integer, which is what the three
    steps come to for the power 1.) *)
Definition np_round (x : Q) (decimal : nat) : Q :=
  let f := power_of_ten decimal in
  binary64 (inject_Z (round_half_even (binary64 (x * f))) / f).

(** ["%{width}.{prec}f" % v]: the value rounded to [prec] decimals, ties
    to the even digit, in a field of at least [width] characters.  (Where
    all the digits are zeros Python keeps the sign of the value and writes
    [-0.000] for a negative value and for the negative zero; the model
    writes [0.000].  A zero fills less than its field with or without the
    sign, so that the columns of a line are the same, and [float] reads both
    as zero.) *)
Definition format_f (width prec : nat) (v : Q) : chars :=
  let k := round_half_even (v * inject_Z (pow10 prec)) in
  let m := Z.abs_N k in
  let sign := if (k <? 0)%Z then ["-"%char] else [] in
  let whole := digits (m / Z.to_N (pow10 prec)) in
  let fraction := if prec =? 0 then [] else period :: digits_fixed prec m in
  pad_left width (sign ++ whole ++ fraction).

(** [n % 100000]. *)
Definition mod_100000 (n : nat) : nat := N.to_nat (N.of_nat n mod 100000).

(** [s[a:b]] for non-negative [a] and [b]. *)
Definition slice (a b : nat) (s : chars) : chars := firstn (b - a) (skipn a s).

(** White space in the sense of [str.strip], [str.split], [int] and
    [float]: the characters for which [str.isspace] holds, of the first 256
    code points. *)
Definition is_space (c : ascii) : bool :=
  let n := nat_of_ascii c in
  (n =? 32) || ((9 <=? n) && (n <=? 13)) || ((28 <=? n) && (n <=? 31))
  || (n =? 133) || (n =? 160).

Fixpoint lstrip (s : chars) : chars :=
  match s with
  | [] => []
  | c :: s' => if is_space c then lstrip s' else s
  end.

Definition strip (s : chars) : chars := rev (lstrip (rev (lstrip s))).

Definition digit_value (c : ascii) : option N :=
  let n := N_of_ascii c in
  if ((48 <=? n) && (n <=? 57))%N then Some (n - 48)%N else None.

(** The number spelled by a run of decimal digits, continuing from [acc]. *)
Fixpoint parse_digits (acc : N) (s : chars) : option N :=
  match s with
  | [] => Some acc
  | c :: s' =>
      match digit_value c with
      | Some d => parse_digits (10 * acc + d) s'
      | None => None
      end
  end.

(** An optional sign. *)
Definition split_sign (s : chars) : bool * chars :=
  match s with
  | c :: s' =>
      if Ascii.eqb c "-" then (true, s')
      else if Ascii.eqb c "+" then (false, s')
      else (false, s)
  | [] => (false, [])
  end.

(** [int(s)] of a string: white space, an optional sign, decimal digits.
    (Digit grouping with underscores is left out: such text is a
    [ValueError] here.) *)
Definition int_of_str (s : chars) : result Z :=
  let '(negative, body) := split_sign (strip s) in
  match body with
  | [] => Raise ValueError
  | _ =>
      match parse_digits 0 body with
      | Some n => Ok (if negative then (- Z.of_N n)%Z else Z.of_N n)
      | None => Raise ValueError
      end
  end.

(** The text before the first period, and the text after it if there is
    one. *)
Fixpoint split_period (s : chars) : chars * option chars :=
  match s with
  | [] => ([], None)
  | c :: s' =>
      if Ascii.eqb c period then ([], Some s')
      else let '(whole, fraction) := split_period s' in (c :: whole, fraction)
  end.

(** [float(s)] of a string in plain decimal notation: white space, an
    optional sign, digits with at most one period and at least one digit;
    the result is the double nearest to the number that the text spells.
    (Exponents, infinities, NaN and digit grouping are left out: such text
    is a [ValueError] here.) *)
Definition float_of_str (s : chars) : result Q :=
  let '(negative, body) := split_sign (strip s) in
  let '(whole, fraction) := split_period body in
  let fraction := match fraction with Some f => f | None => [] end in
  match whole, fraction with
  | [], [] => Raise ValueError
  | _, _ =>
      match parse_digits 0 whole, parse_digits 0 fraction with
      | Some w, Some f =>
          let v := (inject_Z (Z.of_N w)
                    + inject_Z (Z.of_N f) / inject_Z (pow10 (length fraction)))%Q in
          Ok (binary64 (if negative then (- v)%Q else v))
      | _, _ => Raise ValueError
      end
  end.

(** [s.split()]: the maximal runs of characters that are not white space.
    [word] is the run being read, in reverse. *)
Fixpoint split_from (word : chars) (s : chars) : list chars :=
  match s with
  | [] => match word with [] => [] | _ => [rev word] end
  | c :: s' =>
      if is_space c
      then match word with
           | [] => split_from [] s'
           | _ => rev word :: split_from [] s'
           end
      else split_from (c :: word) s'
  end.

Definition split (s : chars) : list chars := split_from [] s.

(** [file.readline()] of a file that was opened in text mode: the next line
    with its line break, and the rest of the text; the empty line at the end
    of the text.  A line ends with a line feed, with a carriage return, or
    with a carriage return and a line feed, and each of them is read as a
    line feed (Python's universal newlines).  Writing in text mode leaves
    the text as it is where the line separator of the system is the line
    feed. *)
Fixpoint readline (text : chars) : chars * chars :=
  match text with
  | [] => ([], [])
  | c :: text' =>
      if Ascii.eqb c newline then ([newline], text')
      else if Ascii.eqb c carriage_return then
        ([newline],
         match text' with
         | c' :: text'' => if Ascii.eqb c' newline then text'' else text'
         | [] => []
         end)
      else let '(line, rest) := readline text' in (c :: line, rest)
  end.

(** ** The coordinate file *)

(** One [write] call of [to_gro]. *)
Inductive gro_chunk : Type :=
| GroLine (s : string)
    (* a literal or an f-string of the source, which ends the line *)
| GroRecord (n : nat) (residue_idx : nat) (residue_name atom_name : string)
    (atom_index : nat) (x y z : Q)
    (* "%5d%-5s%5s%5d%{n+5}.{n}f%{n+5}.{n}f%{n+5}.{n}f\n" *)
| GroBoxValue (v : Q)
    (* f"{v:11.7f}" *).

(** The characters that a [write] call puts in the file. *)
Definition render (c : gro_chunk) : chars :=
  match c with
  | GroLine s => list_ascii_of_string s ++ [newline]
  | GroRecord n residue_idx residue_name atom_name atom_index x y z =>
      format_d 5 residue_idx ++ format_s_left 5 residue_name
      ++ format_s 5 atom_name ++ format_d 5 atom_index
      ++ format_f (n + 5) n x ++ format_f (n + 5) n y ++ format_f (n + 5) n z
      ++ [newline]
  | GroBoxValue v => format_f 11 7 v
  end.

Definition gro_text (written : list gro_chunk) : chars :=
  concat (map render written).

Definition gro_io (A : Type) : Type := writer gro_chunk A.

(** [rounded_positions[index]]. *)
Definition position_row (rounded_positions : list (Q * Q * Q)) (index : nat)
  : result (Q * Q * Q) :=
  match nth_error rounded_positions index with
  | Some p => Ok p
  | None => Raise IndexError
  end.

(** [s[:5]]. *)
Definition first5 (s : string) : string :=
  string_of_list_ascii (firstn 5 (list_ascii_of_string s)).

Definition eye11 : matrix3 := ((11, 0, 0), (0, 11, 0), (0, 0, 11))%Q.

(** [(box == np.diag(np.diagonal(box))).all()]. *)
Definition is_rectangular (b : matrix3) : bool :=
  let '((_, b01, b02), (b10, _, b12), (b20, b21, _)) := b in
  Qeq_bool b01 0 && Qeq_bool b02 0 && Qeq_bool b10 0 && Qeq_bool b12 0
  && Qeq_bool b20 0 && Qeq_bool b21 0.

(** The body of the [with open(path, "w") as gro:] block of [to_gro], after
    the positions have been rounded. *)
Definition to_gro_body (openff_sys : Interchange) (n : nat) : gro_io unit :=
  let rounded_positions :=
    map (fun '(x, y, z) => (np_round x n, np_round y n, np_round z n))
      (positions openff_sys) in
  let n_particles := length (positions openff_sys) in
  let typemap := _build_typemap openff_sys in
  let virtual_site_map := _build_virtual_site_map openff_sys in
  let n_particles := n_particles + length virtual_site_map in
  write (GroLine "Generated by OpenFF") ;;
  write (GroLine (str_nat n_particles)) ;;
  for_each (enumerate (atoms (mdtop openff_sys)))
    (fun '(atom_index0, atom) =>
       let residue_idx := mod_100000 (residue_index atom + 1) in
       let residue_name := first5 (residue_name atom) in
       atom_name <- lift (dict_item Nat.eqb typemap atom_index0) ;;
       let atom_index := mod_100000 (atom_index0 + 1) in
       '(x, y, z) <- lift (position_row rounded_positions atom_index0) ;;
       write (GroRecord n residue_idx residue_name atom_name atom_index x y z)) ;;
  for_each virtual_site_map
    (fun '(virtual_site_key, _) =>
       let atom_name := "VS" in
       let residue_idx := 1 in
       let residue_name := EmptyString in
       atom_index <- lift (dict_item key_eqb virtual_site_map virtual_site_key) ;;
       write (GroRecord n residue_idx residue_name atom_name atom_index 0 0 0)) ;;
  let box :=
    match box openff_sys with
    | None => eye11
    | Some b => b
    end in
  let '((b00, b01, b02), (b10, b11, b12), (b20, b21, b22)) := box in
  (if is_rectangular box then
     for_each [b00; b11; b22] (fun v => write (GroBoxValue v))
   else
     for_each [b00; b11; b22] (fun v => write (GroBoxValue v)) ;;
     for_each [b01; b02; b10; b12; b20; b21] (fun v => write (GroBoxValue v))) ;;
  write (GroLine EmptyString).

(** [to_gro]: the characters in the file at [path] after the call, and the
    outcome. *)
Definition to_gro (openff_sys : Interchange) (decimal : nat)
  : chars * result unit :=
  let '(written, r) := to_gro_body openff_sys decimal in
  (gro_text written, r).

(** [_infer_coord_precision]. *)
Definition _infer_coord_precision (text : chars) : result Z :=
  let '(_, rest) := readline text in
  let '(_, rest) := readline rest in
  let '(atom_line, _) := readline rest in
  let period_indices :=
    map fst (filter (fun '(_, x) => Ascii.eqb x period) (enumerate atom_line)) in
  match rev period_indices with
  | last :: before_last :: _ =>
      let spacing_between_periods := (Z.of_nat last - Z.of_nat before_last)%Z in
      let precision := (spacing_between_periods - 5)%Z in
      Ok precision
  | _ => Raise IndexError
  end.

(** The loop of [from_gro] over the atom records. *)
Fixpoint read_coordinates (n_atoms : nat) (c0 c1 c2 c3 : nat) (text : chars)
  : result (list (Q * Q * Q) * chars) :=
  match n_atoms with
  | 0 => Ok ([], text)
  | S n_atoms' =>
      let '(line, rest) := readline text in
      let? _ := int_of_str (slice 0 5 line) in
      let? _ := int_of_str (slice 15 20 line) in
      let? x := float_of_str (slice c0 c1 line) in
      let? y := float_of_str (slice c1 c2 line) in
      let? z := float_of_str (slice c2 c3 line) in
      let? (coordinates, rest') := read_coordinates n_atoms' c0 c1 c2 c3 rest in
      Ok ((x, y, z) :: coordinates, rest')
  end.

(** [[float(val) for val in words]]. *)
Fixpoint floats_of (words : list chars) : result (list Q) :=
  match words with
  | [] => Ok []
  | w :: words' =>
      let? v := float_of_str w in
      let? vs := floats_of words' in
      Ok (v :: vs)
  end.

Definition empty_topology : Topology := mkTopology [] [] [] [] [].

(** [from_gro], on the characters of the file. *)
Definition from_gro (text : chars) : result Interchange :=
  let? precision := _infer_coord_precision text in
  let coordinate_width := Z.to_nat (precision + 5) in
  let c0 := 20 in
  let c1 := 20 + coordinate_width in
  let c2 := 20 + 2 * coordinate_width in
  let c3 := 20 + 3 * coordinate_width in
  let '(_, rest) := readline text in
  let '(count_line, rest) := readline rest in
  let? n_atoms := int_of_str count_line in
  let? (coordinates, rest) :=
    (if (n_atoms <? 0)%Z then (* np.zeros((n_atoms, 3)) *) Raise ValueError
     else read_coordinates (Z.to_nat n_atoms) c0 c1 c2 c3 rest) in
  let '(box_line, _) := readline rest in
  let? parsed_box := floats_of (split box_line) in
  match parsed_box with
  | [bx; by_; bz] =>
      let box := ((bx, 0, 0), (0, by_, 0), (0, 0, bz))%Q in
      Ok (mkInterchange [] empty_topology coordinates (Some box))
  | _ => (* [box] was never assigned *) Raise UnboundLocalError
  end.

(** ** Vocabulary of the statements *)

Definition is_ok {A : Type} (r : result A) : bool :=
  match r with Ok _ => true | Raise _ => false end.

(** A well-formed [dict] binds no key twice. *)
Definition is_dict {K V : Type} (d : list (K * V)) : Prop :=
  NoDup (dict_keys d).

(** The keys of the [VirtualSites] table, in iteration order. *)
Definition virtual_site_keys (interchange : Interchange) : list key :=
  match dict_get String.eqb (handlers interchange) "VirtualSites" with
  | Some h => dict_keys (slot_map h)
  | None => []
  end.

(** [m], after [w] has been written. *)
Definition prepend {C A : Type} (w : list C) (m : writer C A) : writer C A :=
  (w ++ fst m, snd m).

(** What [m] writes, seen through [proj], is a prefix of [l], and all of
    [l] when [m] completes. *)
Definition emits_prefix {X A : Type} (proj : chunk -> list X) (m : io A)
    (l : list X) : Prop :=
  exists n,
    n <= length l
    /\ flat_map proj (fst m) = firstn n l
    /\ (is_ok (snd m) = true -> n = length l).

(** The particle number of a row of the [ atoms ] section. *)
Definition atoms_num (c : chunk) : list nat :=
  match c with
  | AtomsRow num _ _ _ _ _ _ _ => [num]
  | _ => []
  end.

Definition atoms_nums (f : file) : list nat := flat_map atoms_num f.

(** The [ atoms ] rows written by [m] are numbered by a prefix of [l], and by
    all of [l] when [m] completes. *)
Definition numbers_prefix {A : Type} (m : io A) (l : list nat) : Prop :=
  emits_prefix atoms_num m l.

(** The atom number of a record of the coordinate file. *)
Definition gro_number (c : gro_chunk) : list nat :=
  match c with
  | GroRecord _ _ _ _ atom_index _ _ _ => [atom_index]
  | _ => []
  end.

(** The two atom numbers of a row of the [ pairs ] section. *)
Definition pairs_entry (c : chunk) : list (nat * nat) :=
  match c with
  | PairsRow ai aj _ _ _ => [(ai, aj)]
  | _ => []
  end.

Definition pairs_entries (f : file) : list (nat * nat) :=
  flat_map pairs_entry f.

(** The two atom numbers of a row of the [ bonds ] section. *)
Definition bonds_entry (c : chunk) : list (nat * nat) :=
  match c with
  | BondsRow ai aj _ _ _ => [(ai, aj)]
  | _ => []
  end.

(** The entry that the writer makes of a pair of atom indices. *)
Definition entry_of_pair (pair : nat * nat) : nat * nat :=
  (Nat.min (fst pair) (snd pair) + 1, Nat.max (fst pair) (snd pair) + 1).

(** The Lennard-Jones parameters that the writer reads for an atom. *)
Definition lj_sigma_epsilon (openff_sys : Interchange) (atom_idx : nat)
  : result (R * R) :=
  let? parameters := _get_lj_parameters openff_sys atom_idx in
  let? sigma := dict_item String.eqb parameters "sigma" in
  let? epsilon := dict_item String.eqb parameters "epsilon" in
  Ok (sigma, epsilon).

(** The site and the excluded atoms of a row of the [ exclusions ]
    section. *)
Definition exclusions_entry (c : chunk) : list (nat * list nat) :=
  match c with
  | ExclusionsRow index parents => [(index, parents)]
  | _ => []
  end.

(** The atom numbers and the parameters of a row of the [ angles ]
    section. *)
Definition angles_entry (c : chunk) : list (nat * nat * nat * R * R) :=
  match c with
  | AnglesRow ai aj ak _ theta k => [(ai, aj, ak, theta, k)]
  | _ => []
  end.

(** No key of the table has the atom indices of the angle, in the order of
    the angle. *)
Definition angle_unmatched (h : Handler) (angle : nat * nat * nat) : bool :=
  let '(a0, a1, a2) := angle in
  forallb (fun '(top_key, _) =>
             negb (list_nat_eqb (atom_indices top_key) [a0; a1; a2]))
    (slot_map h).

(** The body of the loop of [_write_angles] over the angles, for the table
    [angle_handler] and the value that [pot_key] has when the pass begins. *)
Definition angle_loop_body (angle_handler : Handler)
    (pot_key : option PotentialKey) (angle : nat * nat * nat)
  : io (option PotentialKey) :=
  let '(a0, a1, a2) := angle in
  let indices := [a0; a1; a2] in
  let pot_key := _find_angle_pot_key (slot_map angle_handler) indices pot_key in
  pot_key' <-
    (match pot_key with
     | Some pot_key => ret pot_key
     | None => raise UnboundLocalError
     end) ;;
  potential <- lift (dict_item String.eqb (potentials angle_handler) pot_key') ;;
  let params := parameters potential in
  k <- lift (dict_item String.eqb params "k") ;;
  theta <- lift (dict_item String.eqb params "angle") ;;
  write (AnglesRow (a0 + 1) (a1 + 1) (a2 + 1) "1" theta k) ;;
  ret pot_key.

(** The row of an angle with the parameters [theta] and [k]. *)
Definition angle_row (angle : nat * nat * nat) (theta k : R)
  : nat * nat * nat * R * R :=
  let '(a0, a1, a2) := angle in (a0 + 1, a1 + 1, a2 + 1, theta, k).

(** The atom numbers and the function of a row of the [ dihedrals ]
    section. *)
Definition dihedral_entry (c : chunk) : list (nat * nat * nat * nat * nat) :=
  match c with
  | ProperRow ai aj ak al func _ _ _ => [(ai, aj, ak, al, func)]
  | RBRow ai aj ak al func _ _ _ _ _ _ => [(ai, aj, ak, al, func)]
  | ImproperRow ai aj ak al func _ _ _ => [(ai, aj, ak, al, func)]
  | _ => []
  end.

(** The number of keys of a table with the atom indices [indices]; none
    when the model has no such table. *)
Definition count_matching (h : option Handler) (indices : list nat) : nat :=
  match h with
  | Some h =>
      length (filter (fun '(top_key, _) =>
                        list_nat_eqb (atom_indices top_key) indices)
                (slot_map h))
  | None => 0
  end.

(** The entries of the [ dihedrals ] section of a model: for every proper
    torsion one entry of function 1 for each matching key of
    [ProperTorsions] and then one of function 3 for each matching key of
    [RBTorsions]; after them, for every improper torsion, one entry of
    function 4 for each matching key of [ImproperTorsions]. *)
Definition dihedral_entries (openff_sys : Interchange)
  : list (nat * nat * nat * nat * nat) :=
  let table name := dict_get String.eqb (handlers openff_sys) name in
  flat_map
    (fun '(a0, a1, a2, a3) =>
       repeat (a0 + 1, a1 + 1, a2 + 1, a3 + 1, 1)
         (count_matching (table "ProperTorsions") [a0; a1; a2; a3])
       ++ repeat (a0 + 1, a1 + 1, a2 + 1, a3 + 1, 3)
            (count_matching (table "RBTorsions") [a0; a1; a2; a3]))
    (propers (mdtop openff_sys))
  ++ flat_map
       (fun '(a0, a1, a2, a3) =>
          repeat (a0 + 1, a1 + 1, a2 + 1, a3 + 1, 4)
            (count_matching (table "ImproperTorsions") [a0; a1; a2; a3]))
       (impropers (mdtop openff_sys)).

(** The atom indices of a torsion, as the writer compares them with the
    keys of a table. *)
Definition torsion_indices (t : nat * nat * nat * nat) : list nat :=
  let '(a0, a1, a2, a3) := t in [a0; a1; a2; a3].

(** The parameter set [pot_key] of a [ProperTorsions] table has what the
    writer reads of it: [k], [periodicity] and [phase], and an [idivf], if
    it has one, whose integer part is not zero. *)
Definition proper_set_complete (h : Handler) (pot_key : PotentialKey) : Prop :=
  exists potential k periodicity phase,
    dict_item String.eqb (potentials h) pot_key = Ok potential
    /\ dict_item String.eqb (parameters potential) "k" = Ok k
    /\ dict_item String.eqb (parameters potential) "periodicity"
       = Ok periodicity
    /\ dict_item String.eqb (parameters potential) "phase" = Ok phase
    /\ (forall idivf,
          dict_get String.eqb (parameters potential) "idivf" = Some idivf ->
          int_of_float idivf <> 0%Z).

(** The parameter set [pot_key] of an [RBTorsions] table has its six
    coefficients. *)
Definition rb_set_complete (h : Handler) (pot_key : PotentialKey) : Prop :=
  exists potential,
    dict_item String.eqb (potentials h) pot_key = Ok potential
    /\ Forall (fun name => exists c,
                  dict_item String.eqb (parameters potential) name = Ok c)
         ["C0"; "C1"; "C2"; "C3"; "C4"; "C5"].

(** The parameter set [pot_key] of an [ImproperTorsions] table has [k],
    [periodicity], [phase] and an [idivf] whose integer part is not zero. *)
Definition improper_set_complete (h : Handler) (pot_key : PotentialKey)
  : Prop :=
  exists potential k periodicity phase idivf,
    dict_item String.eqb (potentials h) pot_key = Ok potential
    /\ dict_item String.eqb (parameters potential) "k" = Ok k
    /\ dict_item String.eqb (parameters potential) "periodicity"
       = Ok periodicity
    /\ dict_item String.eqb (parameters potential) "phase" = Ok phase
    /\ dict_item String.eqb (parameters potential) "idivf" = Ok idivf
    /\ int_of_float idivf <> 0%Z.

(** Every key of the table [name] that has the atom indices of one of the
    torsions [torsions] is bound to a parameter set that [complete]
    accepts. *)
Definition matching_sets_complete (openff_sys : Interchange) (name : string)
    (torsions : list (nat * nat * nat * nat))
    (complete : Handler -> PotentialKey -> Prop) : Prop :=
  forall h top_key pot_key t,
    dict_get String.eqb (handlers openff_sys) name = Some h ->
    In t torsions ->
    In (top_key, pot_key) (slot_map h) ->
    atom_indices top_key = torsion_indices t ->
    complete h pot_key.

(** The number of atoms of [l] with the element symbol [symbol]. *)
Definition element_count (symbol : string) (l : list Atom) : nat :=
  length (filter (fun a => (element_symbol a =? symbol)%string) l).

(** When [m] completes, what it returns satisfies [P]. *)
Definition returns {C A : Type} (P : A -> Prop) (m : writer C A) : Prop :=
  forall a, snd m = Ok a -> P a.

(** The type that a row of [ atomtypes ] declares, and the type that a row
    of [ atoms ] uses. *)
Definition declared_type (c : chunk) : list string :=
  match c with
  | AtomtypesRowLJ atom_type _ _ _ _ _ _ _ => [atom_type]
  | AtomtypesRowVS atom_type _ _ _ _ _ _ => [atom_type]
  | AtomtypesRowBuck atom_type _ _ _ _ _ _ _ => [atom_type]
  | _ => []
  end.

Definition used_type (c : chunk) : list string :=
  match c with
  | AtomsRow _ atom_type _ _ _ _ _ _ => [atom_type]
  | _ => []
  end.

(** The types of the particles of a model: the names of the typemap, and
    [VS] for every virtual site. *)
Definition particle_types (openff_sys : Interchange) : list string :=
  map snd (_build_typemap openff_sys)
  ++ repeat "VS" (length (_build_virtual_site_map openff_sys)).

(** *** The sections of the topology file *)

(** The text of a [write] call opens a section. *)
Definition is_heading (s : string) : bool :=
  String.prefix "[" s || String.prefix "\n[" s.

Definition heading_of (c : chunk) : list string :=
  match c with
  | Text s => if is_heading s then [s] else []
  | _ => []
  end.

Definition is_bond_charge (k : key) : bool :=
  (type_of k =? "BondCharge")%string.

Definition is_lone_pair (k : key) : bool :=
  (type_of k =? "MonovalentLonePair")%string
  || (type_of k =? "DivalentLonePair")%string.

(** The headings that [_write_virtual_sites] writes for a model. *)
Definition virtual_site_headings (openff_sys : Interchange) : list string :=
  match dict_get String.eqb (handlers openff_sys) "VirtualSites" with
  | None => []
  | Some h =>
      (if existsb is_bond_charge (dict_keys (slot_map h))
       then ["\n[ virtual_sites2 ]\n; site  ai  aj  funct   a\n"] else [])
      ++ (if existsb is_lone_pair (dict_keys (slot_map h))
          then ["\n[ virtual_sites3 ]\n; site  ai  aj  ak funct   a   b\n"]
          else [])
      ++ ["\n[ exclusions ]\n"]
  end.

(** The headings of the topology file of a model, in their order. *)
Definition top_headings (openff_sys : Interchange) : list string :=
  ["[ defaults ]\n"]
  ++ ["[ atomtypes ]\n"]
  ++ ["[ moleculetype ]\n"]
  ++ ["[ atoms ]\n"; "[ pairs ]\n"]
  ++ ((if has_handler openff_sys "Bonds" then ["[ bonds ]\n"] else [])
      ++ (if has_handler openff_sys "Angles" then ["[ angles ]\n"] else [])
      ++ (if has_handler openff_sys "ProperTorsions"
             || has_handler openff_sys "RBTorsions"
             || has_handler openff_sys "ImproperTorsions"
          then ["[ dihedrals ]\n"] else []))
  ++ virtual_site_headings openff_sys
  ++ ["[ system ]\n"; "[ molecules ]\n"].

(** *** The coordinate file, record by record *)

Definition is_digit (c : ascii) : bool :=
  match digit_value c with Some _ => true | None => false end.

(** A character of a number: a digit, a sign or the period. *)
Definition is_numeric (c : ascii) : bool :=
  is_digit c || Ascii.eqb c "-" || Ascii.eqb c period.


(** The text of [v] with [prec] decimals has at most [width] characters. *)
Definition fits_f (width prec : nat) (v : Q) : bool :=
  length (format_f 0 prec v) <=? width.

(** No character of [s] ends a line. *)
Definition no_newline (s : string) : bool :=
  forallb (fun c => negb (is_line_break c)) (list_ascii_of_string s).

(** The name that [_build_typemap] gives to the atom at position [i]. *)
Definition atom_name_of (openff_sys : Interchange) (i : nat) : string :=
  match dict_get Nat.eqb (_build_typemap openff_sys) i with
  | Some s => s
  | None => EmptyString
  end.

(** The record of the atom at position [i]. *)
Definition atom_record (openff_sys : Interchange) (n : nat) (i : nat)
    (atom : Atom) (p : Q * Q * Q) : gro_chunk :=
  let '(x, y, z) := p in
  GroRecord n (mod_100000 (residue_index atom + 1)) (first5 (residue_name atom))
    (atom_name_of openff_sys i) (mod_100000 (i + 1))
    (np_round x n) (np_round y n) (np_round z n).

Definition atom_records (openff_sys : Interchange) (n : nat) : list gro_chunk :=
  map (fun '((i, atom), p) => atom_record openff_sys n i atom p)
    (combine (enumerate (atoms (mdtop openff_sys))) (positions openff_sys)).

(** The record of the virtual site with the index [index]. *)
Definition virtual_site_record (n index : nat) : gro_chunk :=
  GroRecord n 1 EmptyString "VS" index 0 0 0.

Definition virtual_site_records (openff_sys : Interchange) (n : nat)
  : list gro_chunk :=
  map (virtual_site_record n)
    (seq (n_atoms (mdtop openff_sys) + 1)
       (length (virtual_site_keys openff_sys))).

Definition box_of (openff_sys : Interchange) : matrix3 :=
  match box openff_sys with
  | None => eye11
  | Some b => b
  end.

Definition box_values (b : matrix3) : list gro_chunk :=
  let '((b00, b01, b02), (b10, b11, b12), (b20, b21, b22)) := b in
  map GroBoxValue
    ([b00; b11; b22]
     ++ if is_rectangular b then [] else [b01; b02; b10; b12; b20; b21]).

(** All that [to_gro] writes when every atom has a position. *)
Definition gro_chunks (openff_sys : Interchange) (n : nat) : list gro_chunk :=
  [GroLine "Generated by OpenFF";
   GroLine (str_nat (length (positions openff_sys)
                     + length (virtual_site_keys openff_sys)))]
  ++ atom_records openff_sys n
  ++ virtual_site_records openff_sys n
  ++ box_values (box_of openff_sys)
  ++ [GroLine EmptyString].

(** The number that ["%.{prec}f" % v] spells: [v] rounded to [prec]
    decimals, ties to the even digit. *)
Definition printed_value (v : Q) (prec : nat) : Q :=
  (inject_Z (round_half_even (v * inject_Z (pow10 prec)))
   / inject_Z (pow10 prec))%Q.

(** The double that [float] reads from the text that ["%.{prec}f" % v]
    writes. *)
Definition read_value (v : Q) (prec : nat) : Q :=
  binary64 (printed_value v prec).

(** The number that a decimal text spells. *)
Definition decimal_value (negative : bool) (whole fraction : N) (p : nat) : Q :=
  let v := (inject_Z (Z.of_N whole)
            + inject_Z (Z.of_N fraction) / inject_Z (pow10 p))%Q in
  if negative then (- v)%Q else v.

(** [format_d] of [n] has at most [width] characters. *)
Definition fits_d (width n : nat) : bool :=
  length (format_d 0 n) <=? width.

(** Every field of a record stays in its columns, and no name breaks the
    line. *)
Definition record_in_columns (c : gro_chunk) : bool :=
  match c with
  | GroRecord n residue_idx residue_name atom_name atom_index x y z =>
      fits_d 5 residue_idx && fits_d 5 atom_index
      && (String.length residue_name <=? 5) && (String.length atom_name <=? 5)
      && no_newline residue_name && no_newline atom_name
      && fits_f (n + 5) n x && fits_f (n + 5) n y && fits_f (n + 5) n z
  | _ => false
  end.

(** The box is rectangular and its three lengths are written apart. *)
Definition box_in_columns (b : matrix3) : bool :=
  let '((b00, _, _), (_, b11, _), (_, _, b22)) := b in
  is_rectangular b && fits_f 10 7 b00 && fits_f 10 7 b11 && fits_f 10 7 b22.

(** All that [to_gro] writes for [openff_sys] stays in the columns of the
    format. *)
Definition in_columns (openff_sys : Interchange) (n : nat) : bool :=
  forallb record_in_columns
    (atom_records openff_sys n ++ virtual_site_records openff_sys n)
  && box_in_columns (box_of openff_sys).

(** One unit of the last of [decimal] decimals: [10^-decimal]. *)
Definition last_decimal (decimal : nat) : Q :=
  (1 / inject_Z (pow10 decimal))%Q.

(** [q] is [p] up to one unit of the last decimal in every coordinate. *)
Definition close_to (decimal : nat) (p q : Q * Q * Q) : Prop :=
  let '(x, y, z) := p in
  let '(x', y', z') := q in
  (Qabs (x' - x) <= last_decimal decimal
   /\ Qabs (y' - y) <= last_decimal decimal
   /\ Qabs (z' - z) <= last_decimal decimal)%Q.

(** The indices of the periods of a line that starts at column [start]. *)
Definition periods_from (start : nat) (line : chars) : list nat :=
  map fst (filter (fun '(_, x) => Ascii.eqb x period)
             (enumerate_from start line)).

(** A record written with [n] decimals. *)
Definition record_of (n : nat) (c : gro_chunk) : bool :=
  match c with
  | GroRecord n' _ _ _ _ _ _ _ => n' =? n
  | _ => false
  end.

Definition record_coordinates (c : gro_chunk) : Q * Q * Q :=
  match c with
  | GroRecord _ _ _ _ _ x y z => (x, y, z)
  | _ => (0, 0, 0)%Q
  end.

(** What is read of the three coordinates of a record that was written
    with [decimal] decimals. *)
Definition rounded_position (decimal : nat) (p : Q * Q * Q) : Q * Q * Q :=
  let '(x, y, z) := p in
  (read_value x decimal, read_value y decimal, read_value z decimal).

(** The box that [from_gro] makes of the box line of a rectangular box:
    the three lengths as they are read from their seven decimals. *)
Definition read_box (b : matrix3) : matrix3 :=
  let '((b00, _, _), (_, b11, _), (_, _, b22)) := b in
  ((read_value b00 7, 0, 0), (0, read_value b11 7, 0),
   (0, 0, read_value b22 7))%Q.

(** [np.round] of the three coordinates of a position. *)
Definition np_round_position (decimal : nat) (p : Q * Q * Q) : Q * Q * Q :=
  let '(x, y, z) := p in
  (np_round x decimal, np_round y decimal, np_round z decimal).

(** The entries of a box that is not rectangular, in the order in which
    [to_gro] writes them. *)
Definition box_entries (b : matrix3) : list Q :=
  let '((b00, b01, b02), (b10, b11, b12), (b20, b21, b22)) := b in
  [b00; b11; b22; b01; b02; b10; b12; b20; b21].

(** The records stay in their columns, and the box is not rectangular and
    its nine entries are written apart. *)
Definition triclinic_in_columns (openff_sys : Interchange) (n : nat) : bool :=
  forallb record_in_columns
    (atom_records openff_sys n ++ virtual_site_records openff_sys n)
  && negb (is_rectangular (box_of openff_sys))
  && forallb (fits_f 10 7) (box_entries (box_of openff_sys)).

(** The numbers of the box line, in the order in which [to_gro] writes
    them. *)
Definition box_written (b : matrix3) : list Q :=
  let '((b00, _, _), (_, b11, _), (_, _, b22)) := b in
  if is_rectangular b then [b00; b11; b22] else box_entries b.

(** *** A file without decimals *)

(** A character that is neither a period nor a line break. *)
Definition plain_char (c : ascii) : bool :=
  negb (Ascii.eqb c period) && negb (Ascii.eqb c newline).

Definition plain_name (s : string) : bool :=
  forallb plain_char (list_ascii_of_string s).

(** The first record has no period and no line break in its names. *)
Definition first_record_plain (records : list gro_chunk) : bool :=
  match records with
  | GroRecord _ _ residue_name atom_name _ _ _ _ :: _ =>
      plain_name residue_name && plain_name atom_name
  | _ => false
  end.

(** *** Sample models *)

Definition oxygen : Atom := mkAtom "O" 16 8 0 "HOH" "HOH1".
Definition hydrogen : Atom := mkAtom "H" 1 1 0 "HOH" "HOH1".

Definition no_handler : Handler := mkHandler [] [] 0 EmptyString [] [].

(** The keys of three virtual sites on a water molecule, one of each kind. *)
Definition bond_charge_key : key := VirtualSiteKey [0; 1] "BondCharge" "EP1".
Definition monovalent_key : key :=
  VirtualSiteKey [2; 0; 1] "MonovalentLonePair" "EP2".
Definition divalent_key : key :=
  VirtualSiteKey [1; 0; 2] "DivalentLonePair" "EP3".

Definition water_topology : Topology :=
  mkTopology [oxygen; hydrogen; hydrogen] [(0, 1); (2, 0)] [(1, 0, 2)] [] [].

Definition water_electrostatics : Handler :=
  mkHandler [] [] (5 / 6) EmptyString
    [(TopologyKey [0], (-1)%R); (TopologyKey [1], (1 / 2)%R);
     (TopologyKey [2], (1 / 2)%R)]
    [(bond_charge_key, 0%R); (monovalent_key, 0%R); (divalent_key, 0%R)].

Definition water_bonds : Handler :=
  mkHandler
    [(TopologyKey [0; 1], "b_OH"); (TopologyKey [0; 2], "b_OH")]
    [("b_OH", mkPotential [("k", 1000%R); ("length", (1 / 10)%R)])]
    0 EmptyString [] [].

Definition water_angles : Handler :=
  mkHandler
    [(TopologyKey [1; 0; 2], "a_HOH")]
    [("a_HOH", mkPotential [("k", 100%R); ("angle", 90%R)])]
    0 EmptyString [] [].

(** The three virtual sites, with the out-of-plane angles of the two lone
    pairs left open. *)
Definition water_virtual_sites (monovalent_angle divalent_angle : R) : Handler :=
  mkHandler
    [(bond_charge_key, "vs_bond"); (monovalent_key, "vs_mono");
     (divalent_key, "vs_di")]
    [("vs_bond", mkPotential [("distance", (1 / 10)%R)]);
     ("vs_mono", mkPotential [("distance", (1 / 20)%R);
                              ("inPlaneAngle", 120%R);
                              ("outOfPlaneAngle", monovalent_angle)]);
     ("vs_di", mkPotential [("distance", (1 / 20)%R);
                            ("outOfPlaneAngle", divalent_angle)])]
    0 EmptyString [] [].

Definition water_vdw (rule : string) : Handler :=
  mkHandler
    [(TopologyKey [0], "n_O"); (TopologyKey [1], "n_H"); (TopologyKey [2], "n_H");
     (bond_charge_key, "n_VS"); (monovalent_key, "n_VS"); (divalent_key, "n_VS")]
    [("n_O", mkPotential [("sigma", (3 / 10)%R); ("epsilon", (1 / 2)%R)]);
     ("n_H", mkPotential [("sigma", (1 / 10)%R); ("epsilon", (1 / 8)%R)]);
     ("n_VS", mkPotential [("sigma", 1%R); ("epsilon", 0%R)])]
    (1 / 2) rule [] [].

(** A water molecule with the three virtual sites. *)
Definition water_model (monovalent_angle divalent_angle : R) : Interchange :=
  mkInterchange
    [("vdW", water_vdw "lorentz-berthelot");
     ("Electrostatics", water_electrostatics);
     ("Bonds", water_bonds);
     ("Angles", water_angles);
     ("VirtualSites", water_virtual_sites monovalent_angle divalent_angle)]
    water_topology
    [(0, 0, 0)%Q; (1 # 10, 0, 0)%Q; (0, 1 # 10, 0)%Q]
    None.

(** The same molecule with two O-H bonds of different lengths. *)
Definition lopsided_bonds : Handler :=
  mkHandler
    [(TopologyKey [0; 1], "b_short"); (TopologyKey [0; 2], "b_long")]
    [("b_short", mkPotential [("k", 1000%R); ("length", (1 / 10)%R)]);
     ("b_long", mkPotential [("k", 1000%R); ("length", (2 / 10)%R)])]
    0 EmptyString [] [].

Definition lopsided_water : Interchange :=
  mkInterchange
    [("vdW", water_vdw "lorentz-berthelot");
     ("Electrostatics", water_electrostatics);
     ("Bonds", lopsided_bonds);
     ("Angles", water_angles);
     ("VirtualSites", water_virtual_sites 0 0)]
    water_topology
    [(0, 0, 0)%Q; (1 # 10, 0, 0)%Q; (0, 1 # 10, 0)%Q]
    None.

(** A water molecule whose atoms are listed hydrogen, oxygen, hydrogen, so
    that the central atom of its lone pair has the index 1: two equal bonds
    from the oxygen, the angle at the oxygen, and a [DivalentLonePair] site
    in the plane of the molecule. *)
Definition hoh_key : key := VirtualSiteKey [0; 1; 2] "DivalentLonePair" "EP".

Definition hoh_bonds : Handler :=
  mkHandler
    [(TopologyKey [0; 1], "b_OH"); (TopologyKey [1; 2], "b_OH")]
    [("b_OH", mkPotential [("k", 1000%R); ("length", (1 / 10)%R)])]
    0 EmptyString [] [].

Definition hoh_virtual_sites : Handler :=
  mkHandler [(hoh_key, "vs_di")]
    [("vs_di", mkPotential [("distance", (1 / 20)%R);
                            ("outOfPlaneAngle", 0%R)])]
    0 EmptyString [] [].

Definition hoh_water : Interchange :=
  mkInterchange
    [("Bonds", hoh_bonds);
     ("Angles",
      mkHandler [(TopologyKey [0; 1; 2], "a_HOH")]
        [("a_HOH", mkPotential [("k", 100%R); ("angle", 90%R)])]
        0 EmptyString [] []);
     ("VirtualSites", hoh_virtual_sites)]
    (mkTopology [hydrogen; oxygen; hydrogen] [(0, 1); (1, 2)] [(0, 1, 2)] [] [])
    [(1 # 10, 0, 0)%Q; (0, 0, 0)%Q; (0, 1 # 10, 0)%Q]
    None.

(** A water molecule with one virtual site of a kind that the writer does
    not translate. *)
Definition trivalent_key : key :=
  VirtualSiteKey [0; 1; 2] "TrivalentLonePair" "EP4".

Definition trivalent_model : Interchange :=
  mkInterchange
    [("vdW",
      mkHandler
        [(TopologyKey [0], "n_O"); (TopologyKey [1], "n_H");
         (TopologyKey [2], "n_H"); (trivalent_key, "n_VS")]
        (potentials (water_vdw "lorentz-berthelot"))
        (1 / 2) "lorentz-berthelot" [] []);
     ("Electrostatics",
      mkHandler [] [] (5 / 6) EmptyString
        (charges water_electrostatics) [(trivalent_key, 0%R)]);
     ("Bonds", water_bonds);
     ("Angles", water_angles);
     ("VirtualSites",
      mkHandler [(trivalent_key, "vs_tri")]
        [("vs_tri", mkPotential [("distance", (1 / 20)%R)])]
        0 EmptyString [] [])]
    water_topology
    [(0, 0, 0)%Q; (1 # 10, 0, 0)%Q; (0, 1 # 10, 0)%Q]
    None.

(** A model that has both a [vdW] and a [Buckingham-6] handler. *)
Definition mixed_model : Interchange :=
  mkInterchange
    [("vdW", water_vdw "lorentz-berthelot");
     ("Buckingham-6",
      mkHandler
        [(TopologyKey [0], "k_O"); (TopologyKey [1], "k_H");
         (TopologyKey [2], "k_H")]
        [("k_O", mkPotential [("A", 1%R); ("B", 2%R); ("C", 3%R)]);
         ("k_H", mkPotential [("A", 4%R); ("B", 5%R); ("C", 6%R)])]
        (1 / 2) "buckingham" [] []);
     ("Electrostatics", water_electrostatics);
     ("Bonds", water_bonds);
     ("Angles", water_angles)]
    water_topology
    [(0, 0, 0)%Q; (1 # 10, 0, 0)%Q; (0, 1 # 10, 0)%Q]
    None.

(** The first three writes of [to_top]. *)
Definition top_preamble : file :=
  [Text "; Generated by OpenFF Interchange\n";
   Text "[ defaults ]\n";
   Text "; nbfunc\tcomb-rule\tgen-pairs\tfudgeLJ\tfudgeQQ\n"].

(** A ring of six carbon atoms.  Atoms 0 and 3 are the endpoints of two
    torsion paths, one on either side of the ring, and the first of them is
    listed in both directions. *)
Definition ring_topology : Topology :=
  let carbon := mkAtom "C" 12 6 0 "RNG" "RNG1" in
  mkTopology
    [carbon; carbon; carbon; carbon; carbon; carbon]
    [(0, 1); (1, 2); (2, 3); (3, 4); (4, 5); (5, 0)]
    []
    [(0, 1, 2, 3); (0, 5, 4, 3); (3, 2, 1, 0); (1, 2, 3, 4)]
    [].

Definition ring_vdw (rule : string) : Handler :=
  mkHandler
    (map (fun i => (TopologyKey [i], "n_C")) (seq 0 6))
    [("n_C", mkPotential [("sigma", (3 / 10)%R); ("epsilon", (1 / 2)%R)])]
    (1 / 2) rule [] [].

Definition ring_electrostatics : Handler :=
  mkHandler [] [] (5 / 6) EmptyString
    (map (fun i => (TopologyKey [i], 0%R)) (seq 0 6)) [].

Definition ring_model (rule : string) : Interchange :=
  mkInterchange
    [("vdW", ring_vdw rule); ("Electrostatics", ring_electrostatics)]
    ring_topology [] None.

(** A model whose only nonbonded handler is [Buckingham-6]. *)
Definition buckingham_model : Interchange :=
  mkInterchange
    [("Buckingham-6",
      mkHandler
        [(TopologyKey [0], "k_O"); (TopologyKey [1], "k_H");
         (TopologyKey [2], "k_H")]
        [("k_O", mkPotential [("A", 1%R); ("B", 2%R); ("C", 3%R)]);
         ("k_H", mkPotential [("A", 4%R); ("B", 5%R); ("C", 6%R)])]
        (1 / 2) "buckingham" [] []);
     ("Electrostatics", water_electrostatics)]
    water_topology
    [(0, 0, 0)%Q; (1 # 10, 0, 0)%Q; (0, 1 # 10, 0)%Q]
    None.

(** The handler whose mixing rule [_write_top_defaults] reads, with its
    name: [vdW] if the model has one, else [Buckingham-6]. *)
Definition active_nonbonded (openff_sys : Interchange)
  : option (string * Handler) :=
  match dict_get String.eqb (handlers openff_sys) "vdW" with
  | Some h => Some ("vdW", h)
  | None =>
      match dict_get String.eqb (handlers openff_sys) "Buckingham-6" with
      | Some h => Some ("Buckingham-6", h)
      | None => None
      end
  end.

(** The water molecule with a [Bonds] table that is keyed by the index pairs
    in descending order. *)
Definition descending_bonds : Handler :=
  mkHandler
    [(TopologyKey [1; 0], "b_OH"); (TopologyKey [2; 0], "b_OH")]
    [("b_OH", mkPotential [("k", 1000%R); ("length", (1 / 10)%R)])]
    0 EmptyString [] [].

Definition water_descending : Interchange :=
  mkInterchange [("Bonds", descending_bonds)] water_topology [] None.

(** A model of 100001 atoms at the origin. *)
Definition crowd_size : nat := N.to_nat 100001.

Definition crowd_model : Interchange :=
  mkInterchange []
    (mkTopology (repeat oxygen crowd_size) [] [] [] [])
    (repeat (0, 0, 0)%Q crowd_size)
    None.

(** The water molecule without a [Bonds] handler. *)
Definition water_without_bonds : Interchange :=
  mkInterchange
    [("vdW", water_vdw "lorentz-berthelot");
     ("Electrostatics", water_electrostatics);
     ("Angles", water_angles)]
    water_topology
    [(0, 0, 0)%Q; (1 # 10, 0, 0)%Q; (0, 1 # 10, 0)%Q]
    None.

(** The water molecule for the older writer, in three versions: with the
    table keyed by ascending index pairs, with the second bond keyed as it is
    declared, and with a [Bonds] handler that has no parameter sets. *)
Definition old_water (table : list (string * string))
    (sets : list (string * Potential)) : System.System :=
  System.mkSystem [("Bonds", System.mkHandler table sets)] [(0, 1); (2, 0)].

Definition old_bond_sets : list (string * Potential) :=
  [("b_OH", mkPotential [("k", 1000%R); ("length", (1 / 10)%R)])].

Definition old_water_ascending : System.System :=
  old_water [("(0, 1)", "b_OH"); ("(0, 2)", "b_OH")] old_bond_sets.

Definition old_water_as_declared : System.System :=
  old_water [("(0, 1)", "b_OH"); ("(2, 0)", "b_OH")] old_bond_sets.

Definition old_water_without_sets : System.System :=
  old_water [("(0, 1)", "b_OH"); ("(0, 2)", "b_OH")] [].

(** The header of the [ virtual_sites3 ] section, which is written before
    the first entry of the section only. *)
Definition virtual_sites3_header (started_virtual_sites3 : bool) : file :=
  if started_virtual_sites3 then []
  else [Text "\n[ virtual_sites3 ]\n; site  ai  aj  ak funct   a   b\n"].

(** The water molecule with a position for its first two atoms only, and
    with one position too many. *)
Definition water_short : Interchange :=
  mkInterchange (handlers (water_model 0 0)) water_topology
    [(0, 0, 0)%Q; (1 # 10, 0, 0)%Q] None.

Definition water_long : Interchange :=
  mkInterchange (handlers (water_model 0 0)) water_topology
    [(0, 0, 0)%Q; (1 # 10, 0, 0)%Q; (0, 1 # 10, 0)%Q; (1, 1, 1)%Q] None.

(** The water molecule in a box that is not rectangular. *)
Definition water_triclinic : Interchange :=
  mkInterchange (handlers (water_model 0 0)) water_topology
    (positions (water_model 0 0))
    (Some ((3, 0, 0), (0, 3, 0), (1, 0, 3))%Q).

(** A model without particles. *)
Definition empty_model : Interchange :=
  mkInterchange [] empty_topology [] None.

(** The water molecule with a carriage return in the residue name of its
    first atom. *)
Definition cr_oxygen : Atom :=
  mkAtom "O" 16 8 0 (String carriage_return "OH") "HOH1".

Definition cr_water : Interchange :=
  mkInterchange (handlers (water_model 0 0))
    (mkTopology [cr_oxygen; hydrogen; hydrogen] [(0, 1); (2, 0)] [(1, 0, 2)]
       [] [])
    (positions (water_model 0 0)) None.

(** The water molecule with an atom that is more than 10000 nm from the
    origin. *)
Definition far_water : Interchange :=
  mkInterchange (handlers (water_model 0 0)) water_topology
    [(0, 0, binary64 (12345678 # 1000))%Q; (binary64 (1 # 10), 0, 0)%Q;
     (0, binary64 (1 # 10), 0)%Q]
    None.

(** The water molecule with an atom at the double nearest to 0.1235, which
    is under 0.1235, and an atom at the double nearest to -0.1. *)
Definition halfway_water : Interchange :=
  mkInterchange (handlers (water_model 0 0)) water_topology
    [(binary64 (1235 # 10000), 0, 0)%Q; (binary64 (1 # 10), 0, 0)%Q;
     (0, binary64 (- (1 # 10)), 0)%Q]
    None.

(** What the loop writes before the first row of [ virtual_sites2 ]. *)
Definition virtual_sites2_header (started_virtual_sites2 : bool) : file :=
  if started_virtual_sites2 then []
  else [Text "\n[ virtual_sites2 ]\n; site  ai  aj  funct   a\n"].

(** A chain of four atoms with two angles, of which only the first has
    parameters. *)
Definition chain_topology : Topology :=
  mkTopology [oxygen; hydrogen; hydrogen; hydrogen] [(0, 1); (1, 2); (2, 3)]
    [(0, 1, 2); (1, 2, 3)] [] [].

Definition chain_angles : Handler :=
  mkHandler [(TopologyKey [0; 1; 2], "a1")]
    [("a1", mkPotential [("k", 300%R); ("angle", 109%R)])]
    0 EmptyString [] [].

Definition chain_model : Interchange :=
  mkInterchange [("Angles", chain_angles)] chain_topology [] None.

(** A chain of five atoms with two torsions, of which the table of
    [ProperTorsions] has the first only. *)
Definition torsion_topology : Topology :=
  mkTopology [oxygen; hydrogen; hydrogen; hydrogen; hydrogen]
    [(0, 1); (1, 2); (2, 3); (3, 4)] []
    [(0, 1, 2, 3); (1, 2, 3, 4)] [].

Definition torsion_propers : Handler :=
  mkHandler [(TopologyKey [0; 1; 2; 3], "t1")]
    [("t1", mkPotential [("k", 4%R); ("periodicity", 2%R); ("phase", 180%R)])]
    0 EmptyString [] [].

Definition torsion_model : Interchange :=
  mkInterchange [("ProperTorsions", torsion_propers)] torsion_topology [] None.

(** A chain of four atoms with one torsion, whose only nonbonded handler
    is [Buckingham-6]. *)
Definition buckingham_chain : Interchange :=
  mkInterchange (handlers buckingham_model)
    (mkTopology [oxygen; hydrogen; hydrogen; hydrogen]
       [(0, 1); (1, 2); (2, 3)] [(0, 1, 2); (1, 2, 3)] [(0, 1, 2, 3)] [])
    [] None.

(* END VOCABULARY *)

(** * Properties *)

(** ** Generic facts about the runtime model *)

#[local] Arguments bind : simpl never.
#[local] Arguments write : simpl never.
#[local] Arguments lift : simpl never.
#[local] Arguments ret : simpl never.
#[local] Arguments raise : simpl never.

Lemma bind_inv {C A B : Type} (m : writer C A) (k : A -> writer C B) w r :
  bind m k = (w, r) ->
  match m with
  | (w1, Ok a) => exists w2, k a = (w2, r) /\ w = w1 ++ w2
  | (w1, Raise e) => w = w1 /\ r = Raise e
  end.
Proof.
  unfold bind. destruct m as [w1 [a | e]].
  - destruct (k a) as [w2 r2] eqn:E. intros H. inversion H; subst.
    exists w2. split; reflexivity.
  - intros H. inversion H; subst. split; reflexivity.
Qed.

Lemma bind_ok {C A B : Type} (m : writer C A) (k : A -> writer C B) w1 a :
  m = (w1, Ok a) -> bind m k = (w1 ++ fst (k a), snd (k a)).
Proof. intros ->. unfold bind. destruct (k a); reflexivity. Qed.

Lemma bind_raise {C A B : Type} (m : writer C A) (k : A -> writer C B) w1 e :
  m = (w1, Raise e) -> bind m k = (w1, Raise e).
Proof. intros ->. reflexivity. Qed.

Lemma bind_write {C B : Type} (c : C) (k : unit -> writer C B) :
  bind (write c) k = (c :: fst (k tt), snd (k tt)).
Proof. unfold bind, write. destruct (k tt); reflexivity. Qed.

Lemma bind_lift_ok {C A B : Type} (a : A) (k : A -> writer C B) :
  bind (lift (Ok a)) k = k a.
Proof. unfold bind, lift. destruct (k a); reflexivity. Qed.

Lemma bind_lift_raise {C A B : Type} (e : exn) (k : A -> writer C B) :
  bind (lift (Raise e)) k = ([], Raise e).
Proof. reflexivity. Qed.

Lemma bind_ret {C A B : Type} (a : A) (k : A -> writer C B) :
  bind (ret a) k = k a.
Proof. unfold bind, ret. destruct (k a); reflexivity. Qed.

Lemma bind_raise_l {C A B : Type} (e : exn) (k : A -> writer C B) :
  bind (raise e) k = ([], Raise e).
Proof. reflexivity. Qed.

Lemma fst_bind {C A B : Type} (m : writer C A) (k : A -> writer C B) :
  fst (bind m k)
  = fst m ++ match snd m with Ok a => fst (k a) | Raise _ => [] end.
Proof.
  unfold bind. destruct m as [w [a | e]]; simpl.
  - destruct (k a); reflexivity.
  - now rewrite app_nil_r.
Qed.

Lemma snd_bind {C A B : Type} (m : writer C A) (k : A -> writer C B) :
  snd (bind m k)
  = match snd m with Ok a => snd (k a) | Raise e => Raise e end.
Proof.
  unfold bind. destruct m as [w [a | e]]; simpl; trivial.
  destruct (k a); reflexivity.
Qed.

Lemma bind_assoc {C A B D : Type} (m : writer C A) (k : A -> writer C B)
    (k' : B -> writer C D) :
  bind (bind m k) k' = bind m (fun a => bind (k a) k').
Proof.
  unfold bind. destruct m as [w [a | e]]; [| reflexivity].
  destruct (k a) as [w2 [b | e2]]; [| reflexivity].
  destruct (k' b) as [w3 r]. now rewrite app_assoc.
Qed.

Lemma bind_write_prepend {C B : Type} (c : C) (k : unit -> writer C B) :
  bind (write c) k = prepend [c] (k tt).
Proof. unfold bind, write, prepend. destruct (k tt); reflexivity. Qed.

Lemma prepend_pair {C A : Type} (w w' : list C) (r : result A) :
  prepend w (w', r) = (w ++ w', r).
Proof. reflexivity. Qed.

Lemma prepend_prepend {C A : Type} (w w' : list C) (m : writer C A) :
  prepend w (prepend w' m) = prepend (w ++ w') m.
Proof. unfold prepend. cbn [fst snd]. now rewrite app_assoc. Qed.

Lemma bind_prepend {C A B : Type} (w : list C) (m : writer C A)
    (k : A -> writer C B) :
  bind (prepend w m) k = prepend w (bind m k).
Proof.
  unfold bind, prepend. destruct m as [w1 [a | e]]; cbn [fst snd].
  - destruct (k a) as [w2 r]. cbn [fst snd]. now rewrite app_assoc.
  - reflexivity.
Qed.

Lemma key_eqb_refl (k : key) : key_eqb k k = true.
Proof. unfold key_eqb. destruct (key_eq_dec k k); congruence. Qed.

Lemma key_eqb_eq (a b : key) : key_eqb a b = true <-> a = b.
Proof.
  unfold key_eqb. destruct (key_eq_dec a b); split; congruence.
Qed.

Lemma key_eqb_neq (a b : key) : a <> b -> key_eqb a b = false.
Proof. unfold key_eqb. destruct (key_eq_dec a b); congruence. Qed.

Lemma dict_set_fresh {V : Type} (d : list (key * V)) k v :
  ~ In k (dict_keys d) -> dict_set key_eqb d k v = d ++ [(k, v)].
Proof.
  induction d as [| [k' v'] d IH]; simpl; intros Hn.
  - reflexivity.
  - rewrite key_eqb_neq by (intros ->; apply Hn; now left).
    rewrite IH by (intros Hin; apply Hn; now right). reflexivity.
Qed.

Lemma dict_get_app_fresh {V : Type} (d1 d2 : list (key * V)) k :
  ~ In k (dict_keys d1) ->
  dict_get key_eqb (d1 ++ d2) k = dict_get key_eqb d2 k.
Proof.
  induction d1 as [| [k' v'] d1 IH]; simpl; intros Hn.
  - reflexivity.
  - rewrite key_eqb_neq by (intros ->; apply Hn; now left).
    apply IH. intros Hin; apply Hn; now right.
Qed.

Lemma dict_keys_combine {K V : Type} (ks : list K) (vs : list V) :
  length ks = length vs -> dict_keys (combine ks vs) = ks.
Proof.
  revert vs. induction ks as [| k ks IH]; intros [| v vs]; simpl; intros H;
    try discriminate; try reflexivity.
  unfold dict_keys in *. simpl. f_equal. apply IH. lia.
Qed.

(** ** Index assignment *)

Lemma build_map_fold (base : nat) (keys : list key) :
  forall (start : nat) (acc : list (key * nat)),
    NoDup keys ->
    (forall k, In k keys -> ~ In k (dict_keys acc)) ->
    fold_left
      (fun m '(index, virtual_site_key) =>
         dict_set key_eqb m virtual_site_key (base + 1 + index))
      (enumerate_from start keys) acc
    = acc ++ combine keys (seq (base + 1 + start) (length keys)).
Proof.
  induction keys as [| k keys IH]; intros start acc Hnd Hfresh; simpl.
  - now rewrite app_nil_r.
  - inversion Hnd as [| ? ? Hk Hnd']; subst.
    rewrite dict_set_fresh by (apply Hfresh; now left).
    rewrite IH; trivial.
    + rewrite <- app_assoc. simpl. repeat f_equal. lia.
    + intros k' Hin Hacc. unfold dict_keys in Hacc.
      rewrite map_app in Hacc. apply in_app_or in Hacc.
      destruct Hacc as [Hacc | Hacc].
      * apply (Hfresh k'); [now right | exact Hacc].
      * simpl in Hacc. destruct Hacc as [<- | []]. contradiction.
Qed.

Lemma build_virtual_site_map_spec (interchange : Interchange) :
  NoDup (virtual_site_keys interchange) ->
  _build_virtual_site_map interchange
  = combine (virtual_site_keys interchange)
      (seq (n_atoms (mdtop interchange) + 1)
         (length (virtual_site_keys interchange))).
Proof.
  unfold _build_virtual_site_map, virtual_site_keys, has_handler, dict_mem,
    interchange_item.
  destruct (dict_get String.eqb (handlers interchange) "VirtualSites") as [h |];
    simpl; intros Hnd.
  - unfold enumerate. rewrite build_map_fold; auto.
    simpl. now rewrite Nat.add_0_r.
  - reflexivity.
Qed.

Lemma dict_get_combine_nth (keys : list key) :
  forall (start j : nat) (k : key),
    NoDup keys ->
    nth_error keys j = Some k ->
    dict_get key_eqb (combine keys (seq start (length keys))) k
    = Some (start + j).
Proof.
  induction keys as [| k0 keys IH]; intros start j k Hnd Hj.
  - destruct j; discriminate.
  - inversion Hnd as [| ? ? Hk Hnd']; subst. destruct j as [| j]; simpl in *.
    + inversion Hj; subst. rewrite key_eqb_refl. f_equal. lia.
    + rewrite key_eqb_neq.
      * rewrite (IH (S start) j k); trivial. f_equal. lia.
      * intros ->. apply Hk. eapply nth_error_In; eauto.
Qed.

Section EmitsPrefix.
Context {X : Type} (proj : chunk -> list X).

Lemma emits_prefix_bind {A B : Type} (m : io A) (k : A -> io B) l1 l2 :
  emits_prefix proj m l1 ->
  (forall a, emits_prefix proj (k a) l2) ->
  emits_prefix proj (bind m k) (l1 ++ l2).
Proof.
  intros (n1 & Hn1 & Hw1 & Hok1) Hk. unfold emits_prefix.
  rewrite fst_bind, snd_bind. destruct m as [w1 [a | e]]; simpl in *.
  - destruct (Hk a) as (n2 & Hn2 & Hw2 & Hok2).
    specialize (Hok1 eq_refl). subst n1.
    exists (length l1 + n2). rewrite length_app, flat_map_app, Hw1, Hw2.
    repeat split.
    + lia.
    + rewrite firstn_all, firstn_app_2. reflexivity.
    + intros Hok. rewrite (Hok2 Hok). reflexivity.
  - exists n1. rewrite length_app, app_nil_r, Hw1. repeat split.
    + lia.
    + rewrite firstn_app. replace (n1 - length l1) with 0 by lia.
      simpl. now rewrite app_nil_r.
    + discriminate.
Qed.

Lemma emits_prefix_silent {A : Type} (r : result A) :
  emits_prefix proj (([], r) : io A) [].
Proof. exists 0. simpl. repeat split; auto. Qed.

Lemma emits_prefix_write (c : chunk) :
  emits_prefix proj (write c) (proj c).
Proof.
  exists (length (proj c)). unfold write. simpl.
  rewrite app_nil_r, firstn_all. repeat split; auto.
Qed.

Lemma emits_prefix_write_bind {A : Type} (c : chunk) (k : unit -> io A) l :
  emits_prefix proj (k tt) l ->
  emits_prefix proj (bind (write c) k) (proj c ++ l).
Proof.
  intros H. apply emits_prefix_bind.
  - apply emits_prefix_write.
  - intros []. exact H.
Qed.

Lemma emits_prefix_write_other {A : Type} (c : chunk) (k : unit -> io A) l :
  proj c = [] ->
  emits_prefix proj (k tt) l ->
  emits_prefix proj (bind (write c) k) l.
Proof.
  intros Hc H. change l with ([] ++ l). rewrite <- Hc.
  now apply emits_prefix_write_bind.
Qed.

Lemma emits_prefix_lift {A B : Type} (r : result A) (k : A -> io B) l :
  (forall a, emits_prefix proj (k a) l) ->
  emits_prefix proj (bind (lift r) k) l.
Proof.
  intros H. change l with ([] ++ l). apply emits_prefix_bind; trivial.
  apply emits_prefix_silent.
Qed.

Lemma emits_prefix_for_state {A St : Type} (out_of : A -> list X)
    (body : St -> A -> io St) :
  (forall s x, emits_prefix proj (body s x) (out_of x)) ->
  forall (l : list A) (s : St),
    emits_prefix proj (for_state l s body) (flat_map out_of l).
Proof.
  intros Hbody. induction l as [| x l IH]; intros s; simpl.
  - apply emits_prefix_silent.
  - apply emits_prefix_bind; auto.
Qed.

Lemma emits_prefix_for_state_silent {A St : Type} (body : St -> A -> io St) :
  (forall s x, emits_prefix proj (body s x) []) ->
  forall (l : list A) (s : St), emits_prefix proj (for_state l s body) [].
Proof.
  intros Hbody l s.
  replace (@nil X) with (flat_map (fun _ : A => @nil X) l)
    by (induction l; simpl; auto).
  now apply emits_prefix_for_state.
Qed.

End EmitsPrefix.

Lemma flat_map_nil {A B : Type} (l : list A) :
  flat_map (fun _ : A => @nil B) l = [].
Proof. induction l; simpl; auto. Qed.

Lemma flat_map_singleton {A B : Type} (f : A -> B) (l : list A) :
  flat_map (fun x => [f x]) l = map f l.
Proof. induction l; simpl; congruence. Qed.

Lemma map_num_enumerate_from {A : Type} (l : list A) (start : nat) :
  map (fun p : nat * A => fst p + 1) (enumerate_from start l)
  = seq (start + 1) (length l).
Proof.
  revert start. induction l as [| a l IH]; intros start; simpl.
  - reflexivity.
  - f_equal. apply IH.
Qed.

(** The rows of the [ atoms ] section: the real atoms in topology order,
    then the virtual sites in the order of the map, up to the point where
    the writer stops. *)
Lemma write_atoms_numbers (openff_sys : Interchange)
    (typemap : list (nat * string)) (virtual_site_map : list (key * nat)) :
  numbers_prefix (_write_atoms openff_sys typemap virtual_site_map)
    (seq 1 (n_atoms (mdtop openff_sys)) ++ map snd virtual_site_map).
Proof.
  unfold numbers_prefix, _write_atoms, n_atoms, enumerate.
  do 2 apply (emits_prefix_write_bind atoms_num (Text _)).
  apply emits_prefix_lift. intros es.
  apply emits_prefix_bind.
  - replace (seq 1 (length (atoms (mdtop openff_sys))))
      with (map (fun p : nat * Atom => fst p + 1)
              (enumerate_from 0 (atoms (mdtop openff_sys))))
      by apply map_num_enumerate_from.
    rewrite <- flat_map_singleton.
    apply emits_prefix_for_state. intros s [i a].
    apply emits_prefix_lift. intros atom_type.
    apply emits_prefix_lift. intros charge.
    rewrite <- (app_nil_r [fst (i, a) + 1]).
    apply (emits_prefix_write_bind atoms_num (AtomsRow _ _ _ _ _ _ _ _)).
    apply emits_prefix_silent.
  - intros charge.
    rewrite <- (app_nil_r (map snd virtual_site_map)).
    apply emits_prefix_bind.
    + rewrite <- flat_map_singleton.
      apply emits_prefix_for_state. intros s [k index].
      change [snd (k, index)] with ([] ++ [index]).
      apply emits_prefix_bind.
      * destruct s; apply emits_prefix_silent.
      * intros _. apply emits_prefix_lift. intros h.
        apply emits_prefix_lift. intros c.
        rewrite <- (app_nil_r [index]).
        apply (emits_prefix_write_bind atoms_num (AtomsRow _ _ _ _ _ _ _ _)).
        apply emits_prefix_silent.
    + intros _.
      do 2 apply (emits_prefix_write_bind atoms_num (Text _)).
      change (@nil nat) with (@nil nat ++ []).
      apply emits_prefix_bind.
      * destruct (interchange_item openff_sys "vdW") as [h | []];
          try apply emits_prefix_silent.
        apply emits_prefix_lift. intros h. apply emits_prefix_silent.
      * intros [mixing scale].
        rewrite <- (flat_map_nil (set_of (_iterate_pairs (mdtop openff_sys)))).
        apply emits_prefix_for_state. intros _ pair. unfold _write_pair.
        repeat (apply emits_prefix_lift; intros ?).
        change (@nil nat) with (@nil nat ++ []).
        apply emits_prefix_bind.
        -- destruct (_ =? _)%string; [apply emits_prefix_silent |].
           destruct (_ =? _)%string; apply emits_prefix_silent.
        -- intros sigma_mix. apply (emits_prefix_write atoms_num (PairsRow _ _ _ _ _)).
Qed.

Lemma In_firstn {A : Type} (n : nat) (l : list A) (x : A) :
  In x (firstn n l) -> In x l.
Proof.
  revert n. induction l as [| a l IH]; intros [| n]; simpl; try tauto.
  intros [H | H]; [now left | right; eauto].
Qed.

Lemma NoDup_firstn {A : Type} (n : nat) (l : list A) :
  NoDup l -> NoDup (firstn n l).
Proof.
  revert n. induction l as [| a l IH]; intros [| n] H; simpl;
    try constructor.
  - inversion H; subst. intros Hin. apply In_firstn in Hin. contradiction.
  - inversion H; subst. auto.
Qed.

(** ** Sorting *)

Lemma insert_sorted_perm (x : nat) (l : list nat) :
  Permutation (insert_sorted x l) (x :: l).
Proof.
  induction l as [| y l IH]; simpl.
  - reflexivity.
  - destruct (x <=? y).
    + reflexivity.
    + rewrite IH. apply perm_swap.
Qed.

Lemma sorted_perm (l : list nat) : Permutation (sorted l) l.
Proof.
  induction l as [| x l IH]; simpl.
  - reflexivity.
  - rewrite insert_sorted_perm. now constructor.
Qed.

Lemma insert_sorted_sorted (x : nat) (l : list nat) :
  Sorted le l -> Sorted le (insert_sorted x l).
Proof.
  induction l as [| y l IH]; simpl; intros Hs.
  - repeat constructor.
  - destruct (Nat.leb_spec x y) as [Hxy | Hxy].
    + constructor; [exact Hs | constructor; exact Hxy].
    + inversion Hs as [| ? ? Hs' Hhd]; subst. constructor.
      * apply IH, Hs'.
      * destruct l as [| z l]; simpl.
        -- constructor. lia.
        -- destruct (x <=? z); constructor; try lia.
           inversion Hhd; subst. assumption.
Qed.

Lemma sorted_sorted (l : list nat) : Sorted le (sorted l).
Proof.
  induction l as [| x l IH]; simpl.
  - constructor.
  - apply insert_sorted_sorted, IH.
Qed.

Lemma sorted_three (l : list nat) :
  length l = 3 ->
  exists a1 a2 a3,
    sorted l = [a1; a2; a3] /\ a1 <= a2 /\ a2 <= a3
    /\ Permutation [a1; a2; a3] l.
Proof.
  intros Hlen.
  pose proof (sorted_perm l) as Hp. pose proof (sorted_sorted l) as Hs.
  assert (Hl : length (sorted l) = 3)
    by (rewrite (Permutation_length Hp); exact Hlen).
  destruct (sorted l) as [| a1 [| a2 [| a3 [| a4 t]]]]; try discriminate.
  exists a1, a2, a3. repeat split; trivial.
  - inversion Hs as [| ? ? _ Hhd]; subst. now inversion Hhd.
  - inversion Hs as [| ? ? Hs' _]; subst.
    inversion Hs' as [| ? ? _ Hhd]; subst. now inversion Hhd.
Qed.

Lemma sorted_two (a b : nat) :
  sorted [a; b] = [Nat.min a b; Nat.max a b].
Proof.
  simpl. destruct (Nat.leb_spec a b).
  - now rewrite Nat.min_l, Nat.max_r by lia.
  - now rewrite Nat.min_r, Nat.max_l by lia.
Qed.

(** ** Virtual-site geometry *)

Lemma bind_bind_header {A : Type} (started : bool) (s : string)
    (k : unit -> io A) :
  bind (if negb started then write (Text s) else ret tt) k
  = ((if started then [] else [Text s]) ++ fst (k tt), snd (k tt)).
Proof.
  destruct started; simpl.
  - rewrite bind_ret. now destruct (k tt).
  - apply bind_write.
Qed.

(** C2.  A MonovalentLonePair site with three parent atoms, an entry in the
    index map and a resolved out-of-plane angle is translated only when
    that angle is exactly zero: otherwise the writer raises the
    NotImplementedError that it uses for an unsupported geometry, and no
    entry is written.  When the angle is zero, the entry lists the parent
    atoms sorted ascending by index, with the construction function 3 and
    the coefficients [a = 180 - in_plane_angle] and [b = distance]. *)
Theorem monovalent_lone_pair_translation (openff_sys : Interchange)
    (virtual_site_handler : Handler) (virtual_site_map : list (key * nat))
    (started2 started3 : bool) (virtual_site_key : key)
    (virtual_site_index : nat) (out_of_plane_angle : R) :
  type_of virtual_site_key = "MonovalentLonePair" ->
  length (atom_indices virtual_site_key) = 3 ->
  dict_item key_eqb virtual_site_map virtual_site_key = Ok virtual_site_index ->
  parameter_of virtual_site_handler virtual_site_key "outOfPlaneAngle"
  = Ok out_of_plane_angle ->
  let translate :=
    _virtual_site_loop_body openff_sys virtual_site_handler virtual_site_map
      (started2, started3) virtual_site_key in
  (out_of_plane_angle <> 0%R ->
   translate
   = (virtual_sites3_header started3,
      Raise (NotImplementedError
               "Unclear how to do MonovalentLonePair virtual sites with GROMACS")))
  /\ (out_of_plane_angle = 0%R ->
      forall distance in_plane_angle : R,
        parameter_of virtual_site_handler virtual_site_key "distance"
        = Ok distance ->
        parameter_of virtual_site_handler virtual_site_key "inPlaneAngle"
        = Ok in_plane_angle ->
        exists atom1 atom2 atom3,
          sorted (atom_indices virtual_site_key) = [atom1; atom2; atom3]
          /\ atom1 <= atom2 /\ atom2 <= atom3
          /\ Permutation [atom1; atom2; atom3] (atom_indices virtual_site_key)
          /\ translate
             = (virtual_sites3_header started3
                ++ [VirtualSites3Row virtual_site_index (atom1 + 1)
                      (atom2 + 1) (atom3 + 1) 3
                      [(180 - in_plane_angle)%R; distance]],
                Ok (started2, true))).
Proof.
  intros Htype Hlen Hidx Hoop translate.
  destruct (sorted_three _ Hlen) as (a1 & a2 & a3 & Hsorted & H12 & H23 & Hperm).
  unfold translate, _virtual_site_loop_body, _write_monovalent_lone_pair.
  rewrite Htype, Hsorted, Hidx, Hoop.
  cbn [String.eqb Ascii.eqb Bool.eqb length Nat.eqb negb nth].
  unfold virtual_sites3_header, bind, lift, ret, write, raise.
  split.
  - intros Hne. destruct started3; cbn [negb app];
      (destruct (Req_dec_T out_of_plane_angle 0); [contradiction |]);
      reflexivity.
  - intros Hzero distance in_plane_angle Hdistance Hin_plane.
    exists a1, a2, a3. repeat split; trivial.
    rewrite Hdistance, Hin_plane.
    destruct started3; cbn [negb app];
      (destruct (Req_dec_T out_of_plane_angle 0); [| contradiction]);
      reflexivity.
Qed.

Lemma monovalent_lone_pair_translation_witness :
  _virtual_site_loop_body (water_model 0 0) (water_virtual_sites 0 0)
    (_build_virtual_site_map (water_model 0 0)) (false, false) monovalent_key
  = (virtual_sites3_header false
     ++ [VirtualSites3Row 5 1 2 3 3 [(180 - 120)%R; (1 / 20)%R]],
     Ok (false, true))
  /\ _virtual_site_loop_body (water_model 1 0) (water_virtual_sites 1 0)
       (_build_virtual_site_map (water_model 1 0)) (false, false) monovalent_key
     = (virtual_sites3_header false,
        Raise (NotImplementedError
                 "Unclear how to do MonovalentLonePair virtual sites with GROMACS")).
Proof.
  split.
  - destruct (monovalent_lone_pair_translation (water_model 0 0)
                (water_virtual_sites 0 0)
                (_build_virtual_site_map (water_model 0 0)) false false
                monovalent_key 5 0%R
                eq_refl eq_refl eq_refl eq_refl) as [_ Hzero].
    destruct (Hzero eq_refl (1 / 20)%R 120%R eq_refl eq_refl)
      as (a1 & a2 & a3 & Hsorted & _ & _ & _ & Hrow).
    simpl in Hsorted. injection Hsorted as <- <- <-. exact Hrow.
  - destruct (monovalent_lone_pair_translation (water_model 1 0)
                (water_virtual_sites 1 0)
                (_build_virtual_site_map (water_model 1 0)) false false
                monovalent_key 5 1%R
                eq_refl eq_refl eq_refl eq_refl) as [Hnonzero _].
    apply Hnonzero. exact R1_neq_R0.
Defined.


Lemma right_angle_in_radians : m_as_radian 90 = (PI / 2)%R.
Proof. unfold m_as_radian. field. Qed.

Lemma cos_quarter_turn_neq_0 : cos (m_as_radian 90 / 2) <> 0%R.
Proof.
  rewrite right_angle_in_radians.
  apply Rgt_not_eq, cos_gt_0; pose proof PI_RGT_0; lra.
Qed.



(** ** Unsupported kinds of virtual sites *)

Lemma all_types_supported_false (keys : list key) (k : key) :
  Forall (fun k' => is_VirtualSiteKey k' = true) keys ->
  In k keys ->
  ~ In (type_of k) supported_types ->
  all_types_supported keys = Ok false.
Proof.
  intros Hall Hin Hkind. induction keys as [| k0 keys IH]; [contradiction |].
  inversion Hall as [| ? ? Hk0 Hall']; subst.
  destruct k0 as [l | l t name]; [discriminate |].
  cbn [all_types_supported key_type rbind].
  destruct (existsb (String.eqb t) supported_types) eqn:Hex; [| reflexivity].
  destruct Hin as [<- | Hin]; [| now apply IH].
  exfalso. apply Hkind. cbn [type_of]. apply existsb_exists in Hex.
  destruct Hex as (t' & Hin' & Heq). apply String.eqb_eq in Heq.
  subst t'. exact Hin'.
Qed.

(** C9, as the writer has it.  When the VirtualSites table, keyed by
    virtual-site keys, holds a key whose kind is not BondCharge,
    MonovalentLonePair or DivalentLonePair, [_write_virtual_sites] raises
    before it writes anything and before it translates any site; what it
    raises is a NotImplementedError, the exception that it also raises for
    an unsupported geometry. *)
Theorem unsupported_kind_raises_before_translation (openff_sys : Interchange)
    (virtual_site_map : list (key * nat)) (virtual_site_handler : Handler)
    (k : key) :
  dict_get String.eqb (handlers openff_sys) "VirtualSites"
  = Some virtual_site_handler ->
  Forall (fun k' => is_VirtualSiteKey k' = true)
    (dict_keys (slot_map virtual_site_handler)) ->
  In k (dict_keys (slot_map virtual_site_handler)) ->
  ~ In (type_of k) supported_types ->
  _write_virtual_sites openff_sys virtual_site_map
  = ([], Raise (NotImplementedError
                  "Only BondCharge virtual sites are implemented")).
Proof.
  intros Hhandler Hall Hin Hkind.
  unfold _write_virtual_sites, has_handler, dict_mem, interchange_item.
  rewrite Hhandler. cbn [negb]. rewrite bind_lift_ok.
  rewrite (all_types_supported_false _ k Hall Hin Hkind).
  rewrite bind_lift_ok. reflexivity.
Qed.

Lemma unsupported_kind_raises_before_translation_witness :
  _write_virtual_sites trivalent_model (_build_virtual_site_map trivalent_model)
  = ([], Raise (NotImplementedError
                  "Only BondCharge virtual sites are implemented")).
Proof.
  apply (unsupported_kind_raises_before_translation trivalent_model _
           (mkHandler [(trivalent_key, "vs_tri")]
              [("vs_tri", mkPotential [("distance", (1 / 20)%R)])]
              0 EmptyString [] [])
           trivalent_key).
  - reflexivity.
  - repeat constructor.
  - left. reflexivity.
  - simpl. intuition discriminate.
Defined.

(** C9, as the specification has it, fails: for a site of the kind
    TrivalentLonePair the exception is not an UnsupportedExportError,
    neither from [_write_virtual_sites] nor from the export as a whole. *)
Lemma unsupported_kind_is_not_an_unsupported_export :
  (exists k, In k (virtual_site_keys trivalent_model)
             /\ ~ In (type_of k) supported_types)
  /\ ~ (exists msg,
          snd (_write_virtual_sites trivalent_model
                 (_build_virtual_site_map trivalent_model))
          = Raise (UnsupportedExportError msg))
  /\ snd (to_top trivalent_model None)
     = Raise (NotImplementedError
                "Only BondCharge virtual sites are implemented").
Proof.
  split; [| split].
  - exists trivalent_key. split; [left; reflexivity |].
    simpl. intuition discriminate.
  - intros [msg H]. discriminate H.
  - reflexivity.
Qed.

(** ** The compatibility gate *)

Lemma has_handler_true (i : Interchange) (name : string) :
  has_handler i name = true ->
  exists h, dict_get String.eqb (handlers i) name = Some h.
Proof.
  unfold has_handler, dict_mem.
  destruct (dict_get String.eqb (handlers i) name) as [h |]; [eauto | discriminate].
Qed.

(** With a [vdW] handler, [_write_top_defaults] writes the two heading lines
    of the section and then, when the mixing rule of the handler is
    lorentz-berthelot or geometric, the row of the section, or raises
    KeyError for want of an [Electrostatics] handler; for any other mixing
    rule it raises an UnsupportedExportError. *)
Lemma write_top_defaults_with_vdw (openff_sys : Interchange) (vdw : Handler) :
  interchange_item openff_sys "vdW" = Ok vdw ->
  _write_top_defaults openff_sys
  = if (mixing_rule vdw =? "lorentz-berthelot")%string
       || (mixing_rule vdw =? "geometric")%string
    then
      match handlers_item openff_sys "Electrostatics" with
      | Ok es =>
          ([Text "[ defaults ]\n";
            Text "; nbfunc\tcomb-rule\tgen-pairs\tfudgeLJ\tfudgeQQ\n";
            DefaultsRow 1
              (if (mixing_rule vdw =? "lorentz-berthelot")%string
               then 2 else 3)
              "no" (scale_14 vdw) (scale_14 es)],
           Ok tt)
      | Raise _ =>
          ([Text "[ defaults ]\n";
            Text "; nbfunc\tcomb-rule\tgen-pairs\tfudgeLJ\tfudgeQQ\n"],
           Raise KeyError)
      end
    else
      ([Text "[ defaults ]\n";
        Text "; nbfunc\tcomb-rule\tgen-pairs\tfudgeLJ\tfudgeQQ\n"],
       Raise (UnsupportedExportError
                ("Mixing rule `" ++ mixing_rule vdw
                 ++ " not compatible with GROMACS and/or not supported "
                 ++ "by current exporter. Supported values are `lorentez-berthelot` and `geometric`."))).
Proof.
  intros Hvdw.
  assert (Hh : dict_get String.eqb (handlers openff_sys) "vdW" = Some vdw).
  { unfold interchange_item in Hvdw.
    destruct (dict_get String.eqb (handlers openff_sys) "vdW");
      [injection Hvdw as -> | discriminate]; reflexivity. }
  unfold _write_top_defaults, has_handler, dict_mem. rewrite Hh.
  rewrite !bind_write_prepend, prepend_prepend, bind_assoc, Hvdw.
  rewrite bind_lift_ok, bind_ret. cbv beta iota.
  rewrite Hvdw, bind_lift_ok.
  cbn [String.eqb Ascii.eqb Bool.eqb andb].
  unfold handlers_item, dict_item.
  destruct (mixing_rule vdw =? "lorentz-berthelot")%string.
  { rewrite bind_ret. cbn [orb].
    destruct (dict_get String.eqb (handlers openff_sys) "Electrostatics");
      [rewrite bind_lift_ok | rewrite bind_lift_raise]; reflexivity. }
  destruct (mixing_rule vdw =? "geometric")%string.
  { rewrite bind_ret. cbn [orb].
    destruct (dict_get String.eqb (handlers openff_sys) "Electrostatics");
      [rewrite bind_lift_ok | rewrite bind_lift_raise]; reflexivity. }
  rewrite Bool.andb_false_r, bind_raise_l. reflexivity.
Qed.

(** C3, as the writer has it.  For a model that has both a [vdW] and a
    [Buckingham-6] handler the export never completes, and what it has
    written when it raises is known to the last write.  The target file has
    been opened for writing, which creates or truncates it, so that whatever
    the path held before is gone, and the header line and the two heading
    lines of the [ defaults ] section have been written.  When the mixing
    rule of [vdW] is lorentz-berthelot or geometric and the model has an
    [Electrostatics] handler, the row of the section follows, and the
    UnsupportedExportError of [_write_atomtypes] is raised with nothing
    more written; without [Electrostatics] the error is KeyError, and for
    any other mixing rule it is the UnsupportedExportError of the
    [ defaults ] writer, both with no row. *)
Theorem mixed_potentials_fail_after_output (openff_sys : Interchange)
    (before : path_state) (vdw : Handler) :
  interchange_item openff_sys "vdW" = Ok vdw ->
  has_handler openff_sys "Buckingham-6" = true ->
  to_top openff_sys before
  = if (mixing_rule vdw =? "lorentz-berthelot")%string
       || (mixing_rule vdw =? "geometric")%string
    then
      match handlers_item openff_sys "Electrostatics" with
      | Ok es =>
          (Some (top_preamble
                 ++ [DefaultsRow 1
                       (if (mixing_rule vdw =? "lorentz-berthelot")%string
                        then 2 else 3)
                       "no" (scale_14 vdw) (scale_14 es)]),
           Raise (UnsupportedExportError
                    "Cannot mix 12-6 and Buckingham potentials in GROMACS"))
      | Raise _ => (Some top_preamble, Raise KeyError)
      end
    else
      (Some top_preamble,
       Raise (UnsupportedExportError
                ("Mixing rule `" ++ mixing_rule vdw
                 ++ " not compatible with GROMACS and/or not supported "
                 ++ "by current exporter. Supported values are `lorentez-berthelot` and `geometric`."))).
Proof.
  intros Hvdw Hbuck.
  assert (Hhas : has_handler openff_sys "vdW" = true).
  { unfold has_handler, dict_mem. unfold interchange_item in Hvdw.
    now destruct (dict_get String.eqb (handlers openff_sys) "vdW"). }
  unfold to_top, to_top_body.
  rewrite bind_write_prepend, (write_top_defaults_with_vdw _ _ Hvdw).
  unfold _write_atomtypes. rewrite Hhas, Hbuck.
  destruct ((mixing_rule vdw =? "lorentz-berthelot")%string
            || (mixing_rule vdw =? "geometric")%string);
    [destruct (handlers_item openff_sys "Electrostatics") |]; reflexivity.
Qed.

Lemma mixed_potentials_fail_after_output_witness :
  to_top mixed_model (Some [Text "a topology of last week"])
  = (Some (top_preamble ++ [DefaultsRow 1 2 "no" (1 / 2) (5 / 6)]),
     Raise (UnsupportedExportError
              "Cannot mix 12-6 and Buckingham potentials in GROMACS")).
Proof.
  exact (mixed_potentials_fail_after_output mixed_model
           (Some [Text "a topology of last week"])
           (water_vdw "lorentz-berthelot") eq_refl eq_refl).
Defined.

(** C3, as the specification has it, fails: the export of a model with both
    handlers raises the UnsupportedExportError only after four writes, and
    the file that was at the target path has been replaced by them. *)
Lemma mixed_potentials_output_is_produced :
  has_handler mixed_model "vdW" = true
  /\ has_handler mixed_model "Buckingham-6" = true
  /\ to_top mixed_model (Some [Text "a topology of last week"])
     = (Some (top_preamble ++ [DefaultsRow 1 2 "no" (1 / 2) (5 / 6)]),
        Raise (UnsupportedExportError
                 "Cannot mix 12-6 and Buckingham potentials in GROMACS"))
  /\ fst (to_top mixed_model (Some [Text "a topology of last week"]))
     <> Some [Text "a topology of last week"]
  /\ fst (to_top mixed_model None) <> None.
Proof.
  repeat split; try reflexivity; discriminate.
Qed.

(** ** The 1-4 pairs *)

(** One pass of the loop over the pairs writes the entry of the pair, or
    raises before it writes. *)
Lemma write_pair_entry (openff_sys : Interchange) (rule : string) (scale : R)
    (pair : nat * nat) :
  emits_prefix pairs_entry (_write_pair openff_sys rule scale pair)
    [entry_of_pair pair].
Proof.
  unfold _write_pair, entry_of_pair. rewrite sorted_two. cbn [nth].
  repeat (apply emits_prefix_lift; intros ?).
  change [?x] with ([] ++ [x]).
  apply emits_prefix_bind.
  - destruct (_ =? _)%string; [apply emits_prefix_silent |].
    destruct (_ =? _)%string; apply emits_prefix_silent.
  - intros sigma_mix.
    apply (emits_prefix_write pairs_entry (PairsRow _ _ _ _ _)).
Qed.

(** The rows of the [ pairs ] section: one entry for each element of the set
    of pairs, up to the point where the writer stops. *)
Lemma write_atoms_pairs (openff_sys : Interchange)
    (typemap : list (nat * string)) (virtual_site_map : list (key * nat)) :
  emits_prefix pairs_entry (_write_atoms openff_sys typemap virtual_site_map)
    (map entry_of_pair (set_of (_iterate_pairs (mdtop openff_sys)))).
Proof.
  unfold _write_atoms.
  do 2 (apply emits_prefix_write_other; [reflexivity |]).
  apply emits_prefix_lift. intros es.
  rewrite <- (app_nil_l (map _ _)).
  apply emits_prefix_bind.
  - apply emits_prefix_for_state_silent. intros s [i a].
    apply emits_prefix_lift. intros atom_type.
    apply emits_prefix_lift. intros charge.
    apply emits_prefix_write_other; [reflexivity |].
    apply emits_prefix_silent.
  - intros charge. rewrite <- (app_nil_l (map _ _)).
    apply emits_prefix_bind.
    + apply emits_prefix_for_state_silent. intros s [k index].
      change (@nil (nat * nat)) with (@nil (nat * nat) ++ []).
      apply emits_prefix_bind.
      * destruct s; apply emits_prefix_silent.
      * intros _. apply emits_prefix_lift. intros h.
        apply emits_prefix_lift. intros c.
        apply emits_prefix_write_other; [reflexivity |].
        apply emits_prefix_silent.
    + intros _.
      do 2 (apply emits_prefix_write_other; [reflexivity |]).
      rewrite <- (app_nil_l (map _ _)).
      apply emits_prefix_bind.
      * destruct (interchange_item openff_sys "vdW") as [h | []];
          try apply emits_prefix_silent.
        apply emits_prefix_lift. intros h. apply emits_prefix_silent.
      * intros [mixing scale]. rewrite <- flat_map_singleton.
        apply emits_prefix_for_state. intros _ pair.
        apply write_pair_entry.
Qed.

Lemma iterate_pairs_ascending (t : Topology) (p : nat * nat) :
  In p (_iterate_pairs t) -> fst p <= snd p.
Proof.
  unfold _iterate_pairs. rewrite in_map_iff.
  intros ([[[i j] k] l] & <- & _). simpl. lia.
Qed.

Lemma entry_of_pair_ascending (p : nat * nat) :
  fst p <= snd p -> entry_of_pair p = (fst p + 1, snd p + 1).
Proof.
  intros H. unfold entry_of_pair. now rewrite Nat.min_l, Nat.max_r by lia.
Qed.

Lemma pair_entries_NoDup (t : Topology) :
  NoDup (map entry_of_pair (set_of (_iterate_pairs t))).
Proof.
  unfold set_of.
  assert (Hasc : forall p, In p (nodup pair_eq_dec (_iterate_pairs t)) ->
                           fst p <= snd p).
  { intros p Hp. apply iterate_pairs_ascending with (t := t).
    now apply nodup_In in Hp. }
  pose proof (NoDup_nodup pair_eq_dec (_iterate_pairs t)) as Hnd.
  induction (nodup pair_eq_dec (_iterate_pairs t)) as [| p l IH]; simpl.
  - constructor.
  - inversion Hnd as [| ? ? Hp Hnd']; subst. constructor.
    + rewrite in_map_iff. intros (q & Heq & Hq). apply Hp.
      rewrite !entry_of_pair_ascending in Heq
        by (apply Hasc; simpl; auto).
      destruct p, q. simpl in Heq. injection Heq as H1 H2.
      assert (n1 = n) by lia. assert (n2 = n0) by lia. subst. exact Hq.
    + apply IH; trivial. intros q Hq. apply Hasc. now right.
Qed.

(** C4.  The entries of the [ pairs ] section are, in the order of
    iteration over the set of pairs, one for each pair of torsion endpoints,
    with the two atom numbers in ascending order; when the section is
    written to its end there is exactly one entry for the two endpoints of
    every torsion, however many torsion paths join them, and when the writer
    raises on the way the entries written are a prefix of these.  No entry
    is ever written twice. *)
Theorem one_entry_per_endpoint_pair (openff_sys : Interchange)
    (typemap : list (nat * string)) (virtual_site_map : list (key * nat)) :
  let written := fst (_write_atoms openff_sys typemap virtual_site_map) in
  let outcome := snd (_write_atoms openff_sys typemap virtual_site_map) in
  emits_prefix pairs_entry (_write_atoms openff_sys typemap virtual_site_map)
    (map entry_of_pair (set_of (_iterate_pairs (mdtop openff_sys))))
  /\ NoDup (pairs_entries written)
  /\ (forall ai aj, In (ai, aj) (pairs_entries written) -> ai <= aj)
  /\ (is_ok outcome = true ->
      forall i j k l,
        In (i, j, k, l) (propers (mdtop openff_sys)) ->
        count_occ pair_eq_dec (pairs_entries written)
          (Nat.min i l + 1, Nat.max i l + 1) = 1
        /\ (i <> l ->
            count_occ pair_eq_dec (pairs_entries written)
              (Nat.max i l + 1, Nat.min i l + 1) = 0)).
Proof.
  intros written outcome.
  pose proof (write_atoms_pairs openff_sys typemap virtual_site_map) as Hpre.
  pose proof (pair_entries_NoDup (mdtop openff_sys)) as Hnd.
  assert (Hasc : forall ai aj,
             In (ai, aj)
               (map entry_of_pair (set_of (_iterate_pairs (mdtop openff_sys)))) ->
             ai <= aj).
  { intros ai aj Hin. apply in_map_iff in Hin.
    destruct Hin as (p & Heq & _). unfold entry_of_pair in Heq.
    injection Heq as <- <-. lia. }
  destruct Hpre as (n & Hn & Hw & Hok).
  fold written in Hw. fold (pairs_entries written) in Hw.
  fold outcome in Hok.
  split; [exists n; auto |].
  split; [rewrite Hw; apply NoDup_firstn, Hnd |].
  split.
  - intros ai aj Hin. rewrite Hw in Hin. apply In_firstn in Hin. auto.
  - intros Hdone i j k l Hin. rewrite Hw, (Hok Hdone), firstn_all.
    assert (Hentry :
      In (Nat.min i l + 1, Nat.max i l + 1)
        (map entry_of_pair (set_of (_iterate_pairs (mdtop openff_sys))))).
    { apply in_map_iff. exists (Nat.min i l, Nat.max i l). split.
      - unfold entry_of_pair. simpl.
        now rewrite Nat.min_l, Nat.max_r by lia.
      - apply nodup_In. unfold _iterate_pairs. apply in_map_iff.
        exists (i, j, k, l). split; [reflexivity | exact Hin]. }
    split.
    + apply NoDup_count_occ' with (decA := pair_eq_dec); assumption.
    + intros Hne. apply count_occ_not_In. intros Hrev.
      apply Hasc in Hrev. lia.
Qed.

Lemma one_entry_per_endpoint_pair_witness :
  In (0, 1, 2, 3) (propers (mdtop (ring_model "geometric")))
  /\ In (0, 5, 4, 3) (propers (mdtop (ring_model "geometric")))
  /\ In (3, 2, 1, 0) (propers (mdtop (ring_model "geometric")))
  /\ count_occ pair_eq_dec
       (pairs_entries
          (fst (_write_atoms (ring_model "geometric")
                  (_build_typemap (ring_model "geometric")) [])))
       (1, 4) = 1.
Proof.
  assert (H1 : In (0, 1, 2, 3) (propers (mdtop (ring_model "geometric"))))
    by (simpl; tauto).
  assert (H2 : In (0, 5, 4, 3) (propers (mdtop (ring_model "geometric"))))
    by (simpl; tauto).
  assert (H3 : In (3, 2, 1, 0) (propers (mdtop (ring_model "geometric"))))
    by (simpl; tauto).
  split; [exact H1 | split; [exact H2 | split; [exact H3 |]]].
  destruct (one_entry_per_endpoint_pair (ring_model "geometric")
              (_build_typemap (ring_model "geometric")) [])
    as (_ & _ & _ & Honce).
  exact (proj1 (Honce eq_refl 0 5 4 3 H2)).
Defined.

(** ** Mixing rules *)

Lemma in_fst_bind {C A B : Type} (m : writer C A) (k : A -> writer C B) c :
  In c (fst (bind m k)) ->
  In c (fst m) \/ exists a, snd m = Ok a /\ In c (fst (k a)).
Proof.
  rewrite fst_bind. intros Hin. apply in_app_or in Hin.
  destruct Hin as [Hin | Hin]; [now left |].
  destruct (snd m) as [a | e]; [right; eauto | contradiction].
Qed.

Lemma in_fst_for_state {C A St : Type} (body : St -> A -> writer C St) c :
  forall (l : list A) (s : St),
    In c (fst (for_state l s body)) ->
    exists s' x, In x l /\ In c (fst (body s' x)).
Proof.
  induction l as [| x l IH]; intros s Hin; simpl in Hin.
  - contradiction.
  - apply in_fst_bind in Hin. destruct Hin as [Hin | (s' & _ & Hin)].
    + exists s, x. split; [now left | exact Hin].
    + destruct (IH s' Hin) as (s'' & y & Hy & Hc).
      exists s'', y. split; [now right | exact Hc].
Qed.

Lemma lj_sigma_epsilon_intro (openff_sys : Interchange) (i : nat)
    (p : list (string * R)) (sigma epsilon : R) :
  _get_lj_parameters openff_sys i = Ok p ->
  dict_item String.eqb p "sigma" = Ok sigma ->
  dict_item String.eqb p "epsilon" = Ok epsilon ->
  lj_sigma_epsilon openff_sys i = Ok (sigma, epsilon).
Proof.
  intros Hp Hs He. unfold lj_sigma_epsilon. rewrite Hp. cbn [rbind].
  rewrite Hs. cbn [rbind]. rewrite He. reflexivity.
Qed.

(** What one pass of the loop over the pairs writes, if it writes. *)
Lemma write_pair_row (openff_sys : Interchange) (rule : string) (scale : R)
    (pair : nat * nat) (c : chunk) :
  In c (fst (_write_pair openff_sys rule scale pair)) ->
  exists s1 e1 s2 e2,
    lj_sigma_epsilon openff_sys (Nat.min (fst pair) (snd pair)) = Ok (s1, e1)
    /\ lj_sigma_epsilon openff_sys (Nat.max (fst pair) (snd pair)) = Ok (s2, e2)
    /\ ((rule = "lorentz-berthelot"
         /\ c = PairsRow (Nat.min (fst pair) (snd pair) + 1)
                  (Nat.max (fst pair) (snd pair) + 1) 1
                  (Real ((s1 + s2) / 2))
                  (number_mul (pow_half (e1 * e2)) scale))
        \/ (rule = "geometric"
            /\ c = PairsRow (Nat.min (fst pair) (snd pair) + 1)
                     (Nat.max (fst pair) (snd pair) + 1) 1
                     (pow_half (s1 * s2))
                     (number_mul (pow_half (e1 * e2)) scale)))%R.
Proof.
  unfold _write_pair. rewrite sorted_two. cbn [nth].
  destruct (_get_lj_parameters openff_sys (Nat.min (fst pair) (snd pair)))
    as [p1 |] eqn:Hp1; [rewrite bind_lift_ok | intros []].
  destruct (dict_item String.eqb p1 "sigma") as [s1 |] eqn:Hs1;
    [rewrite bind_lift_ok | intros []].
  destruct (dict_item String.eqb p1 "epsilon") as [e1 |] eqn:He1;
    [rewrite bind_lift_ok | intros []].
  destruct (_get_lj_parameters openff_sys (Nat.max (fst pair) (snd pair)))
    as [p2 |] eqn:Hp2; [rewrite bind_lift_ok | intros []].
  destruct (dict_item String.eqb p2 "sigma") as [s2 |] eqn:Hs2;
    [rewrite bind_lift_ok | intros []].
  destruct (dict_item String.eqb p2 "epsilon") as [e2 |] eqn:He2;
    [rewrite bind_lift_ok | intros []].
  intros Hin. exists s1, e1, s2, e2.
  split; [eapply lj_sigma_epsilon_intro; eauto |].
  split; [eapply lj_sigma_epsilon_intro; eauto |].
  destruct (String.eqb_spec rule "lorentz-berthelot") as [-> | _].
  - rewrite bind_ret in Hin. destruct Hin as [<- | []]. left.
    split; [reflexivity |]. do 2 f_equal. lra.
  - destruct (String.eqb_spec rule "geometric") as [-> | _].
    + rewrite bind_ret in Hin. destruct Hin as [<- | []]. right.
      split; reflexivity.
    + destruct Hin.
Qed.

(** An unsupported mixing rule stops [_write_top_defaults] after the two
    heading lines of the section. *)
Lemma write_top_defaults_unsupported_rule (openff_sys : Interchange)
    (name : string) (h : Handler) :
  active_nonbonded openff_sys = Some (name, h) ->
  mixing_rule h <> "lorentz-berthelot" ->
  mixing_rule h <> "geometric" ->
  ~ (mixing_rule h = "buckingham" /\ name = "Buckingham-6") ->
  exists msg,
    _write_top_defaults openff_sys
    = ([Text "[ defaults ]\n";
        Text "; nbfunc\tcomb-rule\tgen-pairs\tfudgeLJ\tfudgeQQ\n"],
       Raise (UnsupportedExportError msg)).
Proof.
  unfold active_nonbonded, _write_top_defaults, has_handler, dict_mem,
    interchange_item.
  intros Hactive Hlb Hgeo Hbuck.
  rewrite !bind_write_prepend, prepend_prepend.
  assert (Hgate :
    forall nbfunc : nat,
      dict_get String.eqb (handlers openff_sys) name = Some h ->
      (name = "Buckingham-6" -> mixing_rule h <> "buckingham") ->
      exists msg,
        prepend
          ([Text "[ defaults ]\n"]
           ++ [Text "; nbfunc\tcomb-rule\tgen-pairs\tfudgeLJ\tfudgeQQ\n"])
          ((fun x : nat * R * string * string =>
              let '(nbfunc, scale_lj, gen_pairs, handler_key) := x in
              h0 <- lift match dict_get String.eqb (handlers openff_sys) handler_key with
                         | Some h0 => Ok h0
                         | None => Raise LookupError
                         end ;;
              comb_rule <-
                (if (mixing_rule h0 =? "lorentz-berthelot")%string then ret 2
                 else if (mixing_rule h0 =? "geometric")%string then ret 3
                 else if (mixing_rule h0 =? "buckingham")%string
                         && (handler_key =? "Buckingham-6")%string
                 then ret 2
                 else
                   raise (UnsupportedExportError
                     ("Mixing rule `" ++ mixing_rule h0
                      ++ " not compatible with GROMACS and/or not supported "
                      ++ "by current exporter. Supported values are `lorentez-berthelot` and `geometric`."))) ;;
              es <- lift (handlers_item openff_sys "Electrostatics") ;;
              write (DefaultsRow nbfunc comb_rule gen_pairs scale_lj (scale_14 es)))
             (nbfunc, scale_14 h, "no", name))
        = ([Text "[ defaults ]\n";
            Text "; nbfunc\tcomb-rule\tgen-pairs\tfudgeLJ\tfudgeQQ\n"],
           Raise (UnsupportedExportError msg))).
  { intros nbfunc Hname Hnot. cbv beta iota. rewrite Hname, bind_lift_ok.
    destruct (String.eqb_spec (mixing_rule h) "lorentz-berthelot");
      [contradiction |].
    destruct (String.eqb_spec (mixing_rule h) "geometric"); [contradiction |].
    destruct (String.eqb_spec (mixing_rule h) "buckingham") as [Hb | _];
      destruct (String.eqb_spec name "Buckingham-6") as [Hn | _];
      cbn [andb]; try (exfalso; now apply (Hnot Hn)).
    all: rewrite bind_raise_l; eexists; reflexivity. }
  destruct (dict_get String.eqb (handlers openff_sys) "vdW") as [hv |] eqn:Hv.
  - injection Hactive as <- <-. rewrite bind_assoc, bind_lift_ok, bind_ret.
    apply Hgate; [exact Hv | discriminate].
  - destruct (dict_get String.eqb (handlers openff_sys) "Buckingham-6")
      as [hb |] eqn:Hb; [| discriminate].
    injection Hactive as <- <-. rewrite bind_assoc, bind_lift_ok, bind_ret.
    apply Hgate; [exact Hb |]. intros _ Hrule. apply Hbuck. now split.
Qed.

Ltac in_step H :=
  apply in_fst_bind in H; destruct H as [H | (? & ? & H)].

(** A row of the [ pairs ] section comes from one pass of the loop over the
    pairs, run with the mixing rule and the scale factor of the [vdW]
    handler. *)
Lemma pairs_row_origin (openff_sys : Interchange)
    (typemap : list (nat * string)) (virtual_site_map : list (key * nat))
    (ai aj funct : nat) (sigma epsilon : number) :
  In (PairsRow ai aj funct sigma epsilon)
    (fst (_write_atoms openff_sys typemap virtual_site_map)) ->
  exists h pair,
    interchange_item openff_sys "vdW" = Ok h
    /\ In pair (_iterate_pairs (mdtop openff_sys))
    /\ In (PairsRow ai aj funct sigma epsilon)
         (fst (_write_pair openff_sys (mixing_rule h) (scale_14 h) pair)).
Proof.
  unfold _write_atoms. intros H.
  in_step H; [destruct H as [H | []]; discriminate |].
  in_step H; [destruct H as [H | []]; discriminate |].
  in_step H; [destruct H |].
  in_step H.
  { apply in_fst_for_state in H. destruct H as (s & [i a] & _ & H).
    in_step H; [destruct H |]. in_step H; [destruct H |].
    in_step H; [destruct H as [H | []]; discriminate | destruct H]. }
  in_step H.
  { apply in_fst_for_state in H. destruct H as (s & [k index] & _ & H).
    in_step H; [destruct s; destruct H |].
    in_step H; [destruct H |]. in_step H; [destruct H |].
    in_step H; [destruct H as [H | []]; discriminate | destruct H]. }
  in_step H; [destruct H as [H | []]; discriminate |].
  in_step H; [destruct H as [H | []]; discriminate |].
  in_step H.
  { destruct (interchange_item openff_sys "vdW") as [h | []];
      try (destruct H).
    in_step H; destruct H. }
  match goal with
  | Hm : snd _ = Ok ?p |- _ => destruct p as [rule scale]; rename Hm into Hrule
  end.
  apply in_fst_for_state in H. destruct H as (_ & pair & Hpair & H).
  apply nodup_In in Hpair.
  destruct (interchange_item openff_sys "vdW") as [h |] eqn:Hvdw.
  - injection Hrule as <- <-. exists h, pair. auto.
  - exfalso. destruct (write_pair_row _ _ _ _ _ H) as (s1 & e1 & _ & _ & Hlj & _).
    unfold lj_sigma_epsilon, _get_lj_parameters, handlers_item, dict_item in Hlj.
    unfold interchange_item in Hvdw.
    destruct (dict_get String.eqb (handlers openff_sys) "vdW");
      discriminate.
Qed.

(** With a mixing rule that it accepts, [_write_top_defaults] writes the
    row of the section, or raises KeyError for want of an [Electrostatics]
    handler. *)
Lemma write_top_defaults_accepted_rule (openff_sys : Interchange)
    (name : string) (h : Handler) (comb_rule : nat) :
  active_nonbonded openff_sys = Some (name, h) ->
  (mixing_rule h = "lorentz-berthelot" /\ comb_rule = 2)
  \/ (mixing_rule h = "geometric" /\ comb_rule = 3)
  \/ (mixing_rule h = "buckingham" /\ name = "Buckingham-6"
      /\ comb_rule = 2) ->
  _write_top_defaults openff_sys
  = match handlers_item openff_sys "Electrostatics" with
    | Ok es =>
        ([Text "[ defaults ]\n";
          Text "; nbfunc\tcomb-rule\tgen-pairs\tfudgeLJ\tfudgeQQ\n";
          DefaultsRow (if (name =? "vdW")%string then 1 else 2)
            comb_rule "no" (scale_14 h) (scale_14 es)],
         Ok tt)
    | Raise _ =>
        ([Text "[ defaults ]\n";
          Text "; nbfunc\tcomb-rule\tgen-pairs\tfudgeLJ\tfudgeQQ\n"],
         Raise KeyError)
    end.
Proof.
  intros Hactive Hrule.
  assert (Hname : dict_get String.eqb (handlers openff_sys) name = Some h
                  /\ (if dict_mem String.eqb (handlers openff_sys) "vdW"
                      then name = "vdW"
                      else name = "Buckingham-6"
                           /\ dict_mem String.eqb (handlers openff_sys)
                                "Buckingham-6" = true)).
  { unfold active_nonbonded, dict_mem in *.
    destruct (dict_get String.eqb (handlers openff_sys) "vdW") eqn:Hv.
    - injection Hactive as <- <-. auto.
    - destruct (dict_get String.eqb (handlers openff_sys) "Buckingham-6")
        eqn:Hb; [| discriminate].
      injection Hactive as <- <-. auto. }
  destruct Hname as [Hh Hname].
  assert (Hcomb :
    forall handler_key : string,
      handler_key = name ->
      (if (mixing_rule h =? "lorentz-berthelot")%string then ret 2
       else if (mixing_rule h =? "geometric")%string then ret 3
       else if (mixing_rule h =? "buckingham")%string
               && (handler_key =? "Buckingham-6")%string
       then ret 2
       else
         raise (UnsupportedExportError
           ("Mixing rule `" ++ mixing_rule h
            ++ " not compatible with GROMACS and/or not supported "
            ++ "by current exporter. Supported values are `lorentez-berthelot` and `geometric`.")))
      = (ret comb_rule : io nat)).
  { intros handler_key ->.
    destruct Hrule as [[-> ->] | [[-> ->] | (-> & -> & ->)]]; reflexivity. }
  assert (Hes :
    forall k : Handler -> io unit,
      bind (lift (handlers_item openff_sys "Electrostatics")) k
      = match handlers_item openff_sys "Electrostatics" with
        | Ok es => k es
        | Raise _ => ([], Raise KeyError)
        end).
  { intros k. unfold handlers_item, dict_item.
    destruct (dict_get String.eqb (handlers openff_sys) "Electrostatics");
      [apply bind_lift_ok | reflexivity]. }
  unfold _write_top_defaults, has_handler, interchange_item.
  rewrite !bind_write_prepend, prepend_prepend.
  destruct (dict_mem String.eqb (handlers openff_sys) "vdW").
  - subst name. rewrite Hh, bind_assoc, bind_lift_ok, bind_ret. cbv beta iota.
    rewrite Hh, bind_lift_ok, (Hcomb "vdW" eq_refl), bind_ret, Hes.
    destruct (handlers_item openff_sys "Electrostatics"); reflexivity.
  - destruct Hname as [-> Hb]. rewrite Hb, Hh.
    rewrite bind_assoc, bind_lift_ok, bind_ret. cbv beta iota.
    rewrite Hh, bind_lift_ok, (Hcomb "Buckingham-6" eq_refl), bind_ret, Hes.
    destruct (handlers_item openff_sys "Electrostatics"); reflexivity.
Qed.

(** C5, as the writer has it.  Every row of the [ pairs ] section belongs
    to a pair of torsion endpoints [i <= l] whose Lennard-Jones parameters
    were resolved, and it carries the atom numbers [i + 1] and [l + 1], the
    function 1, the geometric mean of the two epsilons scaled by the 1-4
    factor of the [vdW] handler, and for sigma the arithmetic mean of the
    two sigmas under lorentz-berthelot or their geometric mean under
    geometric; no row is written under any other rule.  A geometric mean is
    the square root of the product where the product is not negative; of a
    negative product the writer takes [x ** 0.5] all the same, which is no
    real number.  The [ defaults ] writer raises an UnsupportedExportError
    for every mixing rule other than these two, except for the rule
    buckingham on a [Buckingham-6] handler: that rule it accepts, as it
    accepts the two others, and writes the row of the section with the
    combination rule 2. *)
Theorem pairs_follow_the_mixing_rule :
  (forall (openff_sys : Interchange) (typemap : list (nat * string))
          (virtual_site_map : list (key * nat)) (ai aj funct : nat)
          (sigma epsilon : number),
      In (PairsRow ai aj funct sigma epsilon)
        (fst (_write_atoms openff_sys typemap virtual_site_map)) ->
      exists h i l s1 e1 s2 e2,
        interchange_item openff_sys "vdW" = Ok h
        /\ In (i, l) (_iterate_pairs (mdtop openff_sys))
        /\ i <= l
        /\ lj_sigma_epsilon openff_sys i = Ok (s1, e1)
        /\ lj_sigma_epsilon openff_sys l = Ok (s2, e2)
        /\ ai = i + 1 /\ aj = l + 1 /\ funct = 1
        /\ (0 <= e1 * e2 -> epsilon = Real (sqrt (e1 * e2) * scale_14 h))%R
        /\ (e1 * e2 < 0 -> epsilon = NotReal)%R
        /\ ((mixing_rule h = "lorentz-berthelot"
             /\ sigma = Real ((s1 + s2) / 2)%R)
            \/ (mixing_rule h = "geometric"
                /\ (0 <= s1 * s2 -> sigma = Real (sqrt (s1 * s2)))%R
                /\ (s1 * s2 < 0 -> sigma = NotReal)%R)))
  /\ (forall (openff_sys : Interchange) (name : string) (h : Handler),
         active_nonbonded openff_sys = Some (name, h) ->
         mixing_rule h <> "lorentz-berthelot" ->
         mixing_rule h <> "geometric" ->
         ~ (mixing_rule h = "buckingham" /\ name = "Buckingham-6") ->
         exists msg,
           _write_top_defaults openff_sys
           = ([Text "[ defaults ]\n";
               Text "; nbfunc\tcomb-rule\tgen-pairs\tfudgeLJ\tfudgeQQ\n"],
              Raise (UnsupportedExportError msg)))
  /\ (forall (openff_sys : Interchange) (name : string) (h es : Handler)
            (comb_rule : nat),
         active_nonbonded openff_sys = Some (name, h) ->
         handlers_item openff_sys "Electrostatics" = Ok es ->
         (mixing_rule h = "lorentz-berthelot" /\ comb_rule = 2)
         \/ (mixing_rule h = "geometric" /\ comb_rule = 3)
         \/ (mixing_rule h = "buckingham" /\ name = "Buckingham-6"
             /\ comb_rule = 2) ->
         _write_top_defaults openff_sys
         = ([Text "[ defaults ]\n";
             Text "; nbfunc\tcomb-rule\tgen-pairs\tfudgeLJ\tfudgeQQ\n";
             DefaultsRow (if (name =? "vdW")%string then 1 else 2)
               comb_rule "no" (scale_14 h) (scale_14 es)],
            Ok tt)).
Proof.
  split; [| split; [exact write_top_defaults_unsupported_rule |]].
  - intros openff_sys typemap virtual_site_map ai aj funct sigma epsilon Hin.
    destruct (pairs_row_origin _ _ _ _ _ _ _ _ Hin)
      as (h & [i l] & Hvdw & Hpair & Hrow).
    pose proof (iterate_pairs_ascending _ _ Hpair) as Hil. simpl in Hil.
    destruct (write_pair_row _ _ _ _ _ Hrow)
      as (s1 & e1 & s2 & e2 & Hlj1 & Hlj2 & Hcases).
    cbn [fst snd] in *. rewrite Nat.min_l in * by exact Hil.
    rewrite Nat.max_r in * by exact Hil.
    exists h, i, l, s1, e1, s2, e2.
    assert (Hpow : forall x scale : R,
              ((0 <= x -> number_mul (pow_half x) scale = Real (sqrt x * scale))
               /\ (x < 0 -> number_mul (pow_half x) scale = NotReal))%R).
    { intros x scale. unfold pow_half.
      destruct (Rle_dec 0 x); split; intros Hx; try reflexivity; lra. }
    assert (Hroot : forall x : R,
              ((0 <= x -> pow_half x = Real (sqrt x))
               /\ (x < 0 -> pow_half x = NotReal))%R).
    { intros x. unfold pow_half.
      destruct (Rle_dec 0 x); split; intros Hx; try reflexivity; lra. }
    destruct Hcases as [[Hrule Heq] | [Hrule Heq]];
      injection Heq as -> -> -> -> ->;
      repeat split; auto; apply Hpow.
  - intros openff_sys name h es comb_rule Hactive Hes Hrule.
    rewrite (write_top_defaults_accepted_rule _ _ _ _ Hactive Hrule), Hes.
    reflexivity.
Qed.

Lemma pairs_follow_the_mixing_rule_witness :
  (exists h i l s1 e1 s2 e2,
      interchange_item (ring_model "lorentz-berthelot") "vdW" = Ok h
      /\ In (i, l) (_iterate_pairs (mdtop (ring_model "lorentz-berthelot")))
      /\ i <= l
      /\ lj_sigma_epsilon (ring_model "lorentz-berthelot") i = Ok (s1, e1)
      /\ lj_sigma_epsilon (ring_model "lorentz-berthelot") l = Ok (s2, e2)
      /\ 1 = i + 1 /\ 4 = l + 1 /\ 1 = 1
      /\ (0 <= e1 * e2 ->
          number_mul (pow_half (1 / 2 * (1 / 2))) (1 / 2)
          = Real (sqrt (e1 * e2) * scale_14 h))%R
      /\ (e1 * e2 < 0 ->
          number_mul (pow_half (1 / 2 * (1 / 2))) (1 / 2) = NotReal)%R
      /\ ((mixing_rule h = "lorentz-berthelot"
           /\ Real ((3 / 10 + 3 / 10) * 0.5)%R = Real ((s1 + s2) / 2)%R)
          \/ (mixing_rule h = "geometric"
              /\ (0 <= s1 * s2 ->
                  Real ((3 / 10 + 3 / 10) * 0.5) = Real (sqrt (s1 * s2)))%R
              /\ (s1 * s2 < 0 ->
                  Real ((3 / 10 + 3 / 10) * 0.5)%R = NotReal)%R)))
  /\ (exists msg,
         _write_top_defaults (ring_model "kong")
         = ([Text "[ defaults ]\n";
             Text "; nbfunc\tcomb-rule\tgen-pairs\tfudgeLJ\tfudgeQQ\n"],
            Raise (UnsupportedExportError msg)))
  /\ _write_top_defaults buckingham_model
     = ([Text "[ defaults ]\n";
         Text "; nbfunc\tcomb-rule\tgen-pairs\tfudgeLJ\tfudgeQQ\n";
         DefaultsRow 2 2 "no" (1 / 2) (5 / 6)],
        Ok tt).
Proof.
  destruct pairs_follow_the_mixing_rule as (Hrows & Hgate & Haccepted).
  split; [| split].
  - apply (Hrows (ring_model "lorentz-berthelot")
             (_build_typemap (ring_model "lorentz-berthelot")) []).
    cbv [_write_atoms ring_model]. simpl. tauto.
  - apply (Hgate (ring_model "kong") "vdW" (ring_vdw "kong")).
    + reflexivity.
    + discriminate.
    + discriminate.
    + intros [H _]. discriminate H.
  - refine (Haccepted buckingham_model "Buckingham-6" _ water_electrostatics 2
              eq_refl eq_refl _).
    right; right. repeat split; reflexivity.
Defined.

(** C5, as the specification has it, fails: the mixing rule buckingham is
    neither of the two, and the [ defaults ] writer accepts it on a
    [Buckingham-6] handler and writes the combination rule 2. *)
Lemma buckingham_rule_is_accepted :
  active_nonbonded buckingham_model
  = Some ("Buckingham-6",
          mkHandler
            [(TopologyKey [0], "k_O"); (TopologyKey [1], "k_H");
             (TopologyKey [2], "k_H")]
            [("k_O", mkPotential [("A", 1%R); ("B", 2%R); ("C", 3%R)]);
             ("k_H", mkPotential [("A", 4%R); ("B", 5%R); ("C", 6%R)])]
            (1 / 2) "buckingham" [] [])
  /\ "buckingham" <> "lorentz-berthelot"
  /\ "buckingham" <> "geometric"
  /\ _write_top_defaults buckingham_model
     = ([Text "[ defaults ]\n";
         Text "; nbfunc\tcomb-rule\tgen-pairs\tfudgeLJ\tfudgeQQ\n";
         DefaultsRow 2 2 "no" (1 / 2) (5 / 6)],
        Ok tt).
Proof.
  repeat split; try discriminate.
Qed.

(** ** Bonds *)

Lemma list_nat_eqb_eq (a b : list nat) : list_nat_eqb a b = true <-> a = b.
Proof.
  unfold list_nat_eqb. destruct (list_eq_dec Nat.eq_dec a b);
    split; congruence.
Qed.

Lemma list_nat_eqb_neq (a b : list nat) : a <> b -> list_nat_eqb a b = false.
Proof.
  unfold list_nat_eqb. destruct (list_eq_dec Nat.eq_dec a b); congruence.
Qed.

(** The scan of the table finds only what the table binds to the pair of
    indices in one of its two orders. *)
Lemma find_bond_pot_key_some (indices : list nat)
    (table : list (key * PotentialKey)) :
  forall (acc : option PotentialKey) (v : PotentialKey),
    fold_left
      (fun pot_key '(top_key, value) =>
         if list_nat_eqb (atom_indices top_key) indices then Some value
         else if list_nat_eqb (atom_indices top_key) (rev indices)
         then Some value
         else pot_key)
      table acc = Some v ->
    acc = Some v
    \/ exists top_key,
        In (top_key, v) table
        /\ (atom_indices top_key = indices
            \/ atom_indices top_key = rev indices).
Proof.
  induction table as [| [top_key value] table IH]; intros acc v H; simpl in H.
  - now left.
  - apply IH in H. destruct H as [H | (k & Hin & Hk)].
    + destruct (list_nat_eqb (atom_indices top_key) indices) eqn:E1.
      * injection H as <-. right. exists top_key. split; [now left |].
        left. now apply list_nat_eqb_eq.
      * destruct (list_nat_eqb (atom_indices top_key) (rev indices)) eqn:E2.
        -- injection H as <-. right. exists top_key. split; [now left |].
           right. now apply list_nat_eqb_eq.
        -- now left.
    + right. exists k. split; [now right | exact Hk].
Qed.

(** Without a matching entry the scan leaves [pot_key] as it was. *)
Lemma find_bond_pot_key_none (indices : list nat)
    (table : list (key * PotentialKey)) :
  (forall top_key, In top_key (dict_keys table) ->
     atom_indices top_key <> indices
     /\ atom_indices top_key <> rev indices) ->
  forall acc,
    fold_left
      (fun pot_key '(top_key, value) =>
         if list_nat_eqb (atom_indices top_key) indices then Some value
         else if list_nat_eqb (atom_indices top_key) (rev indices)
         then Some value
         else pot_key)
      table acc = acc.
Proof.
  induction table as [| [top_key value] table IH]; intros Hno acc; simpl.
  - reflexivity.
  - destruct (Hno top_key) as [H1 H2]; [now left |].
    rewrite (list_nat_eqb_neq _ _ H1), (list_nat_eqb_neq _ _ H2).
    apply IH. intros k Hk. apply Hno. now right.
Qed.

(** With a matching entry the scan binds [pot_key]. *)
Lemma find_bond_pot_key_found (indices : list nat)
    (table : list (key * PotentialKey)) (top_key : key) :
  In top_key (dict_keys table) ->
  atom_indices top_key = indices \/ atom_indices top_key = rev indices ->
  exists v, _find_bond_pot_key table indices = Some v.
Proof.
  unfold _find_bond_pot_key. generalize (@None PotentialKey).
  induction table as [| [k value] table IH]; intros acc Hin Hmatch;
    simpl in *; [contradiction |].
  destruct Hin as [-> | Hin]; [| now apply IH].
  match goal with
  | |- exists v, fold_left ?f table ?a = Some v =>
      assert (Hacc : a = Some value)
  end.
  { destruct Hmatch as [-> | ->].
    - now rewrite (proj2 (list_nat_eqb_eq _ _) eq_refl).
    - rewrite (proj2 (list_nat_eqb_eq (rev indices) (rev indices)) eq_refl).
      now destruct (list_nat_eqb (rev indices) indices). }
  rewrite Hacc. clear.
  revert value. induction table as [| [k v] table IH]; intros value; simpl.
  - eauto.
  - destruct (list_nat_eqb (atom_indices k) indices); [apply IH |].
    destruct (list_nat_eqb (atom_indices k) (rev indices)); apply IH.
Qed.

Lemma for_state_raises {C A St : Type} (body : St -> A -> writer C St) (x : A) :
  (forall s, is_ok (snd (body s x)) = false) ->
  forall (l : list A) (s : St),
    In x l -> is_ok (snd (for_state l s body)) = false.
Proof.
  intros Hx. induction l as [| y l IH]; intros s Hin; simpl.
  - contradiction.
  - rewrite snd_bind. destruct (snd (body s y)) as [s' |] eqn:Hy.
    + destruct Hin as [-> | Hin]; [| now apply IH].
      specialize (Hx s). rewrite Hy in Hx. discriminate.
    + reflexivity.
Qed.

(** One pass of the loop over the bonds writes the ascending entry of the
    bond, or raises before it writes. *)
Lemma write_bond_entry (bond_handler : Handler) (bond : nat * nat) :
  emits_prefix bonds_entry (_write_bond bond_handler bond)
    [entry_of_pair bond].
Proof.
  unfold _write_bond, entry_of_pair. rewrite sorted_two. cbn [nth].
  change [?x] with ([] ++ [x]).
  apply emits_prefix_bind.
  - destruct (_find_bond_pot_key _ _); apply emits_prefix_silent.
  - intros pot_key. repeat (apply emits_prefix_lift; intros ?).
    apply (emits_prefix_write bonds_entry (BondsRow _ _ _ _ _)).
Qed.

(** What one pass of the loop over the bonds writes, if it writes. *)
Lemma write_bond_row (bond_handler : Handler) (bond : nat * nat) (c : chunk) :
  In c (fst (_write_bond bond_handler bond)) ->
  let lo := Nat.min (fst bond) (snd bond) in
  let hi := Nat.max (fst bond) (snd bond) in
  exists top_key pot_key potential r k,
    In (top_key, pot_key) (slot_map bond_handler)
    /\ (atom_indices top_key = [lo; hi] \/ atom_indices top_key = [hi; lo])
    /\ dict_item String.eqb (potentials bond_handler) pot_key = Ok potential
    /\ dict_item String.eqb (parameters potential) "length" = Ok r
    /\ dict_item String.eqb (parameters potential) "k" = Ok k
    /\ c = BondsRow (lo + 1) (hi + 1) "1" r k.
Proof.
  intros H lo hi. unfold _write_bond in H. rewrite sorted_two in H.
  cbn [nth] in H. fold lo hi in H.
  destruct (_find_bond_pot_key (slot_map bond_handler) [lo; hi])
    as [pot_key |] eqn:Hfind; [rewrite bind_ret in H | destruct H].
  destruct (dict_item String.eqb (potentials bond_handler) pot_key)
    as [potential |] eqn:Hpot; [rewrite bind_lift_ok in H | destruct H].
  destruct (dict_item String.eqb (parameters potential) "k")
    as [k |] eqn:Hk; [rewrite bind_lift_ok in H | destruct H].
  destruct (dict_item String.eqb (parameters potential) "length")
    as [r |] eqn:Hr; [rewrite bind_lift_ok in H | destruct H].
  destruct H as [<- | []].
  apply find_bond_pot_key_some in Hfind.
  destruct Hfind as [Hfind | (top_key & Hin & Hmatch)]; [discriminate |].
  exists top_key, pot_key, potential, r, k. repeat split; auto.
Qed.

(** A bond without an entry in the table stops the writer. *)
Lemma write_bond_unresolved (bond_handler : Handler) (bond : nat * nat) :
  (forall top_key, In top_key (dict_keys (slot_map bond_handler)) ->
     atom_indices top_key
     <> [Nat.min (fst bond) (snd bond); Nat.max (fst bond) (snd bond)]
     /\ atom_indices top_key
        <> [Nat.max (fst bond) (snd bond); Nat.min (fst bond) (snd bond)]) ->
  _write_bond bond_handler bond = ([], Raise UnboundLocalError).
Proof.
  intros Hno. unfold _write_bond, _find_bond_pot_key.
  rewrite sorted_two, find_bond_pot_key_none by exact Hno.
  reflexivity.
Qed.

Lemma snd_prepend {C A : Type} (w : list C) (m : writer C A) :
  snd (prepend w m) = snd m.
Proof. reflexivity. Qed.

Lemma fst_prepend {C A : Type} (w : list C) (m : writer C A) :
  fst (prepend w m) = w ++ fst m.
Proof. reflexivity. Qed.

Lemma not_ok_bind {C A B : Type} (m : writer C A) (k : A -> writer C B) :
  is_ok (snd m) = false -> is_ok (snd (bind m k)) = false.
Proof.
  rewrite snd_bind. destruct (snd m); [discriminate | reflexivity].
Qed.

(** The [ bonds ] section of the current writer, for a model that has a
    [Bonds] handler. *)
Lemma write_bonds_with_handler (openff_sys : Interchange) (h : Handler) :
  dict_get String.eqb (handlers openff_sys) "Bonds" = Some h ->
  _write_bonds openff_sys
  = prepend [Text "[ bonds ]\n"; Text "; ai\taj\tfunc\tr\tk\n"]
      (for_each (bonds (mdtop openff_sys)) (_write_bond h) ;;
       write (Text "\n\n")).
Proof.
  intros Hh. unfold _write_bonds, has_handler, dict_mem, handlers_item,
    dict_item.
  rewrite Hh. cbn [negb].
  now rewrite !bind_write_prepend, prepend_prepend, bind_lift_ok.
Qed.

(** One pass of the loop of the older writer. *)
Lemma old_write_bond_entry (bond_handler : System.Handler) (bond : nat * nat) :
  emits_prefix bonds_entry (System._write_bond bond_handler bond)
    [entry_of_pair bond].
Proof.
  unfold System._write_bond, entry_of_pair. rewrite sorted_two. cbn [nth].
  change [?x] with ([] ++ [x]).
  apply emits_prefix_bind.
  - destruct (dict_mem _ _ _); [| apply emits_prefix_silent].
    destruct (dict_item _ _ _); apply emits_prefix_silent.
  - intros key. repeat (apply emits_prefix_lift; intros ?).
    apply (emits_prefix_write bonds_entry (BondsRow _ _ _ _ _)).
Qed.

Lemma old_write_bond_row (bond_handler : System.Handler) (bond : nat * nat)
    (c : chunk) :
  In c (fst (System._write_bond bond_handler bond)) ->
  let lo := Nat.min (fst bond) (snd bond) in
  let hi := Nat.max (fst bond) (snd bond) in
  exists key potential r k,
    dict_get String.eqb (System.slot_map bond_handler)
      (System.str_tuple [lo; hi]) = Some key
    /\ dict_item String.eqb (System.potentials bond_handler) key = Ok potential
    /\ dict_item String.eqb (parameters potential) "length" = Ok r
    /\ dict_item String.eqb (parameters potential) "k" = Ok k
    /\ c = BondsRow (lo + 1) (hi + 1) "1" r k.
Proof.
  intros H lo hi. unfold System._write_bond in H. rewrite sorted_two in H.
  cbn [nth] in H. fold lo hi in H. unfold dict_mem in H.
  unfold dict_item in H at 1.
  destruct (dict_get String.eqb (System.slot_map bond_handler)
              (System.str_tuple [lo; hi])) as [key |] eqn:Hkey;
    [rewrite bind_lift_ok in H | destruct H].
  destruct (dict_item String.eqb (System.potentials bond_handler) key)
    as [potential |] eqn:Hpot; [rewrite bind_lift_ok in H | destruct H].
  destruct (dict_item String.eqb (parameters potential) "k")
    as [k |] eqn:Hk; [rewrite bind_lift_ok in H | destruct H].
  destruct (dict_item String.eqb (parameters potential) "length")
    as [r |] eqn:Hr; [rewrite bind_lift_ok in H | destruct H].
  destruct H as [<- | []].
  exists key, potential, r, k. repeat split; auto.
Qed.

Lemma old_write_bond_unresolved (bond_handler : System.Handler)
    (bond : nat * nat) :
  dict_get String.eqb (System.slot_map bond_handler)
    (System.str_tuple [Nat.min (fst bond) (snd bond);
                       Nat.max (fst bond) (snd bond)]) = None ->
  System._write_bond bond_handler bond
  = ([], Raise (Exception "probably should have found parameters here ...")).
Proof.
  intros Hno. unfold System._write_bond, dict_mem.
  rewrite sorted_two, Hno. reflexivity.
Qed.

Lemma old_write_bonds_with_sets (openff_sys : System.System)
    (h : System.Handler) :
  dict_get String.eqb (System.handlers openff_sys) "Bonds" = Some h ->
  System.potentials h <> [] ->
  System._write_bonds openff_sys
  = prepend [Text "[ bonds ]\n"; Text "; ai\taj\tfunc\tr\tk\n"]
      (for_each (System.top_mol_bonds openff_sys) (System._write_bond h) ;;
       write (Text "\n\n")).
Proof.
  intros Hh Hsets. unfold System._write_bonds, dict_item.
  rewrite Hh, bind_lift_ok.
  destruct (System.potentials h) as [| p ps]; [contradiction |].
  cbn [length Nat.eqb].
  now rewrite !bind_write_prepend, prepend_prepend.
Qed.

(** The facts that the two writers share, about a section that is written
    by a loop of [body] over [bond_list] between two headings and a blank
    line. *)
Lemma bonds_section_entries (bond_list : list (nat * nat))
    (body : nat * nat -> io unit) :
  (forall bond, emits_prefix bonds_entry (body bond) [entry_of_pair bond]) ->
  emits_prefix bonds_entry
    (prepend [Text "[ bonds ]\n"; Text "; ai\taj\tfunc\tr\tk\n"]
       (for_each bond_list body ;; write (Text "\n\n")))
    (map entry_of_pair bond_list).
Proof.
  intros Hbody.
  assert (Hloop : emits_prefix bonds_entry
                    (for_each bond_list body ;; write (Text "\n\n"))
                    (map entry_of_pair bond_list)).
  { rewrite <- (app_nil_r (map _ _)). apply emits_prefix_bind.
    - rewrite <- flat_map_singleton. unfold for_each.
      apply emits_prefix_for_state. intros _ bond. apply Hbody.
    - intros _. apply (emits_prefix_write bonds_entry (Text _)). }
  destruct Hloop as (n & Hn & Hw & Hok).
  exists n. rewrite fst_prepend, snd_prepend, flat_map_app. auto.
Qed.

Lemma bonds_section_row (bond_list : list (nat * nat))
    (body : nat * nat -> io unit) (ai aj : nat) (func : string) (r k : R) :
  In (BondsRow ai aj func r k)
    (fst (prepend [Text "[ bonds ]\n"; Text "; ai\taj\tfunc\tr\tk\n"]
            (for_each bond_list body ;; write (Text "\n\n")))) ->
  exists bond,
    In bond bond_list /\ In (BondsRow ai aj func r k) (fst (body bond)).
Proof.
  rewrite fst_prepend. intros H. apply in_app_or in H.
  destruct H as [H | H].
  - destruct H as [H | [H | []]]; discriminate.
  - in_step H.
    + unfold for_each in H. apply in_fst_for_state in H.
      destruct H as (_ & bond & Hbond & H). eauto.
    + destruct H as [H | []]. discriminate.
Qed.

Lemma bonds_section_unresolved (bond_list : list (nat * nat))
    (body : nat * nat -> io unit) (bond : nat * nat) :
  In bond bond_list ->
  is_ok (snd (body bond)) = false ->
  is_ok
    (snd (prepend [Text "[ bonds ]\n"; Text "; ai\taj\tfunc\tr\tk\n"]
            (for_each bond_list body ;; write (Text "\n\n")))) = false.
Proof.
  intros Hin Hraise. rewrite snd_prepend. apply not_ok_bind.
  unfold for_each. apply for_state_raises with (x := bond); auto.
Qed.

(** The scan of the table finds a parameter set as soon as the table has
    an entry for the pair of indices in one of its two orders. *)
Lemma find_bond_pot_key_not_none (indices : list nat)
    (table : list (key * PotentialKey)) :
  forall acc : option PotentialKey,
    acc <> None
    \/ (exists top_key, In top_key (dict_keys table)
          /\ (atom_indices top_key = indices
              \/ atom_indices top_key = rev indices)) ->
    fold_left
      (fun pot_key '(top_key, value) =>
         if list_nat_eqb (atom_indices top_key) indices then Some value
         else if list_nat_eqb (atom_indices top_key) (rev indices)
         then Some value
         else pot_key)
      table acc <> None.
Proof.
  induction table as [| [top_key value] table IH]; intros acc H; simpl.
  - destruct H as [H | (k & [] & _)]. exact H.
  - apply IH.
    destruct (list_nat_eqb (atom_indices top_key) indices) eqn:E1;
      [left; discriminate |].
    destruct (list_nat_eqb (atom_indices top_key) (rev indices)) eqn:E2;
      [left; discriminate |].
    destruct H as [H | (k & [<- | Hin] & Hk)]; [now left | | right; eauto].
    exfalso. cbn [fst] in Hk.
    destruct Hk as [Hk | Hk]; apply (proj2 (list_nat_eqb_eq _ _)) in Hk;
      congruence.
Qed.

(** One pass of the loop over the bonds writes the row of the bond when the
    table has an entry for it, in either order, and the parameter sets of
    the table are there. *)
Lemma write_bond_resolved (bond_handler : Handler) (bond : nat * nat) :
  (exists top_key, In top_key (dict_keys (slot_map bond_handler))
     /\ (atom_indices top_key
         = [Nat.min (fst bond) (snd bond); Nat.max (fst bond) (snd bond)]
         \/ atom_indices top_key
            = [Nat.max (fst bond) (snd bond); Nat.min (fst bond) (snd bond)])) ->
  (forall top_key pot_key, In (top_key, pot_key) (slot_map bond_handler) ->
     exists potential r k,
       dict_item String.eqb (potentials bond_handler) pot_key = Ok potential
       /\ dict_item String.eqb (parameters potential) "length" = Ok r
       /\ dict_item String.eqb (parameters potential) "k" = Ok k) ->
  snd (_write_bond bond_handler bond) = Ok tt.
Proof.
  intros Hentry Hsets. unfold _write_bond. rewrite sorted_two.
  destruct (_find_bond_pot_key (slot_map bond_handler)
              [Nat.min (fst bond) (snd bond); Nat.max (fst bond) (snd bond)])
    as [pot_key |] eqn:Hfind.
  - unfold _find_bond_pot_key in Hfind.
    apply find_bond_pot_key_some in Hfind.
    destruct Hfind as [Hfind | (top_key & Hin & _)]; [discriminate |].
    destruct (Hsets _ _ Hin) as (potential & r & k & Hpot & Hr & Hk).
    rewrite bind_ret, Hpot, bind_lift_ok.
    cbv zeta. rewrite Hk, bind_lift_ok, Hr, bind_lift_ok. reflexivity.
  - exfalso. revert Hfind. apply find_bond_pot_key_not_none. right.
    exact Hentry.
Qed.

Lemma for_each_completes {C A : Type} (body : A -> writer C unit)
    (l : list A) :
  (forall x, In x l -> snd (body x) = Ok tt) ->
  snd (for_each l body) = Ok tt.
Proof.
  unfold for_each. induction l as [| x l IH]; intros Hbody; simpl.
  - reflexivity.
  - rewrite snd_bind, (Hbody x) by now left.
    apply IH. intros y Hy. apply Hbody. now right.
Qed.

(** A writer that completes has written all that it was to write. *)
Lemma emits_prefix_complete {X A : Type} (proj : chunk -> list X) (m : io A)
    (l : list X) (a : A) :
  emits_prefix proj m l -> snd m = Ok a -> flat_map proj (fst m) = l.
Proof.
  intros (n & _ & Hw & Hall) Hok. rewrite Hw, Hall by now rewrite Hok.
  apply firstn_all.
Qed.

(** One pass of the loop of the older writer writes the row of the bond
    when the table has an entry under the ascending pair and the parameter
    sets of the table are there. *)
Lemma old_write_bond_resolved (bond_handler : System.Handler)
    (bond : nat * nat) (key : string) :
  dict_get String.eqb (System.slot_map bond_handler)
    (System.str_tuple [Nat.min (fst bond) (snd bond);
                       Nat.max (fst bond) (snd bond)]) = Some key ->
  (exists potential r k,
     dict_item String.eqb (System.potentials bond_handler) key = Ok potential
     /\ dict_item String.eqb (parameters potential) "length" = Ok r
     /\ dict_item String.eqb (parameters potential) "k" = Ok k) ->
  snd (System._write_bond bond_handler bond) = Ok tt.
Proof.
  intros Hkey (potential & r & k & Hpot & Hr & Hk).
  unfold System._write_bond, dict_mem, dict_item in *.
  rewrite sorted_two, Hkey, bind_lift_ok.
  destruct (dict_get String.eqb (System.potentials bond_handler) key);
    [injection Hpot as -> | discriminate].
  rewrite bind_lift_ok. cbv zeta.
  destruct (dict_get String.eqb (parameters potential) "k");
    [| discriminate].
  destruct (dict_get String.eqb (parameters potential) "length");
    [| discriminate].
  now rewrite !bind_lift_ok.
Qed.

(** C6, as the two writers have it.  When the model has a [Bonds] handler
    (for the older writer: one with at least one parameter set), the rows of
    the [ bonds ] section are one for each bond of the topology, in order,
    with the two atom numbers ascending whatever the declared direction;
    every row carries the length and the force constant of a parameter set
    that the table binds to the index pair of the bond, in ascending or in
    descending order for the current writer and in ascending order only for
    the older one; and a bond without such an entry makes the writer raise,
    so that no bond is passed over.  An entry in either order is enough for
    the current writer: when every bond has one, in ascending or in
    descending order, and the parameter sets of the table are there with
    their length and force constant, the section is written to its end with
    the rows of all the bonds; the older writer does as much when every bond
    has an entry under its ascending pair.  Without a [Bonds] handler (for
    the older writer: with a handler that has no parameter sets) nothing is
    written and nothing is raised. *)
Theorem bonds_are_ascending_and_resolved :
  (forall openff_sys : Interchange,
      (has_handler openff_sys "Bonds" = false ->
       _write_bonds openff_sys = ([], Ok tt))
      /\ forall h,
          dict_get String.eqb (handlers openff_sys) "Bonds" = Some h ->
          emits_prefix bonds_entry (_write_bonds openff_sys)
            (map entry_of_pair (bonds (mdtop openff_sys)))
          /\ (forall ai aj func r k,
                 In (BondsRow ai aj func r k) (fst (_write_bonds openff_sys)) ->
                 exists a b top_key pot_key potential,
                   In (a, b) (bonds (mdtop openff_sys))
                   /\ ai = Nat.min a b + 1 /\ aj = Nat.max a b + 1
                   /\ ai <= aj
                   /\ In (top_key, pot_key) (slot_map h)
                   /\ (atom_indices top_key = [Nat.min a b; Nat.max a b]
                       \/ atom_indices top_key = [Nat.max a b; Nat.min a b])
                   /\ dict_item String.eqb (potentials h) pot_key = Ok potential
                   /\ dict_item String.eqb (parameters potential) "length" = Ok r
                   /\ dict_item String.eqb (parameters potential) "k" = Ok k)
          /\ (forall a b,
                 In (a, b) (bonds (mdtop openff_sys)) ->
                 (forall top_key, In top_key (dict_keys (slot_map h)) ->
                    atom_indices top_key <> [Nat.min a b; Nat.max a b]
                    /\ atom_indices top_key <> [Nat.max a b; Nat.min a b]) ->
                 is_ok (snd (_write_bonds openff_sys)) = false)
          /\ ((forall a b,
                  In (a, b) (bonds (mdtop openff_sys)) ->
                  exists top_key,
                    In top_key (dict_keys (slot_map h))
                    /\ (atom_indices top_key = [Nat.min a b; Nat.max a b]
                        \/ atom_indices top_key = [Nat.max a b; Nat.min a b])) ->
              (forall top_key pot_key,
                  In (top_key, pot_key) (slot_map h) ->
                  exists potential r k,
                    dict_item String.eqb (potentials h) pot_key = Ok potential
                    /\ dict_item String.eqb (parameters potential) "length"
                       = Ok r
                    /\ dict_item String.eqb (parameters potential) "k" = Ok k) ->
              snd (_write_bonds openff_sys) = Ok tt
              /\ flat_map bonds_entry (fst (_write_bonds openff_sys))
                 = map entry_of_pair (bonds (mdtop openff_sys))))
  /\ (forall (openff_sys : System.System) (h : System.Handler),
         dict_get String.eqb (System.handlers openff_sys) "Bonds" = Some h ->
         (System.potentials h = [] ->
          System._write_bonds openff_sys = ([], Ok tt))
         /\ (System.potentials h <> [] ->
             emits_prefix bonds_entry (System._write_bonds openff_sys)
               (map entry_of_pair (System.top_mol_bonds openff_sys))
             /\ (forall ai aj func r k,
                    In (BondsRow ai aj func r k)
                      (fst (System._write_bonds openff_sys)) ->
                    exists a b key potential,
                      In (a, b) (System.top_mol_bonds openff_sys)
                      /\ ai = Nat.min a b + 1 /\ aj = Nat.max a b + 1
                      /\ ai <= aj
                      /\ dict_get String.eqb (System.slot_map h)
                           (System.str_tuple [Nat.min a b; Nat.max a b])
                         = Some key
                      /\ dict_item String.eqb (System.potentials h) key
                         = Ok potential
                      /\ dict_item String.eqb (parameters potential) "length"
                         = Ok r
                      /\ dict_item String.eqb (parameters potential) "k" = Ok k)
             /\ (forall a b,
                    In (a, b) (System.top_mol_bonds openff_sys) ->
                    dict_get String.eqb (System.slot_map h)
                      (System.str_tuple [Nat.min a b; Nat.max a b]) = None ->
                    is_ok (snd (System._write_bonds openff_sys)) = false)
             /\ ((forall a b,
                     In (a, b) (System.top_mol_bonds openff_sys) ->
                     exists key potential r k,
                       dict_get String.eqb (System.slot_map h)
                         (System.str_tuple [Nat.min a b; Nat.max a b])
                       = Some key
                       /\ dict_item String.eqb (System.potentials h) key
                          = Ok potential
                       /\ dict_item String.eqb (parameters potential) "length"
                          = Ok r
                       /\ dict_item String.eqb (parameters potential) "k"
                          = Ok k) ->
                 snd (System._write_bonds openff_sys) = Ok tt
                 /\ flat_map bonds_entry (fst (System._write_bonds openff_sys))
                    = map entry_of_pair (System.top_mol_bonds openff_sys)))).
Proof.
  split.
  - intros openff_sys. split.
    + intros Hno. unfold _write_bonds. now rewrite Hno.
    + intros h Hh.
      assert (Hentries : emits_prefix bonds_entry (_write_bonds openff_sys)
                           (map entry_of_pair (bonds (mdtop openff_sys)))).
      { rewrite (write_bonds_with_handler _ _ Hh).
        apply bonds_section_entries, write_bond_entry. }
      split; [exact Hentries |].
      rewrite (write_bonds_with_handler _ _ Hh) in *.
      split; [| split].
      * intros ai aj func r k Hin.
        apply bonds_section_row in Hin. destruct Hin as ([a b] & Hbond & Hin).
        apply write_bond_row in Hin. cbn [fst snd] in Hin.
        destruct Hin as (top_key & pot_key & potential & r' & k' & Hkey
                         & Hmatch & Hpot & Hr & Hk & Heq).
        injection Heq as -> -> -> -> ->.
        exists a, b, top_key, pot_key, potential.
        repeat split; auto. lia.
      * intros a b Hbond Hno.
        apply bonds_section_unresolved with (bond := (a, b)); trivial.
        now rewrite write_bond_unresolved.
      * intros Hevery Hsets.
        assert (Hok : snd (prepend
                             [Text "[ bonds ]\n"; Text "; ai\taj\tfunc\tr\tk\n"]
                             (for_each (bonds (mdtop openff_sys)) (_write_bond h) ;;
                              write (Text "\n\n"))) = Ok tt).
        { rewrite snd_prepend, snd_bind, for_each_completes; [reflexivity |].
          intros [a b] Hbond. apply write_bond_resolved; [| exact Hsets].
          exact (Hevery a b Hbond). }
        split; [exact Hok |].
        exact (emits_prefix_complete _ _ _ tt Hentries Hok).
  - intros openff_sys h Hh. split.
    + intros Hempty. unfold System._write_bonds, dict_item.
      now rewrite Hh, bind_lift_ok, Hempty.
    + intros Hsets.
      assert (Hentries : emits_prefix bonds_entry
                           (System._write_bonds openff_sys)
                           (map entry_of_pair (System.top_mol_bonds openff_sys))).
      { rewrite (old_write_bonds_with_sets _ _ Hh Hsets).
        apply bonds_section_entries, old_write_bond_entry. }
      split; [exact Hentries |].
      rewrite (old_write_bonds_with_sets _ _ Hh Hsets) in *.
      split; [| split].
      * intros ai aj func r k Hin.
        apply bonds_section_row in Hin. destruct Hin as ([a b] & Hbond & Hin).
        apply old_write_bond_row in Hin. cbn [fst snd] in Hin.
        destruct Hin as (key & potential & r' & k' & Hkey & Hpot & Hr & Hk
                         & Heq).
        injection Heq as -> -> -> -> ->.
        exists a, b, key, potential.
        repeat split; auto. lia.
      * intros a b Hbond Hno.
        apply bonds_section_unresolved with (bond := (a, b)); trivial.
        now rewrite old_write_bond_unresolved.
      * intros Hevery.
        assert (Hok : snd (prepend
                             [Text "[ bonds ]\n"; Text "; ai\taj\tfunc\tr\tk\n"]
                             (for_each (System.top_mol_bonds openff_sys)
                                (System._write_bond h) ;;
                              write (Text "\n\n"))) = Ok tt).
        { rewrite snd_prepend, snd_bind, for_each_completes; [reflexivity |].
          intros [a b] Hbond.
          destruct (Hevery a b Hbond) as (key & potential & r & k & Hkey & Hrest).
          apply (old_write_bond_resolved h (a, b) key Hkey). eauto. }
        split; [exact Hok |].
        exact (emits_prefix_complete _ _ _ tt Hentries Hok).
Qed.

Lemma bonds_are_ascending_and_resolved_witness :
  emits_prefix bonds_entry (_write_bonds (water_model 0 0))
    (map entry_of_pair (bonds (mdtop (water_model 0 0))))
  /\ map entry_of_pair (bonds (mdtop (water_model 0 0))) = [(1, 2); (1, 3)]
  /\ is_ok (snd (_write_bonds (water_model 0 0))) = true
  /\ slot_map descending_bonds
     = [(TopologyKey [1; 0], "b_OH"); (TopologyKey [2; 0], "b_OH")]
  /\ snd (_write_bonds water_descending) = Ok tt
  /\ flat_map bonds_entry (fst (_write_bonds water_descending))
     = [(1, 2); (1, 3)]
  /\ emits_prefix bonds_entry (System._write_bonds old_water_ascending)
       (map entry_of_pair (System.top_mol_bonds old_water_ascending))
  /\ snd (System._write_bonds old_water_ascending) = Ok tt
  /\ is_ok (snd (System._write_bonds old_water_as_declared)) = false.
Proof.
  destruct bonds_are_ascending_and_resolved as [Hcurrent Hold].
  destruct (Hcurrent (water_model 0 0)) as [_ Hwater].
  destruct (Hwater water_bonds eq_refl) as (Hentries & _ & _ & _).
  destruct (Hcurrent water_descending) as [_ Hdescending].
  destruct (Hdescending descending_bonds eq_refl) as (_ & _ & _ & Hcomplete).
  destruct (Hold old_water_ascending
              (System.mkHandler [("(0, 1)", "b_OH"); ("(0, 2)", "b_OH")]
                 old_bond_sets) eq_refl) as [_ Hascending].
  destruct (Hold old_water_as_declared
              (System.mkHandler [("(0, 1)", "b_OH"); ("(2, 0)", "b_OH")]
                 old_bond_sets) eq_refl) as [_ Hdeclared].
  split; [exact Hentries |].
  split; [reflexivity |].
  split; [reflexivity |].
  split; [reflexivity |].
  assert (Hdesc : snd (_write_bonds water_descending) = Ok tt
                  /\ flat_map bonds_entry (fst (_write_bonds water_descending))
                     = [(1, 2); (1, 3)]).
  { apply Hcomplete.
    - intros a b [Hb | [Hb | []]]; injection Hb as <- <-.
      + exists (TopologyKey [1; 0]). split; [left; reflexivity | now right].
      + exists (TopologyKey [2; 0]).
        split; [right; left; reflexivity | now right].
    - intros top_key pot_key [Hk | [Hk | []]]; injection Hk as <- <-;
        exists (mkPotential [("k", 1000%R); ("length", (1 / 10)%R)]),
               (1 / 10)%R, 1000%R;
        repeat split. }
  split; [apply Hdesc |]. split; [apply Hdesc |].
  destruct Hascending as (Hrows & _ & _ & Hall); [discriminate |].
  split; [exact Hrows |].
  split.
  - apply Hall. intros a b [Hb | [Hb | []]]; injection Hb as <- <-;
      exists "b_OH", (mkPotential [("k", 1000%R); ("length", (1 / 10)%R)]),
             (1 / 10)%R, 1000%R;
      repeat split.
  - destruct Hdeclared as (_ & _ & Hunresolved & _); [discriminate |].
    apply (Hunresolved 2 0); [right; left; reflexivity | reflexivity].
Defined.

(** C6, as the specification has it, fails in two ways.  A model without a
    [Bonds] handler has its bonds passed over in silence, and so has a model
    of the older writer whose handler has no parameter sets; and the older
    writer does not match a table entry that is keyed by the index pair in
    descending order. *)
Lemma bonds_can_be_passed_over :
  bonds (mdtop water_without_bonds) = [(0, 1); (2, 0)]
  /\ _write_bonds water_without_bonds = ([], Ok tt)
  /\ System.top_mol_bonds old_water_without_sets = [(0, 1); (2, 0)]
  /\ System._write_bonds old_water_without_sets = ([], Ok tt)
  /\ dict_get String.eqb
       (System.slot_map
          (System.mkHandler [("(0, 1)", "b_OH"); ("(2, 0)", "b_OH")]
             old_bond_sets))
       (System.str_tuple [2; 0]) = Some "b_OH"
  /\ System._write_bonds old_water_as_declared
     = ([Text "[ bonds ]\n"; Text "; ai\taj\tfunc\tr\tk\n";
         BondsRow 1 2 "1" (1 / 10) 1000],
        Raise (Exception "probably should have found parameters here ...")).
Proof.
  repeat split.
Qed.

(** ** The coordinate file: what is written *)

Lemma dict_get_in_nodup {V : Type} (d : list (key * V)) (k : key) (v : V) :
  NoDup (dict_keys d) -> In (k, v) d -> dict_get key_eqb d k = Some v.
Proof.
  induction d as [| [k' v'] d IH]; simpl; intros Hnd Hin; [contradiction |].
  inversion Hnd as [| ? ? Hk Hnd']; subst.
  destruct Hin as [Heq | Hin].
  - injection Heq as -> ->. now rewrite key_eqb_refl.
  - rewrite key_eqb_neq; [now apply IH |].
    intros ->. apply Hk. unfold dict_keys. apply in_map_iff.
    exists (k, v). auto.
Qed.

Lemma dict_get_set_nat {V : Type} (d : list (nat * V)) (k k' : nat) (v : V) :
  dict_get Nat.eqb (dict_set Nat.eqb d k v) k'
  = if k =? k' then Some v else dict_get Nat.eqb d k'.
Proof.
  induction d as [| [k0 v0] d IH]; simpl.
  - reflexivity.
  - destruct (Nat.eqb_spec k0 k) as [-> | Hne]; simpl.
    + destruct (Nat.eqb_spec k k'); reflexivity.
    + rewrite IH. destruct (Nat.eqb_spec k0 k') as [-> | Hne'].
      * destruct (Nat.eqb_spec k k'); [congruence | reflexivity].
      * reflexivity.
Qed.

(** [_build_typemap] names every atom of the topology. *)
Lemma build_typemap_from_total (l : list Atom) :
  forall (index : nat) (elements : list (string * nat))
         (typemap : list (nat * string)) (i : nat),
    index <= i < index + length l ->
    exists s,
      dict_get Nat.eqb (_build_typemap_from l index elements typemap) i
      = Some s.
Proof.
  assert (Hkeep : forall (l : list Atom) index elements typemap i s,
             i < index ->
             dict_get Nat.eqb typemap i = Some s ->
             dict_get Nat.eqb (_build_typemap_from l index elements typemap) i
             = Some s).
  { clear. induction l as [| atom l IH]; intros index elements typemap i s Hi Hs;
      simpl; [exact Hs |].
    apply IH; [lia |]. rewrite dict_get_set_nat.
    destruct (Nat.eqb_spec index i); [lia | exact Hs]. }
  induction l as [| atom l IH]; intros index elements typemap i Hi; simpl in *.
  - lia.
  - destruct (Nat.eq_dec i index) as [-> | Hne].
    + eexists. apply Hkeep; [lia |]. rewrite dict_get_set_nat.
      now rewrite Nat.eqb_refl.
    + apply IH. lia.
Qed.

Lemma atom_name_of_item (openff_sys : Interchange) (i : nat) :
  i < n_atoms (mdtop openff_sys) ->
  dict_item Nat.eqb (_build_typemap openff_sys) i
  = Ok (atom_name_of openff_sys i).
Proof.
  intros Hi. unfold dict_item, atom_name_of, _build_typemap.
  destruct (build_typemap_from_total (atoms (mdtop openff_sys)) 0 [] [] i)
    as [s Hs]; [unfold n_atoms in Hi; lia |].
  unfold _build_typemap in Hs. now rewrite Hs.
Qed.

Lemma bind_ok_prepend {C A B : Type} (m : writer C A) (k : A -> writer C B)
    (w : list C) (a : A) :
  m = (w, Ok a) -> bind m k = prepend w (k a).
Proof. intros ->. unfold bind, prepend. now destruct (k a). Qed.

Lemma for_each_ok {C A : Type} (f : A -> C) (body : A -> writer C unit)
    (l : list A) :
  (forall x, In x l -> body x = ([f x], Ok tt)) ->
  for_each l body = (map f l, Ok tt).
Proof.
  unfold for_each. induction l as [| x l IH]; intros Hbody; simpl.
  - reflexivity.
  - rewrite (bind_ok_prepend _ _ [f x] tt) by (apply Hbody; now left).
    rewrite IH by (intros y Hy; apply Hbody; now right).
    reflexivity.
Qed.

Lemma in_enumerate_from {A : Type} (l : list A) :
  forall (start i : nat) (a : A),
    In (i, a) (enumerate_from start l) ->
    start <= i /\ nth_error l (i - start) = Some a.
Proof.
  induction l as [| x l IH]; intros start i a Hin; simpl in Hin.
  - contradiction.
  - destruct Hin as [Heq | Hin].
    + injection Heq as -> ->. rewrite Nat.sub_diag. auto.
    + apply IH in Hin. destruct Hin as [Hle Hnth]. split; [lia |].
      replace (i - start) with (S (i - S start)) by lia. exact Hnth.
Qed.

Lemma map_enumerate_combine {A B D : Type} (f : nat -> A -> B -> D) (d : B)
    (l : list A) (ps : list B) :
  length l = length ps ->
  forall (start : nat) (pre : list B),
    length pre = start ->
    map (fun '(i, a) => f i a (nth i (pre ++ ps) d)) (enumerate_from start l)
    = map (fun '((i, a), p) => f i a p) (combine (enumerate_from start l) ps).
Proof.
  revert ps. induction l as [| a l IH]; intros [| p ps] Hlen start pre Hpre;
    simpl in *; try discriminate; try reflexivity.
  f_equal.
  - rewrite app_nth2 by lia. now replace (start - length pre) with 0 by lia.
  - replace (pre ++ p :: ps) with ((pre ++ [p]) ++ ps)
      by (now rewrite <- app_assoc).
    apply IH; [lia |]. rewrite length_app. simpl. lia.
Qed.

(** What [to_gro] writes for a model in which every atom has a position. *)
Lemma to_gro_body_spec (openff_sys : Interchange) (n : nat) :
  NoDup (virtual_site_keys openff_sys) ->
  length (positions openff_sys) = n_atoms (mdtop openff_sys) ->
  to_gro_body openff_sys n = (gro_chunks openff_sys n, Ok tt).
Proof.
  intros Hnd Hlen. unfold to_gro_body, gro_chunks.
  pose proof (build_virtual_site_map_spec openff_sys Hnd) as Hmap.
  assert (Hkeys : dict_keys (_build_virtual_site_map openff_sys)
                  = virtual_site_keys openff_sys).
  { rewrite Hmap. apply dict_keys_combine. now rewrite length_seq. }
  assert (Hcount : length (_build_virtual_site_map openff_sys)
                   = length (virtual_site_keys openff_sys)).
  { rewrite <- Hkeys. unfold dict_keys. now rewrite length_map. }
  rewrite Hcount, !bind_write_prepend, prepend_prepend.
  rewrite (bind_ok_prepend _ _ (atom_records openff_sys n) tt).
  2:{ unfold atom_records, enumerate.
      rewrite <- (map_enumerate_combine
                    (fun i a p => atom_record openff_sys n i a p) (0, 0, 0)%Q
                    _ _ (eq_sym Hlen) 0 [] eq_refl).
      apply for_each_ok. intros [i atom] Hin.
      apply in_enumerate_from in Hin. destruct Hin as [_ Hnth].
      rewrite Nat.sub_0_r in Hnth.
      assert (Hi : i < n_atoms (mdtop openff_sys))
        by (apply nth_error_Some; unfold n_atoms; congruence).
      rewrite (atom_name_of_item _ _ Hi), bind_lift_ok.
      unfold position_row. rewrite nth_error_map.
      rewrite (nth_error_nth' _ (0, 0, 0)%Q) by lia. cbn [option_map app].
      destruct (nth i (positions openff_sys) (0, 0, 0)%Q) as [[x y] z].
      rewrite bind_lift_ok. reflexivity. }
  rewrite (bind_ok_prepend _ _ (virtual_site_records openff_sys n) tt).
  2:{ unfold virtual_site_records.
      replace (seq (n_atoms (mdtop openff_sys) + 1)
                 (length (virtual_site_keys openff_sys)))
        with (map snd (_build_virtual_site_map openff_sys)).
      2:{ rewrite Hmap. clear. generalize (n_atoms (mdtop openff_sys) + 1).
          induction (virtual_site_keys openff_sys) as [| k keys IH];
            intros start; simpl; [reflexivity |]. f_equal. apply IH. }
      rewrite map_map. apply for_each_ok. intros [k index] Hin.
      unfold dict_item.
      rewrite (dict_get_in_nodup _ k index) by (rewrite ?Hkeys; assumption).
      rewrite bind_lift_ok. reflexivity. }
  rewrite !prepend_prepend. cbv zeta. unfold box_values, box_of.
  destruct (match box openff_sys with Some b => b | None => eye11 end)
    as [[[[b00 b01] b02] [[b10 b11] b12]] [[b20 b21] b22]].
  destruct (is_rectangular (b00, b01, b02, (b10, b11, b12), (b20, b21, b22)));
    unfold prepend; cbn; now rewrite <- !app_assoc.
Qed.

(** ** Decimal text: digits *)

Lemma is_digit_plain (c : ascii) :
  is_digit c = true ->
  is_space c = false /\ Ascii.eqb c period = false
  /\ is_line_break c = false /\ Ascii.eqb c "-" = false
  /\ Ascii.eqb c "+" = false.
Proof.
  destruct c as [[] [] [] [] [] [] [] []]; vm_compute; intros H;
    try discriminate H; repeat split.
Qed.

Lemma digit_value_char (d : N) :
  (d < 10)%N -> digit_value (digit_char d) = Some d.
Proof.
  intros Hd. unfold digit_value, digit_char.
  rewrite N_ascii_embedding by lia.
  replace ((48 <=? 48 + d) && (48 + d <=? 57))%N with true.
  - f_equal. lia.
  - symmetry. apply andb_true_intro. split; apply N.leb_le; lia.
Qed.

Lemma is_digit_char (d : N) : (d < 10)%N -> is_digit (digit_char d) = true.
Proof. intros Hd. unfold is_digit. now rewrite digit_value_char. Qed.

Lemma length_digits_fixed (p : nat) :
  forall k, length (digits_fixed p k) = p.
Proof.
  induction p as [| p IH]; intros k; simpl.
  - reflexivity.
  - rewrite length_app, IH. simpl. lia.
Qed.

Lemma digits_fixed_are_digits (p : nat) :
  forall k, forallb is_digit (digits_fixed p k) = true.
Proof.
  induction p as [| p IH]; intros k; simpl.
  - reflexivity.
  - rewrite forallb_app, IH. simpl.
    rewrite is_digit_char; [reflexivity |].
    apply N.mod_lt. discriminate.
Qed.

Lemma parse_digits_app (a b : chars) :
  forall acc,
    parse_digits acc (a ++ b)
    = match parse_digits acc a with
      | Some x => parse_digits x b
      | None => None
      end.
Proof.
  induction a as [| c a IH]; intros acc; simpl.
  - reflexivity.
  - destruct (digit_value c); [apply IH | reflexivity].
Qed.

Lemma parse_digits_fixed (p : nat) :
  forall (k acc : N),
    parse_digits acc (digits_fixed p k)
    = Some (acc * 10 ^ N.of_nat p + k mod 10 ^ N.of_nat p)%N.
Proof.
  induction p as [| p IH]; intros k acc.
  - simpl. f_equal. rewrite N.mod_1_r. lia.
  - cbn [digits_fixed]. rewrite parse_digits_app, IH. cbn [parse_digits].
    rewrite digit_value_char by (apply N.mod_lt; discriminate).
    f_equal. rewrite Nat2N.inj_succ, N.pow_succ_r'.
    rewrite (N.Div0.mod_mul_r k 10 (10 ^ N.of_nat p)). lia.
Qed.

Lemma count_digits_bound (fuel : nat) :
  forall k, (k < 2 ^ N.of_nat fuel)%N ->
            (k < 10 ^ N.of_nat (count_digits fuel k))%N.
Proof.
  induction fuel as [| fuel IH]; intros k Hk.
  - simpl in *. lia.
  - cbn [count_digits]. destruct (N.ltb_spec k 10) as [Hlt | Hge].
    + simpl. lia.
    + rewrite Nat2N.inj_succ, N.pow_succ_r'.
      assert (Hdiv : (k / 10 < 2 ^ N.of_nat fuel)%N).
      { rewrite Nat2N.inj_succ, N.pow_succ_r' in Hk.
        apply N.Div0.div_lt_upper_bound. lia. }
      specialize (IH _ Hdiv).
      pose proof (N.Div0.div_mod k 10) as H3.
      assert (k mod 10 < 10)%N by (apply N.mod_lt; discriminate).
      lia.
Qed.

Lemma digits_bound (k : N) :
  (k < 10 ^ N.of_nat (count_digits (N.to_nat (N.size k)) k))%N.
Proof.
  apply count_digits_bound. rewrite N2Nat.id. apply N.size_gt.
Qed.

Lemma count_digits_pos (fuel : nat) (k : N) : 1 <= count_digits fuel k.
Proof.
  destruct fuel; simpl; [lia |]. destruct (k <? 10)%N; lia.
Qed.

Lemma digits_are_digits (k : N) : forallb is_digit (digits k) = true.
Proof. apply digits_fixed_are_digits. Qed.

Lemma digits_not_nil (k : N) : digits k <> [].
Proof.
  intros H. apply (f_equal (@length ascii)) in H.
  unfold digits in H. rewrite length_digits_fixed in H.
  pose proof (count_digits_pos (N.to_nat (N.size k)) k). simpl in H. lia.
Qed.

Lemma parse_digits_digits (k : N) : parse_digits 0 (digits k) = Some k.
Proof.
  unfold digits. rewrite parse_digits_fixed. f_equal.
  rewrite N.mod_small by apply digits_bound. lia.
Qed.

(** ** Decimal text: stripping and parsing *)

Lemma forallb_rev {A : Type} (f : A -> bool) (l : list A) :
  forallb f (rev l) = forallb f l.
Proof.
  induction l as [| a l IH]; simpl.
  - reflexivity.
  - rewrite forallb_app, IH. simpl. rewrite andb_true_r. apply andb_comm.
Qed.

Lemma lstrip_spaces (pre rest : chars) :
  forallb is_space pre = true -> lstrip (pre ++ rest) = lstrip rest.
Proof.
  induction pre as [| c pre IH]; simpl; intros H.
  - reflexivity.
  - apply andb_prop in H. destruct H as [Hc Hpre]. rewrite Hc. auto.
Qed.

Lemma lstrip_plain (body rest : chars) :
  body <> [] ->
  forallb (fun c => negb (is_space c)) body = true ->
  lstrip (body ++ rest) = body ++ rest.
Proof.
  destruct body as [| c body]; [congruence |]. simpl. intros _ H.
  apply andb_prop in H. destruct H as [Hc _].
  now destruct (is_space c).
Qed.

(** Stripping takes the white space off both ends of a field. *)
Lemma strip_padded (pre body post : chars) :
  forallb is_space pre = true ->
  forallb is_space post = true ->
  forallb (fun c => negb (is_space c)) body = true ->
  strip (pre ++ body ++ post) = body.
Proof.
  intros Hpre Hpost Hbody. unfold strip. rewrite lstrip_spaces by exact Hpre.
  destruct body as [| c body].
  - simpl. rewrite <- (app_nil_r post), lstrip_spaces by exact Hpost.
    reflexivity.
  - rewrite lstrip_plain by (trivial; discriminate).
    rewrite rev_app_distr, lstrip_spaces by (now rewrite forallb_rev).
    rewrite <- (app_nil_r (rev (c :: body))), lstrip_plain.
    + now rewrite app_nil_r, rev_involutive.
    + intros H. apply (f_equal (@length ascii)) in H.
      rewrite length_rev in H. discriminate.
    + now rewrite forallb_rev.
Qed.

Lemma digits_plain (l : chars) :
  forallb is_digit l = true ->
  forallb (fun c => negb (is_space c)) l = true
  /\ forallb (fun c => negb (Ascii.eqb c period)) l = true
  /\ forallb (fun c => negb (is_line_break c)) l = true.
Proof.
  induction l as [| c l IH]; simpl; intros H; [auto |].
  apply andb_prop in H. destruct H as [Hc Hl].
  destruct (is_digit_plain c Hc) as (H1 & H2 & H3 & _).
  destruct (IH Hl) as (I1 & I2 & I3).
  rewrite H1, H2, H3, I1, I2, I3. auto.
Qed.

Lemma split_sign_digit (c : ascii) (l : chars) :
  is_digit c = true -> split_sign (c :: l) = (false, c :: l).
Proof.
  intros Hc. destruct (is_digit_plain c Hc) as (_ & _ & _ & Hm & Hp).
  simpl. now rewrite Hm, Hp.
Qed.

Lemma repeat_space_spaces (n : nat) : forallb is_space (repeat space n) = true.
Proof. induction n; simpl; auto. Qed.

(** [int] reads back the digits of a number from a padded field. *)
Lemma int_of_str_padded (pre post : chars) (k : N) :
  forallb is_space pre = true ->
  forallb is_space post = true ->
  int_of_str (pre ++ digits k ++ post) = Ok (Z.of_N k).
Proof.
  intros Hpre Hpost. unfold int_of_str.
  pose proof (digits_are_digits k) as Hd.
  rewrite strip_padded by (trivial; apply digits_plain, Hd).
  pose proof (digits_not_nil k) as Hnil.
  pose proof (parse_digits_digits k) as Hparse.
  destruct (digits k) as [| c l]; [congruence |].
  rewrite split_sign_digit by (simpl in Hd; apply andb_prop in Hd; tauto).
  now rewrite Hparse.
Qed.

Lemma split_period_app (a b : chars) :
  forallb (fun c => negb (Ascii.eqb c period)) a = true ->
  split_period (a ++ period :: b) = (a, Some b).
Proof.
  induction a as [| c a IH]; simpl; intros H.
  - reflexivity.
  - apply andb_prop in H. destruct H as [Hc Ha].
    destruct (Ascii.eqb c period); [discriminate |]. now rewrite IH.
Qed.

(** [float] reads back a decimal text from a padded field. *)
Lemma float_of_str_padded (pre post : chars) (negative : bool)
    (whole fraction : N) (p : nat) :
  forallb is_space pre = true ->
  forallb is_space post = true ->
  float_of_str
    (pre ++ ((if negative then ["-"%char] else [])
             ++ digits whole ++ period :: digits_fixed p fraction) ++ post)
  = Ok (binary64 (decimal_value negative whole
                    (fraction mod 10 ^ N.of_nat p) p)).
Proof.
  intros Hpre Hpost. unfold float_of_str.
  pose proof (digits_are_digits whole) as Hw.
  pose proof (digits_fixed_are_digits p fraction) as Hf.
  destruct (digits_plain _ Hw) as (Hw1 & Hw2 & _).
  destruct (digits_plain _ Hf) as (Hf1 & _ & _).
  rewrite strip_padded; trivial.
  2:{ rewrite !forallb_app. cbn [forallb]. rewrite Hw1, Hf1.
      destruct negative; reflexivity. }
  pose proof (digits_not_nil whole) as Hnil.
  pose proof (parse_digits_digits whole) as Hparse.
  assert (Hsplit :
    split_sign ((if negative then ["-"%char] else [])
                ++ digits whole ++ period :: digits_fixed p fraction)
    = (negative, digits whole ++ period :: digits_fixed p fraction)).
  { destruct negative; [reflexivity |]. cbn [app].
    destruct (digits whole) as [| c l]; [congruence |].
    cbn [app]. apply split_sign_digit.
    simpl in Hw. apply andb_prop in Hw. tauto. }
  rewrite Hsplit, split_period_app by exact Hw2.
  rewrite Hparse, parse_digits_fixed, length_digits_fixed.
  destruct (digits whole) as [| c l]; [congruence |].
  unfold decimal_value. repeat f_equal; lia.
Qed.

(** ** The records of the virtual sites *)

(** C10.  When the virtual-site table binds no key twice and every atom has
    a position, [to_gro] completes, and between the records of the [N] atoms
    and the box line it writes one record for each of the [M] virtual sites:
    residue index 1, an empty residue name, the atom name [VS], the indices
    [N + 1 .. N + M] in the order of the table, and the coordinates
    (0, 0, 0).  No parameter of a virtual site enters these records. *)
Theorem virtual_site_records_are_placeholders
    (openff_sys : Interchange) (n : nat) :
  NoDup (virtual_site_keys openff_sys) ->
  length (positions openff_sys) = n_atoms (mdtop openff_sys) ->
  let N := n_atoms (mdtop openff_sys) in
  let M := length (virtual_site_keys openff_sys) in
  to_gro_body openff_sys n
  = ([GroLine "Generated by OpenFF"; GroLine (str_nat (N + M))]
     ++ atom_records openff_sys n
     ++ map (fun index => GroRecord n 1 EmptyString "VS" index 0 0 0)
          (seq (N + 1) M)
     ++ box_values (box_of openff_sys)
     ++ [GroLine EmptyString],
     Ok tt).
Proof.
  intros Hnd Hlen N M. rewrite to_gro_body_spec by assumption.
  unfold gro_chunks. rewrite Hlen. reflexivity.
Qed.

Lemma virtual_site_records_are_placeholders_witness :
  NoDup (virtual_site_keys (water_model 0 0))
  /\ length (positions (water_model 0 0)) = n_atoms (mdtop (water_model 0 0))
  /\ to_gro_body (water_model 0 0) 3
     = ([GroLine "Generated by OpenFF"; GroLine (str_nat (3 + 3))]
        ++ atom_records (water_model 0 0) 3
        ++ map (fun index => GroRecord 3 1 EmptyString "VS" index 0 0 0)
             (seq (3 + 1) 3)
        ++ box_values (box_of (water_model 0 0))
        ++ [GroLine EmptyString],
        Ok tt).
Proof.
  assert (Hnd : NoDup (virtual_site_keys (water_model 0 0))).
  { repeat constructor; simpl; intuition discriminate. }
  split; [exact Hnd |]. split; [reflexivity |].
  exact (virtual_site_records_are_placeholders (water_model 0 0) 3 Hnd eq_refl).
Defined.

(** ** Rounding *)

Lemma pow10_pos (p : nat) : (0 < pow10 p)%Z.
Proof. unfold pow10. apply Z.pow_pos_nonneg; lia. Qed.

Lemma inject_pow10_pos (p : nat) : (0 < inject_Z (pow10 p))%Q.
Proof.
  change 0%Q with (inject_Z 0). rewrite <- Zlt_Qlt. apply pow10_pos.
Qed.

Lemma inject_pow10_neq_0 (p : nat) : ~ (inject_Z (pow10 p) == 0)%Q.
Proof.
  intros H. pose proof (inject_pow10_pos p) as Hpos. rewrite H in Hpos.
  now apply Qlt_irrefl in Hpos.
Qed.

Lemma to_N_pow10 (p : nat) : Z.to_N (pow10 p) = (10 ^ N.of_nat p)%N.
Proof.
  unfold pow10. rewrite <- nat_N_Z.
  change 10%Z with (Z.of_N 10). rewrite <- N2Z.inj_pow. apply N2Z.id.
Qed.

Lemma of_N_pow10 (p : nat) : Z.of_N (10 ^ N.of_nat p) = pow10 p.
Proof. rewrite <- to_N_pow10. apply Z2N.id. pose proof (pow10_pos p). lia. Qed.

Lemma round_half_even_comp (x y : Q) :
  (x == y)%Q -> round_half_even x = round_half_even y.
Proof.
  intros H. unfold round_half_even.
  assert (Hf : Qfloor x = Qfloor y) by (now apply Qfloor_comp).
  rewrite Hf.
  assert (Hc : Qcompare (x - inject_Z (Qfloor y)) (1 # 2)
               = Qcompare (y - inject_Z (Qfloor y)) (1 # 2)).
  { apply Qcompare_comp; [now rewrite H | reflexivity]. }
  now rewrite Hc.
Qed.

Lemma round_half_even_inject_Z (k : Z) : round_half_even (inject_Z k) = k.
Proof.
  unfold round_half_even. rewrite Qfloor_Z.
  assert (Hc : Qcompare (inject_Z k - inject_Z k) (1 # 2) = Lt).
  { rewrite <- Qlt_alt. Lqa.lra. }
  now rewrite Hc.
Qed.

(** Rounding moves a number by a half at most. *)
Lemma round_half_even_error (x : Q) :
  (Qabs (inject_Z (round_half_even x) - x) <= 1 # 2)%Q.
Proof.
  unfold round_half_even.
  pose proof (Qfloor_le x) as Hlo. pose proof (Qlt_floor x) as Hhi.
  rewrite inject_Z_plus in Hhi. change (inject_Z 1) with 1%Q in Hhi.
  apply Qabs_Qle_condition.
  destruct (Qcompare (x - inject_Z (Qfloor x)) (1 # 2)) eqn:Hc.
  - apply Qeq_alt in Hc.
    destruct (Z.even (Qfloor x));
      [| rewrite inject_Z_plus; change (inject_Z 1) with 1%Q];
      generalize dependent (inject_Z (Qfloor x)); intros f; intros;
      split; Lqa.lra.
  - apply Qlt_alt in Hc.
    generalize dependent (inject_Z (Qfloor x)); intros f; intros;
      split; Lqa.lra.
  - apply Qgt_alt in Hc. rewrite inject_Z_plus.
    change (inject_Z 1) with 1%Q.
    generalize dependent (inject_Z (Qfloor x)); intros f; intros;
      split; Lqa.lra.
Qed.

Lemma printed_value_0 (decimal : nat) : (printed_value 0 decimal == 0)%Q.
Proof.
  unfold printed_value.
  rewrite (round_half_even_comp (0 * inject_Z (pow10 decimal)) (inject_Z 0))
    by (change (inject_Z 0) with 0%Q; ring).
  rewrite round_half_even_inject_Z. field. apply inject_pow10_neq_0.
Qed.

(** ** Fixed-width fields *)

Lemma periods_from_app (a b : chars) :
  forall start,
    periods_from start (a ++ b)
    = periods_from start a ++ periods_from (start + length a) b.
Proof.
  unfold periods_from. induction a as [| c a IH]; intros start; simpl.
  - now rewrite Nat.add_0_r.
  - replace (start + S (length a)) with (S start + length a) by lia.
    destruct (Ascii.eqb c period); simpl; now rewrite IH.
Qed.

Lemma periods_from_none (l : chars) :
  forallb (fun c => negb (Ascii.eqb c period)) l = true ->
  forall start, periods_from start l = [].
Proof.
  unfold periods_from. induction l as [| c l IH]; simpl; intros H start.
  - reflexivity.
  - apply andb_prop in H. destruct H as [Hc Hl].
    destruct (Ascii.eqb c period); [discriminate |]. now apply IH.
Qed.

Lemma periods_from_one (a b : chars) (start : nat) :
  forallb (fun c => negb (Ascii.eqb c period)) a = true ->
  forallb (fun c => negb (Ascii.eqb c period)) b = true ->
  periods_from start (a ++ period :: b) = [start + length a].
Proof.
  intros Ha Hb. rewrite periods_from_app, periods_from_none by exact Ha.
  unfold periods_from. simpl. fold (periods_from (S (start + length a)) b).
  now rewrite periods_from_none.
Qed.

Lemma pad_left_0 (s : chars) : pad_left 0 s = s.
Proof. reflexivity. Qed.

Lemma format_f_pad (width prec : nat) (v : Q) :
  format_f width prec v = pad_left width (format_f 0 prec v).
Proof. reflexivity. Qed.

Lemma length_pad_left (width : nat) (s : chars) :
  length s <= width -> length (pad_left width s) = width.
Proof.
  intros H. unfold pad_left. rewrite length_app, repeat_length. lia.
Qed.

Lemma length_pad_right (width : nat) (s : chars) :
  length s <= width -> length (pad_right width s) = width.
Proof.
  intros H. unfold pad_right. rewrite length_app, repeat_length. lia.
Qed.

Lemma repeat_space_plain (n : nat) :
  forallb (fun c => negb (Ascii.eqb c period)) (repeat space n) = true
  /\ forallb (fun c => negb (is_line_break c)) (repeat space n) = true.
Proof. induction n; simpl; auto. Qed.

(** The sign, the digits before the period and the digits after it. *)
Lemma format_f_text (prec : nat) (v : Q) :
  1 <= prec ->
  let k := round_half_even (v * inject_Z (pow10 prec)) in
  format_f 0 prec v
  = ((if (k <? 0)%Z then ["-"%char] else [])
     ++ digits (Z.abs_N k / 10 ^ N.of_nat prec))
    ++ period :: digits_fixed prec (Z.abs_N k).
Proof.
  intros Hp k. unfold format_f. fold k. rewrite pad_left_0, to_N_pow10.
  destruct prec as [| prec]; [lia |]. cbn [Nat.eqb].
  now rewrite <- app_assoc.
Qed.

Lemma sign_plain (negative : bool) :
  let sign := if negative then ["-"%char] else [] in
  forallb (fun c => negb (is_space c)) sign = true
  /\ forallb (fun c => negb (Ascii.eqb c period)) sign = true
  /\ forallb (fun c => negb (is_line_break c)) sign = true.
Proof. destruct negative; simpl; auto. Qed.

(** A number with decimals is one word, has one period and stays on its
    line. *)
Lemma format_f_plain (prec : nat) (v : Q) :
  1 <= prec ->
  format_f 0 prec v <> []
  /\ forallb (fun c => negb (is_space c)) (format_f 0 prec v) = true
  /\ forallb (fun c => negb (is_line_break c)) (format_f 0 prec v) = true
  /\ (forall start,
        periods_from start (format_f 0 prec v)
        = [start + (length (format_f 0 prec v) - prec - 1)]).
Proof.
  intros Hp. rewrite (format_f_text prec v Hp).
  set (k := round_half_even (v * inject_Z (pow10 prec))).
  destruct (sign_plain (k <? 0)%Z) as (Hs1 & Hs2 & Hs3).
  destruct (digits_plain _ (digits_are_digits (Z.abs_N k / 10 ^ N.of_nat prec)))
    as (Hw1 & Hw2 & Hw3).
  destruct (digits_plain _ (digits_fixed_are_digits prec (Z.abs_N k)))
    as (Hf1 & Hf2 & Hf3).
  repeat split.
  - intros H. apply (f_equal (@length ascii)) in H.
    rewrite length_app in H. simpl in H. lia.
  - rewrite !forallb_app. cbn [forallb]. now rewrite Hs1, Hw1, Hf1.
  - rewrite !forallb_app. cbn [forallb]. now rewrite Hs3, Hw3, Hf3.
  - intros start. rewrite periods_from_one.
    + f_equal. rewrite (length_app _ (period :: _)). cbn [length].
      rewrite length_digits_fixed. lia.
    + rewrite forallb_app. now rewrite Hs2, Hw2.
    + exact Hf2.
Qed.

(** A number that fits fills its field. *)
Lemma format_f_field (width prec : nat) (v : Q) :
  1 <= prec ->
  fits_f width prec v = true ->
  length (format_f width prec v) = width
  /\ forallb (fun c => negb (is_line_break c)) (format_f width prec v) = true
  /\ (forall start,
        periods_from start (format_f width prec v)
        = [start + (width - prec - 1)]).
Proof.
  intros Hp Hfit. unfold fits_f in Hfit. apply Nat.leb_le in Hfit.
  destruct (format_f_plain prec v Hp) as (_ & _ & Hnl & Hper).
  rewrite format_f_pad. repeat split.
  - now apply length_pad_left.
  - unfold pad_left. rewrite forallb_app, Hnl.
    now rewrite (proj2 (repeat_space_plain _)).
  - intros start. unfold pad_left.
    rewrite periods_from_app, periods_from_none
      by apply (proj1 (repeat_space_plain _)).
    rewrite Hper, repeat_length. cbn [app]. f_equal.
    assert (prec + 2 <= length (format_f 0 prec v)).
    { rewrite (format_f_text prec v Hp), length_app. cbn [length].
      rewrite length_digits_fixed, length_app.
      pose proof (digits_not_nil
                    (Z.abs_N (round_half_even (v * inject_Z (pow10 prec)))
                     / 10 ^ N.of_nat prec)) as Hnil.
      destruct (digits _); [congruence |]. cbn [length]. lia. }
    lia.
Qed.

(** ** Doubles *)

Lemma binary64_comp (x y : Q) : (x == y)%Q -> binary64 x = binary64 y.
Proof.
  intros H. unfold binary64. now rewrite (Qred_complete x y H).
Qed.

Lemma binary64_0 : binary64 0 = 0%Q.
Proof. reflexivity. Qed.

Lemma Qpower_2_pos (e : Z) : (0 < 2 ^ e)%Q.
Proof. apply Qpower_0_lt. reflexivity. Qed.

Lemma Qpower_2_le (a b : Z) : (a <= b)%Z -> (2 ^ a <= 2 ^ b)%Q.
Proof. intros H. apply Qpower_le_compat_l; [exact H | discriminate]. Qed.

Lemma inject_Z_pow2 (n : Z) : (0 <= n)%Z -> (inject_Z (2 ^ n) == 2 ^ n)%Q.
Proof. intros H. now rewrite Zpower_Qpower. Qed.

Lemma Qabs_fraction (q : Q) :
  (Qabs q == inject_Z (Z.abs (Qnum q)) / inject_Z (Zpos (Qden q)))%Q.
Proof.
  destruct q as [num den]. unfold Qabs, Qeq, Qdiv, Qmult, Qinv, inject_Z.
  cbn. lia.
Qed.

(** The binade of a number is at most its logarithm. *)
Lemma binade_le (q : Q) : ~ (q == 0)%Q -> (2 ^ binade q <= Qabs q)%Q.
Proof.
  intros Hq. unfold binade.
  set (n := Z.abs (Qnum q)). set (d := Zpos (Qden q)).
  set (l := (Z.log2 n - Z.log2 d)%Z).
  destruct (Qle_bool (2 ^ l) (Qabs q)) eqn:Hle.
  - now apply Qle_bool_iff.
  - assert (Hn : (0 < n)%Z).
    { unfold n. destruct q as [[| p | p] den]; cbn; try lia.
      exfalso. apply Hq. reflexivity. }
    assert (Hd : (0 < d)%Z) by (unfold d; lia).
    pose proof (Z.log2_spec n Hn) as [Hn1 _].
    pose proof (Z.log2_spec d Hd) as [_ Hd2].
    pose proof (Z.log2_nonneg n) as Hln. pose proof (Z.log2_nonneg d) as Hld.
    rewrite Qabs_fraction. fold n d.
    assert (Hdq : (0 < inject_Z d)%Q).
    { change 0%Q with (inject_Z 0). now rewrite <- Zlt_Qlt. }
    replace (l - 1)%Z with (Z.log2 n - Z.succ (Z.log2 d))%Z by lia.
    rewrite Qpower_minus by discriminate.
    rewrite <- !inject_Z_pow2 by lia.
    set (a := (2 ^ Z.log2 n)%Z) in *. set (b := (2 ^ Z.succ (Z.log2 d))%Z) in *.
    assert (Hb : (0 < inject_Z b)%Q).
    { change 0%Q with (inject_Z 0). rewrite <- Zlt_Qlt. lia. }
    apply Qle_shift_div_l; [exact Hdq |].
    setoid_replace (inject_Z a / inject_Z b * inject_Z d)%Q
      with (inject_Z a * inject_Z d / inject_Z b)%Q
      by (field; intros H; rewrite H in Hb; now apply Qlt_irrefl in Hb).
    apply Qle_shift_div_r; [exact Hb |].
    rewrite <- !inject_Z_mult, <- Zle_Qle.
    assert (0 < a)%Z by (unfold a; apply Z.pow_pos_nonneg; lia).
    nia.
Qed.

Definition ulp_half : Q := (1 # 2 ^ 53)%Q.

(** A double is its number up to half a unit of its last bit: 2^-53 of the
    number, or 2^-1075 where that is more. *)
Lemma binary64_error (q : Q) :
  (Qabs (binary64 q - q) <= Qabs q * (1 # 2 ^ 53) + 2 ^ (-1075))%Q.
Proof.
  unfold binary64. pose proof (Qred_correct q) as Hred.
  set (r := Qred q) in *.
  destruct (Qeq_bool r 0) eqn:Hz.
  - apply Qeq_bool_eq in Hz. rewrite <- Hred, Hz.
    setoid_replace (0 - 0)%Q with 0%Q by ring. cbn [Qabs Z.abs Qnum Qden].
    pose proof (Qpower_2_pos (-1075)). Lqa.lra.
  - assert (Hr : ~ (r == 0)%Q).
    { intros H. apply Qeq_eq_bool in H. congruence. }
    pose proof (binade_le r Hr) as Hb.
    set (e := Z.max (binade r - 52) (-1074)).
    pose proof (Qpower_2_pos e) as Hu.
    rewrite Qred_correct.
    pose proof (round_half_even_error (r / 2 ^ e)) as Herr.
    set (m := inject_Z (round_half_even (r / 2 ^ e))) in *.
    assert (Hdiff : (m * 2 ^ e - q == (m - r / 2 ^ e) * 2 ^ e)%Q).
    { rewrite <- Hred. field. intros H. rewrite H in Hu.
      now apply Qlt_irrefl in Hu. }
    rewrite Hdiff, Qabs_Qmult, (Qabs_pos (2 ^ e)) by now apply Qlt_le_weak.
    apply Qle_trans with ((1 # 2) * 2 ^ e)%Q.
    { apply Qmult_le_compat_r; [exact Herr | now apply Qlt_le_weak]. }
    rewrite <- Hred.
    assert (Hhalf : forall z, ((1 # 2) * 2 ^ z == 2 ^ (z - 1))%Q).
    { intros z. rewrite Qpower_minus by discriminate.
      change (2 ^ 1)%Q with 2%Q. field. }
    rewrite Hhalf.
    destruct (Z.max_spec (binade r - 52) (-1074)) as [[_ He] | [_ He]];
      fold e in He; rewrite He.
    + change (-1074 - 1)%Z with (-1075)%Z.
      assert (0 <= Qabs r * (1 # 2 ^ 53))%Q.
      { apply Qmult_le_0_compat; [apply Qabs_nonneg | discriminate]. }
      Lqa.lra.
    + replace (binade r - 52 - 1)%Z with (binade r - 53)%Z by lia.
      rewrite Qpower_minus by discriminate.
      assert (Hp : (2 ^ 53 == inject_Z (2 ^ 53))%Q) by reflexivity.
      pose proof (Qpower_2_pos (-1075)).
      apply Qle_trans with (Qabs r * (1 # 2 ^ 53))%Q; [| Lqa.lra].
      unfold Qdiv. apply Qmult_le_compat_r; [exact Hb |]. discriminate.
Qed.

(** An integer within less than a half of a number is the number
    rounded. *)
Lemma round_half_even_near (z : Q) (k : Z) :
  (Qabs (z - inject_Z k) < 1 # 2)%Q -> round_half_even z = k.
Proof.
  intros Hnear. pose proof (round_half_even_error z) as Herr.
  set (r := round_half_even z) in *.
  assert (H : (Qabs (inject_Z (r - k)) < 1)%Q).
  { unfold Zminus. rewrite inject_Z_plus, inject_Z_opp.
    setoid_replace (inject_Z r + - inject_Z k)%Q
      with ((inject_Z r - z) + (z - inject_Z k))%Q by ring.
    eapply Qle_lt_trans; [apply Qabs_triangle |].
    generalize dependent (Qabs (inject_Z r - z)).
    generalize dependent (Qabs (z - inject_Z k)). intros a Ha b Hb.
    Lqa.lra. }
  apply Qabs_Qlt_condition in H. destruct H as [Hlo Hhi].
  change (- (1))%Q with (inject_Z (-1)) in Hlo.
  change 1%Q with (inject_Z 1) in Hhi.
  rewrite <- Zlt_Qlt in Hlo, Hhi. lia.
Qed.

Lemma power_of_ten_exact (decimal : nat) :
  decimal <= 22 -> power_of_ten decimal = inject_Z (pow10 decimal).
Proof.
  intros H.
  do 23 (destruct decimal as [| decimal]; [vm_compute; reflexivity |]).
  lia.
Qed.

(** A number that fits in its field has at most four digits before the
    period. *)
Lemma fits_f_bound (prec : nat) (v : Q) :
  1 <= prec ->
  fits_f (prec + 5) prec v = true ->
  (Z.abs (round_half_even (v * inject_Z (pow10 prec))) < pow10 (prec + 4))%Z.
Proof.
  intros Hp Hfit. unfold fits_f in Hfit. apply Nat.leb_le in Hfit.
  rewrite (format_f_text prec v Hp) in Hfit.
  set (k := round_half_even (v * inject_Z (pow10 prec))) in *.
  rewrite !length_app in Hfit. cbn [length] in Hfit.
  rewrite length_digits_fixed in Hfit.
  set (whole := (Z.abs_N k / 10 ^ N.of_nat prec)%N) in *.
  assert (Hlen : length (digits whole) <= 4) by lia.
  unfold digits in Hlen. rewrite length_digits_fixed in Hlen.
  pose proof (digits_bound whole) as Hb.
  assert (Hw : (whole < 10 ^ 4)%N).
  { eapply N.lt_le_trans; [exact Hb |].
    apply N.pow_le_mono_r; [discriminate | lia]. }
  assert (Hk : (Z.abs_N k < 10 ^ 4 * 10 ^ N.of_nat prec)%N).
  { assert (Hpos : (10 ^ N.of_nat prec <> 0)%N)
      by (apply N.pow_nonzero; discriminate).
    pose proof (N.mul_succ_div_gt (Z.abs_N k) _ Hpos) as Hgt.
    fold whole in Hgt. nia. }
  unfold pow10. rewrite Nat2Z.inj_add, Z.pow_add_r by lia.
  change (Z.of_nat 4) with 4%Z.
  apply N2Z.inj_lt in Hk. rewrite N2Z.inj_abs_N, N2Z.inj_mul in Hk.
  rewrite !N2Z.inj_pow, nat_N_Z in Hk. change (Z.of_N 10) with 10%Z in Hk.
  change (Z.of_N 4) with 4%Z in Hk. lia.
Qed.

Lemma subnormal_small : (2 ^ (-1075) <= 1 # 10 ^ 30)%Q.
Proof. apply Qle_bool_imp_le. vm_compute. reflexivity. Qed.

(** The errors of the four roundings between a coordinate and the number
    that is read back, scaled by the power of ten: [P] is the coordinate,
    [a1] the double of it, [kq] the integer that [np.round] takes, [Y] the
    double that it returns, [Kq] the integer that is printed. *)
Lemma round_trip_bounds (P a1 kq Y Kq t tf : Q) :
  (0 <= t)%Q -> (t <= 1 # 10 ^ 30)%Q ->
  (0 <= tf)%Q -> (tf <= 1 # 10 ^ 19)%Q ->
  (Qabs (a1 - P) <= Qabs P * (1 # 2 ^ 53) + t)%Q ->
  (Qabs (kq - a1) <= 1 # 2)%Q ->
  (Qabs (Y - kq) <= Qabs (kq) * (1 # 2 ^ 53) + tf)%Q ->
  (Qabs (Kq - Y) <= 1 # 2)%Q ->
  (Qabs (Kq) <= inject_Z (10 ^ 15))%Q ->
  (Qabs (Y - kq) < 1 # 2)%Q /\ (Qabs (Y - P) <= 1)%Q.
Proof.
  intros Ht0 Ht Htf0 Htf E1 E2 E3 E4 B.
  change (inject_Z (10 ^ 15)) with (1000000000000000 # 1)%Q in B.
  change (1 # 2 ^ 53)%Q with (1 # 9007199254740992)%Q in E1, E3.
  change (1 # 10 ^ 30)%Q with (1 # 1000000000000000000000000000000)%Q in Ht.
  change (1 # 10 ^ 19)%Q with (1 # 10000000000000000000)%Q in Htf.
  apply Qabs_Qle_condition in E2, E4, B.
  assert (HP : (Qabs P == P \/ Qabs P == - P)%Q).
  { destruct (Qlt_le_dec P 0) as [H | H].
    - right. apply Qabs_neg. now apply Qlt_le_weak.
    - left. now apply Qabs_pos. }
  assert (Hk : (Qabs (kq) == kq
                \/ Qabs (kq) == - kq)%Q).
  { destruct (Qlt_le_dec (kq) 0) as [H | H].
    - right. apply Qabs_neg. now apply Qlt_le_weak.
    - left. now apply Qabs_pos. }
  pose proof (Qabs_nonneg P) as HP0.
  pose proof (Qabs_nonneg (kq)) as Hk0.
  revert E1 E3 HP Hk HP0 Hk0.
  generalize (Qabs P) (Qabs kq). intros AP Ak E1 E3 HP Hk HP0 Hk0.
  apply Qabs_Qle_condition in E1, E3.
  split.
  - apply Qabs_Qlt_condition.
    destruct Hk as [Hk | Hk]; rewrite Hk in E3; split; Lqa.lra.
  - apply Qabs_Qle_condition.
    destruct HP as [HP | HP]; rewrite HP in E1;
      destruct Hk as [Hk | Hk]; rewrite Hk in E3; split; Lqa.lra.
Qed.

Lemma pow10_le (a b : nat) : a <= b -> (pow10 a <= pow10 b)%Z.
Proof. intros H. unfold pow10. apply Z.pow_le_mono_r; lia. Qed.

(** What [np.round] returns, where it fits its field, is read back as it is
    from the text that is written of it, and it is the coordinate up to one
    unit of the last decimal. *)
Lemma np_round_read (x : Q) (decimal : nat) :
  1 <= decimal -> decimal <= 11 ->
  fits_f (decimal + 5) decimal (np_round x decimal) = true ->
  read_value (np_round x decimal) decimal = np_round x decimal
  /\ (Qabs (np_round x decimal - x) <= 1 / inject_Z (pow10 decimal))%Q.
Proof.
  intros Hd1 Hd Hfit. apply (fits_f_bound _ _ Hd1) in Hfit.
  unfold read_value, printed_value. unfold np_round in *.
  rewrite power_of_ten_exact in * by lia.
  set (f := inject_Z (pow10 decimal)) in *.
  set (a1 := binary64 (x * f)) in *.
  set (k := round_half_even a1) in *.
  set (y := binary64 (inject_Z k / f)) in *.
  set (K := round_half_even (y * f)) in *.
  assert (Hf1 : (1 <= f)%Q).
  { unfold f. change 1%Q with (inject_Z (pow10 0)). rewrite <- Zle_Qle.
    apply pow10_le. lia. }
  assert (Hf2 : (f <= inject_Z (10 ^ 11))%Q).
  { unfold f. rewrite <- Zle_Qle. now apply (pow10_le decimal 11). }
  assert (Hfpos : (0 < f)%Q) by (eapply Qlt_le_trans; [| exact Hf1]; reflexivity).
  assert (Hf0 : ~ (f == 0)%Q).
  { intros H. rewrite H in Hfpos. now apply Qlt_irrefl in Hfpos. }
  pose proof (Qpower_2_pos (-1075)) as Ht0. pose proof subnormal_small as Ht.
  set (t := (2 ^ (-1075))%Q) in *.
  assert (Htf : (t * f <= 1 # 10 ^ 19)%Q).
  { apply Qle_trans with ((1 # 10 ^ 30) * inject_Z (10 ^ 11))%Q.
    - apply Qmult_le_compat_nonneg; split; trivial; now apply Qlt_le_weak.
    - apply Qle_bool_imp_le. vm_compute. reflexivity. }
  assert (Htf0 : (0 <= t * f)%Q).
  { apply Qmult_le_0_compat; now apply Qlt_le_weak. }
  pose proof (binary64_error (x * f)) as E1. fold a1 t in E1.
  pose proof (round_half_even_error a1) as E2. fold k in E2.
  pose proof (binary64_error (inject_Z k / f)) as E3. fold y t in E3.
  pose proof (round_half_even_error (y * f)) as E4. fold K in E4.
  assert (E3' : (Qabs (y * f - inject_Z k)
                 <= Qabs (inject_Z k) * (1 # 2 ^ 53) + t * f)%Q).
  { assert (H1 : (Qabs (y * f - inject_Z k)
                  == Qabs (y - inject_Z k / f) * f)%Q).
    { setoid_replace (y * f - inject_Z k)%Q with ((y - inject_Z k / f) * f)%Q
        by (field; exact Hf0).
      rewrite Qabs_Qmult, (Qabs_pos f) by now apply Qlt_le_weak.
      reflexivity. }
    assert (H2 : (Qabs (inject_Z k) == Qabs (inject_Z k / f) * f)%Q).
    { setoid_replace (inject_Z k)%Q with (inject_Z k / f * f)%Q at 1
        by (field; exact Hf0).
      rewrite Qabs_Qmult, (Qabs_pos f) by now apply Qlt_le_weak.
      reflexivity. }
    rewrite H1, H2.
    apply Qle_trans
      with ((Qabs (inject_Z k / f) * (1 # 2 ^ 53) + t) * f)%Q.
    - apply Qmult_le_compat_r; [exact E3 | now apply Qlt_le_weak].
    - apply Qle_lteq. right. ring. }
  assert (B : (Qabs (inject_Z K) <= inject_Z (10 ^ 15))%Q).
  { assert (HK : (Z.abs K <= 10 ^ 15)%Z).
    { pose proof (pow10_le (decimal + 4) 15 ltac:(lia)) as H15.
      change (pow10 15) with (10 ^ 15)%Z in H15. lia. }
    apply Qabs_Qle_condition. rewrite <- inject_Z_opp, <- !Zle_Qle. lia. }
  destruct (round_trip_bounds (x * f) a1 (inject_Z k) (y * f) (inject_Z K)
              t (t * f)
              (Qlt_le_weak _ _ Ht0) Ht Htf0 Htf E1 E2 E3' E4 B)
    as [Hnear Hclose].
  split.
  - replace K with k
      by (symmetry; apply round_half_even_near; exact Hnear).
    reflexivity.
  - apply Qle_shift_div_l; [exact Hfpos |].
    rewrite <- (Qabs_pos f) at 1 by now apply Qlt_le_weak.
    rewrite <- Qabs_Qmult.
    setoid_replace ((y - x) * f)%Q with (y * f - x * f)%Q by ring.
    exact Hclose.
Qed.

(** A zero is read back as a zero. *)
Lemma read_value_0 (decimal : nat) : read_value 0 decimal = 0%Q.
Proof.
  unfold read_value. rewrite (binary64_comp _ 0 (printed_value_0 decimal)).
  reflexivity.
Qed.

(** [float] reads a formatted number back as the double nearest to the
    number that was printed. *)
Lemma format_f_read (width prec : nat) (v : Q) :
  1 <= prec ->
  float_of_str (format_f width prec v) = Ok (read_value v prec).
Proof.
  intros Hp. rewrite format_f_pad, (format_f_text prec v Hp).
  set (k := round_half_even (v * inject_Z (pow10 prec))).
  unfold pad_left. rewrite <- app_assoc.
  match goal with
  | |- context [repeat space ?n ++ ?body] =>
      replace (repeat space n ++ body) with (repeat space n ++ body ++ [])
        by now rewrite app_nil_r
  end.
  rewrite float_of_str_padded by (trivial; apply repeat_space_spaces).
  f_equal. unfold read_value. apply binary64_comp.
  unfold printed_value. fold k. unfold decimal_value.
  set (d := (10 ^ N.of_nat prec)%N).
  assert (Hd : Z.of_N d = pow10 prec) by apply of_N_pow10.
  assert (Hd0 : ~ (inject_Z (pow10 prec) == 0)%Q) by apply inject_pow10_neq_0.
  assert (Hm : Z.of_N (Z.abs_N k)
               = (pow10 prec * Z.of_N (Z.abs_N k / d)
                  + Z.of_N (Z.abs_N k mod d))%Z).
  { rewrite <- Hd, <- N2Z.inj_mul, <- N2Z.inj_add. f_equal.
    apply N.Div0.div_mod. }
  assert (Hq : (inject_Z (Z.of_N (Z.abs_N k / d))
                + inject_Z (Z.of_N (Z.abs_N k mod d)) / inject_Z (pow10 prec)
                == inject_Z (Z.of_N (Z.abs_N k)) / inject_Z (pow10 prec))%Q).
  { rewrite Hm, inject_Z_plus, inject_Z_mult. field. exact Hd0. }
  rewrite N2Z.inj_abs_N in Hq.
  destruct (Z.ltb_spec k 0) as [Hneg | Hpos].
  - rewrite Hq, Z.abs_neq by lia. rewrite inject_Z_opp. field. exact Hd0.
  - rewrite Hq, Z.abs_eq by lia. reflexivity.
Qed.

(** ** Lines and columns *)

Lemma slice_at (pre mid post : chars) (a b : nat) :
  length pre = a -> length mid = b - a ->
  slice a b (pre ++ mid ++ post) = mid.
Proof.
  intros Hpre Hmid. unfold slice.
  rewrite skipn_app, skipn_all2, Hpre, Nat.sub_diag by lia. cbn [skipn app].
  rewrite <- Hmid, <- (Nat.add_0_r (length mid)), firstn_app_2.
  cbn [firstn]. apply app_nil_r.
Qed.

Lemma readline_app (l rest : chars) :
  forallb (fun c => negb (is_line_break c)) l = true ->
  readline (l ++ newline :: rest) = (l ++ [newline], rest).
Proof.
  induction l as [| c l IH]; simpl; intros H.
  - reflexivity.
  - apply andb_prop in H. destruct H as [Hc Hl]. unfold is_line_break in Hc.
    destruct (Ascii.eqb c newline); [discriminate |].
    destruct (Ascii.eqb c carriage_return); [discriminate |].
    now rewrite IH.
Qed.

(** The columns of a record line: four fields of five characters and three
    of [w]. *)
Lemma record_layout (f1 f2 f3 f4 fx fy fz : chars) (w : nat) :
  length f1 = 5 -> length f2 = 5 -> length f3 = 5 -> length f4 = 5 ->
  length fx = w -> length fy = w -> length fz = w ->
  let line := f1 ++ f2 ++ f3 ++ f4 ++ fx ++ fy ++ fz ++ [newline] in
  slice 0 5 line = f1
  /\ slice 15 20 line = f4
  /\ slice 20 (20 + w) line = fx
  /\ slice (20 + w) (20 + 2 * w) line = fy
  /\ slice (20 + 2 * w) (20 + 3 * w) line = fz.
Proof.
  intros H1 H2 H3 H4 Hx Hy Hz line. unfold line. repeat split.
  - apply (slice_at [] f1); [reflexivity | exact H1].
  - replace (f1 ++ f2 ++ f3 ++ f4 ++ fx ++ fy ++ fz ++ [newline])
      with ((f1 ++ f2 ++ f3) ++ f4 ++ fx ++ fy ++ fz ++ [newline])
      by (now rewrite <- !app_assoc).
    apply slice_at; [rewrite !length_app; lia | exact H4].
  - replace (f1 ++ f2 ++ f3 ++ f4 ++ fx ++ fy ++ fz ++ [newline])
      with ((f1 ++ f2 ++ f3 ++ f4) ++ fx ++ fy ++ fz ++ [newline])
      by (now rewrite <- !app_assoc).
    apply slice_at; [rewrite !length_app; lia | lia].
  - replace (f1 ++ f2 ++ f3 ++ f4 ++ fx ++ fy ++ fz ++ [newline])
      with ((f1 ++ f2 ++ f3 ++ f4 ++ fx) ++ fy ++ fz ++ [newline])
      by (now rewrite <- !app_assoc).
    apply slice_at; [rewrite !length_app; lia | lia].
  - replace (f1 ++ f2 ++ f3 ++ f4 ++ fx ++ fy ++ fz ++ [newline])
      with ((f1 ++ f2 ++ f3 ++ f4 ++ fx ++ fy) ++ fz ++ [newline])
      by (now rewrite <- !app_assoc).
    apply slice_at; [rewrite !length_app; lia | lia].
Qed.

(** The last two periods of a line that ends in two fields of [w]
    characters with one period each, at the column [o] of the field. *)
Lemma last_periods (pre f1 f2 : chars) (w o : nat) :
  length f1 = w ->
  (forall start, periods_from start f1 = [start + o]) ->
  (forall start, periods_from start f2 = [start + o]) ->
  exists earlier,
    rev (periods_from 0 (pre ++ f1 ++ f2 ++ [newline]))
    = (length pre + w + o) :: (length pre + o) :: earlier.
Proof.
  intros Hw H1 H2. exists (rev (periods_from 0 pre)).
  rewrite !periods_from_app, H1, H2, Hw.
  rewrite (periods_from_none [newline]) by reflexivity.
  rewrite app_nil_r, !rev_app_distr. reflexivity.
Qed.

Lemma length_list_ascii_of_string (s : string) :
  length (list_ascii_of_string s) = String.length s.
Proof. induction s as [| c s IH]; simpl; congruence. Qed.

(** A number that fits fills its field and reads back. *)
Lemma format_d_field (n : nat) :
  fits_d 5 n = true ->
  length (format_d 5 n) = 5
  /\ forallb (fun c => negb (is_line_break c)) (format_d 5 n) = true
  /\ int_of_str (format_d 5 n) = Ok (Z.of_nat n).
Proof.
  intros Hfit. unfold fits_d in Hfit. apply Nat.leb_le in Hfit.
  unfold format_d in *. rewrite pad_left_0 in Hfit. repeat split.
  - now apply length_pad_left.
  - unfold pad_left. rewrite forallb_app.
    rewrite (proj2 (repeat_space_plain _)).
    now destruct (digits_plain _ (digits_are_digits (N.of_nat n))) as (_ & _ & ->).
  - unfold pad_left.
    replace (digits (N.of_nat n)) with (digits (N.of_nat n) ++ [])
      by apply app_nil_r.
    rewrite int_of_str_padded by (trivial; apply repeat_space_spaces).
    now rewrite nat_N_Z.
Qed.

Lemma format_s_field (s : string) :
  (String.length s <=? 5) = true ->
  no_newline s = true ->
  (length (format_s 5 s) = 5
   /\ forallb (fun c => negb (is_line_break c)) (format_s 5 s) = true)
  /\ (length (format_s_left 5 s) = 5
      /\ forallb (fun c => negb (is_line_break c)) (format_s_left 5 s)
         = true).
Proof.
  intros Hlen Hnl. apply Nat.leb_le in Hlen.
  rewrite <- length_list_ascii_of_string in Hlen. unfold no_newline in Hnl.
  unfold format_s, format_s_left, pad_left, pad_right.
  rewrite !forallb_app, !length_app, !repeat_length, Hnl.
  rewrite (proj2 (repeat_space_plain _)). repeat split; lia.
Qed.

(** ** Reading the records back *)

Lemma render_record_fields (n residue_idx : nat) (residue_name atom_name : string)
    (atom_index : nat) (x y z : Q) :
  1 <= n ->
  record_in_columns
    (GroRecord n residue_idx residue_name atom_name atom_index x y z) = true ->
  let w := n + 5 in
  exists f1 f2 f3 f4 fx fy fz,
    render (GroRecord n residue_idx residue_name atom_name atom_index x y z)
    = f1 ++ f2 ++ f3 ++ f4 ++ fx ++ fy ++ fz ++ [newline]
    /\ (length f1 = 5 /\ length f2 = 5 /\ length f3 = 5 /\ length f4 = 5
        /\ length fx = w /\ length fy = w /\ length fz = w)
    /\ forallb (fun c => negb (is_line_break c))
         (f1 ++ f2 ++ f3 ++ f4 ++ fx ++ fy ++ fz) = true
    /\ (exists i, int_of_str f1 = Ok i)
    /\ (exists i, int_of_str f4 = Ok i)
    /\ float_of_str fx = Ok (read_value x n)
    /\ float_of_str fy = Ok (read_value y n)
    /\ float_of_str fz = Ok (read_value z n)
    /\ (forall start, periods_from start fy = [start + (w - n - 1)])
    /\ (forall start, periods_from start fz = [start + (w - n - 1)]).
Proof.
  intros Hn Hfit w. cbn [record_in_columns] in Hfit.
  repeat (apply andb_prop in Hfit; destruct Hfit as [Hfit ?]).
  destruct (format_d_field residue_idx) as (L1 & N1 & R1); trivial.
  destruct (format_d_field atom_index) as (L4 & N4 & R4); trivial.
  destruct (format_s_field residue_name) as (_ & L2 & N2); trivial.
  destruct (format_s_field atom_name) as ((L3 & N3) & _); trivial.
  destruct (format_f_field (n + 5) n x Hn) as (Lx & Nx & Px); trivial.
  destruct (format_f_field (n + 5) n y Hn) as (Ly & Ny & Py); trivial.
  destruct (format_f_field (n + 5) n z Hn) as (Lz & Nz & Pz); trivial.
  exists (format_d 5 residue_idx), (format_s_left 5 residue_name),
    (format_s 5 atom_name), (format_d 5 atom_index),
    (format_f (n + 5) n x), (format_f (n + 5) n y), (format_f (n + 5) n z).
  split; [reflexivity |]. split; [now repeat split |].
  split; [rewrite !forallb_app; now rewrite N1, N2, N3, N4, Nx, Ny, Nz |].
  split; [eauto |]. split; [eauto |].
  split; [now apply format_f_read |]. split; [now apply format_f_read |].
  split; [now apply format_f_read |]. split; assumption.
Qed.

(** One step of the loop of [from_gro] reads a record that stays in its
    columns as the rounded coordinates. *)
Lemma read_record (n : nat) (c : gro_chunk) :
  1 <= n ->
  record_of n c = true ->
  record_in_columns c = true ->
  let w := n + 5 in
  exists q,
    q = rounded_position n (record_coordinates c)
    /\ (forall rest, readline (render c ++ rest) = (render c, rest))
    /\ (forall k rest coordinates rest',
          read_coordinates k 20 (20 + w) (20 + 2 * w) (20 + 3 * w) rest
          = Ok (coordinates, rest') ->
          read_coordinates (S k) 20 (20 + w) (20 + 2 * w) (20 + 3 * w)
            (render c ++ rest)
          = Ok (q :: coordinates, rest'))
    /\ (exists earlier,
          rev (periods_from 0 (render c))
          = (20 + 2 * w + (w - n - 1)) :: (20 + w + (w - n - 1)) :: earlier).
Proof.
  intros Hn Hof Hfit w.
  destruct c as [| n' residue_idx residue_name atom_name atom_index x y z |];
    try discriminate Hof.
  cbn [record_of] in Hof. apply Nat.eqb_eq in Hof. subst n'.
  destruct (render_record_fields _ _ _ _ _ _ _ _ Hn Hfit)
    as (f1 & f2 & f3 & f4 & fx & fy & fz & Hrender & Hlen & Hnl
        & (i1 & Hi1) & (i4 & Hi4) & Hx & Hy & Hz & Py & Pz).
  destruct Hlen as (L1 & L2 & L3 & L4 & Lx & Ly & Lz).
  destruct (record_layout f1 f2 f3 f4 fx fy fz (n + 5) L1 L2 L3 L4 Lx Ly Lz)
    as (S1 & S4 & Sx & Sy & Sz).
  assert (Hline : forall rest,
             readline (render (GroRecord n residue_idx residue_name atom_name
                                 atom_index x y z) ++ rest)
             = (render (GroRecord n residue_idx residue_name atom_name
                          atom_index x y z), rest)).
  { intros rest. rewrite Hrender.
    replace (f1 ++ f2 ++ f3 ++ f4 ++ fx ++ fy ++ fz ++ [newline])
      with ((f1 ++ f2 ++ f3 ++ f4 ++ fx ++ fy ++ fz) ++ [newline])
      by (now rewrite <- !app_assoc).
    rewrite <- app_assoc. cbn [app]. now apply readline_app. }
  eexists. split; [reflexivity |]. split; [exact Hline |]. split.
  - intros k rest coordinates rest' Hrest.
    cbn [read_coordinates]. rewrite Hline, Hrender.
    fold w in S1, S4, Sx, Sy, Sz |- *.
    rewrite S1, S4, Sx, Sy, Sz, Hi1, Hi4, Hx, Hy, Hz. cbn [rbind].
    rewrite Hrest. reflexivity.
  - rewrite Hrender.
    replace (f1 ++ f2 ++ f3 ++ f4 ++ fx ++ fy ++ fz ++ [newline])
      with ((f1 ++ f2 ++ f3 ++ f4 ++ fx) ++ fy ++ fz ++ [newline])
      by (now rewrite <- !app_assoc).
    destruct (last_periods (f1 ++ f2 ++ f3 ++ f4 ++ fx) fy fz (n + 5)
                (n + 5 - n - 1) Ly Py Pz) as (earlier & Hrev).
    exists earlier. rewrite Hrev. rewrite !length_app, L1, L2, L3, L4, Lx.
    unfold w. apply f_equal2; [lia | apply f_equal2; [lia | reflexivity]].
Qed.

Lemma gro_text_app (a b : list gro_chunk) :
  gro_text (a ++ b) = gro_text a ++ gro_text b.
Proof. unfold gro_text. now rewrite map_app, concat_app. Qed.

(** The loop of [from_gro] reads the records that stay in their columns as
    the rounded coordinates, and stops after them. *)
Lemma read_records (n : nat) (records : list gro_chunk) :
  1 <= n ->
  forallb (record_of n) records = true ->
  forallb record_in_columns records = true ->
  let w := n + 5 in
  forall rest,
  exists coordinates,
    read_coordinates (length records) 20 (20 + w) (20 + 2 * w) (20 + 3 * w)
      (gro_text records ++ rest)
    = Ok (coordinates, rest)
    /\ Forall2
         (fun c q => q = rounded_position n (record_coordinates c))
         records coordinates.
Proof.
  intros Hn Hof Hfit w rest.
  induction records as [| c records IH].
  - exists []. split; [reflexivity | constructor].
  - cbn [forallb] in Hof, Hfit.
    apply andb_prop in Hof. destruct Hof as [Hc Hof].
    apply andb_prop in Hfit. destruct Hfit as [Hcfit Hfit].
    destruct (IH Hof Hfit) as (coordinates & Hread & Hall).
    destruct (read_record n c Hn Hc Hcfit) as (q & Hq & _ & Hstep & _).
    exists (q :: coordinates). split.
    + change (gro_text (c :: records)) with (render c ++ gro_text records).
      rewrite <- app_assoc. cbn [length]. now apply Hstep.
    + now constructor.
Qed.

(** ** The box line *)

Lemma split_from_spaces (pre rest : chars) :
  forallb is_space pre = true ->
  split_from [] (pre ++ rest) = split_from [] rest.
Proof.
  induction pre as [| c pre IH]; simpl; intros H.
  - reflexivity.
  - apply andb_prop in H. destruct H as [Hc Hpre]. rewrite Hc. auto.
Qed.

Lemma split_from_word (body rest : chars) :
  forallb (fun c => negb (is_space c)) body = true ->
  forall word,
    split_from word (body ++ rest) = split_from (rev body ++ word) rest.
Proof.
  induction body as [| c body IH]; simpl; intros H word.
  - reflexivity.
  - apply andb_prop in H. destruct H as [Hc Hbody].
    destruct (is_space c); [discriminate |].
    rewrite IH by exact Hbody. now rewrite <- app_assoc.
Qed.

(** [split] takes one word off a line. *)
Lemma split_token (pre body rest : chars) (c : ascii) :
  forallb is_space pre = true ->
  forallb (fun c => negb (is_space c)) body = true ->
  body <> [] ->
  is_space c = true ->
  split_from [] (pre ++ body ++ c :: rest) = body :: split_from [] rest.
Proof.
  intros Hpre Hbody Hnil Hc.
  rewrite split_from_spaces, split_from_word by assumption.
  rewrite app_nil_r. cbn [split_from]. rewrite Hc.
  destruct (rev body) as [| a l] eqn:Hrev.
  - apply (f_equal (@rev ascii)) in Hrev. rewrite rev_involutive in Hrev.
    contradiction.
  - rewrite <- Hrev, rev_involutive. reflexivity.
Qed.

(** A box length that fits is written after a space. *)
Lemma format_f_box (v : Q) :
  fits_f 10 7 v = true ->
  exists pre,
    format_f 11 7 v = space :: pre ++ format_f 0 7 v
    /\ forallb is_space pre = true.
Proof.
  intros Hfit. unfold fits_f in Hfit. apply Nat.leb_le in Hfit.
  exists (repeat space (10 - length (format_f 0 7 v))). split.
  - rewrite format_f_pad. unfold pad_left.
    replace (11 - length (format_f 0 7 v))
      with (S (10 - length (format_f 0 7 v))) by lia.
    reflexivity.
  - apply repeat_space_spaces.
Qed.

Lemma fits_f_wider (width width' prec : nat) (v : Q) :
  width <= width' -> fits_f width prec v = true -> fits_f width' prec v = true.
Proof.
  unfold fits_f. intros Hw H. apply Nat.leb_le in H. apply Nat.leb_le. lia.
Qed.

(** The box line of a rectangular box reads back as three numbers. *)
Lemma read_box_line (b00 b11 b22 : Q) :
  fits_f 10 7 b00 = true -> fits_f 10 7 b11 = true ->
  fits_f 10 7 b22 = true ->
  let line :=
    format_f 11 7 b00 ++ format_f 11 7 b11 ++ format_f 11 7 b22 ++ [newline] in
  readline line = (line, [])
  /\ floats_of (split line)
     = Ok [read_value b00 7; read_value b11 7; read_value b22 7]
  /\ (exists earlier,
        rev (periods_from 0 line) = (11 + 11 + 3) :: (11 + 3) :: earlier).
Proof.
  intros H0 H1 H2 line.
  assert (Hp : 1 <= 7) by lia.
  destruct (format_f_field 11 7 b00 Hp (fits_f_wider 10 11 7 b00 ltac:(lia) H0))
    as (L0 & N0 & P0).
  destruct (format_f_field 11 7 b11 Hp (fits_f_wider 10 11 7 b11 ltac:(lia) H1))
    as (L1 & N1 & P1).
  destruct (format_f_field 11 7 b22 Hp (fits_f_wider 10 11 7 b22 ltac:(lia) H2))
    as (L2 & N2 & P2).
  split; [| split].
  - unfold line.
    replace (format_f 11 7 b00 ++ format_f 11 7 b11 ++ format_f 11 7 b22
             ++ [newline])
      with ((format_f 11 7 b00 ++ format_f 11 7 b11 ++ format_f 11 7 b22)
            ++ [newline]) by (now rewrite <- !app_assoc).
    apply readline_app. rewrite !forallb_app. now rewrite N0, N1, N2.
  - destruct (format_f_box b00 H0) as (p0 & E0 & S0).
    destruct (format_f_box b11 H1) as (p1 & E1 & S1).
    destruct (format_f_box b22 H2) as (p2 & E2 & S2).
    destruct (format_f_plain 7 b00 Hp) as (Z0 & W0 & _).
    destruct (format_f_plain 7 b11 Hp) as (Z1 & W1 & _).
    destruct (format_f_plain 7 b22 Hp) as (Z2 & W2 & _).
    pose proof (format_f_read 0 7 b00 Hp) as Rx.
    pose proof (format_f_read 0 7 b11 Hp) as Ry.
    pose proof (format_f_read 0 7 b22 Hp) as Rz.
    unfold line, split. rewrite E0, E1, E2.
    replace ((space :: p0 ++ format_f 0 7 b00)
             ++ (space :: p1 ++ format_f 0 7 b11)
             ++ (space :: p2 ++ format_f 0 7 b22) ++ [newline])
      with ((space :: p0) ++ format_f 0 7 b00
            ++ space :: (p1 ++ format_f 0 7 b11
            ++ space :: (p2 ++ format_f 0 7 b22 ++ newline :: [])))
      by (cbn [app]; now rewrite <- !app_assoc).
    rewrite split_token by (trivial; cbn [forallb]; now rewrite S0).
    rewrite split_token by trivial.
    rewrite split_token by trivial.
    cbn [split_from floats_of]. rewrite Rx, Ry, Rz. reflexivity.
  - unfold line.
    destruct (last_periods (format_f 11 7 b00) (format_f 11 7 b11)
                (format_f 11 7 b22) 11 (11 - 7 - 1) L1 P1 P2)
      as (earlier & Hrev).
    exists earlier. rewrite Hrev, L0. reflexivity.
Qed.

(** ** Reading a written file *)

Lemma infer_coord_precision_lines (l1 l2 third rest : chars)
    (i1 i2 : nat) (earlier_periods : list nat) :
  forallb (fun c => negb (is_line_break c)) l1 = true ->
  forallb (fun c => negb (is_line_break c)) l2 = true ->
  readline (third ++ rest) = (third, rest) ->
  rev (periods_from 0 third) = i2 :: i1 :: earlier_periods ->
  _infer_coord_precision (l1 ++ newline :: l2 ++ newline :: third ++ rest)
  = Ok (Z.of_nat i2 - Z.of_nat i1 - 5)%Z.
Proof.
  intros H1 H2 H3 Hrev. unfold _infer_coord_precision.
  rewrite readline_app by exact H1. rewrite readline_app by exact H2.
  rewrite H3. unfold enumerate. fold (periods_from 0 third).
  now rewrite Hrev.
Qed.

Lemma gro_text_shape (s1 s2 : string) (records : list gro_chunk)
    (b00 b11 b22 : Q) :
  gro_text ([GroLine s1; GroLine s2] ++ records
            ++ map GroBoxValue [b00; b11; b22] ++ [GroLine EmptyString])
  = list_ascii_of_string s1
    ++ newline :: list_ascii_of_string s2
    ++ newline :: gro_text records
    ++ (format_f 11 7 b00 ++ format_f 11 7 b11 ++ format_f 11 7 b22
        ++ [newline]).
Proof.
  rewrite !gro_text_app. unfold gro_text at 1 3 4.
  cbn [map concat render list_ascii_of_string app].
  rewrite !app_nil_r, <- !app_assoc. reflexivity.
Qed.

Lemma str_nat_chars (k : nat) :
  list_ascii_of_string (str_nat k) = digits (N.of_nat k).
Proof. apply list_ascii_of_string_of_list_ascii. Qed.

(** [from_gro] reads a file of records that stay in their columns, and a
    box line of three lengths, as the rounded coordinates of the records. *)
Lemma from_gro_records (n : nat) (records : list gro_chunk) (b00 b11 b22 : Q) :
  1 <= n ->
  forallb (record_of n) records = true ->
  forallb record_in_columns records = true ->
  fits_f 10 7 b00 = true -> fits_f 10 7 b11 = true ->
  fits_f 10 7 b22 = true ->
  exists coordinates,
    from_gro
      (gro_text ([GroLine "Generated by OpenFF";
                  GroLine (str_nat (length records))]
                 ++ records
                 ++ map GroBoxValue [b00; b11; b22] ++ [GroLine EmptyString]))
    = Ok (mkInterchange [] empty_topology coordinates
            (Some ((read_value b00 7, 0, 0), (0, read_value b11 7, 0),
                   (0, 0, read_value b22 7))%Q))
    /\ Forall2
         (fun c q => q = rounded_position n (record_coordinates c))
         records coordinates.
Proof.
  intros Hn Hof Hfit H0 H1 H2. rewrite gro_text_shape.
  set (box_line := format_f 11 7 b00 ++ format_f 11 7 b11
                   ++ format_f 11 7 b22 ++ [newline]).
  destruct (read_box_line b00 b11 b22 H0 H1 H2)
    as (Hbox & Hfloats & (earlier & Hperiods)).
  fold box_line in Hbox, Hfloats, Hperiods.
  destruct (read_records n records Hn Hof Hfit box_line)
    as (coordinates & Hread & Hall).
  exists coordinates. split; [| exact Hall].
  assert (Hl1 : forallb (fun c => negb (is_line_break c))
                  (list_ascii_of_string "Generated by OpenFF") = true)
    by reflexivity.
  assert (Hl2 : forallb (fun c => negb (is_line_break c))
                  (list_ascii_of_string (str_nat (length records))) = true).
  { rewrite str_nat_chars.
    now destruct (digits_plain _ (digits_are_digits (N.of_nat (length records))))
      as (_ & _ & ->). }
  assert (Hcount : int_of_str (list_ascii_of_string (str_nat (length records))
                               ++ [newline])
                   = Ok (Z.of_nat (length records))).
  { rewrite str_nat_chars.
    rewrite <- nat_N_Z.
    apply (int_of_str_padded [] [newline]); reflexivity. }
  assert (Hinfer : exists precision,
             _infer_coord_precision
               (list_ascii_of_string "Generated by OpenFF"
                ++ newline :: list_ascii_of_string (str_nat (length records))
                ++ newline :: gro_text records ++ box_line)
             = Ok precision
             /\ (records <> [] -> Z.to_nat (precision + 5) = n + 5)).
  { destruct records as [| c records'].
    - eexists. split; [| congruence].
      change (gro_text [] ++ box_line) with box_line.
      rewrite <- (app_nil_r box_line) at 1.
      eapply infer_coord_precision_lines; trivial.
      * rewrite app_nil_r. exact Hbox.
      * exact Hperiods.
    - cbn [forallb] in Hof, Hfit.
      apply andb_prop in Hof. destruct Hof as [Hc _].
      apply andb_prop in Hfit. destruct Hfit as [Hcfit _].
      destruct (read_record n c Hn Hc Hcfit)
        as (_ & _ & Hline & _ & (earlier' & Hper)).
      eexists. split.
      + change (gro_text (c :: records'))
          with (render c ++ gro_text records').
        rewrite <- app_assoc.
        eapply infer_coord_precision_lines; trivial. exact Hper.
      + intros _. lia. }
  destruct Hinfer as (precision & Hinfer & Hwidth).
  unfold from_gro. rewrite Hinfer. cbn [rbind].
  rewrite readline_app by exact Hl1. rewrite readline_app by exact Hl2.
  rewrite Hcount. cbn [rbind].
  replace (Z.of_nat (length records) <? 0)%Z with false
    by (symmetry; apply Z.ltb_ge; lia).
  rewrite Nat2Z.id.
  assert (Hcoords :
    read_coordinates (length records) 20 (20 + Z.to_nat (precision + 5))
      (20 + 2 * Z.to_nat (precision + 5)) (20 + 3 * Z.to_nat (precision + 5))
      (gro_text records ++ box_line)
    = Ok (coordinates, box_line)).
  { destruct records as [| c records'].
    - cbn in Hread |- *. exact Hread.
    - rewrite Hwidth by discriminate. exact Hread. }
  rewrite Hcoords. cbn [rbind]. rewrite Hbox, Hfloats. reflexivity.
Qed.

(** ** The round trip through the coordinate file *)

Lemma length_enumerate_from {A : Type} (l : list A) :
  forall start, length (enumerate_from start l) = length l.
Proof. induction l; intros start; simpl; auto. Qed.

Lemma length_atom_records (openff_sys : Interchange) (n : nat) :
  length (positions openff_sys) = n_atoms (mdtop openff_sys) ->
  length (atom_records openff_sys n) = n_atoms (mdtop openff_sys).
Proof.
  intros Hlen. unfold atom_records, enumerate.
  rewrite length_map, length_combine, length_enumerate_from, Hlen.
  unfold n_atoms. lia.
Qed.

Lemma length_virtual_site_records (openff_sys : Interchange) (n : nat) :
  length (virtual_site_records openff_sys n)
  = length (virtual_site_keys openff_sys).
Proof. unfold virtual_site_records. now rewrite length_map, length_seq. Qed.

Lemma records_of_model (openff_sys : Interchange) (n : nat) :
  forallb (record_of n)
    (atom_records openff_sys n ++ virtual_site_records openff_sys n) = true.
Proof.
  rewrite forallb_app. apply andb_true_intro. split; apply forallb_forall.
  - intros c Hc. unfold atom_records in Hc. apply in_map_iff in Hc.
    destruct Hc as ([[i atom] [[x y] z]] & <- & _). cbn. apply Nat.eqb_refl.
  - intros c Hc. unfold virtual_site_records in Hc. apply in_map_iff in Hc.
    destruct Hc as (index & <- & _). cbn. apply Nat.eqb_refl.
Qed.

(** ** Particle numbers in the two files *)

(** The loop of [_write_atoms] over the atoms completes, with one row for
    each atom, when the typemap and the table of charges have every atom. *)
Lemma atom_rows_complete (typemap : list (nat * string))
    (charges : list (key * R)) (l : list Atom) :
  forall (start : nat) (s : option R),
    (forall i atom,
       In (i, atom) (enumerate_from start l) ->
       dict_mem Nat.eqb typemap i = true
       /\ dict_mem key_eqb charges (TopologyKey [i]) = true) ->
    exists rows s',
      for_state (enumerate_from start l) s
        (fun _ '(atom_idx, atom) =>
           let mass := element_mass atom in
           atom_type <- lift (dict_item Nat.eqb typemap atom_idx) ;;
           let res_idx := residue_index atom in
           let res_name := residue_str atom in
           let top_key := TopologyKey [atom_idx] in
           charge <- lift (dict_item key_eqb charges top_key) ;;
           write (AtomsRow (atom_idx + 1) atom_type (res_idx + 1) res_name
                    atom_type (atom_idx + 1) charge mass) ;;
           ret (Some charge))
      = (rows, Ok s')
      /\ flat_map atoms_num rows = seq (start + 1) (length l)
      /\ (l <> [] -> s' <> None).
Proof.
  induction l as [| atom l IH]; intros start s Hin.
  - exists [], s. repeat split. intros H. now contradiction H.
  - destruct (Hin start atom (or_introl eq_refl)) as [Htype Hcharge].
    unfold dict_mem in Htype, Hcharge.
    destruct (dict_get Nat.eqb typemap start) as [atom_type |] eqn:Ht;
      [| discriminate].
    destruct (dict_get key_eqb charges (TopologyKey [start])) as [q |] eqn:Hq;
      [| discriminate].
    destruct (IH (S start) (Some q)) as (rows & s' & Hloop & Hrows & Hs').
    { intros i a Hia. apply (Hin i a). now right. }
    exists (AtomsRow (start + 1) atom_type (residue_index atom + 1)
              (residue_str atom) atom_type (start + 1) q (element_mass atom)
            :: rows), s'.
    split; [| split].
    + cbn [enumerate_from for_state].
      match goal with
      | |- bind ?m _ = _ =>
          assert (Hbody :
            m = ([AtomsRow (start + 1) atom_type (residue_index atom + 1)
                    (residue_str atom) atom_type (start + 1) q
                    (element_mass atom)],
                 Ok (Some q)))
      end.
      { cbv zeta. unfold dict_item.
        rewrite Ht, Hq, !bind_lift_ok, bind_write_prepend. reflexivity. }
      rewrite (bind_ok_prepend _ _ _ _ Hbody). cbv beta zeta in Hloop |- *.
      rewrite Hloop. reflexivity.
    + cbn [flat_map atoms_num app length seq]. rewrite Hrows.
      now replace (S start + 1) with (S (start + 1)) by lia.
    + intros _. destruct l as [| atom' l].
      * cbn [enumerate_from for_state] in Hloop. injection Hloop as _ <-.
        discriminate.
      * apply Hs'. discriminate.
Qed.

(** The loop of [_write_atoms] over the virtual sites completes, with one
    row for each site, when a charge was left by the loop over the atoms and
    the table of charges has every site. *)
Lemma site_rows_complete (openff_sys : Interchange) (es : Handler) :
  handlers_item openff_sys "Electrostatics" = Ok es ->
  forall (virtual_site_map : list (key * nat)) (s : option R),
    (virtual_site_map <> [] -> s <> None) ->
    (forall k index,
       In (k, index) virtual_site_map ->
       dict_mem key_eqb (charges_with_virtual_sites es) k = true) ->
    exists rows s',
      for_state virtual_site_map s
        (fun charge '(virtual_site_key, index) =>
           let atom_idx := index in
           let atom_type := "VS" in
           let res_idx := 1 in
           let res_name := "1" in
           _ <- (match charge with
                 | Some _ => ret tt
                 | None => raise UnboundLocalError
                 end) ;;
           charge_handler <- lift (handlers_item openff_sys "Electrostatics") ;;
           charge <- lift (dict_item key_eqb
                             (charges_with_virtual_sites charge_handler)
                             virtual_site_key) ;;
           let mass := 0%R in
           write (AtomsRow atom_idx atom_type res_idx res_name atom_type atom_idx
                    charge mass) ;;
           ret (Some charge))
      = (rows, Ok s')
      /\ flat_map atoms_num rows = map snd virtual_site_map.
Proof.
  intros Hes.
  induction virtual_site_map as [| [k index] m IH]; intros s Hs Hin.
  - exists [], s. split; reflexivity.
  - destruct s as [q0 |]; [| now contradiction Hs].
    pose proof (Hin k index (or_introl eq_refl)) as Hcharge.
    unfold dict_mem in Hcharge.
    destruct (dict_get key_eqb (charges_with_virtual_sites es) k) as [q |]
      eqn:Hq; [| discriminate].
    destruct (IH (Some q)) as (rows & s' & Hloop & Hrows).
    { intros _. discriminate. }
    { intros k' index' Hk. apply (Hin k' index'). now right. }
    exists (AtomsRow index "VS" 1 "1" "VS" index q 0 :: rows), s'.
    split.
    + cbn [for_state].
      match goal with
      | |- bind ?m _ = _ =>
          assert (Hbody :
            m = ([AtomsRow index "VS" 1 "1" "VS" index q 0], Ok (Some q)))
      end.
      { cbv zeta. unfold dict_item.
        rewrite bind_ret, Hes, bind_lift_ok, Hq, bind_lift_ok.
        rewrite bind_write_prepend. reflexivity. }
      rewrite (bind_ok_prepend _ _ _ _ Hbody). cbv beta zeta in Hloop |- *.
      rewrite Hloop. reflexivity.
    + cbn [flat_map atoms_num app map snd]. now rewrite Hrows.
Qed.

(** The records of the atoms carry the positions of the atoms, counted from
    one and taken modulo 100000. *)
Lemma atom_record_numbers (openff_sys : Interchange) (n : nat)
    (l : list Atom) :
  forall (start : nat) (ps : list (Q * Q * Q)),
    length ps = length l ->
    flat_map gro_number
      (map (fun '((i, atom), p) => atom_record openff_sys n i atom p)
         (combine (enumerate_from start l) ps))
    = map mod_100000 (seq (start + 1) (length l)).
Proof.
  induction l as [| atom l IH]; intros start [| [[x y] z] ps] Hlen;
    try discriminate; [reflexivity |].
  cbn [enumerate_from combine map flat_map length seq atom_record gro_number
       app].
  rewrite IH by (simpl in Hlen; lia).
  now replace (S start + 1) with (S (start + 1)) by lia.
Qed.

Lemma mod_100000_small (i : nat) :
  (N.of_nat i < 100000)%N -> mod_100000 i = i.
Proof.
  intros Hi. unfold mod_100000. rewrite N.mod_small by exact Hi.
  apply Nat2N.id.
Qed.

(** What [to_gro] writes for the numbers of the particles. *)
Lemma gro_numbers_written (openff_sys : Interchange) (n : nat) :
  NoDup (virtual_site_keys openff_sys) ->
  length (positions openff_sys) = n_atoms (mdtop openff_sys) ->
  snd (to_gro_body openff_sys n) = Ok tt
  /\ flat_map gro_number (fst (to_gro_body openff_sys n))
     = map mod_100000 (seq 1 (n_atoms (mdtop openff_sys)))
       ++ seq (n_atoms (mdtop openff_sys) + 1)
            (length (virtual_site_keys openff_sys)).
Proof.
  intros Hnd Hlen. rewrite to_gro_body_spec by assumption.
  split; [reflexivity |]. cbn [fst]. unfold gro_chunks.
  rewrite !flat_map_app. cbn [flat_map gro_number app].
  unfold atom_records, enumerate.
  rewrite (atom_record_numbers openff_sys n _ 0 _ Hlen).
  cbn [Nat.add]. fold (n_atoms (mdtop openff_sys)). f_equal.
  unfold virtual_site_records, virtual_site_record.
  assert (Hbox : flat_map gro_number (box_values (box_of openff_sys)) = []).
  { destruct (box_of openff_sys)
      as [[[[b00 b01] b02] [[b10 b11] b12]] [[b20 b21] b22]].
    unfold box_values. now destruct (is_rectangular _). }
  rewrite Hbox, app_nil_r.
  generalize (n_atoms (mdtop openff_sys) + 1).
  induction (length (virtual_site_keys openff_sys)) as [| m IH]; intros a;
    simpl; [reflexivity |]. now rewrite IH.
Qed.

(** C8, as the two writers have it.  The virtual-site map binds the keys of
    the VirtualSites table, in the iteration order of the table, and the key
    at position [j] to the index [N + 1 + j], where [N] is the number of real
    atoms.  In the topology file the rows of the [ atoms ] section carry the
    1-based position of each real atom in topology order, followed by the
    indices of the virtual sites: a first part of the numbers [1 .. N + M]
    when the writer raises on the way, no number twice, and all of them, in
    this order, as soon as the typemap and the charges of the
    [Electrostatics] handler have every atom and every site (and the model
    has an atom if it has a site), whatever becomes of the [ pairs ] section
    after them.  In the coordinate file the record of a real atom carries
    its 1-based position modulo 100000, and the record of a virtual site
    its index as it is: the numbers are [1 .. N + M] for fewer than 100000
    atoms. *)
Theorem particle_indices_contiguous (interchange : Interchange)
    (typemap : list (nat * string)) :
  NoDup (virtual_site_keys interchange) ->
  let N := n_atoms (mdtop interchange) in
  let keys := virtual_site_keys interchange in
  let virtual_site_map := _build_virtual_site_map interchange in
  dict_keys virtual_site_map = keys
  /\ map snd virtual_site_map = seq (N + 1) (length keys)
  /\ (forall j k, nth_error keys j = Some k ->
        dict_get key_eqb virtual_site_map k = Some (N + 1 + j))
  /\ numbers_prefix (_write_atoms interchange typemap virtual_site_map)
       (seq 1 (N + length keys))
  /\ NoDup (atoms_nums (fst (_write_atoms interchange typemap virtual_site_map)))
  /\ (forall es : Handler,
        handlers_item interchange "Electrostatics" = Ok es ->
        (forall i, i < N ->
           dict_mem Nat.eqb typemap i = true
           /\ dict_mem key_eqb (charges es) (TopologyKey [i]) = true) ->
        (forall k, In k keys ->
           0 < N
           /\ dict_mem key_eqb (charges_with_virtual_sites es) k = true) ->
        atoms_nums (fst (_write_atoms interchange typemap virtual_site_map))
        = seq 1 (N + length keys))
  /\ (forall n : nat,
        length (positions interchange) = N ->
        snd (to_gro_body interchange n) = Ok tt
        /\ flat_map gro_number (fst (to_gro_body interchange n))
           = map mod_100000 (seq 1 N) ++ seq (N + 1) (length keys)
        /\ ((N.of_nat N < 100000)%N ->
            flat_map gro_number (fst (to_gro_body interchange n))
            = seq 1 (N + length keys))).
Proof.
  intros Hnd N keys virtual_site_map.
  assert (Hmap : virtual_site_map = combine keys (seq (N + 1) (length keys)))
    by (apply build_virtual_site_map_spec; exact Hnd).
  assert (Hkeys : dict_keys virtual_site_map = keys).
  { rewrite Hmap. apply dict_keys_combine. now rewrite length_seq. }
  assert (Hsnd : map snd virtual_site_map = seq (N + 1) (length keys)).
  { rewrite Hmap. clear. generalize (N + 1). induction keys as [| k keys IH];
      intros start; simpl; [reflexivity |]. f_equal. apply IH. }
  assert (Hpre : numbers_prefix
                   (_write_atoms interchange typemap virtual_site_map)
                   (seq 1 (N + length keys))).
  { rewrite seq_app, Nat.add_comm, <- Hsnd. apply write_atoms_numbers. }
  split; [exact Hkeys |]. split; [exact Hsnd |].
  split; [intros j k Hj; rewrite Hmap; now apply dict_get_combine_nth |].
  split; [exact Hpre |].
  split.
  { destruct Hpre as (n & _ & Hw & _). unfold atoms_nums. rewrite Hw.
    apply NoDup_firstn, seq_NoDup. }
  split.
  - intros es Hes Hatoms Hsites.
    destruct (atom_rows_complete typemap (charges es)
                (atoms (mdtop interchange)) 0 None)
      as (rows1 & s1 & Hloop1 & Hrows1 & Hs1).
    { intros i atom Hin. apply in_enumerate_from in Hin.
      destruct Hin as [_ Hnth]. apply Hatoms. rewrite Nat.sub_0_r in Hnth.
      apply nth_error_Some. unfold N, n_atoms. congruence. }
    destruct (site_rows_complete interchange es Hes virtual_site_map s1)
      as (rows2 & s2 & Hloop2 & Hrows2).
    { intros Hsome. apply Hs1. intros Hnil.
      destruct virtual_site_map as [| [k index] m] eqn:Hm;
        [now contradiction Hsome |].
      assert (Hk : In k keys).
      { rewrite <- Hkeys. now left. }
      destruct (Hsites k Hk) as [Hpos _]. unfold N, n_atoms in Hpos.
      rewrite Hnil in Hpos. inversion Hpos. }
    { intros k index Hin. apply Hsites. rewrite <- Hkeys.
      unfold dict_keys. apply in_map_iff. now exists (k, index). }
    destruct Hpre as (n & Hn & Hw & _).
    assert (Hall : exists rest,
              atoms_nums
                (fst (_write_atoms interchange typemap virtual_site_map))
              = seq 1 (N + length keys) ++ rest).
    { unfold _write_atoms, enumerate.
      rewrite !bind_write_prepend.
      assert (Hlift : lift (handlers_item interchange "Electrostatics")
                      = (([], Ok es) : io Handler)) by now rewrite Hes.
      rewrite (bind_ok_prepend _ _ [] es Hlift). cbv beta.
      cbv zeta in Hloop1, Hloop2 |- *.
      rewrite (bind_ok_prepend _ _ rows1 s1 Hloop1). cbv beta.
      rewrite (bind_ok_prepend _ _ rows2 s2 Hloop2). cbv beta.
      unfold atoms_nums. rewrite !fst_prepend, !flat_map_app.
      cbn [flat_map atoms_num app]. rewrite Hrows1, Hrows2, Hsnd.
      cbn [Nat.add]. fold N. eexists.
      rewrite seq_app, <- app_assoc, (Nat.add_comm 1 N). reflexivity. }
    destruct Hall as [rest Hall].
    unfold atoms_nums in *. rewrite Hw in Hall |- *.
    apply (f_equal (@length nat)) in Hall as Hlength.
    rewrite length_app, length_firstn, !length_seq in Hlength.
    rewrite Hall. destruct rest as [| x xs].
    + apply app_nil_r.
    + simpl in Hlength. lia.
  - intros n Hlen.
    destruct (gro_numbers_written interchange n Hnd Hlen) as [Hok Hnumbers].
    split; [exact Hok |]. split; [exact Hnumbers |].
    intros Hsmall. rewrite Hnumbers, seq_app, (Nat.add_comm 1 N). f_equal.
    transitivity (map (fun i => i) (seq 1 N)); [| apply map_id].
    apply map_ext_in.
    intros i Hi. apply in_seq in Hi. apply mod_100000_small. lia.
Qed.

Lemma particle_indices_contiguous_witness :
  NoDup (virtual_site_keys (water_model 0 0))
  /\ map snd (_build_virtual_site_map (water_model 0 0)) = seq (3 + 1) 3
  /\ atoms_nums
       (fst (_write_atoms (water_model 0 0)
               (_build_typemap (water_model 0 0))
               (_build_virtual_site_map (water_model 0 0))))
     = seq 1 (3 + 3)
  /\ snd (to_gro_body (water_model 0 0) 3) = Ok tt
  /\ flat_map gro_number (fst (to_gro_body (water_model 0 0) 3))
     = seq 1 (3 + 3).
Proof.
  assert (Hnd : NoDup (virtual_site_keys (water_model 0 0))).
  { repeat constructor; simpl; intuition discriminate. }
  split; [exact Hnd |].
  destruct (particle_indices_contiguous (water_model 0 0)
              (_build_typemap (water_model 0 0)) Hnd)
    as (_ & Hsnd & _ & _ & _ & Htop & Hgro).
  split; [exact Hsnd |]. split.
  - apply (Htop _ eq_refl).
    + intros i Hi.
      destruct i as [| [| [| i]]]; [split; reflexivity .. |].
      change (S (S (S i)) < 3) in Hi. lia.
    + intros k Hk. simpl in Hk.
      destruct Hk as [<- | [<- | [<- | []]]]; split; try reflexivity;
        change (0 < 3); lia.
  - destruct (Hgro 3 eq_refl) as (Hok & _ & Hnumbers).
    split; [exact Hok |]. apply Hnumbers. reflexivity.
Defined.

Lemma mod_100000_wraps (i : N) (r : N) :
  (r < 100000)%N -> (i mod 100000 = r)%N ->
  mod_100000 (N.to_nat i) = N.to_nat r.
Proof.
  intros _ Hr. unfold mod_100000. now rewrite N2Nat.id, Hr.
Qed.

(** C8, as the specification has it, fails for the coordinate file: in a
    model of 100001 atoms the export completes, the atom at position 100000
    of the topology carries the number 0 in its record, and the last atom
    carries the number 1, as the first atom does. *)
Lemma particle_numbers_wrap_around :
  n_atoms (mdtop crowd_model) = N.to_nat 100001
  /\ snd (to_gro_body crowd_model 3) = Ok tt
  /\ nth_error (flat_map gro_number (fst (to_gro_body crowd_model 3))) 0
     = Some 1
  /\ nth_error (flat_map gro_number (fst (to_gro_body crowd_model 3)))
       (N.to_nat 99999)
     = Some 0
  /\ nth_error (flat_map gro_number (fst (to_gro_body crowd_model 3)))
       (N.to_nat 100000)
     = Some 1.
Proof.
  assert (Hn : n_atoms (mdtop crowd_model) = crowd_size).
  { unfold n_atoms, crowd_model. cbn [mdtop atoms]. apply repeat_length. }
  assert (Hlen : length (positions crowd_model) = n_atoms (mdtop crowd_model)).
  { rewrite Hn. unfold crowd_model. cbn [positions]. apply repeat_length. }
  destruct (gro_numbers_written crowd_model 3 (NoDup_nil _) Hlen)
    as [Hok Hnumbers].
  split; [exact Hn |]. split; [exact Hok |].
  rewrite Hnumbers, Hn. change (length (virtual_site_keys crowd_model)) with 0.
  cbn [seq]. rewrite app_nil_r.
  assert (Hnth : forall i : N,
            (i < 100001)%N ->
            nth_error (map mod_100000 (seq 1 crowd_size)) (N.to_nat i)
            = Some (N.to_nat ((i + 1) mod 100000))).
  { intros i Hi. rewrite nth_error_map.
    assert (Hseq : nth_error (seq 1 crowd_size) (N.to_nat i)
                   = Some (N.to_nat (i + 1))).
    { rewrite (nth_error_nth' _ 0).
      - rewrite seq_nth by (unfold crowd_size; lia). f_equal. lia.
      - rewrite length_seq. unfold crowd_size. lia. }
    rewrite Hseq. cbn [option_map]. f_equal.
    apply mod_100000_wraps; [| reflexivity].
    apply N.mod_lt. discriminate. }
  split; [| split].
  - exact (Hnth 0%N eq_refl).
  - exact (Hnth 99999%N eq_refl).
  - exact (Hnth 100000%N eq_refl).
Qed.

(** ** The round trip of the positions *)

Lemma Forall2_eq_map {A B : Type} (F : A -> B) (l : list A) (l' : list B) :
  Forall2 (fun a b => b = F a) l l' -> l' = map F l.
Proof. induction 1; simpl; congruence. Qed.

(** What is read for the atoms is what [np.round] made of their positions,
    and that is the position up to one unit of the last decimal. *)
Lemma atom_records_read (openff_sys : Interchange) (n : nat) :
  1 <= n -> n <= 11 ->
  forall (indexed : list (nat * Atom)) (ps : list (Q * Q * Q)),
    length indexed = length ps ->
    forallb record_in_columns
      (map (fun '((i, atom), p) => atom_record openff_sys n i atom p)
         (combine indexed ps)) = true ->
    map (fun c => rounded_position n (record_coordinates c))
      (map (fun '((i, atom), p) => atom_record openff_sys n i atom p)
         (combine indexed ps))
    = map (np_round_position n) ps
    /\ Forall (fun p => close_to n p (np_round_position n p)) ps.
Proof.
  intros Hn1 Hn.
  induction indexed as [| [i atom] indexed IH];
    intros [| [[x y] z] ps] Hlen Hfit; simpl in Hlen; try discriminate.
  - split; [reflexivity | constructor].
  - cbn [combine map forallb] in Hfit |- *.
    apply andb_prop in Hfit. destruct Hfit as [Hc Hfit].
    destruct (IH ps ltac:(lia) Hfit) as [IHread IHclose].
    cbn [atom_record record_in_columns] in Hc.
    repeat (apply andb_prop in Hc; destruct Hc as [Hc ?]).
    destruct (np_round_read x n Hn1 Hn) as [Rx Cx]; trivial.
    destruct (np_round_read y n Hn1 Hn) as [Ry Cy]; trivial.
    destruct (np_round_read z n Hn1 Hn) as [Rz Cz]; trivial.
    split.
    + rewrite IHread.
      cbn [atom_record record_coordinates rounded_position np_round_position].
      now rewrite Rx, Ry, Rz.
    + constructor; [| exact IHclose].
      cbn [np_round_position close_to]. now repeat split.
Qed.

(** What is read for the virtual sites is the origin. *)
Lemma virtual_site_records_read (n : nat) (indices : list nat) :
  map (fun c => rounded_position n (record_coordinates c))
    (map (virtual_site_record n) indices)
  = repeat (0, 0, 0)%Q (length indices).
Proof.
  induction indices as [| index indices IH]; [reflexivity |].
  cbn [map length repeat virtual_site_record record_coordinates
       rounded_position].
  now rewrite IH, read_value_0.
Qed.

(** [from_gro] on the file that [to_gro] wrote with every field in its
    columns. *)
Lemma from_gro_to_gro (openff_sys : Interchange) (decimal : nat) :
  1 <= decimal -> decimal <= 11 ->
  NoDup (virtual_site_keys openff_sys) ->
  length (positions openff_sys) = n_atoms (mdtop openff_sys) ->
  in_columns openff_sys decimal = true ->
  snd (to_gro openff_sys decimal) = Ok tt
  /\ from_gro (fst (to_gro openff_sys decimal))
     = Ok (mkInterchange [] empty_topology
             (map (np_round_position decimal) (positions openff_sys)
              ++ repeat (0, 0, 0)%Q (length (virtual_site_keys openff_sys)))
             (Some (read_box (box_of openff_sys))))
  /\ Forall (fun p => close_to decimal p (np_round_position decimal p))
       (positions openff_sys).
Proof.
  intros Hdec1 Hdec Hnd Hlen Hcol. unfold to_gro.
  rewrite to_gro_body_spec by assumption. cbn [fst snd].
  unfold in_columns in Hcol. apply andb_prop in Hcol.
  destruct Hcol as [Hrecords Hbox].
  set (N := n_atoms (mdtop openff_sys)) in *.
  set (M := length (virtual_site_keys openff_sys)) in *.
  set (records := atom_records openff_sys decimal
                  ++ virtual_site_records openff_sys decimal) in *.
  assert (Hcount : length records = N + M).
  { unfold records. rewrite length_app, length_atom_records by exact Hlen.
    now rewrite length_virtual_site_records. }
  destruct (box_of openff_sys) as [[[[b00 b01] b02] [[b10 b11] b12]] [[b20 b21] b22]]
    eqn:Hb.
  cbn [box_in_columns] in Hbox.
  apply andb_prop in Hbox. destruct Hbox as [Hbox H22].
  apply andb_prop in Hbox. destruct Hbox as [Hbox H11].
  apply andb_prop in Hbox. destruct Hbox as [Hbox H00].
  destruct (from_gro_records decimal records b00 b11 b22)
    as (coordinates & Hread & Hall); trivial.
  { apply records_of_model. }
  assert (Htext :
    gro_chunks openff_sys decimal
    = [GroLine "Generated by OpenFF"; GroLine (str_nat (length records))]
      ++ records ++ map GroBoxValue [b00; b11; b22] ++ [GroLine EmptyString]).
  { unfold gro_chunks. rewrite Hcount, Hlen, Hb. fold N M.
    unfold records. rewrite <- app_assoc. cbn [box_values]. rewrite Hbox.
    reflexivity. }
  apply Forall2_eq_map in Hall. unfold records in Hall, Hrecords.
  rewrite map_app in Hall. rewrite forallb_app in Hrecords.
  apply andb_prop in Hrecords. destruct Hrecords as [Hatoms _].
  unfold atom_records in Hall, Hatoms.
  destruct (atom_records_read openff_sys decimal Hdec1 Hdec
              (enumerate (atoms (mdtop openff_sys))) (positions openff_sys))
    as [Hreadatoms Hclose]; trivial.
  { unfold enumerate. rewrite length_enumerate_from, Hlen. reflexivity. }
  rewrite Hreadatoms in Hall. unfold virtual_site_records in Hall.
  rewrite virtual_site_records_read, length_seq in Hall. fold M in Hall.
  split; [reflexivity |]. split; [| exact Hclose].
  rewrite Htext, Hread, Hall. reflexivity.
Qed.



(** A carriage return in a name ends the line where the file is read, so
    that such a name does not stay in its columns: the record of the first
    atom is cut before its coordinates, and [from_gro] raises [IndexError]
    for want of two periods on the third line. *)
Lemma carriage_return_cuts_the_record :
  in_columns cr_water 3 = false
  /\ snd (to_gro cr_water 3) = Ok tt
  /\ from_gro (fst (to_gro cr_water 3)) = Raise IndexError.
Proof. repeat split; vm_compute; reflexivity. Qed.

(** ** Positions and atoms *)

Lemma bind_raise_prepend {C A B : Type} (m : writer C A) (k : A -> writer C B)
    (w : list C) (e : exn) :
  m = (w, Raise e) -> bind m k = (w, Raise e).
Proof. intros ->. reflexivity. Qed.

(** The loop of [to_gro] over the atoms writes the records of the atoms that
    have a position, and raises at the first atom that has none. *)
Lemma atom_loop_spec (openff_sys : Interchange) (n : nat)
    (all : list (Q * Q * Q)) :
  forall (l : list Atom) (start : nat) (ps : list (Q * Q * Q)),
    (forall i, start <= i < start + length l ->
               dict_item Nat.eqb (_build_typemap openff_sys) i
               = Ok (atom_name_of openff_sys i)) ->
    (forall j, nth_error all (start + j) = nth_error ps j) ->
    for_each (enumerate_from start l)
      (fun '(atom_index0, atom) =>
         let residue_idx := mod_100000 (residue_index atom + 1) in
         let residue_name := first5 (residue_name atom) in
         atom_name <- lift (dict_item Nat.eqb (_build_typemap openff_sys)
                              atom_index0) ;;
         let atom_index := mod_100000 (atom_index0 + 1) in
         '(x, y, z) <- lift (position_row
                               (map (fun '(x, y, z) =>
                                       (np_round x n, np_round y n, np_round z n))
                                  all)
                               atom_index0) ;;
         write (GroRecord n residue_idx residue_name atom_name atom_index x y z))
    = (map (fun '((i, atom), p) => atom_record openff_sys n i atom p)
         (combine (enumerate_from start l) ps),
       if length ps <? length l then Raise IndexError else Ok tt).
Proof.
  induction l as [| a l IH]; intros start ps Hnames Hps.
  - reflexivity.
  - unfold for_each in *. cbn [enumerate_from for_state length].
    rewrite Hnames by (cbn [length]; lia). rewrite bind_lift_ok.
    unfold position_row at 1. rewrite nth_error_map.
    pose proof (Hps 0) as Hhead. rewrite Nat.add_0_r in Hhead.
    rewrite Hhead.
    destruct ps as [| [[x y] z] ps].
    + reflexivity.
    + cbn [nth_error option_map]. rewrite bind_lift_ok, bind_write_prepend.
      rewrite (IH (S start) ps).
      * cbn [combine map length]. unfold prepend. cbn [fst snd app].
        reflexivity.
      * intros i Hi. apply Hnames. cbn [length]. lia.
      * intros j. replace (S start + j) with (start + S j) by lia.
        now rewrite Hps.
Qed.

(** [to_gro] for a model whose virtual-site table binds no key twice. *)
Lemma to_gro_body_positions (openff_sys : Interchange) (n : nat) :
  NoDup (virtual_site_keys openff_sys) ->
  let N := n_atoms (mdtop openff_sys) in
  let count := length (positions openff_sys)
               + length (virtual_site_keys openff_sys) in
  to_gro_body openff_sys n
  = if length (positions openff_sys) <? N
    then ([GroLine "Generated by OpenFF"; GroLine (str_nat count)]
          ++ atom_records openff_sys n,
          Raise IndexError)
    else ([GroLine "Generated by OpenFF"; GroLine (str_nat count)]
          ++ atom_records openff_sys n
          ++ virtual_site_records openff_sys n
          ++ box_values (box_of openff_sys)
          ++ [GroLine EmptyString],
          Ok tt).
Proof.
  intros Hnd N count. unfold to_gro_body.
  pose proof (build_virtual_site_map_spec openff_sys Hnd) as Hmap.
  assert (Hkeys : dict_keys (_build_virtual_site_map openff_sys)
                  = virtual_site_keys openff_sys).
  { rewrite Hmap. apply dict_keys_combine. now rewrite length_seq. }
  assert (Hcount : length (_build_virtual_site_map openff_sys)
                   = length (virtual_site_keys openff_sys)).
  { rewrite <- Hkeys. unfold dict_keys. now rewrite length_map. }
  rewrite Hcount, !bind_write_prepend, prepend_prepend. fold count.
  pose proof (atom_loop_spec openff_sys n (positions openff_sys)
                (atoms (mdtop openff_sys)) 0 (positions openff_sys)) as Hloop.
  fold (enumerate (atoms (mdtop openff_sys))) in Hloop.
  fold (atom_records openff_sys n) in Hloop.
  fold (n_atoms (mdtop openff_sys)) in Hloop. fold N in Hloop.
  assert (Hnames : forall i, 0 <= i < 0 + length (atoms (mdtop openff_sys)) ->
                     dict_item Nat.eqb (_build_typemap openff_sys) i
                     = Ok (atom_name_of openff_sys i)).
  { intros i Hi. apply atom_name_of_item. unfold n_atoms. lia. }
  specialize (Hloop Hnames (fun j => eq_refl)).
  destruct (length (positions openff_sys) <? N).
  - rewrite (bind_raise_prepend _ _ _ _ Hloop). reflexivity.
  - rewrite (bind_ok_prepend _ _ _ _ Hloop).
    rewrite (bind_ok_prepend _ _ (virtual_site_records openff_sys n) tt).
    2:{ unfold virtual_site_records.
        replace (seq (n_atoms (mdtop openff_sys) + 1)
                   (length (virtual_site_keys openff_sys)))
          with (map snd (_build_virtual_site_map openff_sys)).
        2:{ rewrite Hmap. clear. generalize (n_atoms (mdtop openff_sys) + 1).
            induction (virtual_site_keys openff_sys) as [| k keys IH];
              intros start; simpl; [reflexivity |]. f_equal. apply IH. }
        rewrite map_map. apply for_each_ok. intros [k index] Hin.
        unfold dict_item.
        rewrite (dict_get_in_nodup _ k index) by (rewrite ?Hkeys; assumption).
        rewrite bind_lift_ok. reflexivity. }
    rewrite !prepend_prepend. cbv zeta. unfold box_values, box_of.
    destruct (match box openff_sys with Some b => b | None => eye11 end)
      as [[[[b00 b01] b02] [[b10 b11] b12]] [[b20 b21] b22]].
    destruct (is_rectangular (b00, b01, b02, (b10, b11, b12), (b20, b21, b22)));
      unfold prepend; cbn; now rewrite <- !app_assoc.
Qed.

(** [to_gro] does not compare the number of positions with the number of
    atoms.  With fewer positions than atoms it raises [IndexError] at the
    first atom without one, after the two heading lines and the records of
    the atoms before it; with more positions than atoms it completes, and
    the particle count of the second line counts the positions, not the
    atom records written. *)
Theorem to_gro_does_not_check_positions (openff_sys : Interchange) (n : nat) :
  NoDup (virtual_site_keys openff_sys) ->
  let N := n_atoms (mdtop openff_sys) in
  let P := length (positions openff_sys) in
  let M := length (virtual_site_keys openff_sys) in
  (P < N ->
   to_gro_body openff_sys n
   = ([GroLine "Generated by OpenFF"; GroLine (str_nat (P + M))]
      ++ atom_records openff_sys n,
      Raise IndexError)
   /\ length (atom_records openff_sys n) = P)
  /\ (N <= P ->
      to_gro_body openff_sys n
      = ([GroLine "Generated by OpenFF"; GroLine (str_nat (P + M))]
         ++ atom_records openff_sys n
         ++ virtual_site_records openff_sys n
         ++ box_values (box_of openff_sys)
         ++ [GroLine EmptyString],
         Ok tt)
      /\ length (atom_records openff_sys n) = N).
Proof.
  intros Hnd N P M.
  pose proof (to_gro_body_positions openff_sys n Hnd) as Hbody.
  cbv zeta in Hbody. fold N P M in Hbody.
  assert (Hlen : length (atom_records openff_sys n) = Nat.min N P).
  { unfold atom_records, enumerate.
    now rewrite length_map, length_combine, length_enumerate_from. }
  split; intros H.
  - destruct (Nat.ltb_spec P N); [| lia]. split; [exact Hbody | lia].
  - destruct (Nat.ltb_spec P N); [lia |]. split; [exact Hbody | lia].
Qed.

Lemma to_gro_does_not_check_positions_witness :
  (to_gro_body water_short 3
   = ([GroLine "Generated by OpenFF"; GroLine (str_nat (2 + 3))]
      ++ atom_records water_short 3,
      Raise IndexError)
   /\ length (atom_records water_short 3) = 2)
  /\ (to_gro_body water_long 3
      = ([GroLine "Generated by OpenFF"; GroLine (str_nat (4 + 3))]
         ++ atom_records water_long 3
         ++ virtual_site_records water_long 3
         ++ box_values (box_of water_long)
         ++ [GroLine EmptyString],
         Ok tt)
      /\ length (atom_records water_long 3) = 3).
Proof.
  assert (Hnd : NoDup (virtual_site_keys (water_model 0 0))).
  { repeat constructor; simpl; intuition discriminate. }
  split.
  - apply (proj1 (to_gro_does_not_check_positions water_short 3 Hnd)).
    unfold water_short, n_atoms. simpl. lia.
  - apply (proj2 (to_gro_does_not_check_positions water_long 3 Hnd)).
    unfold water_long, n_atoms. simpl. lia.
Defined.

(** ** Reading the box line *)

Lemma box_fields_head (vs : list Q) :
  Forall (fun v => fits_f 10 7 v = true) vs ->
  exists c rest,
    concat (map (format_f 11 7) vs) ++ [newline] = c :: rest
    /\ is_space c = true.
Proof.
  intros Hfit. destruct Hfit as [| v vs Hv Hvs].
  - exists newline, []. split; reflexivity.
  - destruct (format_f_box v Hv) as (pre & E & _).
    cbn [map concat]. rewrite E. cbn [app]. eauto.
Qed.

(** [split] takes the box line apart into the numbers written. *)
Lemma split_box_fields (vs : list Q) :
  Forall (fun v => fits_f 10 7 v = true) vs ->
  split (concat (map (format_f 11 7) vs) ++ [newline])
  = map (format_f 0 7) vs.
Proof.
  unfold split. induction 1 as [| v vs Hv Hvs IH].
  - reflexivity.
  - destruct (format_f_box v Hv) as (pre & E & Hpre).
    destruct (format_f_plain 7 v ltac:(lia)) as (Hnil & Hword & _).
    destruct (box_fields_head vs Hvs) as (c & rest & Hrest & Hc).
    cbn [map concat]. rewrite <- app_assoc, E. rewrite Hrest in IH |- *.
    change ((space :: pre ++ format_f 0 7 v) ++ c :: rest)
      with ((space :: pre) ++ format_f 0 7 v ++ c :: rest)
      || (cbn [app]; rewrite <- app_assoc;
          change (space :: pre ++ format_f 0 7 v ++ c :: rest)
            with ((space :: pre) ++ format_f 0 7 v ++ c :: rest)).
    rewrite split_token by (trivial; cbn [forallb]; now rewrite Hpre).
    f_equal. rewrite <- IH. cbn [split_from]. now rewrite Hc.
Qed.

Lemma floats_of_box_fields (vs : list Q) :
  exists qs, floats_of (map (format_f 0 7) vs) = Ok qs
             /\ length qs = length vs.
Proof.
  induction vs as [| v vs (qs & Hqs & Hlen)].
  - exists []. split; reflexivity.
  - pose proof (format_f_read 0 7 v ltac:(lia)) as Hq.
    exists (read_value v 7 :: qs). cbn [map floats_of].
    rewrite Hq, Hqs. cbn [rbind length]. split; [reflexivity | lia].
Qed.

Lemma box_fields_line (vs : list Q) :
  Forall (fun v => fits_f 10 7 v = true) vs ->
  forallb (fun c => negb (is_line_break c)) (concat (map (format_f 11 7) vs))
  = true.
Proof.
  induction 1 as [| v vs Hv Hvs IH]; [reflexivity |].
  cbn [map concat]. rewrite forallb_app, IH.
  assert (Hp : 1 <= 7) by lia.
  destruct (format_f_field 11 7 v Hp (fits_f_wider 10 11 7 v ltac:(lia) Hv))
    as (_ & -> & _).
  reflexivity.
Qed.

(** The last two periods of a box line of two numbers or more. *)
Lemma box_fields_periods (vs : list Q) (v1 v2 : Q) :
  Forall (fun v => fits_f 10 7 v = true) (vs ++ [v1; v2]) ->
  exists earlier,
    rev (periods_from 0 (concat (map (format_f 11 7) (vs ++ [v1; v2]))
                         ++ [newline]))
    = (11 * length vs + 11 + 3) :: (11 * length vs + 3) :: earlier.
Proof.
  intros Hfit. apply Forall_app in Hfit. destruct Hfit as [Hvs Hlast].
  inversion Hlast as [| ? ? H1 Hlast']; subst.
  inversion Hlast' as [| ? ? H2 _]; subst.
  assert (Hp : 1 <= 7) by lia.
  destruct (format_f_field 11 7 v1 Hp (fits_f_wider 10 11 7 v1 ltac:(lia) H1))
    as (L1 & _ & P1).
  destruct (format_f_field 11 7 v2 Hp (fits_f_wider 10 11 7 v2 ltac:(lia) H2))
    as (_ & _ & P2).
  rewrite map_app, concat_app. cbn [map concat]. rewrite app_nil_r.
  rewrite <- !app_assoc.
  destruct (last_periods (concat (map (format_f 11 7) vs))
              (format_f 11 7 v1) (format_f 11 7 v2) 11 (11 - 7 - 1) L1 P1 P2)
    as (earlier & Hrev).
  exists earlier. rewrite Hrev.
  assert (Hlen : length (concat (map (format_f 11 7) vs)) = 11 * length vs).
  { clear - Hvs Hp. induction Hvs as [| v vs Hv Hvs IH]; [reflexivity |].
    cbn [map concat length]. rewrite length_app, IH.
    destruct (format_f_field 11 7 v Hp (fits_f_wider 10 11 7 v ltac:(lia) Hv))
      as (-> & _).
    lia. }
  rewrite Hlen. reflexivity.
Qed.

Lemma gro_text_box_shape (s1 s2 : string) (records : list gro_chunk)
    (vs : list Q) :
  gro_text ([GroLine s1; GroLine s2] ++ records
            ++ map GroBoxValue vs ++ [GroLine EmptyString])
  = list_ascii_of_string s1
    ++ newline :: list_ascii_of_string s2
    ++ newline :: gro_text records
    ++ (concat (map (format_f 11 7) vs) ++ [newline]).
Proof.
  rewrite !gro_text_app. unfold gro_text at 1 3 4.
  cbn [map concat render list_ascii_of_string app].
  rewrite map_map. cbn [render].
  rewrite !app_nil_r, <- !app_assoc. reflexivity.
Qed.

(** The precision that [from_gro] infers from a file of records that stay
    in their columns: the decimals of the first record, or six from the box
    line when there is no record. *)
Lemma infer_coord_precision_records (n : nat) (records : list gro_chunk)
    (box_line : chars) (i1 i2 : nat) (earlier : list nat) (s1 s2 : string) :
  1 <= n ->
  forallb (record_of n) records = true ->
  forallb record_in_columns records = true ->
  no_newline s1 = true -> no_newline s2 = true ->
  readline box_line = (box_line, []) ->
  rev (periods_from 0 box_line) = i2 :: i1 :: earlier ->
  _infer_coord_precision
    (list_ascii_of_string s1
     ++ newline :: list_ascii_of_string s2
     ++ newline :: gro_text records ++ box_line)
  = Ok (match records with
        | [] => Z.of_nat i2 - Z.of_nat i1 - 5
        | _ :: _ => Z.of_nat n
        end)%Z.
Proof.
  intros Hn Hof Hfit Hl1 Hl2 Hbox Hperiods.
  destruct records as [| c records'].
  - change (gro_text [] ++ box_line) with box_line.
    rewrite <- (app_nil_r box_line) at 1.
    eapply infer_coord_precision_lines; trivial.
    + rewrite app_nil_r. exact Hbox.
    + exact Hperiods.
  - cbn [forallb] in Hof, Hfit.
    apply andb_prop in Hof. destruct Hof as [Hc _].
    apply andb_prop in Hfit. destruct Hfit as [Hcfit _].
    destruct (read_record n c Hn Hc Hcfit)
      as (_ & _ & Hline & _ & (earlier' & Hper)).
    change (gro_text (c :: records')) with (render c ++ gro_text records').
    rewrite <- app_assoc.
    erewrite infer_coord_precision_lines; trivial; [| exact Hper].
    f_equal. lia.
Qed.

(** [from_gro] on a file of records that stay in their columns and a box
    line of numbers: three numbers make the box, any other count leaves the
    box unassigned. *)
Lemma from_gro_lines (n : nat) (records : list gro_chunk) (box_line : chars)
    (parsed_box : list Q) (i1 i2 : nat) (earlier : list nat) :
  1 <= n ->
  forallb (record_of n) records = true ->
  forallb record_in_columns records = true ->
  readline box_line = (box_line, []) ->
  floats_of (split box_line) = Ok parsed_box ->
  rev (periods_from 0 box_line) = i2 :: i1 :: earlier ->
  exists coordinates,
    from_gro
      (list_ascii_of_string "Generated by OpenFF"
       ++ newline :: list_ascii_of_string (str_nat (length records))
       ++ newline :: gro_text records ++ box_line)
    = match parsed_box with
      | [bx; by_; bz] =>
          Ok (mkInterchange [] empty_topology coordinates
                (Some ((bx, 0, 0), (0, by_, 0), (0, 0, bz))%Q))
      | _ => Raise UnboundLocalError
      end
    /\ Forall2
         (fun c q => q = rounded_position n (record_coordinates c))
         records coordinates.
Proof.
  intros Hn Hof Hfit Hbox Hfloats Hperiods.
  destruct (read_records n records Hn Hof Hfit box_line)
    as (coordinates & Hread & Hall).
  exists coordinates. split; [| exact Hall].
  assert (Hl1 : no_newline "Generated by OpenFF" = true) by reflexivity.
  assert (Hl2 : no_newline (str_nat (length records)) = true).
  { unfold no_newline. rewrite str_nat_chars.
    now destruct (digits_plain _ (digits_are_digits (N.of_nat (length records))))
      as (_ & _ & ->). }
  assert (Hcount : int_of_str (list_ascii_of_string (str_nat (length records))
                               ++ [newline])
                   = Ok (Z.of_nat (length records))).
  { rewrite str_nat_chars, <- nat_N_Z.
    apply (int_of_str_padded [] [newline]); reflexivity. }
  unfold from_gro.
  rewrite (infer_coord_precision_records n records box_line i1 i2 earlier)
    by assumption.
  cbn [rbind].
  rewrite readline_app by exact Hl1. rewrite readline_app by exact Hl2.
  rewrite Hcount. cbn [rbind].
  replace (Z.of_nat (length records) <? 0)%Z with false
    by (symmetry; apply Z.ltb_ge; lia).
  rewrite Nat2Z.id.
  destruct records as [| c records'].
  - cbn [length read_coordinates rbind]. change (gro_text [] ++ box_line)
      with box_line. rewrite Hbox, Hfloats. cbn [rbind].
    cbn in Hread. injection Hread as <-. reflexivity.
  - replace (Z.to_nat (Z.of_nat n + 5)) with (n + 5) by lia.
    rewrite Hread. cbn [rbind]. rewrite Hbox, Hfloats. reflexivity.
Qed.

(** ** What [from_gro] makes of a written file *)

Lemma box_values_written (b : matrix3) :
  box_values b = map GroBoxValue (box_written b).
Proof.
  destruct b as [[[[b00 b01] b02] [[b10 b11] b12]] [[b20 b21] b22]].
  unfold box_values, box_written, box_entries.
  now destruct (is_rectangular _).
Qed.

(** The characters that [to_gro] writes when every atom has a position. *)
Lemma to_gro_text (openff_sys : Interchange) (decimal : nat) :
  NoDup (virtual_site_keys openff_sys) ->
  length (positions openff_sys) = n_atoms (mdtop openff_sys) ->
  let records := atom_records openff_sys decimal
                 ++ virtual_site_records openff_sys decimal in
  to_gro openff_sys decimal
  = (list_ascii_of_string "Generated by OpenFF"
     ++ newline :: list_ascii_of_string (str_nat (length records))
     ++ newline :: gro_text records
     ++ (concat (map (format_f 11 7) (box_written (box_of openff_sys)))
         ++ [newline]),
     Ok tt).
Proof.
  intros Hnd Hlen records. unfold to_gro.
  rewrite to_gro_body_spec by assumption. f_equal.
  unfold gro_chunks. rewrite box_values_written.
  replace (length (positions openff_sys)
           + length (virtual_site_keys openff_sys))
    with (length records).
  - rewrite <- gro_text_box_shape. unfold records.
    now rewrite <- !app_assoc.
  - unfold records. rewrite length_app, length_atom_records by exact Hlen.
    now rewrite length_virtual_site_records, Hlen.
Qed.

Lemma written_in_columns (openff_sys : Interchange) (decimal : nat) :
  in_columns openff_sys decimal || triclinic_in_columns openff_sys decimal
  = true ->
  forallb record_in_columns
    (atom_records openff_sys decimal ++ virtual_site_records openff_sys decimal)
  = true
  /\ Forall (fun v => fits_f 10 7 v = true) (box_written (box_of openff_sys))
  /\ exists vs v1 v2, box_written (box_of openff_sys) = vs ++ [v1; v2].
Proof.
  intros H. apply orb_prop in H. unfold in_columns, triclinic_in_columns in H.
  destruct (box_of openff_sys)
    as [[[[b00 b01] b02] [[b10 b11] b12]] [[b20 b21] b22]] eqn:Hb.
  unfold box_written, box_in_columns, box_entries in *.
  destruct (is_rectangular _); destruct H as [H | H];
    apply andb_prop in H; destruct H as [Hrecords Hbox].
  - cbn [andb] in Hbox.
    apply andb_prop in Hbox. destruct Hbox as [Hbox H22].
    apply andb_prop in Hbox. destruct Hbox as [H00 H11].
    split; [exact Hrecords |]. split.
    + repeat constructor; assumption.
    + now exists [b00], b11, b22.
  - apply andb_prop in Hrecords. destruct Hrecords as [_ Hno].
    discriminate Hno.
  - discriminate Hbox.
  - apply andb_prop in Hrecords. destruct Hrecords as [Hrecords _].
    split; [exact Hrecords |]. split.
    + apply Forall_forall. now apply forallb_forall.
    + now exists [b00; b11; b22; b01; b02; b10; b12], b20, b21.
Qed.

(** The precision that is inferred from a written file. *)
Lemma infer_coord_precision_written (openff_sys : Interchange) (decimal : nat) :
  1 <= decimal ->
  NoDup (virtual_site_keys openff_sys) ->
  length (positions openff_sys) = n_atoms (mdtop openff_sys) ->
  in_columns openff_sys decimal || triclinic_in_columns openff_sys decimal
  = true ->
  let N := n_atoms (mdtop openff_sys) in
  let M := length (virtual_site_keys openff_sys) in
  _infer_coord_precision (fst (to_gro openff_sys decimal))
  = Ok (if N + M =? 0 then 6%Z else Z.of_nat decimal).
Proof.
  intros Hdec Hnd Hlen Hcol N M.
  rewrite to_gro_text by assumption. cbn [fst].
  destruct (written_in_columns openff_sys decimal Hcol)
    as (Hrecords & Hbox & (vs & v1 & v2 & Hvs)).
  set (records := atom_records openff_sys decimal
                  ++ virtual_site_records openff_sys decimal) in *.
  assert (Hcount : length records = N + M).
  { unfold records. rewrite length_app, length_atom_records by exact Hlen.
    now rewrite length_virtual_site_records. }
  rewrite Hvs in Hbox |- *.
  destruct (box_fields_periods vs v1 v2 Hbox) as (earlier & Hperiods).
  assert (Hl2 : no_newline (str_nat (length records)) = true).
  { unfold no_newline. rewrite str_nat_chars.
    now destruct (digits_plain _ (digits_are_digits (N.of_nat (length records))))
      as (_ & _ & ->). }
  rewrite (infer_coord_precision_records decimal records _
             (11 * length vs + 3) (11 * length vs + 11 + 3) earlier
             "Generated by OpenFF" _ Hdec (records_of_model _ _) Hrecords
             eq_refl Hl2
             (readline_app _ [] (box_fields_line _ Hbox)) Hperiods).
  rewrite <- Hcount. destruct records; cbn [length Nat.add Nat.eqb].
  - f_equal. lia.
  - reflexivity.
Qed.

(** The precision that [from_gro] infers from a file that [to_gro] wrote
    with [decimal] decimals, between 1 and 22, every field in its columns
    and no line break in a name, is [decimal] when the file has a particle;
    without particles the third line is the box line, and the precision
    inferred is six whatever [decimal] is.  (Up to 22 decimals the power of
    ten that [np.round] multiplies by is a double, and a rounded position
    that fits its field is finite.) *)
Theorem inferred_precision_of_written_file
    (openff_sys : Interchange) (decimal : nat) :
  1 <= decimal -> decimal <= 22 ->
  NoDup (virtual_site_keys openff_sys) ->
  length (positions openff_sys) = n_atoms (mdtop openff_sys) ->
  in_columns openff_sys decimal || triclinic_in_columns openff_sys decimal
  = true ->
  let N := n_atoms (mdtop openff_sys) in
  let M := length (virtual_site_keys openff_sys) in
  _infer_coord_precision (fst (to_gro openff_sys decimal))
  = Ok (if N + M =? 0 then 6%Z else Z.of_nat decimal).
Proof.
  intros Hdec _. now apply infer_coord_precision_written.
Qed.

Lemma inferred_precision_of_written_file_witness :
  _infer_coord_precision (fst (to_gro (water_model 0 0) 3)) = Ok 3%Z
  /\ _infer_coord_precision (fst (to_gro empty_model 3)) = Ok 6%Z.
Proof.
  assert (Hnd : NoDup (virtual_site_keys (water_model 0 0))).
  { repeat constructor; simpl; intuition discriminate. }
  split.
  - exact (inferred_precision_of_written_file (water_model 0 0) 3
             (le_S _ _ (le_S _ _ (le_n 1))) ltac:(repeat constructor)
             Hnd eq_refl ltac:(vm_compute; reflexivity)).
  - exact (inferred_precision_of_written_file empty_model 3
             (le_S _ _ (le_S _ _ (le_n 1))) ltac:(repeat constructor)
             (NoDup_nil _) eq_refl eq_refl).
Defined.

Lemma Forall2_map_r {A B : Type} (P : A -> B -> Prop) (F : A -> B)
    (l : list A) :
  Forall (fun a => P a (F a)) l -> Forall2 P l (map F l).
Proof. induction 1; simpl; constructor; assumption. Qed.






(** ** BondCharge virtual sites *)

(** A BondCharge site is translated when it has exactly two parent atoms:
    the row lists them in the order of the key, not sorted, with the
    construction function 2 and the distance itself as the coefficient.
    With any other number of parents the writer raises
    [NotImplementedError], after the heading of the section if this is the
    first BondCharge site. *)
Theorem bond_charge_translation (openff_sys : Interchange)
    (virtual_site_handler : Handler) (virtual_site_map : list (key * nat))
    (started2 started3 : bool) (virtual_site_key : key) :
  type_of virtual_site_key = "BondCharge" ->
  let translate :=
    _virtual_site_loop_body openff_sys virtual_site_handler virtual_site_map
      (started2, started3) virtual_site_key in
  (length (atom_indices virtual_site_key) <> 2 ->
   translate
   = (virtual_sites2_header started2, Raise (NotImplementedError EmptyString)))
  /\ (forall (atom1 atom2 virtual_site_index : nat) (distance : R),
        atom_indices virtual_site_key = [atom1; atom2] ->
        dict_item key_eqb virtual_site_map virtual_site_key
        = Ok virtual_site_index ->
        parameter_of virtual_site_handler virtual_site_key "distance"
        = Ok distance ->
        translate
        = (virtual_sites2_header started2
           ++ [VirtualSites2Row virtual_site_index (atom1 + 1) (atom2 + 1) 2
                 distance],
           Ok (true, started3))).
Proof.
  intros Htype translate.
  unfold translate, _virtual_site_loop_body, _write_bond_charge.
  rewrite Htype. cbn [String.eqb Ascii.eqb Bool.eqb].
  unfold virtual_sites2_header, bind, lift, ret, write, raise.
  split.
  - intros Hlen. apply Nat.eqb_neq in Hlen. rewrite Hlen.
    destruct started2; reflexivity.
  - intros atom1 atom2 virtual_site_index distance Hatoms Hidx Hdistance.
    rewrite Hatoms, Hidx, Hdistance.
    destruct started2; reflexivity.
Qed.

Lemma bond_charge_translation_witness :
  _virtual_site_loop_body (water_model 0 0) (water_virtual_sites 0 0)
    (_build_virtual_site_map (water_model 0 0)) (false, false) bond_charge_key
  = (virtual_sites2_header false ++ [VirtualSites2Row 4 (0 + 1) (1 + 1) 2 (1 / 10)%R],
     Ok (true, false)).
Proof.
  apply (proj2 (bond_charge_translation (water_model 0 0)
                  (water_virtual_sites 0 0)
                  (_build_virtual_site_map (water_model 0 0)) false false
                  bond_charge_key eq_refl) 0 1 4 (1 / 10)%R);
    reflexivity.
Defined.

(** ** What a writer does not write *)

Section AllWritten.
Context {C : Type} (P : C -> Prop).

Lemma all_written_bind {A B : Type} (m : writer C A) (k : A -> writer C B) :
  Forall P (fst m) -> (forall a, Forall P (fst (k a))) ->
  Forall P (fst (bind m k)).
Proof.
  intros Hm Hk. rewrite fst_bind. apply Forall_app. split; [exact Hm |].
  destruct (snd m); [apply Hk | constructor].
Qed.

Lemma all_written_lift {A : Type} (r : result A) :
  Forall P (fst (lift r : writer C A)).
Proof. constructor. Qed.

Lemma all_written_ret {A : Type} (a : A) : Forall P (fst (ret a : writer C A)).
Proof. constructor. Qed.

Lemma all_written_raise {A : Type} (e : exn) :
  Forall P (fst (raise e : writer C A)).
Proof. constructor. Qed.

Lemma all_written_write (c : C) : P c -> Forall P (fst (write c)).
Proof. intros H. repeat constructor. exact H. Qed.

Lemma all_written_for_state {A St : Type} (body : St -> A -> writer C St) :
  (forall s x, Forall P (fst (body s x))) ->
  forall (l : list A) (s : St), Forall P (fst (for_state l s body)).
Proof.
  intros Hbody. induction l as [| x l IH]; intros s; simpl.
  - constructor.
  - apply all_written_bind; auto.
Qed.

End AllWritten.

Ltac all_written :=
  repeat first
    [ apply all_written_lift
    | apply all_written_ret
    | apply all_written_raise
    | apply all_written_write; reflexivity
    | apply all_written_bind; [| intros ?]
    | apply all_written_for_state; intros ? ?
    | match goal with
      | |- Forall _ (fst (if ?b then _ else _)) => destruct b
      | |- Forall _ (fst (let '(_, _) := ?x in _)) => destruct x
      | |- Forall _ (fst (match ?x with _ => _ end)) => destruct x
      end ].

Lemma flat_map_quiet {X : Type} (proj : chunk -> list X) (w : file) :
  Forall (fun c => proj c = []) w -> flat_map proj w = [].
Proof.
  induction 1 as [| c w Hc Hw IH]; simpl; [reflexivity |].
  now rewrite Hc, IH.
Qed.

(** The loop over the virtual sites writes no row of [ exclusions ]. *)
Lemma virtual_site_loop_quiet (openff_sys : Interchange)
    (virtual_site_handler : Handler) (virtual_site_map : list (key * nat))
    (keys : list key) (started : bool * bool) :
  Forall (fun c => exclusions_entry c = [])
    (fst (for_state keys started
            (_virtual_site_loop_body openff_sys virtual_site_handler
               virtual_site_map))).
Proof.
  apply all_written_for_state. intros [s2 s3] k.
  unfold _virtual_site_loop_body, _write_bond_charge,
    _write_monovalent_lone_pair, _write_divalent_lone_pair.
  all_written.
Qed.

Lemma map_enumerate_pointwise {A B : Type} (F : A -> B) (G : nat -> A -> B)
    (l : list A) :
  forall start,
    (forall j a, nth_error l j = Some a -> F a = G (start + j) a) ->
    map F l = map (fun '(j, a) => G j a) (enumerate_from start l).
Proof.
  induction l as [| x l IH]; intros start H; simpl.
  - reflexivity.
  - f_equal.
    + rewrite (H 0 x eq_refl). f_equal. lia.
    + apply IH. intros j a Hj. rewrite (H (S j) a Hj). f_equal. lia.
Qed.

(** When [_write_virtual_sites] completes for a table that binds no key
    twice, the [ exclusions ] section has one row for every key of the
    table, in the order of the table: the particle index of the site, and
    its parent atoms, numbered from one, in the order of the key.  When it
    raises, it has written no such row. *)
Theorem exclusions_cover_every_site (openff_sys : Interchange) :
  NoDup (virtual_site_keys openff_sys) ->
  let N := n_atoms (mdtop openff_sys) in
  let written :=
    _write_virtual_sites openff_sys (_build_virtual_site_map openff_sys) in
  (snd written = Ok tt ->
   flat_map exclusions_entry (fst written)
   = map (fun '(j, k) => (N + 1 + j, map (fun i => i + 1) (atom_indices k)))
       (enumerate (virtual_site_keys openff_sys)))
  /\ (is_ok (snd written) = false ->
      flat_map exclusions_entry (fst written) = []).
Proof.
  intros Hnd N written. unfold written, _write_virtual_sites.
  pose proof (build_virtual_site_map_spec openff_sys Hnd) as Hmap.
  unfold virtual_site_keys in *.
  unfold has_handler, dict_mem, interchange_item.
  destruct (dict_get String.eqb (handlers openff_sys) "VirtualSites")
    as [h |] eqn:Hh; cbn [negb].
  2:{ split; [reflexivity | discriminate]. }
  rewrite bind_lift_ok.
  destruct (all_types_supported (dict_keys (slot_map h))) as [[|] | e];
    rewrite ?bind_lift_ok, ?bind_lift_raise; cbn [negb fst snd flat_map];
    try (split; [discriminate | reflexivity]).
  set (keys := dict_keys (slot_map h)) in *.
  set (loop := for_state _ _ _).
  assert (Hquiet : flat_map exclusions_entry (fst loop) = [])
    by (apply flat_map_quiet, virtual_site_loop_quiet).
  assert (Hrows :
    for_each keys
      (fun virtual_site_key =>
         let parent_indices := atom_indices virtual_site_key in
         virtual_site_index <-
           lift (dict_item key_eqb (_build_virtual_site_map openff_sys)
                   virtual_site_key) ;;
         write (ExclusionsRow virtual_site_index
                  (map (fun i => i + 1) parent_indices)))
    = (map (fun '(j, k) =>
              ExclusionsRow (N + 1 + j) (map (fun i => i + 1) (atom_indices k)))
         (enumerate keys),
       Ok tt)).
  { unfold enumerate.
    rewrite <- (map_enumerate_pointwise
                  (fun k => ExclusionsRow
                              (match dict_get key_eqb
                                       (_build_virtual_site_map openff_sys) k with
                               | Some index => index
                               | None => 0
                               end)
                              (map (fun i => i + 1) (atom_indices k)))).
    - apply for_each_ok. intros k Hk.
      apply In_nth_error in Hk. destruct Hk as [j Hj].
      unfold dict_item. rewrite Hmap.
      rewrite (dict_get_combine_nth _ _ _ _ Hnd Hj).
      rewrite bind_lift_ok. reflexivity.
    - intros j k Hj. rewrite Hmap.
      rewrite (dict_get_combine_nth _ _ _ _ Hnd Hj). reflexivity. }
  rewrite fst_bind, snd_bind. destruct (snd loop) as [s |] eqn:Hloop.
  - rewrite bind_write_prepend, (bind_ok_prepend _ _ _ _ Hrows).
    unfold prepend, write. cbn [fst snd].
    rewrite !flat_map_app, Hquiet. cbn [flat_map app exclusions_entry].
    split; [intros _ | discriminate].
    rewrite app_nil_r. generalize (enumerate keys). intros l.
    induction l as [| [j k] l IH]; [reflexivity |].
    cbn [map flat_map exclusions_entry app]. now rewrite IH.
  - rewrite app_nil_r. split; [discriminate | intros _; exact Hquiet].
Qed.

Lemma exclusions_cover_every_site_witness :
  let written :=
    _write_virtual_sites (water_model 0 0)
      (_build_virtual_site_map (water_model 0 0)) in
  (snd written = Ok tt ->
   flat_map exclusions_entry (fst written)
   = [(4, [1; 2]); (5, [3; 1; 2]); (6, [2; 1; 3])])
  /\ (is_ok (snd written) = false ->
      flat_map exclusions_entry (fst written) = []).
Proof.
  assert (Hnd : NoDup (virtual_site_keys (water_model 0 0))).
  { repeat constructor; simpl; intuition discriminate. }
  exact (exclusions_cover_every_site (water_model 0 0) Hnd).
Defined.

(** ** Angles *)

Lemma for_state_app {C A St : Type} (body : St -> A -> writer C St)
    (l1 l2 : list A) :
  forall s,
    for_state (l1 ++ l2) s body
    = bind (for_state l1 s body) (fun s' => for_state l2 s' body).
Proof.
  induction l1 as [| x l1 IH]; intros s; simpl.
  - now rewrite bind_ret.
  - unfold bind at 1 3. destruct (body s x) as [w [s' |]]; [| reflexivity].
    rewrite IH. unfold bind.
    destruct (for_state l1 s' body) as [w1 [s1 |]]; [| reflexivity].
    destruct (for_state l2 s1 body) as [w2 r2]. now rewrite app_assoc.
Qed.

Lemma find_angle_pot_key_unmatched (h : Handler) (a0 a1 a2 : nat)
    (pot_key : option PotentialKey) :
  angle_unmatched h (a0, a1, a2) = true ->
  _find_angle_pot_key (slot_map h) [a0; a1; a2] pot_key = pot_key.
Proof.
  unfold angle_unmatched, _find_angle_pot_key.
  revert pot_key. induction (slot_map h) as [| [top_key value] table IH];
    intros pot_key H; simpl in *.
  - reflexivity.
  - apply andb_prop in H. destruct H as [Hk Htable].
    destruct (list_nat_eqb (atom_indices top_key) [a0; a1; a2]);
      [discriminate |].
    now apply IH.
Qed.

Lemma write_angles_with_handler (openff_sys : Interchange) (h : Handler) :
  dict_get String.eqb (handlers openff_sys) "Angles" = Some h ->
  _write_angles openff_sys
  = prepend [Text "[ angles ]\n"; Text "; ai\taj\tak\tfunc\tr\tk\n"]
      (for_state (angles (mdtop openff_sys)) None (angle_loop_body h) ;;
       write (Text "\n\n")).
Proof.
  intros Hh. unfold _write_angles, has_handler, dict_mem, handlers_item, dict_item.
  rewrite Hh. cbn [negb].
  rewrite !bind_write_prepend, prepend_prepend, bind_lift_ok.
  reflexivity.
Qed.

(** A pass of the loop that completes has found a parameter set, or kept
    the one of an earlier pass, and has written one row with the
    parameters of that set. *)
Lemma angle_loop_body_complete (h : Handler) (pot_key s' : option PotentialKey)
    (angle : nat * nat * nat) (w : file) :
  angle_loop_body h pot_key angle = (w, Ok s') ->
  exists p potential theta k,
    (let '(a0, a1, a2) := angle in
     _find_angle_pot_key (slot_map h) [a0; a1; a2] pot_key) = Some p
    /\ s' = Some p
    /\ dict_item String.eqb (potentials h) p = Ok potential
    /\ dict_item String.eqb (parameters potential) "k" = Ok k
    /\ dict_item String.eqb (parameters potential) "angle" = Ok theta
    /\ flat_map angles_entry w = [angle_row angle theta k].
Proof.
  destruct angle as [[a0 a1] a2]. unfold angle_loop_body.
  destruct (_find_angle_pot_key (slot_map h) [a0; a1; a2] pot_key) as [p |];
    [| discriminate].
  rewrite bind_ret.
  destruct (dict_item String.eqb (potentials h) p) as [potential |] eqn:Hpot;
    [| discriminate].
  rewrite bind_lift_ok.
  destruct (dict_item String.eqb (parameters potential) "k") as [k |] eqn:Hk;
    [| discriminate].
  rewrite bind_lift_ok.
  destruct (dict_item String.eqb (parameters potential) "angle")
    as [theta |] eqn:Htheta; [| discriminate].
  rewrite bind_lift_ok, bind_write_prepend. unfold prepend, ret.
  cbn [fst snd app]. intros H. injection H as <- <-.
  exists p, potential, theta, k. repeat split; assumption.
Qed.

Lemma angle_loop_rows (h : Handler) (l : list (nat * nat * nat)) :
  forall s s' w,
    for_state l s (angle_loop_body h) = (w, Ok s') ->
    length (flat_map angles_entry w) = length l.
Proof.
  induction l as [| angle l IH]; intros s s' w H; simpl in H.
  - injection H as <- _. reflexivity.
  - apply bind_inv in H.
    destruct (angle_loop_body h s angle) as [w1 [s1 |]] eqn:Hbody.
    + destruct H as (w2 & Hrest & ->).
      destruct (angle_loop_body_complete _ _ _ _ _ Hbody)
        as (p & potential & theta & k & _ & _ & _ & _ & _ & Hrow).
      rewrite flat_map_app, length_app, Hrow, (IH _ _ _ Hrest). reflexivity.
    + destruct H as [_ H]. discriminate.
Qed.

(** Unlike the loop over the bonds, the loop over the angles matches the
    atom indices in the order of the angle only, and does not forget the
    parameter set between two angles.  When [_write_angles] completes, an
    angle that matches no key of the table is written with the parameters
    of the angle before it; when the first angle matches no key, the writer
    raises [UnboundLocalError] after the two heading lines. *)
Theorem unmatched_angle_takes_previous_parameters
    (openff_sys : Interchange) (h : Handler) :
  dict_get String.eqb (handlers openff_sys) "Angles" = Some h ->
  (forall l1 l2 A B,
     angles (mdtop openff_sys) = l1 ++ A :: B :: l2 ->
     angle_unmatched h B = true ->
     snd (_write_angles openff_sys) = Ok tt ->
     exists rows1 rows2 theta k,
       flat_map angles_entry (fst (_write_angles openff_sys))
       = rows1 ++ [angle_row A theta k; angle_row B theta k] ++ rows2
       /\ length rows1 = length l1)
  /\ (forall A l,
        angles (mdtop openff_sys) = A :: l ->
        angle_unmatched h A = true ->
        _write_angles openff_sys
        = ([Text "[ angles ]\n"; Text "; ai\taj\tak\tfunc\tr\tk\n"],
           Raise UnboundLocalError)).
Proof.
  intros Hh. rewrite (write_angles_with_handler _ _ Hh). split.
  - intros l1 l2 A B Hangles HB Hok. rewrite Hangles in *.
    rewrite for_state_app in *. cbn [for_state] in *.
    unfold prepend in *. cbn [fst snd] in *.
    destruct (for_state l1 None (angle_loop_body h)) as [w1 [s1 |]] eqn:H1;
      [| discriminate Hok].
    rewrite !bind_assoc in *. rewrite (bind_ok _ _ _ _ eq_refl) in *.
    cbn [fst snd] in *.
    destruct (angle_loop_body h s1 A) as [wA [s2 |]] eqn:HA;
      [| discriminate Hok].
    rewrite (bind_ok _ _ _ _ eq_refl) in *. cbn [fst snd] in *.
    destruct (angle_loop_body h s2 B) as [wB [s3 |]] eqn:HBody;
      [| discriminate Hok].
    rewrite (bind_ok _ _ _ _ eq_refl) in *. cbn [fst snd] in *.
    destruct (angle_loop_body_complete _ _ _ _ _ HA)
      as (p & potential & theta & k & _ & -> & Hpot & Hk & Htheta & HrowA).
    destruct (angle_loop_body_complete _ _ _ _ _ HBody)
      as (p' & potential' & theta' & k' & Hfind & _ & Hpot' & Hk' & Htheta'
          & HrowB).
    destruct B as [[b0 b1] b2].
    rewrite (find_angle_pot_key_unmatched _ _ _ _ _ HB) in Hfind.
    injection Hfind as <-. rewrite Hpot in Hpot'. injection Hpot' as <-.
    rewrite Hk in Hk'. injection Hk' as <-.
    rewrite Htheta in Htheta'. injection Htheta' as <-.
    exists (flat_map angles_entry w1),
      (flat_map angles_entry
         (fst (for_state l2 s3 (angle_loop_body h) ;; write (Text "\n\n")))),
      theta, k.
    split.
    + match goal with
      | |- context [bind (wA ++ wB ++ fst ?m, snd ?m) ?k] =>
          change (wA ++ wB ++ fst m, snd m) with (prepend wA (prepend wB m))
      end.
      rewrite !bind_prepend. unfold prepend at 1 2. cbn [fst snd].
      rewrite !flat_map_app, HrowA, HrowB. reflexivity.
    + exact (angle_loop_rows _ _ _ _ _ H1).
  - intros [[a0 a1] a2] l Hangles HA. rewrite Hangles. cbn [for_state].
    unfold angle_loop_body at 1.
    rewrite (find_angle_pot_key_unmatched _ _ _ _ _ HA).
    rewrite !bind_raise_l. reflexivity.
Qed.

Lemma unmatched_angle_takes_previous_parameters_witness :
  snd (_write_angles chain_model) = Ok tt
  /\ exists rows1 rows2 theta k,
       flat_map angles_entry (fst (_write_angles chain_model))
       = rows1 ++ [angle_row (0, 1, 2) theta k; angle_row (1, 2, 3) theta k]
         ++ rows2
       /\ length rows1 = 0.
Proof.
  split; [reflexivity |].
  apply (proj1 (unmatched_angle_takes_previous_parameters chain_model
                  chain_angles eq_refl) [] []);
    reflexivity.
Defined.

(** ** Dihedrals *)

Lemma list_nat_eqb_sym (a b : list nat) : list_nat_eqb a b = list_nat_eqb b a.
Proof.
  destruct (list_nat_eqb a b) eqn:E.
  - apply list_nat_eqb_eq in E. subst. symmetry. now apply list_nat_eqb_eq.
  - symmetry. apply list_nat_eqb_neq. intros ->.
    assert (list_nat_eqb a a = true) by now apply list_nat_eqb_eq.
    congruence.
Qed.

Lemma flat_map_matching {X : Type} (entry : X)
    (table : list (key * PotentialKey)) (indices : list nat) :
  flat_map (fun '(top_key, _) =>
              if list_nat_eqb (atom_indices top_key) indices
              then [entry] else [])
    table
  = repeat entry
      (length (filter (fun '(top_key, _) =>
                         list_nat_eqb (atom_indices top_key) indices)
                 table)).
Proof.
  induction table as [| [top_key value] table IH]; simpl; [reflexivity |].
  destruct (list_nat_eqb (atom_indices top_key) indices); simpl; now rewrite IH.
Qed.

Lemma emits_prefix_if_lift {X A B : Type} (proj : chunk -> list X) (b : bool)
    (m1 m2 : io A) (k : A -> io B) (l : list X) :
  emits_prefix proj m1 [] -> emits_prefix proj m2 [] ->
  (forall a, emits_prefix proj (k a) l) ->
  emits_prefix proj (bind (if b then m1 else m2) k) l.
Proof.
  intros H1 H2 Hk. change l with ([] ++ l). apply emits_prefix_bind; trivial.
  now destruct b.
Qed.

Lemma write_proper_rows_entries (h : Handler) (a0 a1 a2 a3 : nat) :
  emits_prefix dihedral_entry (_write_proper_rows h [a0; a1; a2; a3])
    (repeat (a0 + 1, a1 + 1, a2 + 1, a3 + 1, 1)
       (count_matching (Some h) [a0; a1; a2; a3])).
Proof.
  unfold count_matching. rewrite <- flat_map_matching.
  unfold _write_proper_rows, for_each.
  apply emits_prefix_for_state with
    (out_of := fun '(top_key, _) =>
                 if list_nat_eqb (atom_indices top_key) [a0; a1; a2; a3]
                 then [(a0 + 1, a1 + 1, a2 + 1, a3 + 1, 1)] else []).
  intros [] [top_key pot_key].
  destruct (list_nat_eqb (atom_indices top_key) [a0; a1; a2; a3]).
  - repeat (apply emits_prefix_lift; intros ?).
    apply emits_prefix_if_lift.
    + apply emits_prefix_lift. intros ?. apply emits_prefix_silent.
    + apply emits_prefix_silent.
    + intros idivf. apply emits_prefix_lift. intros q.
      apply (emits_prefix_write dihedral_entry (ProperRow _ _ _ _ _ _ _ _)).
  - apply emits_prefix_silent.
Qed.

Lemma write_rb_rows_entries (h : Handler) (a0 a1 a2 a3 : nat) :
  emits_prefix dihedral_entry (_write_rb_rows h [a0; a1; a2; a3])
    (repeat (a0 + 1, a1 + 1, a2 + 1, a3 + 1, 3)
       (count_matching (Some h) [a0; a1; a2; a3])).
Proof.
  unfold count_matching. rewrite <- flat_map_matching.
  unfold _write_rb_rows, for_each.
  apply emits_prefix_for_state with
    (out_of := fun '(top_key, _) =>
                 if list_nat_eqb (atom_indices top_key) [a0; a1; a2; a3]
                 then [(a0 + 1, a1 + 1, a2 + 1, a3 + 1, 3)] else []).
  intros [] [top_key pot_key].
  destruct (list_nat_eqb (atom_indices top_key) [a0; a1; a2; a3]).
  - repeat (apply emits_prefix_lift; intros ?).
    apply (emits_prefix_write dihedral_entry (RBRow _ _ _ _ _ _ _ _ _ _ _)).
  - apply emits_prefix_silent.
Qed.

Lemma write_improper_rows_entries (h : Handler) (a0 a1 a2 a3 : nat) :
  emits_prefix dihedral_entry (_write_improper_rows h [a0; a1; a2; a3])
    (repeat (a0 + 1, a1 + 1, a2 + 1, a3 + 1, 4)
       (count_matching (Some h) [a0; a1; a2; a3])).
Proof.
  unfold count_matching. rewrite <- flat_map_matching.
  unfold _write_improper_rows, for_each.
  apply emits_prefix_for_state with
    (out_of := fun '(top_key, _) =>
                 if list_nat_eqb (atom_indices top_key) [a0; a1; a2; a3]
                 then [(a0 + 1, a1 + 1, a2 + 1, a3 + 1, 4)] else []).
  intros [] [top_key pot_key].
  rewrite list_nat_eqb_sym.
  destruct (list_nat_eqb (atom_indices top_key) [a0; a1; a2; a3]).
  - repeat (apply emits_prefix_lift; intros ?).
    apply (emits_prefix_write dihedral_entry (ImproperRow _ _ _ _ _ _ _ _)).
  - apply emits_prefix_silent.
Qed.

(** The rows of the [ dihedrals ] section are, in order, the entries of the
    model, or a first part of them when the writer raises. *)
Lemma write_dihedrals_entries (openff_sys : Interchange) :
  emits_prefix dihedral_entry (_write_dihedrals openff_sys)
    (dihedral_entries openff_sys).
Proof.
  unfold _write_dihedrals, dihedral_entries, has_handler, dict_mem.
  set (proper := dict_get String.eqb (handlers openff_sys) "ProperTorsions").
  set (rb := dict_get String.eqb (handlers openff_sys) "RBTorsions").
  set (improper := dict_get String.eqb (handlers openff_sys) "ImproperTorsions").
  assert (Hpropers :
    forall s (t : nat * nat * nat * nat),
      emits_prefix dihedral_entry
        ((fun (_ : unit) '(a0, a1, a2, a3) =>
            _ <- (match proper with
                  | Some h => _write_proper_rows h [a0; a1; a2; a3]
                  | None => ret tt
                  end) ;;
            match rb with
            | Some h => _write_rb_rows h [a0; a1; a2; a3]
            | None => ret tt
            end) s t)
        ((fun '(a0, a1, a2, a3) =>
            repeat (a0 + 1, a1 + 1, a2 + 1, a3 + 1, 1)
              (count_matching proper [a0; a1; a2; a3])
            ++ repeat (a0 + 1, a1 + 1, a2 + 1, a3 + 1, 3)
                 (count_matching rb [a0; a1; a2; a3])) t)).
  { intros [] [[[a0 a1] a2] a3]. apply emits_prefix_bind.
    - destruct proper as [h |];
        [apply write_proper_rows_entries | apply emits_prefix_silent].
    - intros _. destruct rb as [h |];
        [apply write_rb_rows_entries | apply emits_prefix_silent]. }
  assert (Himpropers :
    forall s (t : nat * nat * nat * nat),
      emits_prefix dihedral_entry
        ((fun (_ : unit) '(a0, a1, a2, a3) =>
            match improper with
            | Some h => _write_improper_rows h [a0; a1; a2; a3]
            | None => ret tt
            end) s t)
        ((fun '(a0, a1, a2, a3) =>
            repeat (a0 + 1, a1 + 1, a2 + 1, a3 + 1, 4)
              (count_matching improper [a0; a1; a2; a3])) t)).
  { intros [] [[[a0 a1] a2] a3]. destruct improper as [h |];
      [apply write_improper_rows_entries | apply emits_prefix_silent]. }
  destruct (negb match proper with Some _ => true | None => false end
            && negb match rb with Some _ => true | None => false end
            && negb match improper with Some _ => true | None => false end)
    eqn:Hguard.
  - destruct proper; [discriminate |]. destruct rb; [discriminate |].
    destruct improper; [discriminate |]. cbn [count_matching repeat app].
    replace (flat_map _ (propers (mdtop openff_sys))) with (@nil (nat * nat * nat * nat * nat)).
    + replace (flat_map _ (impropers (mdtop openff_sys)))
        with (@nil (nat * nat * nat * nat * nat)).
      * apply emits_prefix_silent.
      * induction (impropers (mdtop openff_sys)) as [| [[[? ?] ?] ?] l IH];
          simpl; auto.
    + induction (propers (mdtop openff_sys)) as [| [[[? ?] ?] ?] l IH];
        simpl; auto.
  - apply emits_prefix_write_other; [reflexivity |].
    apply emits_prefix_write_other; [reflexivity |].
    cbv zeta. apply emits_prefix_bind.
    + unfold for_each. apply emits_prefix_for_state. exact Hpropers.
    + intros _. unfold for_each. apply emits_prefix_for_state.
      exact Himpropers.
Qed.

(** The loop of a torsion over a table completes when every key that has
    the atom indices of the torsion completes. *)
Lemma torsion_rows_complete (table : list (key * PotentialKey))
    (indices : list nat) (matches : key -> bool)
    (row : PotentialKey -> io unit) :
  (forall top_key pot_key,
     In (top_key, pot_key) table -> matches top_key = true ->
     snd (row pot_key) = Ok tt) ->
  snd (for_each table (fun '(top_key, pot_key) =>
         if matches top_key then row pot_key else ret tt)) = Ok tt.
Proof.
  intros Hrow. apply for_each_completes. intros [top_key pot_key] Hin.
  destruct (matches top_key) eqn:Hm; [eauto | reflexivity].
Qed.

(** The loop of a torsion over a table writes nothing and raises nothing
    when no key has the atom indices of the torsion. *)
Lemma torsion_rows_unmatched (table : list (key * PotentialKey))
    (matches : key -> bool) (row : PotentialKey -> io unit) :
  length (filter (fun '(top_key, _) => matches top_key) table) = 0 ->
  for_each table (fun '(top_key, pot_key) =>
    if matches top_key then row pot_key else ret tt) = ([], Ok tt).
Proof.
  unfold for_each.
  induction table as [| [top_key pot_key] table IH]; simpl; intros Hnone.
  - reflexivity.
  - destruct (matches top_key); [discriminate |].
    rewrite bind_ret. auto.
Qed.

Lemma write_proper_rows_complete (h : Handler) (indices : list nat) :
  (forall top_key pot_key,
     In (top_key, pot_key) (slot_map h) -> atom_indices top_key = indices ->
     proper_set_complete h pot_key) ->
  snd (_write_proper_rows h indices) = Ok tt.
Proof.
  intros Hsets. unfold _write_proper_rows.
  apply (torsion_rows_complete (slot_map h) indices
           (fun top_key => list_nat_eqb (atom_indices top_key) indices)).
  intros top_key pot_key Hin Hm. apply list_nat_eqb_eq in Hm.
  destruct (Hsets _ _ Hin Hm)
    as (potential & k & periodicity & phase & Hpot & Hk & Hper & Hphase & Hidivf).
  rewrite Hpot, bind_lift_ok. cbv zeta.
  rewrite Hk, bind_lift_ok, Hper, bind_lift_ok, Hphase, bind_lift_ok.
  unfold dict_mem, dict_item.
  destruct (dict_get String.eqb (parameters potential) "idivf") as [v |] eqn:Hv.
  - rewrite bind_assoc, bind_lift_ok, bind_ret. unfold py_div.
    destruct (Req_dec_T (IZR (int_of_float v)) 0) as [Hz | _].
    + exfalso. apply (Hidivf v eq_refl). now apply eq_IZR_R0.
    + now rewrite bind_lift_ok.
  - rewrite bind_ret. unfold py_div.
    destruct (Req_dec_T (IZR 1) 0) as [Hz | _]; [lra |].
    now rewrite bind_lift_ok.
Qed.

Lemma write_rb_rows_complete (h : Handler) (indices : list nat) :
  (forall top_key pot_key,
     In (top_key, pot_key) (slot_map h) -> atom_indices top_key = indices ->
     rb_set_complete h pot_key) ->
  snd (_write_rb_rows h indices) = Ok tt.
Proof.
  intros Hsets. unfold _write_rb_rows.
  apply (torsion_rows_complete (slot_map h) indices
           (fun top_key => list_nat_eqb (atom_indices top_key) indices)).
  intros top_key pot_key Hin Hm. apply list_nat_eqb_eq in Hm.
  destruct (Hsets _ _ Hin Hm) as (potential & Hpot & Hall).
  rewrite Hpot, bind_lift_ok. cbv zeta.
  repeat match goal with
         | H : Forall _ (_ :: _) |- _ =>
             let c := fresh "c" in
             let Hc := fresh "Hc" in
             inversion H as [| ? ? (c & Hc) ?]; subst; clear H;
             rewrite Hc, bind_lift_ok
         end.
  reflexivity.
Qed.

Lemma write_improper_rows_complete (h : Handler) (indices : list nat) :
  (forall top_key pot_key,
     In (top_key, pot_key) (slot_map h) -> atom_indices top_key = indices ->
     improper_set_complete h pot_key) ->
  snd (_write_improper_rows h indices) = Ok tt.
Proof.
  intros Hsets. unfold _write_improper_rows.
  apply (torsion_rows_complete (slot_map h) indices
           (fun top_key => list_nat_eqb indices (atom_indices top_key))).
  intros top_key pot_key Hin Hm. apply list_nat_eqb_eq in Hm.
  destruct (Hsets _ _ Hin (eq_sym Hm))
    as (potential & k & periodicity & phase & idivf & Hpot & Hk & Hper
        & Hphase & Hidivf & Hnz).
  rewrite Hpot, bind_lift_ok. cbv zeta.
  rewrite Hk, bind_lift_ok, Hper, bind_lift_ok, Hphase, bind_lift_ok.
  rewrite Hidivf, bind_lift_ok. unfold py_div.
  destruct (Req_dec_T (IZR (int_of_float idivf)) 0) as [Hz | _].
  - exfalso. apply Hnz. now apply eq_IZR_R0.
  - now rewrite bind_lift_ok.
Qed.

(** The rows of the [ dihedrals ] section are, in order, the entries of the
    model, or a first part of them when the writer raises: each torsion gets
    one row for every key of a table that has its atom indices, in the
    order of the torsion, so that a torsion that matches several keys is
    written several times.  A torsion that matches no key of a table is
    passed over without a row and without an error: the loop of the torsion
    over that table writes nothing and completes.  So the section is written
    to its end, with all the entries of the model, as soon as the keys that
    do match a torsion are bound to parameter sets that have what the
    writer reads of them. *)
Theorem dihedral_rows_follow_the_matching_keys (openff_sys : Interchange) :
  emits_prefix dihedral_entry (_write_dihedrals openff_sys)
    (dihedral_entries openff_sys)
  /\ (forall (h : Handler) (indices : list nat),
        count_matching (Some h) indices = 0 ->
        _write_proper_rows h indices = ([], Ok tt)
        /\ _write_rb_rows h indices = ([], Ok tt)
        /\ _write_improper_rows h indices = ([], Ok tt))
  /\ (matching_sets_complete openff_sys "ProperTorsions"
        (propers (mdtop openff_sys)) proper_set_complete ->
      matching_sets_complete openff_sys "RBTorsions"
        (propers (mdtop openff_sys)) rb_set_complete ->
      matching_sets_complete openff_sys "ImproperTorsions"
        (impropers (mdtop openff_sys)) improper_set_complete ->
      snd (_write_dihedrals openff_sys) = Ok tt
      /\ flat_map dihedral_entry (fst (_write_dihedrals openff_sys))
         = dihedral_entries openff_sys).
Proof.
  split; [apply write_dihedrals_entries |]. split.
  - intros h indices Hnone. unfold count_matching in Hnone.
    split; [| split].
    + apply (torsion_rows_unmatched (slot_map h)
               (fun top_key => list_nat_eqb (atom_indices top_key) indices)).
      exact Hnone.
    + apply (torsion_rows_unmatched (slot_map h)
               (fun top_key => list_nat_eqb (atom_indices top_key) indices)).
      exact Hnone.
    + apply (torsion_rows_unmatched (slot_map h)
               (fun top_key => list_nat_eqb indices (atom_indices top_key))).
      rewrite <- Hnone. f_equal. apply filter_ext. intros [top_key pot_key].
      apply list_nat_eqb_sym.
  - intros Hproper Hrb Himproper.
    assert (Hok : snd (_write_dihedrals openff_sys) = Ok tt).
    { unfold _write_dihedrals.
      destruct (negb (has_handler openff_sys "ProperTorsions")
                && negb (has_handler openff_sys "RBTorsions")
                && negb (has_handler openff_sys "ImproperTorsions"));
        [reflexivity |].
      rewrite !bind_write_prepend, !snd_prepend. cbv zeta.
      rewrite snd_bind, for_each_completes.
      - apply for_each_completes. intros [[[a0 a1] a2] a3] Hin.
        cbv beta iota.
        destruct (dict_get String.eqb (handlers openff_sys) "ImproperTorsions")
          as [h |] eqn:Hh; [| reflexivity].
        apply write_improper_rows_complete. intros top_key pot_key Hkey Hm.
        exact (Himproper h top_key pot_key (a0, a1, a2, a3) Hh Hin Hkey Hm).
      - intros [[[a0 a1] a2] a3] Hin. cbv beta iota. rewrite snd_bind.
        destruct (dict_get String.eqb (handlers openff_sys) "ProperTorsions")
          as [hp |] eqn:Hhp.
        2: change (snd (@ret chunk unit tt)) with (@Ok unit tt).
        1: rewrite write_proper_rows_complete
             by (intros top_key pot_key Hkey Hm;
                 exact (Hproper hp top_key pot_key (a0, a1, a2, a3) Hhp Hin
                          Hkey Hm)).
        all: cbv beta iota.
        all:
          destruct (dict_get String.eqb (handlers openff_sys) "RBTorsions")
            as [h |] eqn:Hh; [| reflexivity];
          apply write_rb_rows_complete; intros top_key pot_key Hkey Hm;
          exact (Hrb h top_key pot_key (a0, a1, a2, a3) Hh Hin Hkey Hm). }
    split; [exact Hok |].
    exact (emits_prefix_complete _ _ _ tt (write_dihedrals_entries openff_sys)
             Hok).
Qed.

Lemma dihedral_rows_follow_the_matching_keys_witness :
  propers (mdtop torsion_model) = [(0, 1, 2, 3); (1, 2, 3, 4)]
  /\ count_matching (Some torsion_propers) [1; 2; 3; 4] = 0
  /\ _write_proper_rows torsion_propers [1; 2; 3; 4] = ([], Ok tt)
  /\ snd (_write_dihedrals torsion_model) = Ok tt
  /\ flat_map dihedral_entry (fst (_write_dihedrals torsion_model))
     = [(1, 2, 3, 4, 1)].
Proof.
  destruct (dihedral_rows_follow_the_matching_keys torsion_model)
    as (_ & Hunmatched & Hcomplete).
  split; [reflexivity |]. split; [reflexivity |].
  split; [apply (Hunmatched torsion_propers [1; 2; 3; 4]); reflexivity |].
  apply Hcomplete.
  - intros h top_key pot_key t Hh _ Hkey _.
    injection Hh as <-. destruct Hkey as [Hkey | []].
    injection Hkey as <- <-.
    exists (mkPotential [("k", 4%R); ("periodicity", 2%R); ("phase", 180%R)]),
           4%R, 2%R, 180%R.
    repeat split. intros idivf Hidivf. discriminate Hidivf.
  - intros h top_key pot_key t Hh. discriminate Hh.
  - intros h top_key pot_key t Hh. discriminate Hh.
Defined.

(** ** Atom type names *)

Lemma dict_get_set_string {V : Type} (d : list (string * V)) (k k' : string)
    (v : V) :
  dict_get String.eqb (dict_set String.eqb d k v) k'
  = if (k =? k')%string then Some v else dict_get String.eqb d k'.
Proof.
  induction d as [| [k0 v0] d IH]; simpl.
  - reflexivity.
  - destruct (String.eqb_spec k0 k) as [-> | Hne]; simpl.
    + destruct (String.eqb_spec k k'); reflexivity.
    + rewrite IH. destruct (String.eqb_spec k0 k') as [-> | Hne'].
      * destruct (String.eqb_spec k k'); [congruence | reflexivity].
      * reflexivity.
Qed.

Lemma build_typemap_from_keeps (l : list Atom) :
  forall index elements typemap i s,
    i < index ->
    dict_get Nat.eqb typemap i = Some s ->
    dict_get Nat.eqb (_build_typemap_from l index elements typemap) i = Some s.
Proof.
  induction l as [| atom l IH]; intros index elements typemap i s Hi Hs;
    simpl; [exact Hs |].
  apply IH; [lia |]. rewrite dict_get_set_nat.
  destruct (Nat.eqb_spec index i); [lia | exact Hs].
Qed.

Lemma element_count_app (symbol : string) (l1 l2 : list Atom) :
  element_count symbol (l1 ++ l2)
  = element_count symbol l1 + element_count symbol l2.
Proof. unfold element_count. now rewrite filter_app, length_app. Qed.

Lemma element_count_one (symbol : string) (a : Atom) :
  element_count symbol [a]
  = if (element_symbol a =? symbol)%string then 1 else 0.
Proof.
  unfold element_count. cbn [filter].
  now destruct (element_symbol a =? symbol)%string.
Qed.

(** The loop of [_build_typemap], after the atoms [done]: the counter of an
    element is the number of its atoms so far. *)
Lemma build_typemap_from_names (l : list Atom) :
  forall (done : list Atom) (elements : list (string * nat))
         (typemap : list (nat * string)) (i : nat) (atom : Atom),
    (forall symbol,
       dict_get String.eqb elements symbol
       = match element_count symbol done with
         | 0 => None
         | c => Some c
         end) ->
    nth_error l i = Some atom ->
    dict_get Nat.eqb
      (_build_typemap_from l (length done) elements typemap) (length done + i)
    = Some (element_symbol atom
            ++ str_nat (element_count (element_symbol atom)
                          (done ++ firstn (S i) l)))%string.
Proof.
  induction l as [| a l IH]; intros done elements typemap i atom Hinv Hi.
  - destruct i; discriminate.
  - cbn [_build_typemap_from].
    set (count := match dict_get String.eqb elements (element_symbol a) with
                  | Some c => c + 1
                  | None => 1
                  end).
    assert (Hcount : count = element_count (element_symbol a) (done ++ [a])).
    { unfold count. rewrite Hinv, element_count_app, element_count_one.
      rewrite String.eqb_refl.
      destruct (element_count (element_symbol a) done); lia. }
    assert (Hinv' : forall symbol,
               dict_get String.eqb
                 (dict_set String.eqb elements (element_symbol a) count) symbol
               = match element_count symbol (done ++ [a]) with
                 | 0 => None
                 | c => Some c
                 end).
    { intros symbol.
      rewrite dict_get_set_string, element_count_app, element_count_one.
      destruct (String.eqb_spec (element_symbol a) symbol) as [<- | Hne].
      - rewrite Hcount, element_count_app, element_count_one.
        rewrite String.eqb_refl.
        now replace (element_count (element_symbol a) done + 1)
          with (S (element_count (element_symbol a) done)) by lia.
      - rewrite Nat.add_0_r. apply Hinv. }
    destruct i as [| i].
    + injection Hi as ->. rewrite Nat.add_0_r.
      apply build_typemap_from_keeps; [lia |].
      rewrite dict_get_set_nat, Nat.eqb_refl. cbn [firstn].
      now rewrite Hcount.
    + replace (S (length done)) with (length (done ++ [a]))
        by (rewrite length_app; simpl; lia).
      replace (length done + S i) with (length (done ++ [a]) + i)
        by (rewrite length_app; simpl; lia).
      rewrite (IH (done ++ [a]) _ _ i atom Hinv' Hi).
      cbn [firstn]. now rewrite <- app_assoc.
Qed.

Lemma str_nat_inj (a b : nat) : str_nat a = str_nat b -> a = b.
Proof.
  intros H. apply (f_equal list_ascii_of_string) in H.
  rewrite !str_nat_chars in H.
  pose proof (parse_digits_digits (N.of_nat a)) as Ha.
  rewrite H, parse_digits_digits in Ha. injection Ha as Ha. lia.
Qed.

Lemma string_app_inv (s x y : string) :
  (s ++ x = s ++ y)%string -> x = y.
Proof. induction s as [| c s IH]; simpl; intros H; [exact H |]. injection H. auto. Qed.

Lemma firstn_succ_nth {A : Type} (l : list A) (j : nat) (a : A) :
  nth_error l j = Some a -> firstn (S j) l = firstn j l ++ [a].
Proof.
  revert j. induction l as [| x l IH]; intros [| j] H; simpl in *;
    try discriminate.
  - now injection H as ->.
  - f_equal. now apply IH.
Qed.

(** [_build_typemap] names the atom at position [i] after its element and
    the number of atoms of that element up to it: the second oxygen of the
    topology is [O2].  Two atoms of the same element never share a name. *)
Theorem typemap_names_count_the_element (openff_sys : Interchange) :
  let all := atoms (mdtop openff_sys) in
  (forall i atom,
     nth_error all i = Some atom ->
     dict_item Nat.eqb (_build_typemap openff_sys) i
     = Ok (element_symbol atom
           ++ str_nat (element_count (element_symbol atom) (firstn (S i) all)))
          %string)
  /\ (forall i j a b name_i name_j,
        nth_error all i = Some a -> nth_error all j = Some b ->
        i < j -> element_symbol a = element_symbol b ->
        dict_item Nat.eqb (_build_typemap openff_sys) i = Ok name_i ->
        dict_item Nat.eqb (_build_typemap openff_sys) j = Ok name_j ->
        name_i <> name_j).
Proof.
  intros all.
  assert (Hname : forall i atom,
             nth_error all i = Some atom ->
             dict_item Nat.eqb (_build_typemap openff_sys) i
             = Ok (element_symbol atom
                   ++ str_nat (element_count (element_symbol atom)
                                 (firstn (S i) all)))%string).
  { intros i atom Hi. unfold dict_item, _build_typemap.
    pose proof (build_typemap_from_names all [] [] [] i atom
                  (fun _ => eq_refl) Hi) as Hget.
    cbn [length Nat.add app] in Hget. fold all. now rewrite Hget. }
  split; [exact Hname |].
  intros i j a b name_i name_j Hi Hj Hlt Hsym Hni Hnj Heq.
  rewrite (Hname _ _ Hi) in Hni. rewrite (Hname _ _ Hj) in Hnj.
  remember (firstn (S i) all) as before_i eqn:Hbefore_i.
  remember (firstn (S j) all) as before_j eqn:Hbefore_j.
  injection Hni as <-. injection Hnj as <-.
  rewrite Hsym in Heq. apply string_app_inv, str_nat_inj in Heq.
  subst before_i before_j.
  rewrite (firstn_succ_nth _ _ _ Hj), element_count_app in Heq.
  rewrite element_count_one, String.eqb_refl in Heq.
  assert (Hle : element_count (element_symbol b) (firstn (S i) all)
                <= element_count (element_symbol b) (firstn j all)).
  { rewrite <- (firstn_skipn (S i) (firstn j all)), element_count_app.
    rewrite firstn_firstn. replace (Nat.min (S i) j) with (S i) by lia. lia. }
  lia.
Qed.

Lemma typemap_names_count_the_element_witness :
  dict_item Nat.eqb (_build_typemap (water_model 0 0)) 2
  = Ok ("H" ++ str_nat (element_count "H" [oxygen; hydrogen; hydrogen]))%string
  /\ (forall name_1 name_2,
        dict_item Nat.eqb (_build_typemap (water_model 0 0)) 1 = Ok name_1 ->
        dict_item Nat.eqb (_build_typemap (water_model 0 0)) 2 = Ok name_2 ->
        name_1 <> name_2).
Proof.
  destruct (typemap_names_count_the_element (water_model 0 0))
    as [Hname Hdistinct].
  split.
  - exact (Hname 2 hydrogen eq_refl).
  - intros name_1 name_2.
    exact (Hdistinct 1 2 hydrogen hydrogen name_1 name_2 eq_refl eq_refl
             (le_n 2) eq_refl).
Defined.

(** ** The [ defaults ] section *)

(** [_write_top_defaults] reads the nonbonded handler [vdW], or
    [Buckingham-6] when the model has no [vdW].  Without either it raises
    an UnsupportedExportError after the two heading lines.  With a supported
    mixing rule the row has the function 1 for [vdW] and 2 for
    [Buckingham-6], the combination rule 2 for lorentz-berthelot (and for
    buckingham on [Buckingham-6]) and 3 for geometric, no pair generation,
    the 1-4 scale of the nonbonded handler and the 1-4 scale of
    [Electrostatics]; without [Electrostatics] it raises [KeyError] after
    the two heading lines. *)
Theorem defaults_row_of_the_nonbonded_handler (openff_sys : Interchange) :
  let headings :=
    [Text "[ defaults ]\n";
     Text "; nbfunc\tcomb-rule\tgen-pairs\tfudgeLJ\tfudgeQQ\n"] in
  (active_nonbonded openff_sys = None ->
   exists msg,
     _write_top_defaults openff_sys
     = (headings, Raise (UnsupportedExportError msg)))
  /\ (forall name h comb_rule,
        active_nonbonded openff_sys = Some (name, h) ->
        (mixing_rule h = "lorentz-berthelot" /\ comb_rule = 2)
        \/ (mixing_rule h = "geometric" /\ comb_rule = 3)
        \/ (mixing_rule h = "buckingham" /\ name = "Buckingham-6"
            /\ comb_rule = 2) ->
        _write_top_defaults openff_sys
        = match dict_get String.eqb (handlers openff_sys) "Electrostatics" with
          | Some es =>
              (headings
               ++ [DefaultsRow (if (name =? "vdW")%string then 1 else 2)
                     comb_rule "no" (scale_14 h) (scale_14 es)],
               Ok tt)
          | None => (headings, Raise KeyError)
          end).
Proof.
  intros headings. unfold active_nonbonded, _write_top_defaults, has_handler,
    dict_mem, interchange_item.
  rewrite !bind_write_prepend, prepend_prepend.
  split.
  - intros Hnone.
    destruct (dict_get String.eqb (handlers openff_sys) "vdW"); [discriminate |].
    destruct (dict_get String.eqb (handlers openff_sys) "Buckingham-6");
      [discriminate |].
    rewrite bind_raise_l. eexists. reflexivity.
  - intros name h comb_rule Hactive Hrule.
    assert (Hrow :
      forall nbfunc : nat,
        dict_get String.eqb (handlers openff_sys) name = Some h ->
        prepend
          ([Text "[ defaults ]\n"]
           ++ [Text "; nbfunc\tcomb-rule\tgen-pairs\tfudgeLJ\tfudgeQQ\n"])
          ((fun x : nat * R * string * string =>
              let '(nbfunc, scale_lj, gen_pairs, handler_key) := x in
              h0 <- lift match dict_get String.eqb (handlers openff_sys)
                                 handler_key with
                         | Some h0 => Ok h0
                         | None => Raise LookupError
                         end ;;
              comb_rule <-
                (if (mixing_rule h0 =? "lorentz-berthelot")%string then ret 2
                 else if (mixing_rule h0 =? "geometric")%string then ret 3
                 else if (mixing_rule h0 =? "buckingham")%string
                         && (handler_key =? "Buckingham-6")%string
                 then ret 2
                 else
                   raise (UnsupportedExportError
                     ("Mixing rule `" ++ mixing_rule h0
                      ++ " not compatible with GROMACS and/or not supported "
                      ++ "by current exporter. Supported values are `lorentez-berthelot` and `geometric`."))) ;;
              es <- lift (handlers_item openff_sys "Electrostatics") ;;
              write (DefaultsRow nbfunc comb_rule gen_pairs scale_lj (scale_14 es)))
             (nbfunc, scale_14 h, "no", name))
        = match dict_get String.eqb (handlers openff_sys) "Electrostatics" with
          | Some es =>
              (headings
               ++ [DefaultsRow nbfunc comb_rule "no" (scale_14 h) (scale_14 es)],
               Ok tt)
          | None => (headings, Raise KeyError)
          end).
    { intros nbfunc Hname. cbv beta iota. rewrite Hname, bind_lift_ok.
      assert (Hcomb :
        (if (mixing_rule h =? "lorentz-berthelot")%string then ret 2
         else if (mixing_rule h =? "geometric")%string then ret 3
         else if (mixing_rule h =? "buckingham")%string
                 && (name =? "Buckingham-6")%string
         then ret 2
         else
           raise (UnsupportedExportError
             ("Mixing rule `" ++ mixing_rule h
              ++ " not compatible with GROMACS and/or not supported "
              ++ "by current exporter. Supported values are `lorentez-berthelot` and `geometric`.")))
        = (ret comb_rule : io nat)).
      { destruct Hrule as [[-> ->] | [[-> ->] | (-> & -> & ->)]]; reflexivity. }
      rewrite Hcomb, bind_ret. unfold handlers_item, dict_item.
      destruct (dict_get String.eqb (handlers openff_sys) "Electrostatics")
        as [es |].
      - rewrite bind_lift_ok. reflexivity.
      - rewrite bind_lift_raise. reflexivity. }
    destruct (dict_get String.eqb (handlers openff_sys) "vdW") as [hv |] eqn:Hv.
    + injection Hactive as <- <-. rewrite bind_assoc, bind_lift_ok, bind_ret.
      apply (Hrow 1 Hv).
    + destruct (dict_get String.eqb (handlers openff_sys) "Buckingham-6")
        as [hb |] eqn:Hb; [| discriminate].
      injection Hactive as <- <-. rewrite bind_assoc, bind_lift_ok, bind_ret.
      apply (Hrow 2 Hb).
Qed.

Lemma defaults_row_of_the_nonbonded_handler_witness :
  _write_top_defaults (water_model 0 0)
  = ([Text "[ defaults ]\n";
      Text "; nbfunc\tcomb-rule\tgen-pairs\tfudgeLJ\tfudgeQQ\n";
      DefaultsRow 1 2 "no" (1 / 2) (5 / 6)],
     Ok tt)
  /\ exists msg,
       _write_top_defaults empty_model
       = ([Text "[ defaults ]\n";
           Text "; nbfunc\tcomb-rule\tgen-pairs\tfudgeLJ\tfudgeQQ\n"],
          Raise (UnsupportedExportError msg)).
Proof.
  split.
  - exact (proj2 (defaults_row_of_the_nonbonded_handler (water_model 0 0))
             "vdW" (water_vdw "lorentz-berthelot") 2 eq_refl
             (or_introl (conj eq_refl eq_refl))).
  - exact (proj1 (defaults_row_of_the_nonbonded_handler empty_model) eq_refl).
Defined.

(** ** Pairs without a [vdW] handler *)

Lemma never_ok_bind {C A B : Type} (m : writer C A) (k : A -> writer C B) :
  (forall a, is_ok (snd (k a)) = false) -> is_ok (snd (bind m k)) = false.
Proof.
  intros Hk. rewrite snd_bind. destruct (snd m); [apply Hk | reflexivity].
Qed.

Lemma write_pair_without_vdw (openff_sys : Interchange) (rule : string)
    (scale : R) (pair : nat * nat) :
  has_handler openff_sys "vdW" = false ->
  _write_pair openff_sys rule scale pair = ([], Raise KeyError).
Proof.
  intros Hvdw. unfold _write_pair, _get_lj_parameters, handlers_item, dict_item.
  unfold has_handler, dict_mem in Hvdw.
  destruct (dict_get String.eqb (handlers openff_sys) "vdW"); [discriminate |].
  reflexivity.
Qed.

Lemma for_each_always_raises {C A : Type} (body : A -> writer C unit) (e : exn)
    (l : list A) :
  (forall x, body x = ([], Raise e)) ->
  for_each l body = ([], if match l with [] => true | _ => false end
                         then Ok tt else Raise e).
Proof.
  intros Hbody. unfold for_each. destruct l as [| x l]; simpl.
  - reflexivity.
  - now rewrite Hbody.
Qed.

Lemma set_of_not_nil (l : list (nat * nat)) : l <> [] -> set_of l <> [].
Proof.
  intros Hl Hset. destruct l as [| x l]; [contradiction |].
  assert (Hin : In x (set_of (x :: l))) by (apply nodup_In; now left).
  rewrite Hset in Hin. contradiction.
Qed.

(** The loop over the 1-4 pairs reads Lennard-Jones parameters from the
    [vdW] handler whatever the nonbonded handler of the model is.  So a
    model without a [vdW] handler, such as one with [Buckingham-6] only,
    that has a 1-4 pair is never exported: [_write_atoms] raises, no row of
    [ pairs ] is ever written, and [to_top] does not complete. *)
Theorem pairs_need_a_vdw_handler (openff_sys : Interchange) :
  has_handler openff_sys "vdW" = false ->
  _iterate_pairs (mdtop openff_sys) <> [] ->
  (forall typemap virtual_site_map,
     is_ok (snd (_write_atoms openff_sys typemap virtual_site_map)) = false
     /\ pairs_entries (fst (_write_atoms openff_sys typemap virtual_site_map))
        = [])
  /\ (forall before, is_ok (snd (to_top openff_sys before)) = false).
Proof.
  intros Hvdw Hpairs.
  assert (Hloop : forall rule scale,
             for_each (set_of (_iterate_pairs (mdtop openff_sys)))
               (_write_pair openff_sys rule scale)
             = ([], Raise KeyError)).
  { intros rule scale.
    rewrite (for_each_always_raises _ KeyError)
      by (intros pair; now apply write_pair_without_vdw).
    pose proof (set_of_not_nil _ Hpairs) as Hset.
    destruct (set_of (_iterate_pairs (mdtop openff_sys)));
      [contradiction | reflexivity]. }
  assert (Hatoms : forall typemap virtual_site_map,
             is_ok (snd (_write_atoms openff_sys typemap virtual_site_map))
             = false
             /\ pairs_entries
                  (fst (_write_atoms openff_sys typemap virtual_site_map))
                = []).
  { intros typemap virtual_site_map. unfold _write_atoms. split.
    - do 7 (apply never_ok_bind; intros ?).
      apply never_ok_bind. intros [rule scale]. now rewrite Hloop.
    - unfold pairs_entries. apply flat_map_quiet.
      apply all_written_bind; [all_written | intros ?].
      apply all_written_bind; [all_written | intros ?].
      apply all_written_bind; [all_written | intros ?].
      apply all_written_bind.
      { apply all_written_for_state. intros ? [atom_idx atom]. all_written. }
      intros ?. apply all_written_bind.
      { apply all_written_for_state. intros charge [k index].
        apply all_written_bind; [destruct charge; all_written | intros ?].
        all_written. }
      intros ?.
      apply all_written_bind; [all_written | intros ?].
      apply all_written_bind; [all_written | intros ?].
      apply all_written_bind.
      { destruct (interchange_item openff_sys "vdW") as [h | []]; all_written. }
      intros [rule scale]. rewrite Hloop. constructor. }
  split; [exact Hatoms |].
  intros before. unfold to_top.
  destruct (to_top_body openff_sys) as [written r] eqn:Hbody. cbn [snd].
  replace r with (snd (to_top_body openff_sys)) by now rewrite Hbody.
  unfold to_top_body.
  do 4 (apply never_ok_bind; intros ?).
  apply not_ok_bind. apply Hatoms.
Qed.

Lemma pairs_need_a_vdw_handler_witness :
  is_ok (snd (to_top buckingham_chain None)) = false
  /\ pairs_entries
       (fst (_write_atoms buckingham_chain (_build_typemap buckingham_chain)
               (_build_virtual_site_map buckingham_chain)))
     = [].
Proof.
  assert (Hpairs : _iterate_pairs (mdtop buckingham_chain) <> [])
    by discriminate.
  destruct (pairs_need_a_vdw_handler buckingham_chain eq_refl Hpairs)
    as [Hatoms Htop].
  split; [apply Htop | apply Hatoms].
Defined.

(** ** The older writer: type names and the molecule map *)

Lemma dict_set_fresh_nat {V : Type} (d : list (nat * V)) (k : nat) (v : V) :
  Forall (fun e => fst e < k) d ->
  dict_set Nat.eqb d k v = d ++ [(k, v)].
Proof.
  induction 1 as [| [k0 v0] d Hk Hd IH]; simpl.
  - reflexivity.
  - simpl in Hk. destruct (Nat.eqb_spec k0 k); [lia |]. now rewrite IH.
Qed.

Lemma older_typemap_from (l : list Atom) :
  forall (atom_idx : nat) (elements : list (string * nat))
         (typemap : list (nat * string)),
    (forall symbol count,
       dict_get String.eqb elements symbol = Some count -> count = 0) ->
    Forall (fun e => fst e < atom_idx) typemap ->
    System._write_atomtypes_typemap_from l atom_idx elements typemap
    = Ok (typemap
          ++ map (fun '(i, atom) => (i, (element_symbol atom ++ "0")%string))
               (enumerate_from atom_idx l)).
Proof.
  induction l as [| atom l IH]; intros atom_idx elements typemap Hzero Hkeys.
  - simpl. now rewrite app_nil_r.
  - cbn [System._write_atomtypes_typemap_from enumerate_from map].
    set (elements' :=
           if negb (dict_mem String.eqb elements (element_symbol atom))
           then dict_set String.eqb elements (element_symbol atom) 0
           else elements).
    assert (Hzero' : forall symbol count,
               dict_get String.eqb elements' symbol = Some count -> count = 0).
    { intros symbol count. unfold elements'.
      destruct (dict_mem String.eqb elements (element_symbol atom));
        cbn [negb]; [apply Hzero |].
      rewrite dict_get_set_string.
      destruct (element_symbol atom =? symbol)%string;
        [congruence | apply Hzero]. }
    assert (Hcount : dict_item String.eqb elements' (element_symbol atom)
                     = Ok 0).
    { unfold dict_item, elements', dict_mem.
      destruct (dict_get String.eqb elements (element_symbol atom))
        as [c |] eqn:Hc; cbn [negb].
      - rewrite Hc. now rewrite (Hzero _ _ Hc).
      - now rewrite dict_get_set_string, String.eqb_refl. }
    rewrite Hcount. cbn [rbind].
    rewrite dict_set_fresh_nat by exact Hkeys.
    rewrite IH.
    + now rewrite <- app_assoc.
    + exact Hzero'.
    + apply Forall_app. split.
      * eapply Forall_impl; [| exact Hkeys]. simpl. intros; lia.
      * repeat constructor.
Qed.

(** The older writer never increments the counter of an element: every
    atom is named by its element symbol followed by 0, so all atoms of one
    element share one type name. *)
Theorem older_typemap_never_counts (topology_atoms : list Atom) :
  System._write_atomtypes_typemap topology_atoms
  = Ok (map (fun '(i, atom) => (i, (element_symbol atom ++ "0")%string))
          (enumerate topology_atoms)).
Proof.
  unfold System._write_atomtypes_typemap.
  rewrite older_typemap_from; [reflexivity | discriminate | constructor].
Qed.

Lemma dict_set_fresh_string {V : Type} (d : list (string * V)) (k : string)
    (v : V) :
  ~ In k (dict_keys d) -> dict_set String.eqb d k v = d ++ [(k, v)].
Proof.
  induction d as [| [k' v'] d IH]; simpl; intros Hn.
  - reflexivity.
  - destruct (String.eqb_spec k' k) as [-> | _]; [exfalso; apply Hn; now left |].
    rewrite IH by (intros Hin; apply Hn; now right). reflexivity.
Qed.

Lemma length_dict_set_bound {V : Type} (d : list (string * V)) (k : string)
    (v : V) :
  length (dict_set String.eqb d k v)
  = if dict_mem String.eqb d k then length d else S (length d).
Proof.
  unfold dict_mem. induction d as [| [k' v'] d IH]; simpl.
  - reflexivity.
  - destruct (String.eqb_spec k' k); simpl; [reflexivity |].
    rewrite IH. now destruct (dict_get String.eqb d k).
Qed.

Lemma build_molecule_map_from_app (l1 l2 : list System.ReferenceMolecule) :
  forall counter mapping,
  exists counter',
    System._build_molecule_map_from (l1 ++ l2) counter mapping
    = System._build_molecule_map_from l2 counter'
        (System._build_molecule_map_from l1 counter mapping).
Proof.
  induction l1 as [| m l1 IH]; intros counter mapping; simpl.
  - now exists counter.
  - destruct (System.name m =? EmptyString)%string; apply IH.
Qed.

(** The loop of [_build_molecule_map] over molecules without a name: the
    names count from [counter]. *)
Lemma build_molecule_map_from_unnamed (l : list System.ReferenceMolecule) :
  Forall (fun m => System.name m = EmptyString) l ->
  forall counter mapping,
    (forall k, counter <= k -> ~ In ("MOL" ++ str_nat k)%string
                                    (dict_keys mapping)) ->
    System._build_molecule_map_from l counter mapping
    = mapping
      ++ map (fun '(k, m) =>
                (("MOL" ++ str_nat k)%string,
                 System.mkMoleculeData m (System.n_topology_molecules m)))
           (enumerate_from counter l).
Proof.
  induction 1 as [| m l Hm Hl IH]; intros counter mapping Hfresh; simpl.
  - now rewrite app_nil_r.
  - rewrite Hm. cbn [String.eqb].
    rewrite dict_set_fresh_string by (apply Hfresh; lia).
    rewrite IH.
    + rewrite <- app_assoc. cbn [app].
      now replace (counter + 1) with (S counter) by lia.
    + intros k Hk Hin. unfold dict_keys in Hin. rewrite map_app in Hin.
      apply in_app_or in Hin. destruct Hin as [Hin | [Heq | []]].
      * apply (Hfresh k); [lia | exact Hin].
      * cbn [fst] in Heq.
        change (("MOL" ++ str_nat counter)%string
                = ("MOL" ++ str_nat k)%string) in Heq.
        apply string_app_inv, str_nat_inj in Heq. lia.
Qed.



(** ** The sections of the topology file *)

Section Headings.
Context {X : Type} (proj : chunk -> list X).

Lemma emits_prefix_raise {A : Type} (e : exn) (l : list X) :
  emits_prefix proj (([], Raise e) : io A) l.
Proof. exists 0. cbn. repeat split; [lia | discriminate]. Qed.

Lemma emits_prefix_quiet {A : Type} (m : io A) :
  Forall (fun c => proj c = []) (fst m) -> emits_prefix proj m [].
Proof.
  intros H. exists 0. rewrite (flat_map_quiet proj _ H). repeat split; auto.
Qed.

Lemma emits_prefix_bind_quiet {A B : Type} (m : io A) (k : A -> io B) l :
  Forall (fun c => proj c = []) (fst m) ->
  (forall a, emits_prefix proj (k a) l) ->
  emits_prefix proj (bind m k) l.
Proof.
  intros Hm Hk. change l with ([] ++ l). apply emits_prefix_bind; trivial.
  now apply emits_prefix_quiet.
Qed.

Lemma emits_prefix_write_heading {A : Type} (c : chunk) (k : unit -> io A)
    (x : X) (l : list X) :
  proj c = [x] ->
  emits_prefix proj (k tt) l ->
  emits_prefix proj (bind (write c) k) (x :: l).
Proof.
  intros Hc Hk. change (x :: l) with ([x] ++ l). rewrite <- Hc.
  now apply emits_prefix_write_bind.
Qed.

Lemma emits_prefix_write_eq (c : chunk) (l : list X) :
  proj c = l -> emits_prefix proj (write c) l.
Proof. intros <-. apply emits_prefix_write. Qed.

(** As [emits_prefix_bind], with what follows depending on the result. *)
Lemma emits_prefix_bind_ok {A B : Type} (m : io A) (k : A -> io B) l1 l2 :
  emits_prefix proj m l1 ->
  (forall a, snd m = Ok a -> emits_prefix proj (k a) l2) ->
  emits_prefix proj (bind m k) (l1 ++ l2).
Proof.
  intros (n1 & Hn1 & Hw1 & Hok1) Hk. unfold emits_prefix.
  rewrite fst_bind, snd_bind. destruct m as [w1 [a | e]]; simpl in *.
  - destruct (Hk a eq_refl) as (n2 & Hn2 & Hw2 & Hok2).
    specialize (Hok1 eq_refl). subst n1.
    exists (length l1 + n2). rewrite length_app, flat_map_app, Hw1, Hw2.
    repeat split.
    + lia.
    + rewrite firstn_all, firstn_app_2. reflexivity.
    + intros Hok. rewrite (Hok2 Hok). reflexivity.
  - exists n1. rewrite length_app, app_nil_r, Hw1. repeat split.
    + lia.
    + rewrite firstn_app. replace (n1 - length l1) with 0 by lia.
      simpl. now rewrite app_nil_r.
    + discriminate.
Qed.

End Headings.

Ltac headings :=
  repeat first
    [ apply emits_prefix_write_heading; [reflexivity |]
    | apply emits_prefix_write_other; [reflexivity |]
    | apply emits_prefix_write_eq; reflexivity
    | apply emits_prefix_lift; intros ?
    | apply emits_prefix_raise
    | apply emits_prefix_silent
    | apply emits_prefix_quiet; solve [all_written]
    | apply emits_prefix_bind_quiet; [solve [all_written] | intros ?] ].

Lemma top_defaults_headings (openff_sys : Interchange) :
  emits_prefix heading_of (_write_top_defaults openff_sys) ["[ defaults ]\n"].
Proof. unfold _write_top_defaults. headings. Qed.

Lemma atomtypes_headings (openff_sys : Interchange)
    (typemap : list (nat * string)) (virtual_site_map : list (key * nat)) :
  emits_prefix heading_of (_write_atomtypes openff_sys typemap virtual_site_map)
    ["[ atomtypes ]\n"].
Proof.
  unfold _write_atomtypes, _write_atomtypes_lj, _write_atomtypes_buck, for_each.
  destruct (has_handler openff_sys "vdW");
    destruct (has_handler openff_sys "Buckingham-6"); headings.
Qed.

Lemma moleculetype_headings :
  emits_prefix heading_of _write_moleculetype ["[ moleculetype ]\n"].
Proof. unfold _write_moleculetype. headings. Qed.

Lemma system_headings :
  emits_prefix heading_of _write_system ["[ system ]\n"; "[ molecules ]\n"].
Proof. unfold _write_system. headings. Qed.

Lemma atoms_headings (openff_sys : Interchange)
    (typemap : list (nat * string)) (virtual_site_map : list (key * nat)) :
  emits_prefix heading_of (_write_atoms openff_sys typemap virtual_site_map)
    ["[ atoms ]\n"; "[ pairs ]\n"].
Proof.
  unfold _write_atoms, for_each, _write_pair. headings.
Qed.

Lemma bonds_headings (openff_sys : Interchange) :
  emits_prefix heading_of (_write_bonds openff_sys)
    (if has_handler openff_sys "Bonds" then ["[ bonds ]\n"] else []).
Proof.
  unfold _write_bonds, for_each, _write_bond.
  destruct (has_handler openff_sys "Bonds"); cbn [negb]; headings.
Qed.

Lemma angles_headings (openff_sys : Interchange) :
  emits_prefix heading_of (_write_angles openff_sys)
    (if has_handler openff_sys "Angles" then ["[ angles ]\n"] else []).
Proof.
  unfold _write_angles.
  destruct (has_handler openff_sys "Angles"); cbn [negb]; headings.
Qed.

Lemma dihedrals_headings (openff_sys : Interchange) :
  emits_prefix heading_of (_write_dihedrals openff_sys)
    (if has_handler openff_sys "ProperTorsions"
        || has_handler openff_sys "RBTorsions"
        || has_handler openff_sys "ImproperTorsions"
     then ["[ dihedrals ]\n"] else []).
Proof.
  unfold _write_dihedrals, for_each, _write_proper_rows, _write_rb_rows,
    _write_improper_rows, for_each.
  destruct (has_handler openff_sys "ProperTorsions");
    destruct (has_handler openff_sys "RBTorsions");
    destruct (has_handler openff_sys "ImproperTorsions");
    cbn [negb andb orb]; headings.
Qed.

(** *** What a writer returns *)

Section Returns.
Context {C : Type}.

Lemma returns_bind {A B : Type} (Q : A -> Prop) (P : B -> Prop)
    (m : writer C A) (k : A -> writer C B) :
  returns Q m -> (forall a, Q a -> returns P (k a)) -> returns P (bind m k).
Proof.
  intros Hm Hk b. rewrite snd_bind. destruct (snd m) as [a |] eqn:Ha.
  - apply Hk. now apply Hm.
  - discriminate.
Qed.

Lemma returns_any {A : Type} (m : writer C A) : returns (fun _ => True) m.
Proof. intros a _. exact I. Qed.

Lemma returns_ret {A : Type} (P : A -> Prop) (a : A) :
  P a -> returns P (ret a : writer C A).
Proof. intros H b Hb. injection Hb as <-. exact H. Qed.

Lemma returns_raise {A : Type} (P : A -> Prop) (e : exn) :
  returns P (raise e : writer C A).
Proof. intros b Hb. discriminate. Qed.

End Returns.

Ltac returns_true :=
  repeat first
    [ apply returns_ret; reflexivity
    | apply returns_raise
    | eapply returns_bind; [apply returns_any | intros ? _]
    | match goal with
      | |- returns _ (if ?b then _ else _) => destruct b
      | |- returns _ (match ?x with _ => _ end) => destruct x
      end ].

(** *** The loop over the virtual sites *)

Lemma bond_charge_branch (virtual_site_handler : Handler)
    (virtual_site_map : list (key * nat)) (k : key) (started2 : bool) :
  emits_prefix heading_of
    (_write_bond_charge virtual_site_handler virtual_site_map k started2)
    (if started2 then []
     else ["\n[ virtual_sites2 ]\n; site  ai  aj  funct   a\n"])
  /\ returns (fun b => b = true)
       (_write_bond_charge virtual_site_handler virtual_site_map k started2).
Proof.
  unfold _write_bond_charge. split.
  - destruct started2; cbn [negb]; headings;
      try (destruct (negb (length (atom_indices k) =? 2)); headings).
  - returns_true.
Qed.

Lemma monovalent_branch (virtual_site_handler : Handler)
    (virtual_site_map : list (key * nat)) (k : key) (started3 : bool) :
  emits_prefix heading_of
    (_write_monovalent_lone_pair virtual_site_handler virtual_site_map k
       started3)
    (if started3 then []
     else ["\n[ virtual_sites3 ]\n; site  ai  aj  ak funct   a   b\n"])
  /\ returns (fun b => b = true)
       (_write_monovalent_lone_pair virtual_site_handler virtual_site_map k
          started3).
Proof.
  unfold _write_monovalent_lone_pair. split.
  - destruct started3; cbn [negb]; headings;
      try (destruct (negb (length (sorted (atom_indices k)) =? 3)); headings);
      repeat (match goal with
              | |- context [Req_dec_T ?x ?y] => destruct (Req_dec_T x y)
              end; headings).
  - returns_true.
Qed.

Lemma divalent_branch (openff_sys : Interchange) (virtual_site_handler : Handler)
    (virtual_site_map : list (key * nat)) (k : key) (started3 : bool) :
  emits_prefix heading_of
    (_write_divalent_lone_pair openff_sys virtual_site_handler virtual_site_map
       k started3)
    (if started3 then []
     else ["\n[ virtual_sites3 ]\n; site  ai  aj  ak funct   a   b\n"])
  /\ returns (fun b => b = true)
       (_write_divalent_lone_pair openff_sys virtual_site_handler
          virtual_site_map k started3).
Proof.
  unfold _write_divalent_lone_pair. split.
  - destruct started3; cbn [negb]; headings;
      try (destruct (negb (length (sorted (atom_indices k)) =? 3)); headings);
      repeat (match goal with
              | |- context [Req_dec_T ?x ?y] => destruct (Req_dec_T x y)
              end; headings).
  - returns_true.
Qed.

Lemma loop_body_bond_charge (openff_sys : Interchange) (h : Handler)
    (virtual_site_map : list (key * nat)) (k : key) (s2 s3 : bool) :
  is_bond_charge k = true ->
  emits_prefix heading_of
    (_virtual_site_loop_body openff_sys h virtual_site_map (s2, s3) k)
    (if s2 then []
     else ["\n[ virtual_sites2 ]\n; site  ai  aj  funct   a\n"])
  /\ returns (fun s => s = (true, s3))
       (_virtual_site_loop_body openff_sys h virtual_site_map (s2, s3) k).
Proof.
  unfold is_bond_charge. intros Hk. apply String.eqb_eq in Hk.
  unfold _virtual_site_loop_body. rewrite Hk.
  cbn [String.eqb Ascii.eqb Bool.eqb].
  destruct (bond_charge_branch h virtual_site_map k s2) as [Hemit Hret].
  split.
  - rewrite <- (app_nil_r (if s2 then [] else _)).
    apply emits_prefix_bind; [exact Hemit |]. intros ?.
    rewrite !bind_ret. apply emits_prefix_silent.
  - eapply returns_bind; [exact Hret |]. intros b ->.
    rewrite !bind_ret. now apply returns_ret.
Qed.

Lemma loop_body_lone_pair (openff_sys : Interchange) (h : Handler)
    (virtual_site_map : list (key * nat)) (k : key) (s2 s3 : bool) :
  is_lone_pair k = true ->
  emits_prefix heading_of
    (_virtual_site_loop_body openff_sys h virtual_site_map (s2, s3) k)
    (if s3 then []
     else ["\n[ virtual_sites3 ]\n; site  ai  aj  ak funct   a   b\n"])
  /\ returns (fun s => s = (s2, true))
       (_virtual_site_loop_body openff_sys h virtual_site_map (s2, s3) k).
Proof.
  unfold is_lone_pair. intros Hk. apply orb_prop in Hk.
  unfold _virtual_site_loop_body.
  destruct Hk as [Hk | Hk]; apply String.eqb_eq in Hk; rewrite Hk;
    cbn [String.eqb Ascii.eqb Bool.eqb]; rewrite bind_ret.
  - destruct (monovalent_branch h virtual_site_map k s3) as [Hemit Hret].
    split.
    + rewrite <- (app_nil_r (if s3 then [] else _)).
      apply emits_prefix_bind; [exact Hemit |]. intros ?.
      rewrite !bind_ret. apply emits_prefix_silent.
    + eapply returns_bind; [exact Hret |]. intros b ->.
      rewrite !bind_ret. now apply returns_ret.
  - rewrite bind_ret.
    destruct (divalent_branch openff_sys h virtual_site_map k s3)
      as [Hemit Hret].
    split.
    + rewrite <- (app_nil_r (if s3 then [] else _)).
      apply emits_prefix_bind; [exact Hemit |]. intros ?.
      apply emits_prefix_silent.
    + eapply returns_bind; [exact Hret |]. intros b ->.
      now apply returns_ret.
Qed.

(** The passes over the BondCharge sites write the heading of
    [ virtual_sites2 ] once, at the first of them. *)
Lemma loop_over_bond_charges (openff_sys : Interchange) (h : Handler)
    (virtual_site_map : list (key * nat)) (keys : list key) :
  Forall (fun k => is_bond_charge k = true) keys ->
  forall s2 s3,
    emits_prefix heading_of
      (for_state keys (s2, s3)
         (_virtual_site_loop_body openff_sys h virtual_site_map))
      (if s2 || match keys with [] => true | _ => false end then []
       else ["\n[ virtual_sites2 ]\n; site  ai  aj  funct   a\n"])
    /\ returns
         (fun s => s = (s2 || match keys with [] => false | _ => true end, s3))
         (for_state keys (s2, s3)
            (_virtual_site_loop_body openff_sys h virtual_site_map)).
Proof.
  induction 1 as [| k keys Hk Hkeys IH]; intros s2 s3.
  - cbn [for_state]. rewrite !orb_true_r, orb_false_r. split.
    + apply emits_prefix_silent.
    + now apply returns_ret.
  - cbn [for_state]. rewrite orb_false_r, orb_true_r.
    destruct (loop_body_bond_charge openff_sys h virtual_site_map k s2 s3 Hk)
      as [Hemit Hret].
    split.
    + rewrite <- (app_nil_r (if s2 then [] else _)).
      apply emits_prefix_bind_ok; [exact Hemit |].
      intros s Hs. rewrite (Hret s Hs).
      destruct (IH true s3) as [Hrest _]. exact Hrest.
    + eapply returns_bind; [exact Hret |]. intros s ->.
      destruct (IH true s3) as [_ Hrest]. intros s Hs.
      now rewrite (Hrest s Hs).
Qed.

(** The passes over the lone pairs write the heading of [ virtual_sites3 ]
    once, at the first of them. *)
Lemma loop_over_lone_pairs (openff_sys : Interchange) (h : Handler)
    (virtual_site_map : list (key * nat)) (keys : list key) :
  Forall (fun k => is_lone_pair k = true) keys ->
  forall s2 s3,
    emits_prefix heading_of
      (for_state keys (s2, s3)
         (_virtual_site_loop_body openff_sys h virtual_site_map))
      (if s3 || match keys with [] => true | _ => false end then []
       else ["\n[ virtual_sites3 ]\n; site  ai  aj  ak funct   a   b\n"]).
Proof.
  induction 1 as [| k keys Hk Hkeys IH]; intros s2 s3.
  - cbn [for_state]. rewrite !orb_true_r. apply emits_prefix_silent.
  - cbn [for_state]. rewrite orb_false_r.
    destruct (loop_body_lone_pair openff_sys h virtual_site_map k s2 s3 Hk)
      as [Hemit Hret].
    rewrite <- (app_nil_r (if s3 then [] else _)).
    apply emits_prefix_bind_ok; [exact Hemit |].
    intros s Hs. rewrite (Hret s Hs). exact (IH s2 true).
Qed.

(** *** The order of the virtual sites *)

Lemma all_types_supported_true (keys : list key) :
  all_types_supported keys = Ok true ->
  Forall (fun k => is_VirtualSiteKey k = true
                   /\ (is_bond_charge k = true \/ is_lone_pair k = true))
    keys.
Proof.
  induction keys as [| k keys IH]; intros H; [constructor |].
  destruct k as [l | l t name]; [discriminate |].
  cbn [all_types_supported key_type rbind] in H.
  destruct (existsb (String.eqb t) supported_types) eqn:Hex; [| discriminate].
  constructor; [| now apply IH].
  split; [reflexivity |].
  unfold is_bond_charge, is_lone_pair. cbn [type_of].
  cbn [existsb supported_types] in Hex. rewrite orb_false_r in Hex.
  destruct (t =? "BondCharge")%string; [now left |]. right. exact Hex.
Qed.

Lemma filter_all {A : Type} (f : A -> bool) (l : list A) :
  Forall (fun x => f x = true) l -> filter f l = l.
Proof.
  induction 1 as [| x l Hx Hl IH]; simpl; [reflexivity |].
  now rewrite Hx, IH.
Qed.

Lemma insert_by_type_Forall (P : key -> Prop) (x : key) (l : list key) :
  P x -> Forall P l -> Forall P (insert_by_type x l).
Proof.
  intros Hx. induction 1 as [| y l Hy Hl IH]; simpl.
  - now repeat constructor.
  - destruct (String.leb (type_of x) (type_of y)); repeat constructor; auto.
Qed.

Lemma insert_by_type_not_nil (x : key) (l : list key) :
  insert_by_type x l <> [].
Proof.
  destruct l as [| y l]; simpl; [discriminate |].
  destruct (String.leb (type_of x) (type_of y)); discriminate.
Qed.

Lemma insert_lone_pair_after (x : key) (bc rest : list key) :
  is_lone_pair x = true ->
  Forall (fun k => is_bond_charge k = true) bc ->
  insert_by_type x (bc ++ rest) = bc ++ insert_by_type x rest.
Proof.
  intros Hx. induction 1 as [| y bc Hy Hbc IH]; simpl; [reflexivity |].
  unfold is_bond_charge in Hy. apply String.eqb_eq in Hy. rewrite Hy.
  unfold is_lone_pair in Hx. apply orb_prop in Hx.
  destruct Hx as [Hx | Hx]; apply String.eqb_eq in Hx; rewrite Hx;
    cbn; now rewrite <- IH.
Qed.

Lemma insert_bond_charge_first (x : key) (l : list key) :
  is_bond_charge x = true ->
  Forall (fun k => is_bond_charge k = true \/ is_lone_pair k = true) l ->
  insert_by_type x l = x :: l.
Proof.
  intros Hx Hl. unfold is_bond_charge in Hx. apply String.eqb_eq in Hx.
  destruct Hl as [| y l Hy Hl]; simpl; [reflexivity |]. rewrite Hx.
  unfold is_bond_charge, is_lone_pair in Hy.
  destruct Hy as [Hy | Hy]; [| apply orb_prop in Hy; destruct Hy as [Hy | Hy]];
    apply String.eqb_eq in Hy; rewrite Hy; reflexivity.
Qed.

(** Sorted by kind, the BondCharge sites come before the lone pairs. *)
Lemma sorted_by_type_split (keys : list key) :
  Forall (fun k => is_bond_charge k = true \/ is_lone_pair k = true) keys ->
  exists bc rest,
    sorted_by_type keys = bc ++ rest
    /\ Forall (fun k => is_bond_charge k = true) bc
    /\ Forall (fun k => is_lone_pair k = true) rest
    /\ existsb is_bond_charge keys
       = match bc with [] => false | _ => true end
    /\ existsb is_lone_pair keys
       = match rest with [] => false | _ => true end.
Proof.
  induction 1 as [| x keys Hx Hkeys IH].
  - exists [], []. repeat split; constructor.
  - destruct IH as (bc & rest & Hsorted & Hbc & Hrest & Ebc & Erest).
    cbn [sorted_by_type existsb]. rewrite Hsorted, Ebc, Erest.
    assert (Hexclusive : is_bond_charge x = true -> is_lone_pair x = false).
    { unfold is_bond_charge, is_lone_pair. intros H.
      apply String.eqb_eq in H. now rewrite H. }
    destruct (is_bond_charge x) eqn:Hb.
    + exists (x :: bc), rest. rewrite (Hexclusive eq_refl).
      rewrite insert_bond_charge_first; trivial.
      * repeat split; trivial. now constructor.
      * apply Forall_app. split;
          [eapply Forall_impl; [| exact Hbc] | eapply Forall_impl; [| exact Hrest]];
          simpl; auto.
    + destruct Hx as [Hx | Hx]; [discriminate |].
      exists bc, (insert_by_type x rest). rewrite Hx.
      rewrite insert_lone_pair_after by trivial.
      repeat split; trivial.
      * now apply insert_by_type_Forall.
      * cbn [orb]. pose proof (insert_by_type_not_nil x rest).
        now destruct (insert_by_type x rest).
Qed.

Lemma virtual_sites_headings (openff_sys : Interchange)
    (virtual_site_map : list (key * nat)) :
  emits_prefix heading_of (_write_virtual_sites openff_sys virtual_site_map)
    (virtual_site_headings openff_sys).
Proof.
  unfold _write_virtual_sites, virtual_site_headings, has_handler, dict_mem,
    interchange_item.
  destruct (dict_get String.eqb (handlers openff_sys) "VirtualSites")
    as [h |]; cbn [negb]; [| apply emits_prefix_silent].
  rewrite bind_lift_ok.
  destruct (all_types_supported (dict_keys (slot_map h))) as [[|] | e] eqn:Hall;
    rewrite ?bind_lift_ok, ?bind_lift_raise; cbn [negb];
    try apply emits_prefix_raise.
  apply all_types_supported_true in Hall.
  rewrite filter_all by (eapply Forall_impl; [| exact Hall]; simpl; tauto).
  destruct (sorted_by_type_split (dict_keys (slot_map h)))
    as (bc & rest & Hsorted & Hbc & Hrest & Ebc & Erest).
  { eapply Forall_impl; [| exact Hall]. simpl. tauto. }
  rewrite Hsorted, Ebc, Erest, app_assoc.
  apply emits_prefix_bind.
  - rewrite for_state_app.
    destruct (loop_over_bond_charges openff_sys h virtual_site_map bc Hbc
                false false) as [Hemit Hret].
    replace (if match bc with [] => false | _ => true end
             then ["\n[ virtual_sites2 ]\n; site  ai  aj  funct   a\n"]
             else [])
      with (if false || match bc with [] => true | _ => false end
            then []
            else ["\n[ virtual_sites2 ]\n; site  ai  aj  funct   a\n"])
      by (now destruct bc).
    apply emits_prefix_bind_ok; [exact Hemit |].
    intros s Hs. rewrite (Hret s Hs).
    replace (if match rest with [] => false | _ => true end
             then ["\n[ virtual_sites3 ]\n; site  ai  aj  ak funct   a   b\n"]
             else [])
      with (if false || match rest with [] => true | _ => false end
            then []
            else ["\n[ virtual_sites3 ]\n; site  ai  aj  ak funct   a   b\n"])
      by (now destruct rest).
    now apply loop_over_lone_pairs.
  - intros _. unfold for_each. headings.
Qed.

(** The sections of the topology file come in one order and each at most
    once: the headings that [to_top] writes are, in order, those of
    [ defaults ], [ atomtypes ], [ moleculetype ], [ atoms ] and [ pairs ],
    then [ bonds ], [ angles ] and [ dihedrals ] for the handlers that the
    model has, then for a model with virtual sites [ virtual_sites2 ] if it
    has a BondCharge site, [ virtual_sites3 ] if it has a lone pair, and
    [ exclusions ], and at the end [ system ] and [ molecules ].  When the
    export raises, the headings written are a first part of that list. *)
Theorem sections_come_in_order (openff_sys : Interchange) :
  emits_prefix heading_of (to_top_body openff_sys) (top_headings openff_sys).
Proof.
  unfold to_top_body, top_headings, _write_valence.
  apply emits_prefix_write_other; [reflexivity |].
  apply emits_prefix_bind; [apply top_defaults_headings | intros _].
  cbv zeta.
  apply emits_prefix_bind; [apply atomtypes_headings | intros _].
  apply emits_prefix_bind; [apply moleculetype_headings | intros _].
  apply emits_prefix_bind; [apply atoms_headings | intros _].
  apply emits_prefix_bind.
  - apply emits_prefix_bind; [apply bonds_headings | intros _].
    apply emits_prefix_bind; [apply angles_headings | intros _].
    apply dihedrals_headings.
  - intros _.
    apply emits_prefix_bind; [apply virtual_sites_headings | intros _].
    apply system_headings.
Qed.

(** ** Atom types declared and used *)

Lemma build_typemap_from_keys (l : list Atom) :
  forall (index : nat) (elements : list (string * nat))
         (typemap : list (nat * string)),
    Forall (fun e => fst e < index) typemap ->
    map fst (_build_typemap_from l index elements typemap)
    = map fst typemap ++ seq index (length l).
Proof.
  induction l as [| atom l IH]; intros index elements typemap Hkeys.
  - simpl. now rewrite app_nil_r.
  - cbn [_build_typemap_from length seq].
    rewrite dict_set_fresh_nat by exact Hkeys. rewrite IH.
    + rewrite map_app, <- app_assoc. reflexivity.
    + apply Forall_app. split.
      * eapply Forall_impl; [| exact Hkeys]. simpl. intros; lia.
      * repeat constructor.
Qed.

Lemma map_snd_lookup {V : Type} (d : list (nat * V)) (default : V) :
  forall start n,
    map fst d = seq start n ->
    map snd d
    = map (fun i => match dict_get Nat.eqb d i with
                    | Some v => v
                    | None => default
                    end)
        (seq start n).
Proof.
  induction d as [| [k v] d IH]; intros start n Hkeys.
  - destruct n; [reflexivity | discriminate].
  - destruct n as [| n]; [discriminate |]. cbn [map seq fst] in Hkeys.
    injection Hkeys as -> Hkeys. cbn [map seq snd dict_get].
    rewrite Nat.eqb_refl. f_equal. rewrite (IH _ _ Hkeys).
    apply map_ext_in. intros i Hi. apply in_seq in Hi.
    destruct (Nat.eqb_spec start i); [lia | reflexivity].
Qed.

(** The typemap lists the atoms in their order. *)
Lemma typemap_names_in_order (openff_sys : Interchange) :
  map snd (_build_typemap openff_sys)
  = map (fun '(i, _) => atom_name_of openff_sys i)
      (enumerate (atoms (mdtop openff_sys))).
Proof.
  pose proof (build_typemap_from_keys (atoms (mdtop openff_sys)) 0 [] []
                (Forall_nil _)) as Hkeys.
  fold (_build_typemap openff_sys) in Hkeys. cbn [map app] in Hkeys.
  rewrite (map_snd_lookup _ EmptyString _ _ Hkeys).
  unfold enumerate. clear Hkeys.
  change (fun i => match dict_get Nat.eqb (_build_typemap openff_sys) i with
                   | Some v => v
                   | None => EmptyString
                   end)
    with (atom_name_of openff_sys).
  generalize (atom_name_of openff_sys) as f. intros f. generalize 0.
  induction (atoms (mdtop openff_sys)) as [| a l IH]; intros start;
    [reflexivity |].
  cbn [length seq enumerate_from map]. f_equal. apply IH.
Qed.

Lemma flat_map_const {A B : Type} (x : B) (l : list A) :
  flat_map (fun _ => [x]) l = repeat x (length l).
Proof. induction l; simpl; congruence. Qed.

Lemma flat_map_snd {A B : Type} (l : list (A * B)) :
  flat_map (fun '(_, b) => [b]) l = map snd l.
Proof. induction l as [| [a b] l IH]; simpl; congruence. Qed.

Lemma emits_prefix_lift_ok {X A B : Type} (proj : chunk -> list X)
    (r : result A) (k : A -> io B) (l : list X) :
  (forall a, r = Ok a -> emits_prefix proj (k a) l) ->
  emits_prefix proj (bind (lift r) k) l.
Proof.
  intros H. destruct r as [a | e].
  - rewrite bind_lift_ok. now apply H.
  - rewrite bind_lift_raise. apply emits_prefix_raise.
Qed.

(** The [ atoms ] section uses one type for every particle, in the order of
    the particles: for an atom its name in the typemap, for a virtual site
    [VS].  With a [vdW] handler the [ atomtypes ] section declares the same
    list, type by type, so that [VS] is declared once for every virtual
    site; with [Buckingham-6] only it declares the types of the atoms and
    never [VS].  When a writer raises, its rows are a first part of the
    list. *)
Theorem types_declared_and_used (openff_sys : Interchange) :
  let typemap := _build_typemap openff_sys in
  let virtual_site_map := _build_virtual_site_map openff_sys in
  emits_prefix used_type (_write_atoms openff_sys typemap virtual_site_map)
    (particle_types openff_sys)
  /\ emits_prefix declared_type
       (_write_atomtypes openff_sys typemap virtual_site_map)
       (if has_handler openff_sys "vdW" then particle_types openff_sys
        else map snd typemap).
Proof.
  intros typemap virtual_site_map. unfold particle_types.
  fold typemap virtual_site_map. split.
  - unfold _write_atoms. headings.
    rewrite <- (app_nil_r (repeat _ _)).
    apply emits_prefix_bind.
    + unfold typemap. rewrite typemap_names_in_order.
      rewrite <- flat_map_singleton.
      apply emits_prefix_for_state with
        (out_of := fun x : nat * Atom =>
                     [(fun '(i, _) => atom_name_of openff_sys i) x]).
      intros s [atom_idx atom]. apply emits_prefix_lift_ok.
      intros atom_type Htype.
      assert (atom_type = atom_name_of openff_sys atom_idx) as ->.
      { unfold atom_name_of, dict_item in *.
        destruct (dict_get Nat.eqb (_build_typemap openff_sys) atom_idx);
          congruence. }
      headings.
    + intros charge. apply emits_prefix_bind.
      * rewrite <- flat_map_const.
        apply emits_prefix_for_state with
          (out_of := fun _ : key * nat => ["VS"]).
        intros s [k index]. headings.
      * intros ?. unfold for_each, _write_pair. headings.
  - unfold _write_atomtypes, _write_atomtypes_lj, _write_atomtypes_buck.
    destruct (has_handler openff_sys "vdW");
      destruct (has_handler openff_sys "Buckingham-6");
      try apply emits_prefix_raise.
    + headings. apply emits_prefix_bind.
      * rewrite <- flat_map_snd. unfold for_each.
        apply emits_prefix_for_state with
          (out_of := fun x : nat * string => (fun '(_, b) => [b]) x).
        intros s [atom_idx atom_type]. headings.
      * intros _.
        replace (length virtual_site_map)
          with (length (dict_keys virtual_site_map))
          by (unfold dict_keys; apply length_map).
        rewrite <- flat_map_const. unfold for_each.
        apply emits_prefix_for_state with (out_of := fun _ : key => ["VS"]).
        intros s k. headings.
    + headings. rewrite <- flat_map_snd. unfold for_each.
      apply emits_prefix_for_state with
        (out_of := fun x : nat * string => (fun '(_, b) => [b]) x).
      intros s [atom_idx atom_type]. headings.
Qed.

(** ** A file without decimals *)

Lemma digits_plain_chars (k : N) : forallb plain_char (digits k) = true.
Proof.
  pose proof (digits_are_digits k) as H.
  induction (digits k) as [| c l IH]; simpl in *; [reflexivity |].
  apply andb_prop in H. destruct H as [Hc Hl].
  destruct (is_digit_plain c Hc) as (_ & Hperiod & Hbreak & _).
  apply Bool.orb_false_elim in Hbreak. destruct Hbreak as [Hnewline _].
  unfold plain_char at 1. now rewrite Hperiod, Hnewline, IH.
Qed.

(** A line of plain characters is read without a period, whether a
    carriage return cuts it short or not. *)
Lemma readline_plain (body rest : chars) :
  forallb plain_char body = true ->
  forall start,
    periods_from start (fst (readline (body ++ newline :: rest))) = [].
Proof.
  induction body as [| c body IH]; simpl; intros H start.
  - reflexivity.
  - apply andb_prop in H. destruct H as [Hc Hbody].
    apply andb_prop in Hc. destruct Hc as [Hperiod Hnewline].
    destruct (Ascii.eqb c newline); [discriminate |].
    destruct (Ascii.eqb c carriage_return); [reflexivity |].
    specialize (IH Hbody (S start)).
    destruct (readline (body ++ newline :: rest)) as [line rest'].
    cbn [fst] in *. unfold periods_from in *. cbn [enumerate_from filter].
    destruct (Ascii.eqb c period); [discriminate |]. exact IH.
Qed.

Lemma repeat_space_plain_chars (n : nat) :
  forallb plain_char (repeat space n) = true.
Proof. induction n; simpl; auto. Qed.

Lemma format_d_plain (width n : nat) :
  forallb plain_char (format_d width n) = true.
Proof.
  unfold format_d, pad_left.
  now rewrite forallb_app, repeat_space_plain_chars, digits_plain_chars.
Qed.

(** Without decimals a number is written without a period. *)
Lemma format_f_0_plain (width : nat) (v : Q) :
  forallb plain_char (format_f width 0 v) = true.
Proof.
  unfold format_f, pad_left. cbn [Nat.eqb].
  rewrite !forallb_app, repeat_space_plain_chars, digits_plain_chars.
  now destruct (_ <? 0)%Z.
Qed.

Lemma render_record_plain (residue_idx : nat) (residue_name atom_name : string)
    (atom_index : nat) (x y z : Q) :
  plain_name residue_name = true ->
  plain_name atom_name = true ->
  exists body,
    render (GroRecord 0 residue_idx residue_name atom_name atom_index x y z)
    = body ++ [newline]
    /\ forallb plain_char body = true.
Proof.
  intros Hr Ha. unfold plain_name in Hr, Ha.
  exists (format_d 5 residue_idx ++ format_s_left 5 residue_name
          ++ format_s 5 atom_name ++ format_d 5 atom_index
          ++ format_f 5 0 x ++ format_f 5 0 y ++ format_f 5 0 z).
  split.
  - cbn [render Nat.add]. now rewrite <- !app_assoc.
  - rewrite !forallb_app, !format_d_plain, !format_f_0_plain.
    unfold format_s_left, format_s, pad_left, pad_right.
    now rewrite !forallb_app, !repeat_space_plain_chars, Hr, Ha.
Qed.

(** A file that [to_gro] writes with [decimal = 0] has no period in its
    coordinate columns.  When the model has a particle and the names in
    its first record hold no period and no line break, [to_gro] completes
    and [from_gro] raises IndexError on the file that it wrote: the list of
    the periods of the third line is empty. *)
Theorem precision_zero_is_not_read_back (openff_sys : Interchange) :
  NoDup (virtual_site_keys openff_sys) ->
  length (positions openff_sys) = n_atoms (mdtop openff_sys) ->
  first_record_plain
    (atom_records openff_sys 0 ++ virtual_site_records openff_sys 0) = true ->
  snd (to_gro openff_sys 0) = Ok tt
  /\ from_gro (fst (to_gro openff_sys 0)) = Raise IndexError.
Proof.
  intros Hnd Hlen Hplain.
  rewrite to_gro_text by assumption. cbn [fst snd]. split; [reflexivity |].
  pose proof (records_of_model openff_sys 0) as Hof.
  destruct (atom_records openff_sys 0 ++ virtual_site_records openff_sys 0)
    as [| c records']; [discriminate Hplain |].
  destruct c as [s | n residue_idx residue_name atom_name atom_index x y z | v];
    try discriminate Hplain.
  assert (Hn : n = 0).
  { cbn [forallb record_of] in Hof. apply andb_prop in Hof.
    destruct Hof as [Hof _]. now apply Nat.eqb_eq in Hof. }
  subst n. cbn [first_record_plain] in Hplain.
  apply andb_prop in Hplain. destruct Hplain as [Hr Ha].
  destruct (render_record_plain residue_idx residue_name atom_name atom_index
              x y z Hr Ha) as (body & Hbody & Hchars).
  change (gro_text (?c :: records')) with (render c ++ gro_text records').
  rewrite Hbody, <- !app_assoc. cbn [app].
  unfold from_gro, _infer_coord_precision.
  rewrite readline_app by reflexivity.
  rewrite readline_app.
  2:{ rewrite str_nat_chars.
      exact (proj2 (proj2 (digits_plain _ (digits_are_digits _)))). }
  pose proof (readline_plain body
                (gro_text records'
                 ++ concat (map (format_f 11 7) (box_written (box_of openff_sys)))
                 ++ [newline])
                Hchars 0) as Hline.
  destruct (readline _) as [atom_line rest]. cbn [fst] in Hline.
  unfold enumerate. fold (periods_from 0 atom_line). rewrite Hline.
  reflexivity.
Qed.

Lemma precision_zero_is_not_read_back_witness :
  snd (to_gro (water_model 0 0) 0) = Ok tt
  /\ from_gro (fst (to_gro (water_model 0 0) 0)) = Raise IndexError.
Proof.
  apply (precision_zero_is_not_read_back (water_model 0 0)).
  - repeat constructor; simpl; intuition discriminate.
  - reflexivity.
  - reflexivity.
Defined.
